(* ===== verification/_CoqProject ===== *)
-Q . S2P
Prelude.v
Strconv.v
Url.v
KVStore.v
Types.v
Serialization.v
Concrete.v
WireSpec.v
Store.v
StorePrune.v
StoreSpec.v
Conv.v
Executor.v
Gossip.v
Layers.v
Manager.v
ManagerLoops.v
ManagerInv.v
ConcreteNode.v
ExecSpec.v
ManagerSpec.v
ChainInv.v
ForgedBlock.v
ApplyRace.v
Authentic.v
TestData.v
ManagerTypes.v
LoopSpec.v
FullNode.v
TxCache.v
CList.v
CListWait.v
Mempool.v
MempoolInv.v
MempoolSpec.v
PeerIDs.v
MempoolRuns.v
MempoolRace.v
Settlement.v
SettlementSpec.v
Dymension.v
HubEvents.v
DA.v
DASpec.v
Avail.v
GrpcDA.v
DARuns.v
Indexer.v
IndexerSpec.v
TxIndex.v
TxIndexSpec.v
BlockIndex.v
BlockIndexSpec.v
IndexerService.v
IndexRuns.v
Node.v
HealthSpec.v
RPC.v
RPCSpec.v
RPCRuns.v
JSONRPC.v
RPCServer.v
RPCNode.v
RPCServerRuns.v
P2P.v
P2PSpec.v
P2PRuns.v
LayerStart.v
NodeStart.v
LoadTime.v
CelestiaMock.v
Commands.v
NodeCommands.v
