(* ===== verification/Prelude.v ===== *)
(** * A verification of dymint, the sequencer node of Dymension rollapps

    dymint runs an ABCI application as a rollup: it collects transactions in a mempool,
    makes them into blocks, executes and stores the blocks, gossips them, and submits them
    in batches to a data availability layer and to a settlement layer; full nodes follow
    by reading the batches back.  This library models the parts of the Go program that
    carry this logic as executable functions, and proves what makes them correct.

    ** The parts and where they are

    - Prelude.v (this file): Go's vocabulary.  Bytes; machine integers as [Z] with their
      conversions [u64], [i64], [u32], [u16] written out; errors; a call returns a value, an
      error or panics ([result]); stateful code is the monad [M S A] = state to outcome and
      state, where an error or a panic keeps the state reached; [for_each] loops; [try] for
      code that inspects an error, [zoom] for code of a component run on its part of the
      state.  Reasoning: [preserves] (an invariant on every outcome), [triple], [run_spec],
      the inversion tactic [go_inv] and the hint database [go_inv].
    - Strconv.v and Url.v: what is used of strconv, encoding/hex, base64, binary and net/url,
      with the round trips.
    - KVStore.v: store/kv.go, prefix.go, badger.go.  Class [KVStore] is the Go interface
      with its batches and iterators, [KVLaws] what it promises; [MemKV], [PrefixKV] and
      [BadgerKV] (over a parameter [Badger] with transactions) are instances.
    - Types.v: types/*.go but serialization; class [Tendermint] lists what is called of
      Tendermint.  Serialization.v: types/serialization.go over the protobuf codecs of class
      [Wire].  Concrete.v: codecs, hashes and validator sets on which everything runs.
      WireSpec.v: the theorems about them.
    - Store.v: store/store.go and pruning.go, one definition per method of [DefaultStore].
      StorePrune.v: the abstract chain and the proof of pruning.  StoreSpec.v: theorems.
    - Conv.v: conv/abci/block.go.  Executor.v: state/executor.go over the classes [App],
      [EventBus] and [MempoolI].  Gossip.v: p2p/events.go, the block validator and
      [wrapValidator].  Layers.v: the interfaces of da/da.go and settlement/settlement.go.
    - Manager.v: block/block.go, pruning.go and the production of block/produce.go.
      ManagerLoops.v: [NewManager], and one definition per iteration of the loops of
      manager.go, produce.go, submit.go, retriever.go and synctarget.go.  ManagerInv.v: runs
      of [applyBlock] taken apart.  ConcreteNode.v: a whole node to compute with.
      ExecSpec.v, ManagerSpec.v, LoopSpec.v: theorems.  ChainInv.v: all handlers of the
      manager as steps, and what they keep.  ManagerTypes.v: the ranges of its integers.
      ForgedBlock.v: a block that nobody signed.  ApplyRace.v: calls of [applyBlock] that
      interleave.  Authentic.v: what the signature of the proposer protects.  FullNode.v: a
      full node that applies the batches of the sequencer.
    - TestData.v: testutil/types.go, block.go and mocks.go and mempool/mock: the generated
      chains and the mocks of the tests, over the classes [Rand] and [Testify].
    - TxCache.v: mempool/cache.go.  CList.v: mempool/clist/clist.go, pointer by pointer.
      CListWait.v: its blocking calls, interleaved with the operations of the list.
      Mempool.v: mempool/v1/mempool.go and tx.go, the hooks of mempool/mempool.go.
      MempoolInv.v: every operation run on the list that the pointers represent.
      MempoolSpec.v: theorems, and the mempool as the executor's mempool ([NodeMempool]).
      PeerIDs.v: node/mempool/mempool.go and the transaction validator of p2p/validator.go.
      MempoolRuns.v: concrete runs.  MempoolRace.v: its calls cut at the points where the lock
      is released, and their interleavings.
    - Settlement.v: settlement/base.go over the class [HubClient], settlement/mock/mock.go,
      the paths of settlement/settlement.go.  SettlementSpec.v: theorems.  Dymension.v:
      settlement/dymension/dymension.go with its theorems.  HubEvents.v: its construction, its
      events, and their way to the block manager.
    - DA.v: the clients of the data availability layer as instances of [DALayer],
      da/mock/mock.go and da/celestia/celestia.go with its gas estimate.  DASpec.v: theorems.
      Avail.v: da/avail/avail.go, GrpcDA.v: da/grpc and its mock server, with their theorems.
      DARuns.v: concrete runs.  LayerStart.v: the configuration and construction of the
      clients.  CelestiaMock.v: da/celestia/mock, the server that stands in for Celestia.
    - Indexer.v: state/indexer (query ranges) and the parts both indexers share.  TxIndex.v:
      state/txindex/kv.  BlockIndex.v: state/indexer/block/kv.  IndexerService.v: the service
      of state/txindex/indexer_service.go over the events that the executor publishes.
      IndexerSpec.v, TxIndexSpec.v, BlockIndexSpec.v: theorems.  IndexRuns.v: concrete runs.
    - Node.v: the health of the base layers and the genesis chunks of node/node.go.
      HealthSpec.v: theorems.  NodeStart.v: the configuration, the registries of the layers,
      [NewNode], and the services that run after [OnStart] and [OnStop].
    - RPC.v: the queries, searches and broadcasts of rpc/client/client.go.  RPCSpec.v:
      theorems.  RPCRuns.v: concrete runs.  JSONRPC.v: rpc/json, over the class [RpcClient].
      RPCServer.v: rpc/server.go, rpc/middleware and rpc/sharedtypes, with theorems.
      RPCNode.v: the rest of the client, the peers of p2p/client.go, and the client as the
      instance [NodeClient].  RPCServerRuns.v: the whole server on a concrete node.
    - P2P.v: conv/addr.go, config.go and crypto.go, p2p/client.go and the gossiper of
      p2p/gossip.go, over the classes [Multiaddr] and [Libp2p].  P2PSpec.v: theorems.
      P2PRuns.v: a concrete network.
    - Commands.v: config/flags.go, config/toml.go and the reading of the configuration, with
      viper as its order of precedence.  NodeCommands.v: the commands of cmd/dymint/commands,
      over the node of NodeStart.v and the server of RPCServer.v.
    - LoadTime.v: test/loadtime, the payloads of the load test and its report.

    A Go struct is a record whose fields carry the Go names behind a prefix, a method is a
    definition with the method's name where Rocq allows it, an interface is a class, and an
    implementation is an instance of it, with its laws proved where a client relies on
    them.  A nil pointer is [None]; dereferencing it, indexing out of range, and firing a
    channel twice panic.

    ** What the theorems show

    - Storage (StoreSpec): batches over Badger are all or nothing, prefixed stores do not
      see each other, saving a block extends the abstract chain and a failed save changes
      nothing, pruning forgets exactly the heights below the one asked for, and the state
      is read back after a restart.
    - Wire forms (WireSpec): batches survive encoding; which messages make decoding panic;
      a validated commit carries the proposer's signature.
    - Blocks (ExecSpec, ManagerSpec): a created block passes validation; applying a block
      leaves it stored, executed and committed once, with the state durable; the store's
      height moves by one block at a time on every outcome; the application is touched only
      after validation; and a crash between the application's commit and the store's update
      is repaired on the next start, ending in the state of the run without a crash.
      (ChainInv, ManagerTypes) over every sequence of handlers, whatever peers and layers
      send, committed blocks stay what they are and integers stay in range.  (ForgedBlock,
      ApplyRace) a gossiped block that the proposer did not sign stops the production of
      blocks, and two calls of [applyBlock] that interleave can leave the wrong block at a
      committed height.  (Authentic) whatever peers and layers send, a node commits only
      headers that the proposer signed, so that two nodes agree on the headers of the heights
      both have; but the transactions are not bound to the header, and a block with other
      transactions is executed.  (FullNode) on the way through the data availability layer a
      full node gets the blocks and commits of the sequencer as they are.
    - Loops (LoopSpec): batches to submit are contiguous and within the size limit, a
      retrieved batch advances the store, and the situations found in which a loop stops
      making progress or panics.
    - Mempool (MempoolSpec, CList, TxCache, PeerIDs): whatever is done to it, the mempool
      stays within its limits, its counters and indexes are right and it does not panic;
      eviction and reaping follow the priorities; a committed transaction is not proposed
      again, and a created block is within the byte limit; the linked list and the cache
      implement plain lists; identifiers of peers are unique; and a goroutine that waits for
      the next element is released once there is one (CListWait).  (MempoolRace) the limits,
      counters and indexes hold under every interleaving of concurrent calls, and a
      transaction under way while a block commits it enters the mempool afterwards.
    - Settlement (SettlementSpec, Dymension): a submitted batch is the latest one and
      survives a restart, any batch out of order panics, and what is published about the
      health of the settlement layer.  (HubEvents) what each event of the hub does, and that
      an update of the state reaches the base client and the manager.
    - Data availability (DASpec): a batch submitted to the mock layer is retrieved from its
      height; the number of shares of a blob is exact; and what a blob that is no batch does
      to a node that reads it from Celestia.  (Avail, GrpcDA) what is retrieved from a block
      of Avail, and for which blocks retrieval does not end; the layer behind gRPC answers as
      the layer itself.
    - Indexers (TxIndexSpec, BlockIndexSpec, IndexerService): a search returns exactly what
      the conditions of the query say of the events that were indexed; the service indexes
      what the executor publishes.
    - Health (HealthSpec, RPCServer): the production of blocks and the answers of the RPC
      server follow what the two base layers last reported.
    - RPC (RPCSpec, RPCServer): the pages of a search cut one ordered list; ranges of blocks;
      genesis chunks; a method called by its URI gets the arguments the client encoded; and
      what happens to a transaction that could not be gossiped.
    - P2P (P2PSpec): the seeds of the configuration are the peers the DHT starts from; each
      message reaches the validator of its topic, and which topic has none.
    - Node (NodeStart, Commands, NodeCommands): what a node is made of and what runs, or is
      left running, after each step of its life; the parts of its database do not meet; flag,
      environment, file and default decide about each key of the configuration in this order;
      init keeps the files there are, and a node started after it signs with the key it made;
      a start before init leaves a machine on which init no longer works.
    - Tools (LoadTime, CelestiaMock): payloads are read back from transactions, the report
      does not depend on the order in which workers deliver, and the mock server returns the
      batches it was sent.  (TestData) a generated batch is a valid chain.

    Theorems that are stated of an environment (application, hub, database, codecs) assume
    of it only the laws of the classes above; each has a witness at a concrete environment
    that satisfies them.

    ** Bounds and fuel

    [PruneBlocks] and [createNextDABatch] loop over the heights of an interval, their length
    is the fuel.  Loops over the mempool's list have its length as fuel, and the theorems
    show that it is never used up.  The search for a free peer identifier has the number of
    active ones.  The count of shares has the number of whole shares plus one, enough for
    every blob up to four gigabytes less one share.  [sync_loop], the loop of the hub's
    [PostBatch], those of Celestia's and Avail's [SubmitBatch] and [resubscribe] of the RPC
    client run until an outside party answers; they take the number of iterations, or what
    happens in each, as an argument, and their theorems hold for every number.  A 64-bit
    variable-length integer has ten bytes.  The chunks of the genesis and the parts of a
    query have the length of the text as fuel, which the theorems show to be enough.

    ** What is not modelled

    Handlers of the block manager run to their end one at a time, but for [applyBlock]
    (ApplyRace.v), which takes no lock: ChainInv.v, Authentic.v and LoopSpec.v say what holds
    as long as calls of it do not overlap.  The sections of the mempool under its lock are one
    step each, and what it reads without the lock may see anything (MempoolRace.v); that the
    lock is fair, and that a traversal of a list that keeps growing ends, is not shown.  Other
    components are modelled as called from one goroutine.  Metrics and logging are left out:
    they change no state that the program reads.  So are the parts that are calls of libraries
    only, about which there is nothing to prove here: the inside of libp2p, HTTP and websocket
    transport, the parsers of TOML and of the command line, the main functions, and the helpers
    of the tests that put a node or a server together.  The generated protobuf code is the class [Wire]. *)
From stdpp Require Import base gmap strings vector sorting numbers list.
From Stdlib Require Export Strings.Byte.

(** ** Bytes *)

#[global] Instance byte_eq_dec : EqDecision byte := Byte.byte_eq_dec.

#[global] Instance byte_countable : Countable byte.
Proof.
  refine (inj_countable Byte.to_N Byte.of_N _).
  intros b. apply Byte.of_to_N.
Defined.

Abbreviation bytes := (list byte).

(** The byte holding [z mod 256]: Go's conversion [byte(z)]. *)
Definition byte_of_Z (z : Z) : byte :=
  default x00 (Byte.of_N (Z.to_N (z mod 256))).

Definition Z_of_byte (b : byte) : Z := Z.of_N (Byte.to_N b).

(** ** Machine integers *)

(** Go's [uint64(z)], [int64(z)], [uint32(z)] and [uint16(z)] conversions: every
    value of these types is a [Z] in range, and arithmetic wraps around. *)
Definition u64 (z : Z) : Z := z mod 2 ^ 64.
Definition i64 (z : Z) : Z := (z + 2 ^ 63) mod 2 ^ 64 - 2 ^ 63.
Definition u32 (z : Z) : Z := z mod 2 ^ 32.
Definition u16 (z : Z) : Z := z mod 2 ^ 16.

Definition is_u64 (z : Z) : Prop := (0 <= z < 2 ^ 64)%Z.
Definition is_i64 (z : Z) : Prop := (- 2 ^ 63 <= z < 2 ^ 63)%Z.

(** ** Errors and outcomes *)

(** A Go error: made by [errors.New] or [fmt.Errorf] with a constant text, or
    wrapping another one ([fmt.Errorf("...: %w", err)], [errors.Wrap]), or joining
    two ([multierr.Append]). *)
Inductive error :=
| New (msg : string)
| Wrap (msg : string) (e : error)
| Multi (e1 e2 : error).

#[global] Instance error_eq_dec : EqDecision error.
Proof. solve_decision. Defined.

(** [multierr.Append(l, r)], where [None] is the nil error. *)
Definition multierr_append (l r : option error) : option error :=
  match l, r with
  | None, r => r
  | l, None => l
  | Some e1, Some e2 => Some (Multi e1 e2)
  end.

(** What a call does: it returns a value, returns an error, or panics. *)
Inductive result (A : Type) :=
| Ok (a : A)
| Err (e : error)
| Panic (msg : string).
Arguments Ok {A} a.
Arguments Err {A} e.
Arguments Panic {A} msg.

#[global] Instance result_eq_dec `{EqDecision A} : EqDecision (result A).
Proof. solve_decision. Defined.

Definition is_ok {A} (r : result A) : bool :=
  match r with Ok _ => true | _ => false end.

Definition result_bind {A B} (r : result A) (k : A -> result B) : result B :=
  match r with Ok a => k a | Err e => Err e | Panic m => Panic m end.

(** [err.map f]: rewrites the error of a call, as [fmt.Errorf("...: %w", err)]. *)
Definition result_wrap {A} (msg : string) (r : result A) : result A :=
  match r with Err e => Err (Wrap msg e) | r => r end.

(** A slice index: out of range panics. *)
Definition index {A} (l : list A) (i : nat) : result A :=
  match l !! i with Some a => Ok a | None => Panic "index out of range" end.

(** Dereferencing a pointer: [nil] panics. *)
Definition deref {A} (p : option A) : result A :=
  match p with Some a => Ok a | None => Panic "nil pointer dereference" end.

(** ** Stateful computations

    [M S A] is code that reads and writes a state [S]; the state keeps what was
    written before an error or a panic, as Go's memory does. *)
Definition M (S A : Type) : Type := S -> result A * S.

Definition ret {S A} (a : A) : M S A := fun s => (Ok a, s).
Definition fail {S A} (e : error) : M S A := fun s => (Err e, s).
Definition panic {S A} (m : string) : M S A := fun s => (Panic m, s).
Definition get {S} : M S S := fun s => (Ok s, s).
Definition put {S} (s' : S) : M S unit := fun _ => (Ok tt, s').
Definition modify {S} (f : S -> S) : M S unit := fun s => (Ok tt, f s).
Definition gets {S A} (f : S -> A) : M S A := fun s => (Ok (f s), s).
Definition lift {S A} (r : result A) : M S A := fun s => (r, s).
(** A call that only reads the state. *)
Definition read {S A} (f : S -> result A) : M S A := fun s => (f s, s).

Definition bind {S A B} (c : M S A) (k : A -> M S B) : M S B := fun s =>
  match c s with
  | (Ok a, s') => k a s'
  | (Err e, s') => (Err e, s')
  | (Panic m, s') => (Panic m, s')
  end.

(** [x, err := c] followed by code that inspects [err]: the error becomes a
    value, a panic still unwinds. *)
Definition try {S A} (c : M S A) : M S (error + A) := fun s =>
  match c s with
  | (Ok a, s') => (Ok (inr a), s')
  | (Err e, s') => (Ok (inl e), s')
  | (Panic m, s') => (Panic m, s')
  end.

(** Rewrite the error of a call. *)
Definition wrap {S A} (msg : string) (c : M S A) : M S A := fun s =>
  match c s with
  | (Err e, s') => (Err (Wrap msg e), s')
  | r => r
  end.

(** Run code of a component on the part of the state it owns. *)
Definition zoom {S T A} (g : S -> T) (p : T -> S -> S) (c : M T A) : M S A := fun s =>
  match c (g s) with (r, t) => (r, p t s) end.

Declare Scope go_scope.
Delimit Scope go_scope with go.
Notation "'let!' x := c 'in' k" := (bind c (fun x => k))
  (at level 10, x pattern, c at level 200, k at level 200) : go_scope.
Notation "'do!' c 'in' k" := (bind c (fun _ => k))
  (at level 10, c at level 200, k at level 200) : go_scope.
Notation "'try!' x := r 'in' k" := (result_bind r (fun x => k))
  (at level 10, x pattern, r at level 200, k at level 200) : go_scope.
#[global] Open Scope go_scope.

(** [for _, x := range l { body x }], leaving on the first error or panic. *)
Fixpoint for_each {S A} (body : A -> M S unit) (l : list A) : M S unit :=
  match l with
  | [] => ret tt
  | x :: l => do! body x in for_each body l
  end.

(** ** Invariants of stateful code *)

(** Whatever [c] does - return, fail or panic - it leaves [I] true. *)
Definition preserves {S A} (I : S -> Prop) (c : M S A) : Prop :=
  forall s, I s -> I (snd (c s)).

Section Preserves.
Context {S : Type} (I : S -> Prop).

Lemma preserves_ret {A} (a : A) : preserves I (ret a).
Proof. by intros s. Qed.

Lemma preserves_fail {A} e : preserves I (fail (A:=A) e).
Proof. by intros s. Qed.

Lemma preserves_panic {A} m : preserves I (panic (A:=A) m).
Proof. by intros s. Qed.

Lemma preserves_get : preserves I get.
Proof. by intros s. Qed.

Lemma preserves_gets {A} (f : S -> A) : preserves I (gets f).
Proof. by intros s. Qed.

Lemma preserves_lift {A} (r : result A) : preserves I (lift r).
Proof. by intros s. Qed.

Lemma preserves_read {A} (f : S -> result A) : preserves I (read f).
Proof. by intros s. Qed.

Lemma preserves_modify f : (forall s, I s -> I (f s)) -> preserves I (modify f).
Proof. by intros H s Hs; apply H. Qed.

Lemma preserves_bind {A B} (c : M S A) (k : A -> M S B) :
  preserves I c -> (forall a, preserves I (k a)) -> preserves I (bind c k).
Proof.
  intros Hc Hk s Hs. unfold bind. specialize (Hc s Hs).
  destruct (c s) as [[a|e|m] s'] eqn:E; [by apply Hk|done..].
Qed.

(** The rest may rely on what the value returned satisfies. *)
Lemma preserves_bind_post {A B} (Q : A -> Prop) (c : M S A) (k : A -> M S B) :
  preserves I c -> (forall s a s', I s -> c s = (Ok a, s') -> Q a) -> (forall a, Q a -> preserves I (k a)) -> preserves I (bind c k).
Proof.
  intros Hc HQ Hk s Hs. unfold bind. pose proof (Hc s Hs) as Hs'. destruct (c s) as [[a|e|m] s'] eqn:E; [|done..].
  apply (Hk a); [by apply (HQ s a s')|done].
Qed.

Lemma preserves_try {A} (c : M S A) : preserves I c -> preserves I (try c).
Proof. intros Hc s Hs. specialize (Hc s Hs). unfold try. by destruct (c s) as [[] ?]. Qed.

Lemma preserves_wrap {A} msg (c : M S A) : preserves I c -> preserves I (wrap msg c).
Proof. intros Hc s Hs. specialize (Hc s Hs). unfold wrap. by destruct (c s) as [[] ?]. Qed.

Lemma preserves_for_each {A} (body : A -> M S unit) l :
  (forall x, x ∈ l -> preserves I (body x)) -> preserves I (for_each body l).
Proof.
  induction l as [|x l IH]; intros Hb; simpl; [apply preserves_ret|].
  apply preserves_bind; [apply Hb; by left|].
  intros _. apply IH. intros y Hy. apply Hb. by right.
Qed.

Lemma preserves_zoom {T A} (g : S -> T) (p : T -> S -> S) (c : M T A) :
  (forall s t, I s -> t = snd (c (g s)) -> I (p t s)) -> preserves I (zoom g p c).
Proof. intros H s Hs. unfold zoom. destruct (c (g s)) as [r t] eqn:E. apply H; [done|by rewrite E]. Qed.
End Preserves.

Create HintDb go_inv.
Create HintDb go_int.
#[export] Hint Resolve preserves_ret preserves_fail preserves_panic preserves_get
  preserves_gets preserves_lift preserves_read preserves_try preserves_wrap : go_inv.

(** ** Outcomes of a run

    [run_spec x Q E]: the run [x] does not panic; it returns a value with [Q], or
    fails with [E]. *)
Definition run_spec {S A} (x : result A * S) (Q : A -> S -> Prop) (E : error -> S -> Prop) : Prop :=
  match x with
  | (Ok a, s) => Q a s
  | (Err e, s) => E e s
  | (Panic _, _) => False
  end.

Lemma run_spec_bind {S A B} (c : M S A) (k : A -> M S B) s Q1 (Q : B -> S -> Prop) E :
  run_spec (c s) Q1 E ->
  (forall a s1, Q1 a s1 -> run_spec (k a s1) Q E) ->
  run_spec (bind c k s) Q E.
Proof. unfold bind, run_spec. destruct (c s) as [[] ?]; naive_solver. Qed.

Lemma run_spec_mono {S A} (x : result A * S) (Q Q' : A -> S -> Prop) (E E' : error -> S -> Prop) :
  run_spec x Q E -> (forall a s, Q a s -> Q' a s) -> (forall e s, E e s -> E' e s) ->
  run_spec x Q' E'.
Proof. unfold run_spec. destruct x as [[] ?]; naive_solver. Qed.

(** A loop over [l] with invariant [I done]: [I] holds of the iterations done so
    far, and [E] of a run that stopped early. *)
Lemma run_spec_for_each {S A} (body : A -> M S unit) (I : list A -> S -> Prop) (E : error -> S -> Prop)
    l hs s :
  I hs s ->
  (forall x hs' l' s1, l = hs' ++ x :: l' -> I (hs ++ hs') s1 ->
     run_spec (body x s1) (fun _ => I (hs ++ hs' ++ [x])) E) ->
  run_spec (for_each body l s) (fun _ => I (hs ++ l)) E.
Proof.
  revert hs s. induction l as [|x l IH]; intros hs s HI Hstep; simpl.
  { by rewrite app_nil_r. }
  eapply run_spec_bind.
  { apply (Hstep x [] l s); [done|by rewrite app_nil_r]. }
  intros [] s1 HI1. simpl in HI1.
  replace (hs ++ x :: l) with ((hs ++ [x]) ++ l) by (by rewrite <- app_assoc).
  apply IH; [done|]. intros y hs' l' s2 -> HI2.
  rewrite <- app_assoc in HI2 |- *. simpl in *.
  by apply (Hstep y (x :: hs') l' s2).
Qed.

(** ** Triples

    [triple P c Q E]: from a state with [P], a run of [c] that returns has [Q], and one
    that fails or panics has [E]. *)
Definition triple {S A} (P : S -> Prop) (c : M S A) (Q : A -> S -> Prop) (E : S -> Prop) : Prop :=
  forall s, P s -> match c s with (Ok a, s') => Q a s' | (_, s') => E s' end.

Section Triple.
Context {S : Type}.

Lemma triple_bind {A B} (P : S -> Prop) (c : M S A) (k : A -> M S B) Q1 Q E :
  triple P c Q1 E -> (forall a, triple (Q1 a) (k a) Q E) -> triple P (bind c k) Q E.
Proof. intros Hc Hk s Hs. specialize (Hc s Hs). unfold bind. destruct (c s) as [[] ?]; [by apply Hk|done..]. Qed.

Lemma triple_preserves {A} (P : S -> Prop) (c : M S A) : preserves P c -> triple P c (fun _ => P) P.
Proof. intros Hc s Hs. specialize (Hc s Hs). by destruct (c s) as [[] ?]. Qed.

(** A step that keeps [P], then the rest. *)
Lemma triple_bind_keep {A B} (P : S -> Prop) (c : M S A) (k : A -> M S B) Q (E : S -> Prop) :
  preserves P c -> (forall s, P s -> E s) -> (forall a, triple P (k a) Q E) -> triple P (bind c k) Q E.
Proof.
  intros Hc HE Hk. apply (triple_bind _ _ _ (fun _ => P)); [|done].
  intros s Hs. specialize (Hc s Hs). destruct (c s) as [[] ?]; simpl in *; auto.
Qed.

Lemma triple_ret {A} (P : S -> Prop) (a : A) (Q : A -> S -> Prop) E : (forall s, P s -> Q a s) -> triple P (ret a) Q E.
Proof. intros H s Hs. by apply H. Qed.

Lemma triple_modify (P : S -> Prop) f (Q : unit -> S -> Prop) E :
  (forall s, P s -> Q tt (f s)) -> triple P (modify f) Q E.
Proof. intros H s Hs. by apply H. Qed.
End Triple.

(** ** Equations of the monad *)

Lemma bind_ok {S A B} (c : M S A) (k : A -> M S B) s a s' :
  c s = (Ok a, s') -> bind c k s = k a s'.
Proof. unfold bind. by intros ->. Qed.

Lemma bind_err {S A B} (c : M S A) (k : A -> M S B) s e s' :
  c s = (Err e, s') -> bind c k s = (Err e, s').
Proof. unfold bind. by intros ->. Qed.

(** Two steps run together inside a longer sequence. *)
Lemma bind_seq_ok {S A B C} (c1 : M S A) (c2 : M S B) (k : B -> M S C) s b s' :
  (do! c1 in c2) s = (Ok b, s') -> (do! c1 in bind c2 k) s = k b s'.
Proof. unfold bind. destruct (c1 s) as [[] s1]; [|done..]. by intros ->. Qed.

(** Inversion of a successful sequence. *)
Lemma bind_inv_ok {S A B} (c : M S A) (k : A -> M S B) s b s' :
  bind c k s = (Ok b, s') -> exists a s1, c s = (Ok a, s1) /\ k a s1 = (Ok b, s').
Proof. unfold bind. destruct (c s) as [[a|e|m] s1]; intros H; simplify_eq; eauto. Qed.

Lemma bind_inv_err {S A B} (c : M S A) (k : A -> M S B) s e s' :
  bind c k s = (Err e, s') ->
  c s = (Err e, s') \/ exists a s1, c s = (Ok a, s1) /\ k a s1 = (Err e, s').
Proof. unfold bind. destruct (c s) as [[a|e'|m] s1]; intros H; simplify_eq; eauto. Qed.

Lemma zoom_inv {S T A} (g : S -> T) (p : T -> S -> S) (c : M T A) s r s' :
  zoom g p c s = (r, s') -> exists t, c (g s) = (r, t) /\ s' = p t s.
Proof. unfold zoom. destruct (c (g s)) as [r1 t]. intros [= <- <-]. eauto. Qed.

Lemma wrap_inv_ok {S A} msg (c : M S A) s a s' : wrap msg c s = (Ok a, s') -> c s = (Ok a, s').
Proof. unfold wrap. by destruct (c s) as [[] ?]. Qed.

(** A run known to return, as an equation. *)
Lemma is_ok_run {S A} (x : result A * S) : is_ok x.1 = true -> exists a, x = (Ok a, x.2).
Proof. destruct x as [[a| |] s]; [eauto|done..]. Qed.

(** The value of a call known to return. *)
Definition get_ok {A} (d : A) (r : result A) : A := match r with Ok a => a | _ => d end.

Lemma get_ok_run {S A} (d : A) (x : result A * S) : is_ok x.1 = true -> x = (Ok (get_ok d x.1), x.2).
Proof. by destruct x as [[a| |] s]. Qed.

Lemma get_ok_result {A} (d : A) (r : result A) : is_ok r = true -> r = Ok (get_ok d r).
Proof. by destruct r. Qed.

Lemma result_bind_ok {A B} (r : result A) (k : A -> result B) b :
  result_bind r k = Ok b <-> exists a, r = Ok a /\ k a = Ok b.
Proof. destruct r; simpl; naive_solver. Qed.

(** Runs the head of a stateful computation in the goal or in hypothesis [H]. *)
Ltac go_simpl :=
  cbv [bind ret fail panic get put modify gets lift read try wrap zoom result_bind
       result_wrap index deref] in *; simpl in *.

(** Splits a hypothesis about a successful run into the runs of its parts. *)
Ltac go_inv H :=
  match type of H with
  | zoom _ _ _ _ = (_, _) =>
      let t := fresh "t" in let H1 := fresh "Ht" in
      apply zoom_inv in H as (t & H & H1)
  | wrap _ _ _ = (Ok _, _) => apply wrap_inv_ok in H
  | lift _ _ = (_, _) => unfold lift in H; injection H as H <-
  | read _ _ = (_, _) => unfold read in H; injection H as H <-
  | gets _ _ = (Ok _, _) => unfold gets in H; first [injection H as <- <- | injection H as <-]
  | modify _ _ = (Ok _, _) => unfold modify in H; first [injection H as <- <- | injection H as <-]
  | ret _ _ = (Ok _, _) => unfold ret in H; first [injection H as <- <- | injection H as <-]
  | bind _ _ _ = (Ok _, _) =>
      let a := fresh "r" in let s := fresh "s" in
      let H1 := fresh "Hrun" in
      apply bind_inv_ok in H as (a & s & H1 & H)
  | result_bind _ _ = Ok _ =>
      let a := fresh "r" in let H1 := fresh "Hres" in
      apply result_bind_ok in H as (a & H1 & H)
  end.

(** ** Machine integers *)

Lemma u64_range z : is_u64 (u64 z).
Proof. apply Z.mod_pos_bound; lia. Qed.

Lemma u64_small z : is_u64 z -> u64 z = z.
Proof. apply Z.mod_small. Qed.

Lemma i64_range z : is_i64 (i64 z).
Proof. unfold i64, is_i64. pose proof (Z.mod_pos_bound (z + 2^63) (2^64)). lia. Qed.

Lemma i64_small z : is_i64 z -> i64 z = z.
Proof. unfold i64, is_i64. intros. rewrite Z.mod_small; lia. Qed.

(** [int64(uint64 x)] and back: the conversions are inverse of each other. *)
Lemma u64_i64 z : u64 (i64 z) = u64 z.
Proof.
  unfold u64, i64.
  rewrite Zminus_mod_idemp_l. f_equal. lia.
Qed.

Lemma i64_u64 z : i64 (u64 z) = i64 z.
Proof. unfold u64, i64. by rewrite Zplus_mod_idemp_l. Qed.

(** Wrapped sums wrap once. *)
Lemma i64_add_l a b : i64 (i64 a + b) = i64 (a + b).
Proof.
  unfold i64. replace ((a + 2 ^ 63) mod 2 ^ 64 - 2 ^ 63 + b + 2 ^ 63)%Z with ((a + 2 ^ 63) mod 2 ^ 64 + b)%Z by lia.
  rewrite Zplus_mod_idemp_l. do 2 f_equal. lia.
Qed.

#[export] Hint Resolve u64_range i64_range : go_int.

(** ** Big-endian integers ([encoding/binary]) *)

(** [binary.BigEndian.PutUint64] is [be_split 8]. *)
Fixpoint be_split (n : nat) (z : Z) : bytes :=
  match n with
  | O => []
  | S n => byte_of_Z (Z.shiftr z (8 * Z.of_nat n)) :: be_split n z
  end.

(** [binary.BigEndian.Uint64] on eight bytes. *)
Definition be_combine (l : bytes) : Z :=
  foldl (fun acc b => acc * 256 + Z_of_byte b)%Z 0%Z l.

Lemma Z_of_byte_of_Z z : Z_of_byte (byte_of_Z z) = (z mod 256)%Z.
Proof.
  unfold Z_of_byte, byte_of_Z.
  pose proof (Z.mod_pos_bound z 256 ltac:(lia)).
  destruct (Byte.of_N (Z.to_N (z mod 256))) as [b|] eqn:E; simpl.
  - apply Byte.to_of_N in E. rewrite E. lia.
  - apply Byte.of_N_None_iff in E. lia.
Qed.

Lemma length_be_split n z : length (be_split n z) = n.
Proof. induction n; simpl; congruence. Qed.

Lemma be_combine_split_acc n z acc :
  foldl (fun acc b => acc * 256 + Z_of_byte b)%Z acc (be_split n z)
  = (acc * 2 ^ (8 * Z.of_nat n) + z mod 2 ^ (8 * Z.of_nat n))%Z.
Proof.
  revert acc. induction n as [|n IH]; intros acc.
  { simpl. rewrite Z.mod_1_r. lia. }
  cbn [be_split foldl]. rewrite IH, Z_of_byte_of_Z, Z.shiftr_div_pow2 by lia.
  replace (8 * Z.of_nat (S n))%Z with (8 * Z.of_nat n + 8)%Z by lia.
  rewrite Z.pow_add_r by lia. change (2 ^ 8)%Z with 256%Z.
  set (m := (2 ^ (8 * Z.of_nat n))%Z).
  assert (0 < m)%Z by (apply Z.pow_pos_nonneg; lia).
  rewrite (Z.rem_mul_r z m 256) by lia. lia.
Qed.

Lemma be_combine_split n z : be_combine (be_split n z) = (z mod 2 ^ (8 * Z.of_nat n))%Z.
Proof. unfold be_combine. rewrite be_combine_split_acc. lia. Qed.

Lemma be_split_inj x y : is_u64 x -> is_u64 y -> be_split 8 x = be_split 8 y -> x = y.
Proof.
  intros Hx Hy H. apply (f_equal be_combine) in H.
  rewrite !be_combine_split in H. change (2 ^ (8 * Z.of_nat 8))%Z with (2 ^ 64)%Z in H.
  by rewrite !Z.mod_small in H.
Qed.

(** ** Fixed-size arrays *)

(** [copy(dst[:], src)] onto an array: the first bytes are overwritten. *)
Fixpoint copy_into {A n} (dst : vec A n) (src : list A) : vec A n :=
  match dst with
  | vnil => vnil
  | vcons d dst' =>
      match src with
      | [] => vcons d dst'
      | x :: src => vcons x (copy_into dst' src)
      end
  end.

(** An array from a slice of exactly its size. *)
Fixpoint to_vec {A} (n : nat) (l : list A) : option (vec A n) :=
  match n, l with
  | O, [] => Some vnil
  | S n, x :: l => vcons x <$> to_vec n l
  | _, _ => None
  end.

Lemma to_vec_Some {A} n (l : list A) v : to_vec n l = Some v <-> vec_to_list v = l.
Proof.
  revert l v. induction n as [|n IH]; intros [|x l] v; inv_vec v; simpl; [naive_solver..| |].
  - intros y v. split; intros; simplify_eq.
  - intros y v. rewrite fmap_Some. split.
    + intros (w & Hw & ?). simplify_eq. f_equal. by apply IH.
    + intros ?. simplify_eq. exists v. split; [by apply IH|done].
Qed.

Lemma to_vec_vec {A n} (v : vec A n) : to_vec n (vec_to_list v) = Some v.
Proof. by apply to_vec_Some. Qed.

Lemma to_vec_None {A} n (l : list A) : to_vec n l = None <-> length l <> n.
Proof.
  revert l. induction n as [|n IH]; intros [|x l]; simpl; [naive_solver..|].
  rewrite fmap_None, IH. lia.
Qed.

Lemma copy_into_vec {A n} (d : vec A n) (v : vec A n) : copy_into d (vec_to_list v) = v.
Proof. induction d; inv_vec v; simpl; [done|]. intros. by f_equal. Qed.

(** A source of the array's size overwrites all of it. *)
Lemma copy_into_full {A n} (d1 d2 : vec A n) src : length src = n -> copy_into d1 src = copy_into d2 src.
Proof.
  intros Hl. destruct (to_vec n src) as [v|] eqn:E; [|by apply to_vec_None in E].
  apply to_vec_Some in E as <-. by rewrite !copy_into_vec.
Qed.

(** ** Lists *)

Lemma list_filter_all {A} (P : A -> Prop) `{!forall x, Decision (P x)} (l : list A) :
  (forall x, x ∈ l -> P x) -> filter P l = l.
Proof.
  induction l as [|x l IH]; intros Hall; [done|]. rewrite filter_cons_True by (apply Hall; by left).
  f_equal. apply IH. intros y Hy. apply Hall. by right.
Qed.

Lemma StronglySorted_mono {A} (R1 R2 : A -> A -> Prop) (l : list A) :
  (forall x y, R1 x y -> R2 x y) -> StronglySorted R1 l -> StronglySorted R2 l.
Proof. intros HR. induction 1; constructor; try done. by eapply Forall_impl; eauto. Qed.
