(* ===== verification/Strconv.v ===== *)
(** * Strconv: numbers as text

    What the program uses of Go's strconv, encoding/hex and encoding/binary: decimal
    numbers, hexadecimal strings and variable-length integers, with their round trips.
    A Go string is a list of characters where the program takes it apart. *)
From stdpp Require Import base gmap strings vector sorting numbers list.
From S2P Require Import Prelude.

(** ** Decimal numbers (strconv) *)

Abbreviation chars := (list Ascii.ascii).

Definition digit (d : Z) : Ascii.ascii := Ascii.ascii_of_N (Z.to_N (48 + d)).
Definition digit_value (c : Ascii.ascii) : option Z :=
  let n := Z.of_N (Ascii.N_of_ascii c) in
  if ((48 <=? n) && (n <=? 57))%Z then Some (n - 48)%Z else None.

(** The decimal digits of [z], before [acc]. *)
Fixpoint digits (fuel : nat) (z : Z) (acc : chars) : chars :=
  match fuel with
  | O => acc
  | S fuel =>
      let acc := digit (z mod 10) :: acc in
      if (z <? 10)%Z then acc else digits fuel (z / 10) acc
  end.

(** [strconv.FormatUint(z, 10)]: at most twenty digits. *)
Definition FormatUint (z : Z) : chars := digits 20 z [].
#[global] Arguments FormatUint : simpl never.

(** [strconv.ParseUint(s, 10, 64)]. *)
Fixpoint parse_digits (acc : Z) (s : chars) : result Z :=
  match s with
  | [] => Ok acc
  | c :: s =>
      match digit_value c with
      | None => Err (New "invalid syntax")
      | Some d =>
          let acc := (acc * 10 + d)%Z in
          if (2 ^ 64 <=? acc)%Z then Err (New "value out of range") else parse_digits acc s
      end
  end.
Definition ParseUint (s : chars) : result Z :=
  match s with [] => Err (New "invalid syntax") | _ => parse_digits 0 s end.

(** [strconv.FormatInt(z, 10)], also what [%d] and [%v] print of an integer. *)
Definition minus : Ascii.ascii := Ascii.ascii_of_N 45.
Definition plus : Ascii.ascii := Ascii.ascii_of_N 43.
Definition FormatInt (z : Z) : chars := if (z <? 0)%Z then minus :: FormatUint (- z) else FormatUint z.
#[global] Arguments FormatInt : simpl never.

(** [strconv.ParseInt(s, 10, 64)]. *)
Definition ParseInt (s : chars) : result Z :=
  let '(neg, digits) :=
    match s with
    | c :: rest => if decide (c = minus) then (true, rest)
                   else if decide (c = plus) then (false, rest)
                   else (false, c :: rest)
    | [] => (false, [])
    end in
  try! n := ParseUint digits in
  if negb neg && (2 ^ 63 <=? n)%Z || neg && (2 ^ 63 <? n)%Z then Err (New "value out of range")
  else Ok (if neg then - n else n)%Z.

(** ** Lemmas: decimal numbers *)

Lemma digit_value_digit d : (0 <= d < 10)%Z -> digit_value (digit d) = Some d.
Proof.
  intros Hd. unfold digit_value, digit. rewrite Ascii.N_ascii_embedding by lia.
  rewrite Z2N.id by lia. case_match; [f_equal; lia|lia].
Qed.

Lemma parse_digits_format fuel z acc s :
  (0 <= z < 10 ^ Z.of_nat fuel)%Z -> (z < 2 ^ 64)%Z -> (0 < fuel)%nat -> acc = 0%Z ->
  parse_digits acc (digits fuel z s) = parse_digits z s.
Proof.
  revert z s. induction fuel as [|fuel IH]; intros z s Hz Hmax Hf ->; [lia|]. cbn [digits].
  pose proof (Z.mod_pos_bound z 10 ltac:(lia)) as Hm.
  assert (Hstep : forall a, (a * 10 + z mod 10 = z)%Z -> parse_digits a (digit (z mod 10) :: s) = parse_digits z s).
  { intros a Ha. cbn [parse_digits]. rewrite digit_value_digit by lia. rewrite Ha. by rewrite (proj2 (Z.leb_gt _ _)) by lia. }
  destruct (Z.ltb_spec z 10) as [Hlt|Hge].
  - apply Hstep. rewrite Z.mod_small; lia.
  - pose proof (Z.div_mod z 10 ltac:(lia)) as Hdm.
    assert (Hpow : (10 ^ Z.of_nat (S fuel) = 10 * 10 ^ Z.of_nat fuel)%Z) by (rewrite Nat2Z.inj_succ, Z.pow_succ_r; lia).
    assert (0 < fuel)%nat.
    { destruct fuel; [|lia]. change (10 ^ Z.of_nat 1)%Z with 10%Z in Hz. lia. }
    rewrite IH; [apply Hstep; lia| |lia|done|done]. split; [apply Z.div_pos; lia|]. apply Z.div_lt_upper_bound; lia.
Qed.

Lemma digits_Forall (P : Ascii.ascii -> Prop) fuel z s :
  (forall d, (0 <= d < 10)%Z -> P (digit d)) -> (0 <= z)%Z -> Forall P s -> Forall P (digits fuel z s).
Proof.
  intros HP. revert z s. induction fuel as [|fuel IH]; intros z s Hz Hs; [done|]. cbn [digits].
  assert (Forall P (digit (z mod 10) :: s)) by (constructor; [apply HP, Z.mod_pos_bound; lia|done]).
  destruct (z <? 10)%Z; [done|]. apply IH; [apply Z.div_pos; lia|done].
Qed.

Lemma digits_nonempty fuel z s : s <> [] -> digits fuel z s <> [].
Proof.
  revert z s. induction fuel as [|fuel IH]; intros z s Hs; [done|]. cbn [digits].
  destruct (z <? 10)%Z; [done|]. by apply IH.
Qed.

Lemma digits_some fuel z s : digits (S fuel) z s <> [].
Proof. cbn [digits]. destruct (z <? 10)%Z; [done|]. by apply digits_nonempty. Qed.

Lemma FormatUint_nonempty z : FormatUint z <> [].
Proof. apply digits_some. Qed.

Lemma ParseUint_FormatUint z : is_u64 z -> ParseUint (FormatUint z) = Ok z.
Proof.
  intros Hz. unfold ParseUint. destruct (FormatUint z) as [|c s] eqn:E; [by apply FormatUint_nonempty in E|].
  rewrite <- E. unfold is_u64 in Hz.
  apply (parse_digits_format 20 z 0 []); [|lia|lia|done].
  change (10 ^ Z.of_nat 20)%Z with 100000000000000000000%Z. lia.
Qed.

Lemma digit_not c d : digit_value c = None -> (0 <= d < 10)%Z -> digit d <> c.
Proof. intros Hc Hd <-. by rewrite digit_value_digit in Hc. Qed.

(** No character of a printed number is [c], for any other character than a digit or a
    minus. *)
Lemma FormatUint_Forall c z : digit_value c = None -> (0 <= z)%Z -> Forall (fun x => x <> c) (FormatUint z).
Proof. intros Hc Hz. apply digits_Forall; [by intros; apply digit_not|done|done]. Qed.

Lemma FormatInt_Forall c z : digit_value c = None -> c <> minus -> Forall (fun x => x <> c) (FormatInt z).
Proof.
  intros Hc Hm. unfold FormatInt. destruct (Z.ltb_spec z 0); [constructor; [done|]|]; apply FormatUint_Forall; auto; lia.
Qed.

Lemma FormatInt_nonempty z : FormatInt z <> [].
Proof. unfold FormatInt. destruct (z <? 0)%Z; [done|]. apply FormatUint_nonempty. Qed.

Lemma ParseInt_FormatInt z : is_i64 z -> ParseInt (FormatInt z) = Ok z.
Proof.
  intros Hz. unfold is_i64 in Hz. unfold ParseInt, FormatInt. destruct (Z.ltb_spec z 0) as [Hneg|Hpos].
  - rewrite decide_True by done. rewrite ParseUint_FormatUint by (unfold is_u64; lia). cbn [result_bind].
    rewrite (proj2 (Z.ltb_ge _ _)) by lia. simpl. f_equal. lia.
  - assert (Hall : Forall (fun x => x <> minus /\ x <> plus) (FormatUint z)).
    { apply Forall_and. split; by apply FormatUint_Forall. }
    destruct (FormatUint z) as [|c s] eqn:E; [by apply FormatUint_nonempty in E|].
    apply Forall_cons in Hall as [[H1 H2] _]. rewrite !decide_False by done. rewrite <- E, ParseUint_FormatUint by (unfold is_u64; lia).
    cbn [result_bind]. rewrite (proj2 (Z.leb_gt _ _)) by lia. done.
Qed.

Lemma parse_digits_no_panic acc s m : parse_digits acc s <> Panic m.
Proof. revert acc. induction s as [|c s IH]; intros acc; cbn [parse_digits]; [done|]. destruct (digit_value c); [|done]. case_match; [done|apply IH]. Qed.

Lemma ParseInt_no_panic s m : ParseInt s <> Panic m.
Proof.
  unfold ParseInt. destruct (match s with [] => _ | _ => _ end) as [neg ds].
  assert (Hp : forall m, ParseUint ds <> Panic m) by (intros m'; unfold ParseUint; destruct ds; [done|apply parse_digits_no_panic]).
  specialize (Hp m). destruct (ParseUint ds); simpl; [case_match; done|done|congruence].
Qed.

Lemma FormatInt_inj z z' : is_i64 z -> is_i64 z' -> FormatInt z = FormatInt z' -> z = z'.
Proof. intros Hz Hz' E. apply ParseInt_FormatInt in Hz, Hz'. congruence. Qed.

(** ** Bytes of a string *)

Definition bs (s : chars) : bytes := Ascii.byte_of_ascii <$> s.
Definition cs (b : bytes) : chars := Ascii.ascii_of_byte <$> b.
Definition lit (s : string) : bytes := String.list_byte_of_string s.

(** What [%d] prints of an integer, as bytes. *)
Definition dec_bytes (z : Z) : bytes := bs (FormatInt z).

Lemma cs_bs s : cs (bs s) = s.
Proof. induction s as [|c s IH]; [done|]. csimpl. by rewrite Ascii.ascii_of_byte_of_ascii, IH. Qed.

Lemma bs_inj s s' : bs s = bs s' -> s = s'.
Proof. intros E. by rewrite <- (cs_bs s), E, cs_bs. Qed.

Lemma dec_bytes_inj z z' : is_i64 z -> is_i64 z' -> dec_bytes z = dec_bytes z' -> z = z'.
Proof. intros Hz Hz' E. apply bs_inj in E. by apply FormatInt_inj in E. Qed.

Lemma dec_bytes_parse z : is_i64 z -> ParseInt (cs (dec_bytes z)) = Ok z.
Proof. intros Hz. unfold dec_bytes. rewrite cs_bs. by apply ParseInt_FormatInt. Qed.

Lemma dec_bytes_Forall b z :
  digit_value (Ascii.ascii_of_byte b) = None -> Ascii.ascii_of_byte b <> minus -> Forall (fun x => x <> b) (dec_bytes z).
Proof.
  intros Hd Hm. unfold dec_bytes, bs. apply Forall_fmap. eapply Forall_impl; [by apply FormatInt_Forall|].
  intros c Hc. simpl. intros <-. by rewrite Ascii.ascii_of_byte_of_ascii in Hc.
Qed.

(** ** encoding/hex *)

Definition hex_value (b : byte) : option Z :=
  let n := Z_of_byte b in
  if ((48 <=? n) && (n <=? 57))%Z then Some (n - 48)%Z
  else if ((97 <=? n) && (n <=? 102))%Z then Some (n - 87)%Z
  else if ((65 <=? n) && (n <=? 70))%Z then Some (n - 55)%Z
  else None.

(** [hex.DecodeString]. *)
Fixpoint hex_DecodeString (s : bytes) : result bytes :=
  match s with
  | [] => Ok []
  | [p] => match hex_value p with
           | None => Err (New "encoding/hex: invalid byte")
           | Some _ => Err (New "encoding/hex: odd length hex string")
           end
  | p :: q :: s =>
      match hex_value p, hex_value q with
      | Some a, Some b => try! rest := hex_DecodeString s in Ok (byte_of_Z (Z.lor (Z.shiftl a 4) b) :: rest)
      | _, _ => Err (New "encoding/hex: invalid byte")
      end
  end.

(** ** encoding/binary: variable-length integers *)

(** [binary.PutUvarint]: seven bits a byte, the high bit on all bytes but the last. *)
Fixpoint PutUvarint (fuel : nat) (x : Z) : bytes :=
  match fuel with
  | O => []
  | S fuel =>
      if (128 <=? x)%Z then byte_of_Z (Z.lor (x mod 256) 128) :: PutUvarint fuel (Z.shiftr x 7)
      else [byte_of_Z x]
  end.

(** [binary.PutVarint]: the sign goes to the lowest bit. *)
Definition PutVarint (x : Z) : bytes :=
  let ux := u64 (Z.shiftl (u64 x) 1) in
  PutUvarint 10 (if (x <? 0)%Z then u64 (Z.lnot ux) else ux).

(** [binary.Uvarint], the value alone: 0 when the buffer ends early or overflows. *)
Fixpoint Uvarint (buf : bytes) (i : nat) (x s : Z) : Z :=
  match buf with
  | [] => 0
  | b :: buf =>
      if (i =? 10)%nat then 0
      else if (Z_of_byte b <? 128)%Z then
        if ((i =? 9)%nat && (1 <? Z_of_byte b)%Z)%bool then 0
        else Z.lor x (u64 (Z.shiftl (Z_of_byte b) s))
      else Uvarint buf (S i) (Z.lor x (u64 (Z.shiftl (Z.land (Z_of_byte b) 127) s))) (s + 7)
  end%Z.

(** [binary.Varint]. *)
Definition Varint (buf : bytes) : Z :=
  let ux := Uvarint buf 0 0 0 in
  let x := i64 (Z.shiftr ux 1) in
  if Z.odd ux then Z.lnot x else x.

(** ** Lemmas: variable-length integers *)

(** The high bit of a byte, set and cleared. *)
Definition high_bit_ok (z : Z) : bool :=
  ((Z.land (Z.lor z 128) 127 =? z mod 128) && (128 <=? Z.lor z 128) && (Z.lor z 128 <? 256))%Z.

Lemma high_bit z : (0 <= z < 256)%Z -> Z.land (Z.lor z 128) 127 = (z mod 128)%Z /\ (128 <= Z.lor z 128 < 256)%Z.
Proof.
  intros Hz. assert (H : forallb high_bit_ok (Z.of_nat <$> seq 0 256) = true) by (vm_compute; reflexivity).
  rewrite forallb_forall in H. specialize (H z). unfold high_bit_ok in H.
  rewrite !andb_true_iff, Z.eqb_eq, Z.leb_le, Z.ltb_lt in H.
  destruct H as [[H1 H2] H3]; [|done]. apply list_elem_of_In, list_elem_of_fmap. exists (Z.to_nat z).
  rewrite elem_of_seq. lia.
Qed.

(** An [or] that does not carry is a sum. *)
Lemma lor_shiftl x y s : (0 <= s)%Z -> (0 <= x < 2 ^ s)%Z -> Z.lor x (Z.shiftl y s) = (x + y * 2 ^ s)%Z.
Proof.
  intros Hs Hx. rewrite <- Z.shiftl_mul_pow2 by done. symmetry.
  assert (Hl : Z.land x (Z.shiftl y s) = 0%Z).
  { apply Z.bits_inj'. intros n Hn. rewrite Z.land_spec, Z.bits_0. destruct (Z.ltb_spec n s).
    - by rewrite Z.shiftl_spec_low, andb_false_r.
    - rewrite <- (Z.mod_small x (2 ^ s)) by done. by rewrite Z.mod_pow2_bits_high by lia. }
  rewrite Z.add_nocarry_lxor by done. by apply Z.lxor_lor.
Qed.

Lemma Uvarint_PutUvarint fuel i x v :
  (fuel + i = 10)%nat -> (0 < fuel)%nat -> (0 <= x < 2 ^ (7 * Z.of_nat i))%Z ->
  (0 <= v)%Z -> (v * 2 ^ (7 * Z.of_nat i) < 2 ^ 64)%Z ->
  Uvarint (PutUvarint fuel v) i x (7 * Z.of_nat i) = (x + v * 2 ^ (7 * Z.of_nat i))%Z.
Proof.
  revert i x v. induction fuel as [|fuel IH]; intros i x v Hi Hf Hx Hv Hmax; [lia|]. cbn [PutUvarint].
  set (s := (7 * Z.of_nat i)%Z) in *. assert (Hs : (0 <= s)%Z) by lia.
  assert (Hp : (0 < 2 ^ s)%Z) by (apply Z.pow_pos_nonneg; lia).
  assert (Hten : (i =? 10)%nat = false) by (apply Nat.eqb_neq; lia).
  assert (Hshift : forall y, (0 <= y <= v)%Z -> u64 (Z.shiftl y s) = Z.shiftl y s).
  { intros y Hy. rewrite Z.shiftl_mul_pow2 by done. apply Z.mod_small. nia. }
  destruct (Z.leb_spec 128 v) as [Hge|Hlt].
  - pose proof (Z.mod_pos_bound v 256 ltac:(lia)) as Hb. destruct (high_bit (v mod 256) Hb) as [Hlow Hhigh].
    assert (Hm : (v mod 256 mod 128 = v mod 128)%Z) by (symmetry; apply Znumtheory.Zmod_div_mod; [lia|lia|by exists 2%Z]).
    assert (Hfuel : (0 < fuel)%nat).
    { destruct fuel; [|lia]. assert (s = 63)%Z as E by lia. rewrite E in Hmax. lia. }
    cbn [Uvarint]. rewrite Hten, Z_of_byte_of_Z, (Z.mod_small (Z.lor _ _)) by lia.
    rewrite (proj2 (Z.ltb_ge _ _)) by lia. rewrite Hlow, Hm.
    pose proof (Z.mod_pos_bound v 128 ltac:(lia)) as Hm'. pose proof (Z.mod_le v 128 ltac:(lia) ltac:(lia)).
    rewrite Hshift, lor_shiftl by lia. replace (s + 7)%Z with (7 * Z.of_nat (S i))%Z by lia.
    assert (E7 : (2 ^ (7 * Z.of_nat (S i)) = 128 * 2 ^ s)%Z)
      by (replace (7 * Z.of_nat (S i))%Z with (7 + s)%Z by lia; by rewrite Z.pow_add_r by lia).
    rewrite Z.shiftr_div_pow2 by lia. change (2 ^ 7)%Z with 128%Z. pose proof (Z.div_mod v 128 ltac:(lia)) as Hdm.
    rewrite IH; rewrite ?E7; [nia|lia|lia|nia|apply Z.div_pos; lia|nia].
  - cbn [Uvarint]. rewrite Hten, Z_of_byte_of_Z, (Z.mod_small v) by lia. rewrite (proj2 (Z.ltb_lt _ _)) by lia.
    assert (E9 : ((i =? 9)%nat && (1 <? v)%Z)%bool = false).
    { destruct (Nat.eqb_spec i 9) as [->|]; [|done]. simpl. apply Z.ltb_ge. assert (s = 63)%Z as E by lia. rewrite E in Hmax. lia. }
    rewrite E9, Hshift, lor_shiftl by lia. done.
Qed.

(** A signed integer is read back from its bytes. *)
Lemma Varint_PutVarint x : is_i64 x -> Varint (PutVarint x) = x.
Proof.
  intros Hx. unfold is_i64 in Hx. unfold Varint, PutVarint.
  set (ux := if (x <? 0)%Z then _ else _).
  assert (Hux : ux = (if x <? 0 then - 2 * x - 1 else 2 * x)%Z).
  { unfold ux. rewrite Z.shiftl_mul_pow2 by lia. change (2 ^ 1)%Z with 2%Z. unfold u64. destruct (Z.ltb_spec x 0).
    - replace (x mod 2 ^ 64)%Z with (x + 2 ^ 64)%Z by (rewrite <- (Z.mod_add x 1) by lia; rewrite Z.mod_small; lia).
      replace ((x + 2 ^ 64) * 2)%Z with (2 * x + 2 ^ 64 + 1 * 2 ^ 64)%Z by lia. rewrite Z.mod_add by lia.
      rewrite (Z.mod_small (2 * x + 2 ^ 64)) by lia. rewrite <- (Z.mod_add _ 1) by lia.
      rewrite Z.mod_small; unfold Z.lnot; lia.
    - rewrite (Z.mod_small x) by lia. rewrite Z.mod_small; lia. }
  pose proof (Uvarint_PutUvarint 10 0 0 ux eq_refl ltac:(lia)) as Hu. change (7 * Z.of_nat 0)%Z with 0%Z in Hu.
  change (2 ^ 0)%Z with 1%Z in Hu. rewrite Hu by (rewrite ?Hux; destruct (Z.ltb_spec x 0); lia).
  rewrite Z.add_0_l, Z.mul_1_r, Hux. rewrite Z.shiftr_div_pow2 by lia. change (2 ^ 1)%Z with 2%Z. destruct (Z.ltb_spec x 0).
  - replace (- 2 * x - 1)%Z with (1 + 2 * (- x - 1))%Z by lia. rewrite Z.odd_add_mul_2. simpl Z.odd. cbv iota.
    replace ((1 + 2 * (- x - 1)) / 2)%Z with (- x - 1)%Z by (apply (Z.div_unique _ _ _ 1); lia).
    unfold i64. rewrite Z.mod_small; unfold Z.lnot; lia.
  - rewrite Z.odd_mul. simpl. rewrite Z.mul_comm, Z.div_mul by lia. unfold i64. rewrite Z.mod_small; lia.
Qed.

(** ** base64 (encoding/base64, [StdEncoding]) *)

Definition b64_char (i : Z) : byte :=
  byte_of_Z (if i <? 26 then 65 + i else if i <? 52 then 71 + i else if i <? 62 then i - 4 else if i =? 62 then 43 else 47)%Z.

Definition b64_value (b : byte) : option Z :=
  (let n := Z_of_byte b in
  if (65 <=? n) && (n <=? 90) then Some (n - 65)
  else if (97 <=? n) && (n <=? 122) then Some (n - 71)
  else if (48 <=? n) && (n <=? 57) then Some (n + 4)
  else if n =? 43 then Some 62 else if n =? 47 then Some 63 else None)%Z.
#[global] Arguments b64_char : simpl never.
#[global] Arguments b64_value : simpl never.

Definition b64_pad : byte := x3d.

(** [EncodeToString]: three bytes are four characters; the last one or two bytes are
    padded. *)
Fixpoint base64_EncodeToString (src : bytes) : bytes :=
  match src with
  | [] => []
  | [a] =>
      let v := (Z_of_byte a * 65536)%Z in
      [b64_char (v / 262144); b64_char (v / 4096 mod 64); b64_pad; b64_pad]
  | [a; b] =>
      let v := (Z_of_byte a * 65536 + Z_of_byte b * 256)%Z in
      [b64_char (v / 262144); b64_char (v / 4096 mod 64); b64_char (v / 64 mod 64); b64_pad]
  | a :: b :: c :: src =>
      let v := (Z_of_byte a * 65536 + Z_of_byte b * 256 + Z_of_byte c)%Z in
      b64_char (v / 262144) :: b64_char (v / 4096 mod 64) :: b64_char (v / 64 mod 64) :: b64_char (v mod 64) ::
      base64_EncodeToString src
  end.

(** [DecodeString]. *)
Fixpoint base64_DecodeString (s : bytes) : option bytes :=
  match s with
  | [] => Some []
  | a :: b :: c :: d :: s =>
      x ← b64_value a; y ← b64_value b;
      if decide (c = b64_pad /\ d = b64_pad) then
        match s with [] => Some [byte_of_Z (x * 4 + y / 16)] | _ => None end
      else
        z ← b64_value c;
        if decide (d = b64_pad) then
          match s with [] => Some [byte_of_Z (x * 4 + y / 16); byte_of_Z (y mod 16 * 16 + z / 4)] | _ => None end
        else
          w ← b64_value d; rest ← base64_DecodeString s;
          Some (byte_of_Z (x * 4 + y / 16) :: byte_of_Z (y mod 16 * 16 + z / 4) :: byte_of_Z (z mod 4 * 64 + w) :: rest)
  | _ => None
  end%Z.

Lemma b64_value_char i : (0 <= i < 64)%Z -> b64_value (b64_char i) = Some i.
Proof.
  intros Hi. assert (H : forallb (fun i => bool_decide (b64_value (b64_char i) = Some i)) (seqZ 0 64) = true) by (vm_compute; reflexivity).
  rewrite forallb_forall in H. specialize (H i). rewrite bool_decide_eq_true in H. apply H.
  apply list_elem_of_In, elem_of_seqZ. lia.
Qed.

Lemma b64_char_not_pad i : (0 <= i < 64)%Z -> b64_char i <> b64_pad.
Proof. intros Hi E. apply b64_value_char in Hi. rewrite E in Hi. discriminate Hi. Qed.

Lemma Z_of_byte_bound b : (0 <= Z_of_byte b < 256)%Z.
Proof. unfold Z_of_byte. pose proof (Byte.to_N_bounded b). lia. Qed.

Lemma byte_of_Z_eq b z : z = Z_of_byte b -> byte_of_Z z = b.
Proof.
  intros ->. pose proof (Z_of_byte_bound b). unfold byte_of_Z. rewrite Z.mod_small by done. unfold Z_of_byte.
  by rewrite N2Z.id, Byte.of_to_N.
Qed.

(** Linear arithmetic with division by constants. *)
Ltac div_lia := Z.to_euclidean_division_equations; lia.

Lemma base64_roundtrip s : base64_DecodeString (base64_EncodeToString s) = Some s.
Proof.
  remember (length s) as n eqn:Hn. assert (Hl : length s <= n) by lia. clear Hn. revert s Hl.
  induction n as [|n IH]; intros [|a s] Hl; try done; [simpl in Hl; lia|]. pose proof (Z_of_byte_bound a) as Ha.
  destruct s as [|b s].
  { cbn [base64_EncodeToString base64_DecodeString]. rewrite !b64_value_char by div_lia. cbn [mbind option_bind].
    rewrite decide_True by done. do 2 f_equal. apply byte_of_Z_eq. div_lia. }
  pose proof (Z_of_byte_bound b) as Hb. destruct s as [|c s].
  { cbn [base64_EncodeToString base64_DecodeString]. rewrite !b64_value_char by div_lia. cbn [mbind option_bind].
    rewrite decide_False by (intros [E _]; revert E; apply b64_char_not_pad; div_lia). rewrite decide_True by done.
    do 2 f_equal; [|f_equal]; apply byte_of_Z_eq; div_lia. }
  pose proof (Z_of_byte_bound c) as Hc. cbn [base64_EncodeToString base64_DecodeString]. rewrite !b64_value_char by div_lia.
  cbn [mbind option_bind].
  rewrite decide_False by (intros [E _]; revert E; apply b64_char_not_pad; div_lia).
  rewrite decide_False by (apply b64_char_not_pad; div_lia). rewrite IH by (simpl in Hl; lia). cbn [mbind option_bind].
  do 2 f_equal; [|f_equal; [|f_equal]]; apply byte_of_Z_eq; div_lia.
Qed.

(** ** Hexadecimal strings and truth values *)

Definition hex_digit (n : Z) : byte := byte_of_Z (if (n <? 10)%Z then 48 + n else 87 + n)%Z.
Definition hex_byte (b : byte) : bytes := [hex_digit (Z.shiftr (Z_of_byte b) 4); hex_digit (Z.land (Z_of_byte b) 15)].
(** [hex.EncodeToString]. *)
Definition hex_EncodeToString (src : bytes) : bytes := src ≫= hex_byte.

Lemma hex_decode_byte b s : hex_DecodeString (hex_byte b ++ s) = (try! rest := hex_DecodeString s in Ok (b :: rest)).
Proof. by destruct b. Qed.

Lemma hex_roundtrip s : hex_DecodeString (hex_EncodeToString s) = Ok s.
Proof.
  unfold hex_EncodeToString. induction s as [|b s IH]; [done|]. cbn [mbind list_bind]. by rewrite hex_decode_byte, IH.
Qed.

Lemma hex_DecodeString_no_panic s m : hex_DecodeString s <> Panic m.
Proof.
  remember (length s) as n eqn:Hn. revert s Hn. induction n as [n IH] using lt_wf_ind. intros [|p [|q s]] ->; [done| |].
  - simpl. by destruct (hex_value p).
  - cbn [hex_DecodeString]. destruct (hex_value p), (hex_value q); [|done..].
    specialize (IH (length s) ltac:(simpl; lia) s eq_refl). destruct (hex_DecodeString s); simpl; congruence.
Qed.

(** [strconv.ParseBool]. *)
Definition ParseBool (s : bytes) : result bool :=
  if decide (s ∈ lit <$> ["1"; "t"; "T"; "TRUE"; "true"; "True"]) then Ok true
  else if decide (s ∈ lit <$> ["0"; "f"; "F"; "FALSE"; "false"; "False"]) then Ok false
  else Err (New "invalid syntax").
(** [strconv.FormatBool]. *)
Definition FormatBool (b : bool) : bytes := lit (if b then "true" else "false").

Lemma ParseBool_FormatBool b : ParseBool (FormatBool b) = Ok b.
Proof. by destruct b. Qed.
