(* ===== verification/Url.v ===== *)
(** * Url: the query part of a URL

    What the RPC handler uses of Go's net/url: [ParseQuery], [Values.Has] and [Values.Get];
    and [QueryEscape], with which a client writes a query, with the round trip. *)
From stdpp Require Import base gmap strings vector sorting numbers list.
From S2P Require Import Prelude Strconv.

(** ** Separators *)

(** [strings.Cut(s, sep)] for a separator of one byte. *)
Fixpoint Cut (sep : byte) (s : bytes) : bytes * bytes :=
  match s with
  | [] => ([], [])
  | b :: s => if decide (b = sep) then ([], s) else let '(before, after) := Cut sep s in (b :: before, after)
  end.

Lemma Cut_found sep s s' : sep ∉ s -> Cut sep (s ++ sep :: s') = (s, s').
Proof.
  induction s as [|b s IH]; intros Hs; simpl; [by rewrite decide_True|].
  rewrite decide_False by set_solver. rewrite IH by set_solver. done.
Qed.

Lemma Cut_none sep s : sep ∉ s -> Cut sep s = (s, []).
Proof.
  induction s as [|b s IH]; intros Hs; simpl; [done|].
  rewrite decide_False by set_solver. rewrite IH by set_solver. done.
Qed.

(** The rest after a separator is shorter. *)
Lemma Cut_shorter sep s : s <> [] -> (length (Cut sep s).2 < length s)%nat.
Proof.
  induction s as [|b s IH]; [done|]. intros _. simpl. case_decide; simpl; [lia|].
  destruct s as [|b' s]; [simpl; lia|]. specialize (IH ltac:(done)). destruct (Cut sep (b' :: s)). simpl in *. lia.
Qed.

(** The text before and after the first [sep], if there is one. *)
Fixpoint cut_at (sep s : bytes) : option (bytes * bytes) :=
  if decide (sep `prefix_of` s) then Some ([], drop (length sep) s)
  else
    match s with
    | [] => None
    | b :: s => match cut_at sep s with Some (before, after) => Some (b :: before, after) | None => None end
    end.

(** [strings.Split(s, sep)]: every cut makes the rest shorter, so that the length is enough
    fuel; [strings.Join(l, sep)]. *)
Fixpoint split_fuel (fuel : nat) (sep s : bytes) : list bytes :=
  match fuel with
  | O => [s]
  | S fuel => match cut_at sep s with None => [s] | Some (before, after) => before :: split_fuel fuel sep after end
  end.
Definition Split (s sep : bytes) : list bytes := split_fuel (length s) sep s.
Fixpoint Join (l : list bytes) (sep : bytes) : bytes :=
  match l with
  | [] => []
  | [s] => s
  | s :: l => s ++ sep ++ Join l sep
  end.

(** A separator that starts with [b] is found after a text without [b]. *)
Lemma cut_at_found b sep s s' : b ∉ s -> cut_at (b :: sep) (s ++ b :: sep ++ s') = Some (s, s').
Proof.
  induction s as [|c s IH]; intros Hs; cbn [cut_at Datatypes.app].
  - rewrite decide_True by (exists s'; done). do 2 f_equal. apply (drop_app_length (b :: sep) s').
  - rewrite decide_False; [rewrite IH by set_solver; done|]. intros [k E]. simplify_eq. set_solver.
Qed.

Lemma cut_at_none c sep s : c ∈ sep -> c ∉ s -> cut_at sep s = None.
Proof.
  intros Hc. induction s as [|b s IH]; intros Hs; cbn [cut_at].
  - rewrite decide_False; [done|]. intros [k E]. destruct sep; [by apply elem_of_nil in Hc|done].
  - rewrite decide_False; [rewrite IH by set_solver; done|]. intros [k E]. apply Hs. rewrite E. set_solver.
Qed.

Lemma Split_none c sep s : c ∈ sep -> c ∉ s -> Split s sep = [s].
Proof. intros Hc Hs. unfold Split. destruct (length s); cbn [split_fuel]; [done|]. by rewrite (cut_at_none c). Qed.

Lemma split_fuel_Join b l fuel :
  l <> [] -> Forall (fun s => b ∉ s) l -> (length (Join l [b]) <= fuel)%nat -> split_fuel fuel [b] (Join l [b]) = l.
Proof.
  revert fuel. induction l as [|s l IH]; intros fuel Hl Hs Hf; [done|]. apply Forall_cons in Hs as [Hb Hs]. destruct l as [|s2 l].
  - cbn [Join]. destruct fuel; cbn [split_fuel]; [done|]. rewrite (cut_at_none b); [done|by left|done].
  - change (Join (s :: s2 :: l) [b]) with (s ++ b :: [] ++ Join (s2 :: l) [b]) in *. rewrite length_app in Hf. cbn [length Datatypes.app] in Hf.
    destruct fuel as [|fuel]; [lia|]. cbn [split_fuel]. rewrite cut_at_found by done. f_equal. apply IH; [done|done|]. lia.
Qed.

Lemma Split_Join b l : l <> [] -> Forall (fun s => b ∉ s) l -> Split (Join l [b]) [b] = l.
Proof. intros Hl Hs. unfold Split. by apply split_fuel_Join. Qed.

(** ** Escapes *)

Definition amp : byte := x26.
Definition semicolon : byte := x3b.
Definition equals : byte := x3d.

(** [QueryUnescape]: [%XX] is a byte, a plus is a space. *)
Fixpoint QueryUnescape (s : bytes) : result bytes :=
  match s with
  | [] => Ok []
  | x25 :: s =>
      match s with
      | p :: q :: s =>
          match hex_value p, hex_value q with
          | Some a, Some b => try! rest := QueryUnescape s in Ok (byte_of_Z (Z.lor (Z.shiftl a 4) b) :: rest)
          | _, _ => Err (New "invalid URL escape")
          end
      | _ => Err (New "invalid URL escape")
      end
  | x2b :: s => try! rest := QueryUnescape s in Ok (x20 :: rest)
  | b :: s => try! rest := QueryUnescape s in Ok (b :: rest)
  end.

(** The bytes that are written as they are: letters, digits and [-_.~]. *)
Definition unreserved (b : byte) : bool :=
  let n := Z_of_byte b in
  (((97 <=? n) && (n <=? 122)) || ((65 <=? n) && (n <=? 90)) || ((48 <=? n) && (n <=? 57))
   || (n =? 45) || (n =? 95) || (n =? 46) || (n =? 126))%Z%bool.

Definition upper_hex (n : Z) : byte := byte_of_Z (if (n <? 10)%Z then 48 + n else 55 + n)%Z.
Definition escape_byte (b : byte) : bytes :=
  if unreserved b then [b]
  else if decide (b = x20) then [x2b]
  else [x25; upper_hex (Z.shiftr (Z_of_byte b) 4); upper_hex (Z.land (Z_of_byte b) 15)].
Definition QueryEscape (s : bytes) : bytes := s ≫= escape_byte.

Lemma unescape_escape_byte b s : QueryUnescape (escape_byte b ++ s) = (try! rest := QueryUnescape s in Ok (b :: rest)).
Proof. by destruct b. Qed.

Lemma QueryUnescape_Escape s : QueryUnescape (QueryEscape s) = Ok s.
Proof.
  unfold QueryEscape. induction s as [|b s IH]; [done|]. cbn [mbind list_bind]. by rewrite unescape_escape_byte, IH.
Qed.

(** What an escaped string does not contain. *)
Lemma escape_clean b s : b ∈ QueryEscape s -> b <> amp /\ b <> semicolon /\ b <> equals.
Proof.
  unfold QueryEscape. intros (c & Hb & _)%list_elem_of_bind.
  assert (H : Forall (fun b => b <> amp /\ b <> semicolon /\ b <> equals) (escape_byte c)).
  { destruct c; vm_compute; repeat constructor; discriminate. }
  by apply (proj1 (Forall_forall _ _) H).
Qed.

Lemma escape_nonempty s : s <> [] -> QueryEscape s <> [].
Proof.
  destruct s as [|b s]; [done|]. intros _. unfold QueryEscape. cbn [mbind list_bind]. destruct b; done.
Qed.

(** ** Queries *)

(** [url.Values], the values in the order of the query. *)
Abbreviation Values := (list (bytes * bytes)).

Definition Has (v : Values) (key : bytes) : bool := bool_decide (key ∈ v.*1).
Fixpoint Get (v : Values) (key : bytes) : bytes :=
  match v with
  | [] => []
  | (k, x) :: v => if decide (k = key) then x else Get v key
  end.

(** One [key=value]: nothing for an empty one. *)
Definition parse_pair (key : bytes) : result (option (bytes * bytes)) :=
  if decide (semicolon ∈ key) then Err (New "invalid semicolon separator in query")
  else if decide (key = []) then Ok None
  else
    let '(key, value) := Cut equals key in
    try! key := QueryUnescape key in
    try! value := QueryUnescape value in
    Ok (Some (key, value)).

(** The error that [parseQuery] keeps: the first one, but a semicolon overwrites it. *)
Definition keep_error (err : option error) (key : bytes) (e : error) : option error :=
  match err with
  | Some e0 => if decide (semicolon ∈ key) then Some e else Some e0
  | None => Some e
  end.

(** [for query != ""]: the query gets shorter, its length is enough fuel. *)
Fixpoint parse_query (fuel : nat) (query : bytes) (m : Values) (err : option error) : Values * option error :=
  match fuel, query with
  | O, _ | _, [] => (m, err)
  | S fuel, _ =>
      let '(key, query) := Cut amp query in
      match parse_pair key with
      | Ok None => parse_query fuel query m err
      | Ok (Some kv) => parse_query fuel query (m ++ [kv]) err
      | Err e => parse_query fuel query m (keep_error err key e)
      | Panic _ => parse_query fuel query m err
      end
  end.

Definition ParseQuery (query : bytes) : Values * option error := parse_query (length query) query [] None.

(** A query as a client writes it. *)
Fixpoint Encode (v : Values) : bytes :=
  match v with
  | [] => []
  | [(k, x)] => QueryEscape k ++ equals :: QueryEscape x
  | (k, x) :: v => QueryEscape k ++ equals :: QueryEscape x ++ amp :: Encode v
  end.

Lemma parse_pair_escaped k x : k <> [] -> parse_pair (QueryEscape k ++ equals :: QueryEscape x) = Ok (Some (k, x)).
Proof.
  intros Hk. unfold parse_pair. rewrite decide_False.
  2: { rewrite elem_of_app, elem_of_cons. intros [H|[H|H]]; [|done|]; apply escape_clean in H; naive_solver. }
  rewrite decide_False by (by destruct (QueryEscape k)).
  rewrite Cut_found by (intros H; apply escape_clean in H; naive_solver).
  by rewrite !QueryUnescape_Escape.
Qed.

Lemma escaped_no_amp k x : amp ∉ QueryEscape k ++ equals :: QueryEscape x.
Proof. rewrite elem_of_app, elem_of_cons. intros [H|[H|H]]; [|done|]; apply escape_clean in H; naive_solver. Qed.

Lemma parse_query_Encode v fuel m err :
  Forall (fun kv => kv.1 <> []) v -> (length (Encode v) <= fuel)%nat -> parse_query fuel (Encode v) m err = (m ++ v, err).
Proof.
  revert fuel m. induction v as [|[k x] v IH]; intros fuel m Hv Hf.
  { rewrite app_nil_r. by destruct fuel. }
  apply Forall_cons in Hv as [Hk Hv]. simpl in Hk. pose proof (escaped_no_amp k x) as Hamp.
  pose proof (escape_nonempty k Hk) as Hne.
  destruct v as [|kv v].
  - cbn [Encode] in *. destruct fuel as [|fuel]; [rewrite length_app in Hf; simpl in Hf; lia|].
    cbn [parse_query]. rewrite Cut_none by done. rewrite parse_pair_escaped by done.
    destruct (QueryEscape k); [done|]. by destruct fuel.
  - assert (E : Encode ((k, x) :: kv :: v) = (QueryEscape k ++ equals :: QueryEscape x) ++ amp :: Encode (kv :: v)).
    { rewrite <- app_assoc. done. }
    rewrite E in Hf |- *. rewrite length_app in Hf. cbn [length] in Hf. destruct fuel as [|fuel]; [lia|].
    cbn [parse_query]. rewrite Cut_found, parse_pair_escaped, IH by (done || lia).
    destruct (QueryEscape k); [done|]. rewrite <- (app_assoc m). done.
Qed.

Lemma ParseQuery_Encode v : Forall (fun kv => kv.1 <> []) v -> ParseQuery (Encode v) = (v, None).
Proof. intros Hv. unfold ParseQuery. by rewrite parse_query_Encode. Qed.

(** The fuel is never used up. *)
Lemma parse_query_fuel fuel query m err :
  (length query <= fuel)%nat -> parse_query fuel query m err = parse_query (length query) query m err.
Proof.
  remember (length query) as n eqn:Hn. revert fuel query m err Hn.
  induction n as [n IH] using lt_wf_ind. intros fuel query m err -> Hf.
  destruct query as [|b query]; [by destruct fuel|]. destruct fuel as [|fuel]; [simpl in Hf; lia|].
  pose proof (Cut_shorter amp (b :: query) ltac:(done)) as Hs.
  change (length (b :: query)) with (S (length query)) in *. cbn [parse_query].
  destruct (Cut amp (b :: query)) as [key rest]. simpl in Hs.
  assert (H : forall m err, parse_query fuel rest m err = parse_query (length query) rest m err).
  { intros m' err'. rewrite (IH (length rest) ltac:(lia) fuel rest m' err' eq_refl ltac:(lia)).
    symmetry. apply (IH (length rest)); [lia|done|lia]. }
  destruct (parse_pair key) as [[kv|]|e|p]; apply H.
Qed.
