(* ===== verification/KVStore.v ===== *)
(** * KVStore: the key-value store interface and its two implementations

    Models store/kv.go (the [KVStore], [Batch] and [Iterator] interfaces),
    store/prefix.go ([PrefixKV]) and store/badger.go ([BadgerKV]).  The Badger
    database itself is third-party code: it is the parameter [Badger], and what
    the node relies on (transactions are atomic snapshots) is [BadgerLaws]. *)
From stdpp Require Import base gmap strings vector sorting numbers list.
From S2P Require Import Prelude.

(** [ErrKeyNotFound] of store/badger.go. *)
Definition ErrKeyNotFound : error := New "key not found".

(** An iterator is the sequence of items it still has to visit: a key, and what
    reading its value gives ([Value] of an item that cannot be read records the
    error that [Error] reports). *)
Abbreviation iterator := (list (bytes * result bytes)).

(** The [KVStore] interface with its [Batch]: [db] is the shared state behind
    the Go interface value, so two stores over one [db] alias each other. *)
Class KVStore := {
  db : Type;
  batch : Type;
  kv_get : db -> bytes -> result bytes;
  kv_set : bytes -> bytes -> M db unit;
  kv_delete : bytes -> M db unit;
  kv_new_batch : db -> batch;
  batch_set : bytes -> bytes -> M batch unit;
  batch_delete : bytes -> M batch unit;
  batch_commit : batch -> M db unit;
  batch_discard : batch -> batch;
  kv_prefix_iterator : db -> bytes -> iterator;
}.

(** ** What the interface promises *)

(** A pending operation of a batch. *)
Inductive kvop := OpSet (k v : bytes) | OpDelete (k : bytes).

Definition apply_op (m : gmap bytes bytes) (o : kvop) : gmap bytes bytes :=
  match o with OpSet k v => <[k:=v]> m | OpDelete k => delete k m end.

Definition apply_ops (ops : list kvop) (m : gmap bytes bytes) : gmap bytes bytes :=
  foldl apply_op m ops.

(** A write either happened or returned an error and changed nothing. *)
Definition write_spec {S V} (view : S -> V) (f : V -> V) (c : M S unit) : Prop :=
  forall s, (exists s', c s = (Ok tt, s') /\ view s' = f (view s)) \/
            (exists e s', c s = (Err e, s') /\ view s' = view s).

Class KVLaws (K : KVStore) := {
  kv_view : db -> gmap bytes bytes;
  batch_view : batch -> list kvop;
  kv_get_view d k :
    kv_get d k = match kv_view d !! k with Some v => Ok v | None => Err ErrKeyNotFound end;
  kv_set_view k v : write_spec kv_view <[k:=v]> (kv_set k v);
  kv_delete_view k : write_spec kv_view (delete k) (kv_delete k);
  kv_new_batch_view d : batch_view (kv_new_batch d) = [];
  batch_set_view k v : write_spec batch_view (fun ops => ops ++ [OpSet k v]) (batch_set k v);
  batch_delete_view k : write_spec batch_view (fun ops => ops ++ [OpDelete k]) (batch_delete k);
  batch_commit_view b : write_spec kv_view (apply_ops (batch_view b)) (batch_commit b);
}.

(** A store whose writes do not fail. *)
Class KVReliable (K : KVStore) := {
  kv_set_ok k v d : fst (kv_set k v d) = Ok tt;
  kv_delete_ok k d : fst (kv_delete k d) = Ok tt;
  batch_set_ok k v b : fst (batch_set k v b) = Ok tt;
  batch_delete_ok k b : fst (batch_delete k b) = Ok tt;
  batch_commit_ok b d : fst (batch_commit b d) = Ok tt;
}.

(** Iteration visits exactly the keys that start with the prefix; an iterator shows each
    key below [kv_base], the prefix of the stores that the store is part of. *)
Class KVIterLaws (K : KVStore) `{!KVLaws K} := {
  kv_base : bytes;
  kv_prefix_iterator_elem d p k r :
    (k, r) ∈ kv_prefix_iterator d p <->
    exists k' v, k = kv_base ++ k' /\ p `prefix_of` k' /\ r = Ok v /\ kv_view d !! k' = Some v;
  kv_prefix_iterator_nodup d p : NoDup (kv_prefix_iterator d p).*1;
}.
Arguments kv_base K {_ _}.

(** ** Reference implementation: a map in memory *)

Section ByteOrder.
(** Badger's key order: lexicographic on bytes. *)
Fixpoint bytes_leb (a b : bytes) : bool :=
  match a, b with
  | [], _ => true
  | _ :: _, [] => false
  | x :: a, y :: b =>
      (Z_of_byte x <? Z_of_byte y)%Z || (bool_decide (x = y) && bytes_leb a b)
  end.

Definition key_le {V} (p q : bytes * V) : Prop := bytes_leb (fst p) (fst q) = true.

#[global] Instance key_le_dec {V} : RelDecision (@key_le V).
Proof. intros p q. unfold key_le. apply _. Defined.
End ByteOrder.

(** The entries of [m] whose key starts with [p], in key order. *)
Definition map_range (p : bytes) (m : gmap bytes bytes) : list (bytes * bytes) :=
  merge_sort key_le (filter (fun kv => p `prefix_of` kv.1) (map_to_list m)).

Definition MemKV : KVStore := {|
  db := gmap bytes bytes;
  batch := list kvop;
  kv_get d k := match d !! k with Some v => Ok v | None => Err ErrKeyNotFound end;
  kv_set k v := modify <[k:=v]>;
  kv_delete k := modify (delete k);
  kv_new_batch _ := [];
  batch_set k v := modify (fun b => b ++ [OpSet k v]);
  batch_delete k := modify (fun b => b ++ [OpDelete k]);
  batch_commit b := modify (apply_ops b);
  batch_discard _ := [];
  kv_prefix_iterator d p := (fun kv => (kv.1, Ok kv.2)) <$> map_range p d;
|}.

(** ** PrefixKV (store/prefix.go) *)

Section PrefixKV.
Context (K : KVStore) (prefix : bytes).

(** [PrefixKV.Get]. *)
Definition prefix_get (d : db) (key : bytes) : result bytes := kv_get d (prefix ++ key).
(** [PrefixKV.Set]. *)
Definition prefix_set (key value : bytes) : M db unit := kv_set (prefix ++ key) value.
(** [PrefixKV.Delete]. *)
Definition prefix_delete (key : bytes) : M db unit := kv_delete (prefix ++ key).
(** [PrefixKV.NewBatch]. *)
Definition prefix_new_batch (d : db) : batch := kv_new_batch d.
(** [PrefixKV.PrefixIterator]: the items keep the full key of the store below. *)
Definition prefix_prefix_iterator (d : db) (p : bytes) : iterator :=
  kv_prefix_iterator d (prefix ++ p).
(** [PrefixKVBatch.Set]. *)
Definition prefix_batch_set (key value : bytes) : M batch unit := batch_set (prefix ++ key) value.
(** [PrefixKVBatch.Delete]. *)
Definition prefix_batch_delete (key : bytes) : M batch unit := batch_delete (prefix ++ key).
(** [PrefixKVBatch.Commit]. *)
Definition prefix_batch_commit (b : batch) : M db unit := batch_commit b.
(** [PrefixKVBatch.Discard]. *)
Definition prefix_batch_discard (b : batch) : batch := batch_discard b.

(** [NewPrefixKV(kv, prefix)]. *)
Definition PrefixKV : KVStore := {|
  kv_get := prefix_get;
  kv_set := prefix_set;
  kv_delete := prefix_delete;
  kv_new_batch := prefix_new_batch;
  batch_set := prefix_batch_set;
  batch_delete := prefix_batch_delete;
  batch_commit := prefix_batch_commit;
  batch_discard := prefix_batch_discard;
  kv_prefix_iterator := prefix_prefix_iterator;
|}.
End PrefixKV.

(** ** BadgerKV (store/badger.go) *)

(** The third-party Badger database: a store of versions and the transactions
    opened on it.  [txn_items t p] is what an iterator of [t] visits after
    [Seek(p)]: the keys from [p] on, with the outcome of [ValueCopy]. *)
Class Badger := {
  badger_db : Type;
  badger_txn : Type;
  NewTransaction : badger_db -> bool -> badger_txn;
  txn_get : badger_txn -> bytes -> result bytes;
  txn_set : bytes -> bytes -> M badger_txn unit;
  txn_delete : bytes -> M badger_txn unit;
  txn_commit : badger_txn -> M badger_db unit;
  txn_discard : badger_txn -> badger_txn;
  txn_items : badger_txn -> bytes -> iterator;
  badger_ErrKeyNotFound : error;
}.

(** The items an iterator delivers while [ValidForPrefix] holds. *)
Fixpoint take_prefix (p : bytes) (items : iterator) : iterator :=
  match items with
  | [] => []
  | (k, r) :: items => if decide (p `prefix_of` k) then (k, r) :: take_prefix p items else []
  end.

Section BadgerKV.
Context `{Bg : Badger}.

(** [BadgerKV.Get]. *)
Definition badger_get (d : badger_db) (key : bytes) : result bytes :=
  let txn := NewTransaction d false in
  match txn_get txn key with
  | Err e => if decide (e = badger_ErrKeyNotFound) then Err ErrKeyNotFound else Err e
  | r => r
  end.

(** [BadgerKV.Set]. *)
Definition badger_set (key value : bytes) : M badger_db unit := fun d =>
  let txn := NewTransaction d true in
  match txn_set key value txn with
  | (Ok _, txn) => txn_commit txn d
  | (Err e, _) => (Err e, d)
  | (Panic m, _) => (Panic m, d)
  end.

(** [BadgerKV.Delete]. *)
Definition badger_delete (key : bytes) : M badger_db unit := fun d =>
  let txn := NewTransaction d true in
  match txn_delete key txn with
  | (Ok _, txn) => txn_commit txn d
  | (Err e, _) => (Err e, d)
  | (Panic m, _) => (Panic m, d)
  end.

(** [BadgerKV.NewBatch]. *)
Definition badger_new_batch (d : badger_db) : badger_txn := NewTransaction d true.
(** [BadgerBatch.Set]. *)
Definition badger_batch_set (key value : bytes) : M badger_txn unit := txn_set key value.
(** [BadgerBatch.Delete]. *)
Definition badger_batch_delete (key : bytes) : M badger_txn unit := txn_delete key.
(** [BadgerBatch.Commit]. *)
Definition badger_batch_commit (b : badger_txn) : M badger_db unit := txn_commit b.
(** [BadgerBatch.Discard]. *)
Definition badger_batch_discard (b : badger_txn) : badger_txn := txn_discard b.
(** [BadgerKV.PrefixIterator] with [BadgerIterator]'s [Valid], [Next], [Key]
    and [Value]: seek to the prefix, go on while the key starts with it. *)
Definition badger_prefix_iterator (d : badger_db) (p : bytes) : iterator :=
  take_prefix p (txn_items (NewTransaction d false) p).

Definition BadgerKV : KVStore := {|
  kv_get := badger_get;
  kv_set := badger_set;
  kv_delete := badger_delete;
  kv_new_batch := badger_new_batch;
  batch_set := badger_batch_set;
  batch_delete := badger_batch_delete;
  batch_commit := badger_batch_commit;
  batch_discard := badger_batch_discard;
  kv_prefix_iterator := badger_prefix_iterator;
|}.

(** What Badger documents: a read-only transaction reads the database as it
    is; writes are kept in the transaction until [Commit], which applies them
    all or none. *)
Class BadgerLaws := {
  badger_view : badger_db -> gmap bytes bytes;
  txn_writes : badger_txn -> list kvop;
  txn_get_view d k :
    txn_get (NewTransaction d false) k
    = match badger_view d !! k with Some v => Ok v | None => Err badger_ErrKeyNotFound end;
  new_txn_writes d rw : txn_writes (NewTransaction d rw) = [];
  txn_set_writes k v : write_spec txn_writes (fun ops => ops ++ [OpSet k v]) (txn_set k v);
  txn_delete_writes k : write_spec txn_writes (fun ops => ops ++ [OpDelete k]) (txn_delete k);
  txn_commit_view t : write_spec badger_view (apply_ops (txn_writes t)) (txn_commit t);
}.
End BadgerKV.
Arguments BadgerKV Bg : clear implicits.
Arguments BadgerLaws Bg : clear implicits.

(** ** Lemmas: writes *)

Lemma write_spec_ok {S V} (view : S -> V) f c s u s' :
  write_spec view f c -> c s = (Ok u, s') -> view s' = f (view s).
Proof. intros H E. destruct (H s) as [(s1 & E1 & ?)|(e & s1 & E1 & ?)]; rewrite E in E1; by simplify_eq. Qed.

Lemma write_spec_err {S V} (view : S -> V) f c s e s' :
  write_spec view f c -> c s = (Err e, s') -> view s' = view s.
Proof. intros H E. destruct (H s) as [(s1 & E1 & ?)|(e' & s1 & E1 & ?)]; rewrite E in E1; by simplify_eq. Qed.

Lemma write_spec_no_panic {S V} (view : S -> V) f c s m s' :
  write_spec view f c -> c s <> (Panic m, s').
Proof. intros H E. destruct (H s) as [(s1 & E1 & ?)|(e' & s1 & E1 & ?)]; rewrite E in E1; by simplify_eq. Qed.

Lemma write_spec_run {S V} (view : S -> V) f c s :
  write_spec view f c ->
  run_spec (c s) (fun _ s' => view s' = f (view s)) (fun _ s' => view s' = view s).
Proof. intros H. destruct (H s) as [(s1 & -> & ?)|(e & s1 & -> & ?)]; done. Qed.

Lemma write_spec_modify {S V} (view : S -> V) f g :
  (forall s, view (g s) = f (view s)) -> write_spec view f (modify g).
Proof. intros H s. left. eexists. split; [reflexivity|apply H]. Qed.

(** A write specification seen through a coarser view. *)
Lemma write_spec_view {S V W} (view : S -> V) (coarse : V -> W) f g c :
  (forall v, coarse (f v) = g (coarse v)) ->
  write_spec view f c -> write_spec (coarse ∘ view) g c.
Proof.
  intros Hfg H s. unfold compose. destruct (H s) as [(s1 & E & Hv)|(e & s1 & E & Hv)].
  - left. eexists. split; [done|]. by rewrite Hv, Hfg.
  - right. do 2 eexists. split; [done|]. by rewrite Hv.
Qed.

Lemma apply_ops_app ops1 ops2 m : apply_ops (ops1 ++ ops2) m = apply_ops ops2 (apply_ops ops1 m).
Proof. apply foldl_app. Qed.

#[export] Instance MemKV_laws : KVLaws MemKV.
Proof.
  refine {| kv_view := (fun d : @db MemKV => d); batch_view := (fun b : @batch MemKV => b) |};
    intros; try done; by apply write_spec_modify.
Defined.

#[export] Instance MemKV_reliable : KVReliable MemKV.
Proof. by split. Qed.

#[export] Instance MemKV_iter_laws : KVIterLaws MemKV.
Proof.
  refine {| kv_base := [] |}.
  - intros d p k r. simpl. rewrite list_elem_of_fmap. unfold map_range.
    setoid_rewrite merge_sort_Permutation. setoid_rewrite list_elem_of_filter. split.
    + intros ([k' v] & ? & Hp & Hin). simplify_eq/=.
      apply elem_of_map_to_list in Hin. eauto 10.
    + intros (k' & v & -> & Hp & -> & Hv). exists (k', v). split; [done|]. split; [done|].
      by apply elem_of_map_to_list.
  - intros d p. simpl. rewrite <- list_fmap_compose. unfold map_range, compose. simpl.
    rewrite merge_sort_Permutation.
    eapply (NoDup_fmap_fst (A:=bytes) (B:=bytes)).
    + intros x y1 y2. rewrite !list_elem_of_filter, !elem_of_map_to_list. naive_solver.
    + apply NoDup_filter, NoDup_map_to_list.
Defined.

(** ** PrefixKV implements the interface *)

Fixpoint strip (p k : bytes) : option bytes :=
  match p, k with
  | [], _ => Some k
  | a :: p, b :: k => if decide (a = b) then strip p k else None
  | _ :: _, [] => None
  end.

Lemma strip_Some p k k' : strip p k = Some k' <-> k = p ++ k'.
Proof.
  revert k. induction p as [|a p IH]; intros [|b k]; simpl; [naive_solver..|].
  case_decide; subst; rewrite ?IH; naive_solver.
Qed.

Lemma strip_app p k : strip p (p ++ k) = Some k.
Proof. by apply strip_Some. Qed.

(** The part of a map that lies under a prefix. *)
Definition sub_map (p : bytes) (m : gmap bytes bytes) : gmap bytes bytes :=
  map_fold (fun k v acc => match strip p k with Some k' => <[k':=v]> acc | None => acc end) ∅ m.

Lemma lookup_sub_map p m k : sub_map p m !! k = m !! (p ++ k).
Proof.
  revert k. unfold sub_map.
  apply (map_fold_weak_ind (fun acc m => forall k, acc !! k = m !! (p ++ k))).
  { intros k. by rewrite !lookup_empty. }
  intros i x m' acc Hi IH k. destruct (strip p i) as [k'|] eqn:E.
  - apply strip_Some in E as ->. rewrite !lookup_insert, IH.
    repeat case_decide; naive_solver.
  - rewrite IH, lookup_insert_ne; [done|]. intros ->. by rewrite strip_app in E.
Qed.

Lemma sub_map_insert p k v m : sub_map p (<[p ++ k := v]> m) = <[k := v]> (sub_map p m).
Proof.
  apply map_eq. intros i. rewrite lookup_sub_map, !lookup_insert, lookup_sub_map.
  repeat case_decide; naive_solver.
Qed.

Lemma sub_map_delete p k m : sub_map p (delete (p ++ k) m) = delete k (sub_map p m).
Proof.
  apply map_eq. intros i. rewrite lookup_sub_map, !lookup_delete, lookup_sub_map.
  repeat case_decide; naive_solver.
Qed.

Lemma sub_map_insert_other p q k v m :
  ~ p `prefix_of` q -> ~ q `prefix_of` p -> sub_map q (<[p ++ k := v]> m) = sub_map q m.
Proof.
  intros Hpq Hqp. apply map_eq. intros i. rewrite !lookup_sub_map, lookup_insert_ne; [done|].
  intros E. destruct (prefix_weak_total p q (q ++ i)); [rewrite <- E; by apply prefix_app_r| |done..].
  by apply prefix_app_r.
Qed.

Lemma sub_map_delete_other p q k m :
  ~ p `prefix_of` q -> ~ q `prefix_of` p -> sub_map q (delete (p ++ k) m) = sub_map q m.
Proof.
  intros Hpq Hqp. apply map_eq. intros i. rewrite !lookup_sub_map, lookup_delete_ne; [done|].
  intros E. destruct (prefix_weak_total p q (q ++ i)); [rewrite <- E; by apply prefix_app_r| |done..].
  by apply prefix_app_r.
Qed.

(** An operation of the store below, seen under the prefix. *)
Definition sub_op (p : bytes) (o : kvop) : option kvop :=
  match o with
  | OpSet k v => (fun k => OpSet k v) <$> strip p k
  | OpDelete k => OpDelete <$> strip p k
  end.

Lemma sub_map_apply_op_None p o m :
  sub_op p o = None -> sub_map p (apply_op m o) = sub_map p m.
Proof.
  intros E. apply map_eq. intros i. rewrite !lookup_sub_map.
  destruct o as [k v|k]; simpl in *; apply fmap_None in E.
  - rewrite lookup_insert_ne; [done|]. intros ->. by rewrite strip_app in E.
  - rewrite lookup_delete_ne; [done|]. intros ->. by rewrite strip_app in E.
Qed.

Lemma sub_map_apply_op_Some p o o' m :
  sub_op p o = Some o' -> sub_map p (apply_op m o) = apply_op (sub_map p m) o'.
Proof.
  intros E. destruct o as [k v|k]; simpl in *; apply fmap_Some in E as (k' & E & ->);
    apply strip_Some in E as ->; simpl; [apply sub_map_insert|apply sub_map_delete].
Qed.

Lemma sub_map_apply_ops p ops m :
  sub_map p (apply_ops ops m) = apply_ops (omap (sub_op p) ops) (sub_map p m).
Proof.
  revert m. induction ops as [|o ops IH]; intros m; [done|].
  cbn [apply_ops foldl]. fold (apply_ops ops (apply_op m o)). rewrite IH. simpl.
  destruct (sub_op p o) as [o'|] eqn:E.
  - by rewrite (sub_map_apply_op_Some _ _ _ _ E).
  - by rewrite (sub_map_apply_op_None _ _ _ E).
Qed.

#[export] Instance PrefixKV_laws K `{!KVLaws K} p : KVLaws (PrefixKV K p).
Proof.
  refine {| kv_view := (sub_map p ∘ @kv_view K _ : @db (PrefixKV K p) -> _);
            batch_view := (omap (sub_op p) ∘ @batch_view K _ : @batch (PrefixKV K p) -> _) |}.
  - intros d k. cbn. unfold prefix_get. rewrite kv_get_view. unfold compose. by rewrite lookup_sub_map.
  - intros k v. exact (write_spec_view (@kv_view K _) (sub_map p) _ _ _
      (fun m => sub_map_insert p k v m) (kv_set_view (p ++ k) v)).
  - intros k. exact (write_spec_view (@kv_view K _) (sub_map p) _ _ _
      (fun m => sub_map_delete p k m) (kv_delete_view (p ++ k))).
  - intros d. unfold compose. cbn. unfold prefix_new_batch. by rewrite kv_new_batch_view.
  - intros k v. refine (write_spec_view batch_view (omap (sub_op p)) _ _ _ _ (batch_set_view (p ++ k) v)).
    intros ops. rewrite omap_app. simpl. by rewrite strip_app.
  - intros k. refine (write_spec_view batch_view (omap (sub_op p)) _ _ _ _ (batch_delete_view (p ++ k))).
    intros ops. rewrite omap_app. simpl. by rewrite strip_app.
  - intros b. exact (write_spec_view (@kv_view K _) (sub_map p) _ _ _
      (sub_map_apply_ops p (@batch_view K _ b)) (@batch_commit_view K _ b)).
Defined.

#[export] Instance PrefixKV_reliable K `{!KVReliable K} p : KVReliable (PrefixKV K p).
Proof.
  split; intros; cbn;
    [apply kv_set_ok|apply kv_delete_ok|apply batch_set_ok|apply batch_delete_ok|apply batch_commit_ok].
Qed.

#[export] Instance PrefixKV_iter_laws K `{!KVLaws K} `{!KVIterLaws K} p : KVIterLaws (PrefixKV K p).
Proof.
  refine {| kv_base := kv_base K ++ p |}.
  - intros d q k r. cbn. unfold prefix_prefix_iterator, compose. rewrite kv_prefix_iterator_elem. split.
    + intros (k' & v & -> & [l ->] & -> & Hv). exists (q ++ l), v. rewrite <- !app_assoc, lookup_sub_map.
      rewrite <- app_assoc in Hv. split_and!; [done|by exists l|done|done].
    + intros (k' & v & -> & [l ->] & -> & Hv). rewrite lookup_sub_map in Hv. exists (p ++ q ++ l), v.
      rewrite <- !app_assoc. split_and!; [done|by exists l; rewrite app_assoc|done|done].
  - intros d q. apply (@kv_prefix_iterator_nodup K _ _).
Defined.

(** ** BadgerKV implements the interface *)

#[export] Instance BadgerKV_laws Bg (L : BadgerLaws Bg) : KVLaws (BadgerKV Bg).
Proof.
  refine {| kv_view := (badger_view : @db (BadgerKV Bg) -> _);
            batch_view := (txn_writes : @batch (BadgerKV Bg) -> _) |}.
  - intros d k. cbn. unfold badger_get. rewrite txn_get_view.
    destruct (badger_view d !! k); [done|]. by rewrite decide_True.
  - intros k v d. cbn. unfold badger_set.
    destruct (txn_set_writes k v (NewTransaction d true)) as [(t & -> & Ht)|(e & t & -> & _)];
      [|right; eauto].
    destruct (txn_commit_view t d) as [(d' & -> & Hd)|(e & d' & -> & Hd)]; [left|right; eauto].
    eexists. split; [done|]. by rewrite Hd, Ht, new_txn_writes.
  - intros k d. cbn. unfold badger_delete.
    destruct (txn_delete_writes k (NewTransaction d true)) as [(t & -> & Ht)|(e & t & -> & _)];
      [|right; eauto].
    destruct (txn_commit_view t d) as [(d' & -> & Hd)|(e & d' & -> & Hd)]; [left|right; eauto].
    eexists. split; [done|]. by rewrite Hd, Ht, new_txn_writes.
  - intros d. apply new_txn_writes.
  - intros k v. apply txn_set_writes.
  - intros k. apply txn_delete_writes.
  - intros b. apply txn_commit_view.
Defined.
