(* ===== verification/Types.v ===== *)
(** * Types: blocks, commits, states and their validation

    Models types/block.go, types/state.go, types/batch.go, types/sequencer.go,
    types/tx.go, types/validation.go and types/hashing.go.  Tendermint's own types
    are outside the program: class [Tendermint] lists the operations the code
    calls. *)
From stdpp Require Import base gmap strings vector sorting numbers list.
From S2P Require Import Prelude.

Abbreviation hash32 := (vec byte 32).
Definition zero_hash : hash32 := Vector.const Byte.x00 32.

(** ** Tendermint data the code reads and builds *)

(** [tmversion.Consensus], and types.Version, which has the same two fields. *)
Record Version := { ver_Block : Z; ver_App : Z }.

(** [tmtypes.BlockID] with its [PartSetHeader]. *)
Record BlockID := { bid_Hash : bytes; bid_Total : Z; bid_PartHash : bytes }.

(** [tmtypes.Header] and [tmproto.Header], which have the same fields; times are
    nanoseconds since the epoch. *)
Record ABCIHeader := {
  ah_Version : Version;
  ah_Height : Z;
  ah_Time : Z;
  ah_LastBlockID : BlockID;
  ah_LastCommitHash : bytes;
  ah_DataHash : bytes;
  ah_ValidatorsHash : bytes;
  ah_NextValidatorsHash : bytes;
  ah_ConsensusHash : bytes;
  ah_AppHash : bytes;
  ah_LastResultsHash : bytes;
  ah_EvidenceHash : bytes;
  ah_ProposerAddress : bytes;
  ah_ChainID : string;
}.

(** [tmtypes.CommitSig]. *)
Record CommitSig := {
  cs_BlockIDFlag : byte;
  cs_ValidatorAddress : bytes;
  cs_Timestamp : Z;
  cs_Signature : bytes;
}.

(** [tmtypes.Commit]. *)
Record ABCICommit := {
  ac_Height : Z;
  ac_Round : Z;
  ac_BlockID : BlockID;
  ac_Signatures : list CommitSig;
}.

(** [tmproto.ConsensusParams]. *)
Record ConsensusParams := {
  cp_Block_MaxBytes : Z;
  cp_Block_MaxGas : Z;
  cp_Evidence_MaxAgeNumBlocks : Z;
  cp_Evidence_MaxAgeDuration : Z;
  cp_Evidence_MaxBytes : Z;
  cp_Validator_PubKeyTypes : list string;
  cp_Version_AppVersion : Z;
}.

(** [abci.EventAttribute] and [abci.Event]. *)
Record EventAttribute := { attr_Key : bytes; attr_Value : bytes; attr_Index : bool }.
Record ABCIEvent := { event_Type : bytes; event_Attributes : list EventAttribute }.

(** [abci.ResponseBeginBlock], [abci.ResponseDeliverTx] and [abci.ResponseEndBlock]: the
    fields the node looks at, the others as they are on the wire. *)
Record ResponseBeginBlock := { bb_Events : list ABCIEvent }.
Record ResponseDeliverTx := { dtx_Code : Z; dtx_Events : list ABCIEvent; dtx_Rest : bytes }.
Record ResponseEndBlock := { eb_Events : list ABCIEvent; eb_Rest : bytes }.

(** [tmstate.ABCIResponses]. *)
Record ABCIResponses := {
  rs_DeliverTxs : list ResponseDeliverTx;
  rs_BeginBlock : ResponseBeginBlock;
  rs_EndBlock : ResponseEndBlock;
}.

(** [tmtypes.GenesisDoc]. *)
Record GenesisDoc := {
  gd_GenesisTime : Z;
  gd_ChainID : string;
  gd_InitialHeight : Z;
  gd_ConsensusParams : option ConsensusParams;
  gd_AppHash : bytes;
  gd_AppState : bytes;
}.

(** Tendermint and cosmos-sdk operations used by the program. *)
Class Tendermint := {
  PubKey : Type;
  VerifySignature : PubKey -> bytes -> bytes -> bool;
  MaxSignatureSize : nat;
  header_hash : ABCIHeader -> bytes;
  header_marshal : ABCIHeader -> result bytes;
  empty_evidence_hash : bytes;
  commit_hash : ABCICommit -> bytes;
  txs_hash : list bytes -> bytes;
  results_hash : list ResponseDeliverTx -> bytes;
  empty_merkle_hash : bytes;
  Validator : Type;
  ValidatorSet : Type;
  NewValidatorSet : list Validator -> ValidatorSet;
  vs_Validators : ValidatorSet -> list Validator;
  vs_Hash : ValidatorSet -> bytes;
  vs_IncrementProposerPriority : ValidatorSet -> Z -> ValidatorSet;
  vs_UpdateWithChangeSet : ValidatorSet -> list Validator -> result ValidatorSet;
  PbValidatorSet : Type;
  vs_ToProto : ValidatorSet -> result PbValidatorSet;
  vs_FromProto : PbValidatorSet -> result ValidatorSet;
  block_id_from_proto : BlockID -> result BlockID;
  BlockProtocol : Z;
  TMCoreSemVer : string;
  ValidateAndComplete : GenesisDoc -> result GenesisDoc;
}.

(** ** The node's own types *)

Abbreviation Tx := bytes.
Abbreviation Signature := bytes.

(** types/block.go: [Header]. *)
Record Header := {
  hdr_Version : Version;
  hdr_NamespaceID : vec byte 8;
  hdr_Height : Z;
  hdr_Time : Z;
  hdr_LastHeaderHash : hash32;
  hdr_LastCommitHash : hash32;
  hdr_DataHash : hash32;
  hdr_ConsensusHash : hash32;
  hdr_AppHash : hash32;
  hdr_LastResultsHash : hash32;
  hdr_ProposerAddress : bytes;
  hdr_AggregatorsHash : hash32;
  hdr_ChainID : string;
}.

(** types/evidence.go: [Evidence] is an interface with no implementation; the
    code only calls its [ABCI] method. *)
Record Evidence := { ev_ABCI : list bytes }.

(** types/block.go: [Data], with [EvidenceData] and [IntermediateStateRoots]. *)
Record Data := {
  data_Txs : list Tx;
  data_RawRootsList : list bytes;
  data_Evidence : list Evidence;
}.

(** types/block.go: [Commit]. *)
Record Commit := {
  cm_Height : Z;
  cm_HeaderHash : hash32;
  cm_Signatures : list Signature;
  cm_TMSignature : CommitSig;
}.

(** types/block.go: [Block]. *)
Record Block := {
  blk_Header : Header;
  blk_Data : Data;
  blk_LastCommit : Commit;
}.

(** types/batch.go: [Batch]. *)
Record Batch := {
  bt_StartHeight : Z;
  bt_EndHeight : Z;
  bt_Blocks : list Block;
  bt_Commits : list Commit;
}.

(** types/sequencer.go. *)
Inductive SequencerStatus := Proposer | Inactive.

#[global] Instance SequencerStatus_eq_dec : EqDecision SequencerStatus.
Proof. solve_decision. Defined.

Record Sequencer `{Tendermint} := { seq_PublicKey : PubKey; seq_Status : SequencerStatus }.

(** types/state.go: [State]. *)
Record State `{Tendermint} := {
  st_Version : Version;
  st_Software : string;
  st_ChainID : string;
  st_InitialHeight : Z;
  st_LastBlockHeight : Z;
  st_LastBlockID : BlockID;
  st_LastBlockTime : Z;
  st_SLStateIndex : Z;
  st_NextValidators : ValidatorSet;
  st_Validators : ValidatorSet;
  st_LastValidators : ValidatorSet;
  st_LastHeightValidatorsChanged : Z;
  st_ConsensusParams : ConsensusParams;
  st_LastHeightConsensusParamsChanged : Z;
  st_LastResultsHash : hash32;
  st_LastStoreHeight : Z;
  st_BaseHeight : Z;
  st_AppHash : hash32;
}.

(** types/errors.go. *)
Definition ErrInvalidSignature : error := New "invalid signature".
Definition ErrNoStateFound : error := New "no state found".
Definition ErrSkippedEmptyBlock : error := New "skipped empty block".

(** ** Zero values *)

(** [time.Time{}]: midnight of January 1st of year 1, UTC. *)
Definition zero_time : Z := (-62135596800 * 10 ^ 9)%Z.
Definition zero_CommitSig : CommitSig :=
  {| cs_BlockIDFlag := Byte.x00; cs_ValidatorAddress := []; cs_Timestamp := zero_time; cs_Signature := [] |}.
Definition zero_Commit : Commit :=
  {| cm_Height := 0; cm_HeaderHash := zero_hash; cm_Signatures := []; cm_TMSignature := zero_CommitSig |}.
Definition zero_Header : Header :=
  {| hdr_Version := {| ver_Block := 0; ver_App := 0 |}; hdr_NamespaceID := Vector.const Byte.x00 8;
     hdr_Height := 0; hdr_Time := 0; hdr_LastHeaderHash := zero_hash; hdr_LastCommitHash := zero_hash;
     hdr_DataHash := zero_hash; hdr_ConsensusHash := zero_hash; hdr_AppHash := zero_hash;
     hdr_LastResultsHash := zero_hash; hdr_ProposerAddress := []; hdr_AggregatorsHash := zero_hash;
     hdr_ChainID := "" |}.
Definition zero_Data : Data := {| data_Txs := []; data_RawRootsList := []; data_Evidence := [] |}.
Definition zero_Block : Block :=
  {| blk_Header := zero_Header; blk_Data := zero_Data; blk_LastCommit := zero_Commit |}.

Section Types.
Context `{Tendermint}.

(** ** Validation (types/validation.go) *)

Definition Header_ValidateBasic (h : Header) : result unit :=
  if decide (length (hdr_ProposerAddress h) = 0) then Err (New "no proposer address") else Ok tt.

Definition Data_ValidateBasic (d : Data) : result unit := Ok tt.

Definition Commit_ValidateBasic (c : Commit) : result unit :=
  if (0 <? cm_Height c)%Z then
    if decide (length (cm_Signatures c) = 1) then
      try! sig0 := index (cm_Signatures c) 0 in
      if decide (MaxSignatureSize < length sig0) then Err (New "signature is too big") else Ok tt
    else Err (New "there should be 1 signature")
  else Ok tt.

Definition Block_ValidateBasic (b : Block) : result unit :=
  try! _ := Header_ValidateBasic (blk_Header b) in
  try! _ := Data_ValidateBasic (blk_Data b) in
  try! _ := Commit_ValidateBasic (blk_LastCommit b) in
  Ok tt.

(** [Commit.Validate]: [proposer] is a pointer that [GetProposer] may return nil. *)
Definition Commit_Validate (c : Commit) (proposer : option Sequencer) (msg : bytes) : result unit :=
  try! _ := Commit_ValidateBasic c in
  try! p := deref proposer in
  try! sig0 := index (cm_Signatures c) 0 in
  if VerifySignature (seq_PublicKey p) msg sig0 then Ok tt else Err ErrInvalidSignature.

(** ** Hashing (types/hashing.go) *)

(** The ABCI header [Header.Hash] builds. *)
Definition Header_abci (h : Header) : ABCIHeader := {|
  ah_Version := {| ver_Block := ver_Block (hdr_Version h); ver_App := ver_App (hdr_Version h) |};
  ah_Height := i64 (hdr_Height h);
  ah_Time := i64 (hdr_Time h);
  ah_LastBlockID := {| bid_Hash := hdr_LastHeaderHash h; bid_Total := 1;
                       bid_PartHash := hdr_LastHeaderHash h |};
  ah_LastCommitHash := hdr_LastCommitHash h;
  ah_DataHash := hdr_DataHash h;
  ah_ValidatorsHash := hdr_AggregatorsHash h;
  ah_NextValidatorsHash := hdr_AggregatorsHash h;
  ah_ConsensusHash := hdr_ConsensusHash h;
  ah_AppHash := hdr_AppHash h;
  ah_LastResultsHash := hdr_LastResultsHash h;
  ah_EvidenceHash := empty_evidence_hash;
  ah_ProposerAddress := hdr_ProposerAddress h;
  ah_ChainID := hdr_ChainID h;
|}.

Definition Header_Hash (h : Header) : hash32 := copy_into zero_hash (header_hash (Header_abci h)).

Definition Block_Hash (b : Block) : hash32 := Header_Hash (blk_Header b).

(** ** Genesis (types/state.go) *)

Definition InitStateVersion : Version := {| ver_Block := BlockProtocol; ver_App := 0 |}.

Definition NewFromGenesisDoc (genDoc : GenesisDoc) : result State :=
  try! genDoc := result_wrap "error in genesis doc" (ValidateAndComplete genDoc) in
  try! params := deref (gd_ConsensusParams genDoc) in
  Ok {| st_Version := InitStateVersion;
        st_Software := TMCoreSemVer;
        st_ChainID := gd_ChainID genDoc;
        st_InitialHeight := gd_InitialHeight genDoc;
        st_LastBlockHeight := 0;
        st_LastBlockID := {| bid_Hash := []; bid_Total := 0; bid_PartHash := [] |};
        st_LastBlockTime := gd_GenesisTime genDoc;
        st_SLStateIndex := 0;
        st_NextValidators := NewValidatorSet [];
        st_Validators := NewValidatorSet [];
        st_LastValidators := NewValidatorSet [];
        st_LastHeightValidatorsChanged := gd_InitialHeight genDoc;
        st_ConsensusParams := params;
        st_LastHeightConsensusParamsChanged := gd_InitialHeight genDoc;
        st_LastResultsHash := zero_hash;
        st_LastStoreHeight := 0;
        st_BaseHeight := 0;
        st_AppHash := copy_into zero_hash (gd_AppHash genDoc) |}.

(** ** Lemmas *)

Lemma Commit_ValidateBasic_ok c :
  Commit_ValidateBasic c = Ok tt <->
  (cm_Height c <= 0)%Z \/ exists sg, cm_Signatures c = [sg] /\ length sg <= MaxSignatureSize.
Proof.
  unfold Commit_ValidateBasic. destruct (Z.ltb_spec 0 (cm_Height c)); [|split; [by left|done]].
  destruct (cm_Signatures c) as [|sg [|? ?]] eqn:E; simpl; repeat case_decide; simpl in *;
    try lia; naive_solver lia.
Qed.

(** A commit that validates was signed by the proposer over [msg]. *)
Lemma Commit_Validate_ok c proposer msg :
  Commit_Validate c proposer msg = Ok tt ->
  exists p sg, proposer = Some p /\ head (cm_Signatures c) = Some sg /\
               VerifySignature (seq_PublicKey p) msg sg = true.
Proof.
  unfold Commit_Validate. intros Hv. repeat go_inv Hv.
  destruct proposer as [p|]; [|done]. simpl in *. simplify_eq.
  destruct (cm_Signatures c) as [|sg sigs]; [done|]. unfold index in *. simpl in *. simplify_eq.
  case_match; [|done]. eauto.
Qed.
End Types.

(** Hashes stay folded under simplification. *)
#[global] Arguments Header_Hash {_} h : simpl never.
#[global] Arguments copy_into {_ _} dst src : simpl never.
#[global] Arguments zero_hash : simpl never.
