(* ===== verification/Serialization.v ===== *)
(** * Serialization: the wire forms of blocks, commits, batches and states

    Models types/serialization.go.  A protobuf message pointer is an [option];
    the codec of each message is a field of the class [Wire], and [WireLaws]
    states that unmarshalling inverts marshalling.  A [FromProto] method takes
    its receiver explicitly and returns the receiver's new value. *)
From stdpp Require Import base gmap strings vector sorting numbers list.
From S2P Require Import Prelude Types.

(** ** Messages (the structs of types/pb/dymint) *)

Record PbHeader := {
  pbh_Version : option Version;
  pbh_NamespaceId : bytes;
  pbh_Height : Z;
  pbh_Time : Z;
  pbh_LastHeaderHash : bytes;
  pbh_LastCommitHash : bytes;
  pbh_DataHash : bytes;
  pbh_ConsensusHash : bytes;
  pbh_AppHash : bytes;
  pbh_LastResultsHash : bytes;
  pbh_ProposerAddress : bytes;
  pbh_AggregatorsHash : bytes;
  pbh_ChainId : string;
}.

Record PbCommitSig := {
  pbs_BlockIdFlag : Z;
  pbs_ValidatorAddress : bytes;
  pbs_Timestamp : Z;
  pbs_Signature : bytes;
}.

Record PbCommit := {
  pbc_Height : Z;
  pbc_HeaderHash : bytes;
  pbc_Signatures : list bytes;
  pbc_TmSignature : option PbCommitSig;
}.

Record PbData := {
  pbd_Txs : list bytes;
  pbd_IntermediateStateRoots : list bytes;
  pbd_Evidence : list bytes;
}.

Record PbBlock := {
  pbb_Header : option PbHeader;
  pbb_Data : option PbData;
  pbb_LastCommit : option PbCommit;
}.

Record PbBatch := {
  pbt_StartHeight : Z;
  pbt_EndHeight : Z;
  pbt_Blocks : list PbBlock;
  pbt_Commits : list PbCommit;
}.

Record PbState `{Tendermint} := {
  pst_Version : option Version;
  pst_Software : string;
  pst_ChainId : string;
  pst_InitialHeight : Z;
  pst_LastBlockHeight : Z;
  pst_LastBlockID : BlockID;
  pst_LastBlockTime : Z;
  pst_NextValidators : PbValidatorSet;
  pst_Validators : PbValidatorSet;
  pst_LastValidators : PbValidatorSet;
  pst_LastHeightValidatorsChanged : Z;
  pst_ConsensusParams : ConsensusParams;
  pst_LastHeightConsensusParamsChanged : Z;
  pst_LastResultsHash : bytes;
  pst_AppHash : bytes;
  pst_LastStoreHeight : Z;
  pst_BaseHeight : Z;
  pst_SLStateIndex : Z;
}.

(** ** Field conversions *)

(** [safeCopy(dst, src)] onto an array of [n] bytes: [None] when it returns false. *)
Definition safeCopy {n : nat} (dst : vec byte n) (src : bytes) : option (vec byte n) :=
  if decide (length src = n) then Some (copy_into dst src) else None.

(** [if !safeCopy(dst, src) { return errors.New(msg) }] *)
Definition copyOr {n : nat} (msg : string) (dst : vec byte n) (src : bytes) : result (vec byte n) :=
  match safeCopy dst src with Some v => Ok v | None => Err (New msg) end.

Definition txsToByteSlices (txs : list Tx) : list bytes := txs.
Definition byteSlicesToTxs (bs : list bytes) : list Tx := bs.
Definition signaturesToByteSlices (sigs : list Signature) : list bytes := sigs.
Definition byteSlicesToSignatures (bs : list bytes) : list Signature := bs.

(** [for _, ae := range e.ABCI() { ret = append(ret, &ae) }]: the loop variable
    is one variable (the module says go 1.19), so every pointer appended for [e]
    ends up pointing to the last element. *)
Definition evidenceToProto (evidence : list Evidence) : list bytes :=
  e ← evidence;
  match last (ev_ABCI e) with
  | Some ae => replicate (length (ev_ABCI e)) ae
  | None => []
  end.

Definition evidenceFromProto (evidence : list bytes) : list Evidence := [].

(** ** ToProto / FromProto *)

Definition Header_ToProto (h : Header) : PbHeader := {|
  pbh_Version := Some {| ver_Block := ver_Block (hdr_Version h); ver_App := ver_App (hdr_Version h) |};
  pbh_NamespaceId := hdr_NamespaceID h;
  pbh_Height := hdr_Height h;
  pbh_Time := hdr_Time h;
  pbh_LastHeaderHash := hdr_LastHeaderHash h;
  pbh_LastCommitHash := hdr_LastCommitHash h;
  pbh_DataHash := hdr_DataHash h;
  pbh_ConsensusHash := hdr_ConsensusHash h;
  pbh_AppHash := hdr_AppHash h;
  pbh_LastResultsHash := hdr_LastResultsHash h;
  pbh_ProposerAddress := hdr_ProposerAddress h;
  pbh_AggregatorsHash := hdr_AggregatorsHash h;
  pbh_ChainId := hdr_ChainID h;
|}.

Definition Header_FromProto (h : Header) (other : option PbHeader) : result Header :=
  try! o := deref other in
  try! v := deref (pbh_Version o) in
  try! ns := copyOr "invalid length of 'NamespaceId'" (hdr_NamespaceID h) (pbh_NamespaceId o) in
  try! lhh := copyOr "invalid length of 'LastHeaderHash'" (hdr_LastHeaderHash h) (pbh_LastHeaderHash o) in
  try! lch := copyOr "invalid length of 'LastCommitHash'" (hdr_LastCommitHash h) (pbh_LastCommitHash o) in
  try! dh := copyOr "invalid length of 'DataHash'" (hdr_DataHash h) (pbh_DataHash o) in
  try! ch := copyOr "invalid length of 'ConsensusHash'" (hdr_ConsensusHash h) (pbh_ConsensusHash o) in
  try! ah := copyOr "invalid length of 'AppHash'" (hdr_AppHash h) (pbh_AppHash o) in
  try! lrh := copyOr "invalid length of 'LastResultsHash'" (hdr_LastResultsHash h) (pbh_LastResultsHash o) in
  try! agh := copyOr "invalid length of 'AggregatorsHash'" (hdr_AggregatorsHash h) (pbh_AggregatorsHash o) in
  Ok {| hdr_Version := {| ver_Block := ver_Block v; ver_App := ver_App v |};
        hdr_NamespaceID := ns;
        hdr_Height := pbh_Height o;
        hdr_Time := pbh_Time o;
        hdr_LastHeaderHash := lhh;
        hdr_LastCommitHash := lch;
        hdr_DataHash := dh;
        hdr_ConsensusHash := ch;
        hdr_AppHash := ah;
        hdr_LastResultsHash := lrh;
        hdr_ProposerAddress :=
          if decide (0 < length (pbh_ProposerAddress o)) then pbh_ProposerAddress o
          else hdr_ProposerAddress h;
        hdr_AggregatorsHash := agh;
        hdr_ChainID := pbh_ChainId o |}.

Definition Commit_ToProto (c : Commit) : PbCommit := {|
  pbc_Height := cm_Height c;
  pbc_HeaderHash := cm_HeaderHash c;
  pbc_Signatures := signaturesToByteSlices (cm_Signatures c);
  pbc_TmSignature := Some {|
    pbs_BlockIdFlag := Z_of_byte (cs_BlockIDFlag (cm_TMSignature c));
    pbs_ValidatorAddress := cs_ValidatorAddress (cm_TMSignature c);
    pbs_Timestamp := cs_Timestamp (cm_TMSignature c);
    pbs_Signature := cs_Signature (cm_TMSignature c) |};
|}.

Definition Commit_FromProto (c : Commit) (other : option PbCommit) : result Commit :=
  try! o := deref other in
  try! hh := copyOr "invalid length of HeaderHash" (cm_HeaderHash c) (pbc_HeaderHash o) in
  Ok {| cm_Height := pbc_Height o;
        cm_HeaderHash := hh;
        cm_Signatures := byteSlicesToSignatures (pbc_Signatures o);
        cm_TMSignature :=
          match pbc_TmSignature o with
          | Some sg => {| cs_BlockIDFlag := byte_of_Z (pbs_BlockIdFlag sg);
                          cs_ValidatorAddress := pbs_ValidatorAddress sg;
                          cs_Timestamp := pbs_Timestamp sg;
                          cs_Signature := pbs_Signature sg |}
          | None => cm_TMSignature c
          end |}.

Definition Data_ToProto (d : Data) : PbData := {|
  pbd_Txs := txsToByteSlices (data_Txs d);
  pbd_IntermediateStateRoots := data_RawRootsList d;
  pbd_Evidence := evidenceToProto (data_Evidence d);
|}.

Definition Block_ToProto (b : Block) : PbBlock := {|
  pbb_Header := Some (Header_ToProto (blk_Header b));
  pbb_Data := Some (Data_ToProto (blk_Data b));
  pbb_LastCommit := Some (Commit_ToProto (blk_LastCommit b));
|}.

Definition Block_FromProto (b : Block) (other : option PbBlock) : result Block :=
  try! o := deref other in
  try! h := Header_FromProto (blk_Header b) (pbb_Header o) in
  try! d := deref (pbb_Data o) in
  try! c := match pbb_LastCommit o with
            | Some lc => Commit_FromProto (blk_LastCommit b) (Some lc)
            | None => Ok (blk_LastCommit b)
            end in
  Ok {| blk_Header := h;
        blk_Data := {| data_Txs := byteSlicesToTxs (pbd_Txs d);
                       data_RawRootsList := pbd_IntermediateStateRoots d;
                       data_Evidence := evidenceFromProto (pbd_Evidence d) |};
        blk_LastCommit := c |}.

(** A loop that panics with the error of [f]: [if err != nil { panic(err) }]. *)
Fixpoint map_or_panic {A B} (f : A -> result B) (l : list A) : result (list B) :=
  match l with
  | [] => Ok []
  | x :: l =>
      try! y := match f x with Err _ => Panic "conversion error" | r => r end in
      try! ys := map_or_panic f l in
      Ok (y :: ys)
  end.

Definition blocksToProto (blocks : list Block) : list PbBlock := Block_ToProto <$> blocks.
Definition protoToBlocks (pbBlocks : list PbBlock) : result (list Block) :=
  map_or_panic (fun b => Block_FromProto zero_Block (Some b)) pbBlocks.
Definition commitsToProto (commits : list Commit) : list PbCommit := Commit_ToProto <$> commits.
Definition protoToCommits (pbCommits : list PbCommit) : result (list Commit) :=
  map_or_panic (fun c => Commit_FromProto zero_Commit (Some c)) pbCommits.

Definition Batch_ToProto (b : Batch) : PbBatch := {|
  pbt_StartHeight := bt_StartHeight b;
  pbt_EndHeight := bt_EndHeight b;
  pbt_Blocks := blocksToProto (bt_Blocks b);
  pbt_Commits := commitsToProto (bt_Commits b);
|}.

Definition Batch_FromProto (other : PbBatch) : result Batch :=
  try! blocks := protoToBlocks (pbt_Blocks other) in
  try! commits := protoToCommits (pbt_Commits other) in
  Ok {| bt_StartHeight := pbt_StartHeight other;
        bt_EndHeight := pbt_EndHeight other;
        bt_Blocks := blocks;
        bt_Commits := commits |}.

Section StateProto.
Context `{Tendermint}.

Definition State_ToProto (s : State) : result PbState :=
  try! nextValidators := vs_ToProto (st_NextValidators s) in
  try! validators := vs_ToProto (st_Validators s) in
  try! lastValidators := vs_ToProto (st_LastValidators s) in
  Ok {| pst_Version := Some (st_Version s);
        pst_Software := st_Software s;
        pst_ChainId := st_ChainID s;
        pst_InitialHeight := st_InitialHeight s;
        pst_LastBlockHeight := st_LastBlockHeight s;
        pst_LastBlockID := st_LastBlockID s;
        pst_LastBlockTime := st_LastBlockTime s;
        pst_NextValidators := nextValidators;
        pst_Validators := validators;
        pst_LastValidators := lastValidators;
        pst_LastHeightValidatorsChanged := st_LastHeightValidatorsChanged s;
        pst_ConsensusParams := st_ConsensusParams s;
        pst_LastHeightConsensusParamsChanged := st_LastHeightConsensusParamsChanged s;
        pst_LastResultsHash := st_LastResultsHash s;
        pst_AppHash := st_AppHash s;
        pst_LastStoreHeight := st_LastStoreHeight s;
        pst_BaseHeight := st_BaseHeight s;
        pst_SLStateIndex := st_SLStateIndex s |}.

(** [State.FromProto] on a zero receiver, as [LoadState] calls it. *)
Definition State_FromProto (other : PbState) : result State :=
  try! version := deref (pst_Version other) in
  let lastStoreHeight :=
    if ((pst_LastStoreHeight other =? 0) && (1 <? pst_LastBlockHeight other))%Z
    then u64 (pst_LastBlockHeight other) else pst_LastStoreHeight other in
  try! lastBlockID := block_id_from_proto (pst_LastBlockID other) in
  try! nextValidators := vs_FromProto (pst_NextValidators other) in
  try! validators := vs_FromProto (pst_Validators other) in
  try! lastValidators := vs_FromProto (pst_LastValidators other) in
  Ok {| st_Version := version;
        st_Software := pst_Software other;
        st_ChainID := pst_ChainId other;
        st_InitialHeight := pst_InitialHeight other;
        st_LastBlockHeight := pst_LastBlockHeight other;
        st_LastBlockID := lastBlockID;
        st_LastBlockTime := pst_LastBlockTime other;
        st_SLStateIndex := pst_SLStateIndex other;
        st_NextValidators := nextValidators;
        st_Validators := validators;
        st_LastValidators := lastValidators;
        st_LastHeightValidatorsChanged := pst_LastHeightValidatorsChanged other;
        st_ConsensusParams := pst_ConsensusParams other;
        st_LastHeightConsensusParamsChanged := pst_LastHeightConsensusParamsChanged other;
        st_LastResultsHash := copy_into zero_hash (pst_LastResultsHash other);
        st_LastStoreHeight := lastStoreHeight;
        st_BaseHeight := pst_BaseHeight other;
        st_AppHash := copy_into zero_hash (pst_AppHash other) |}.
End StateProto.

(** ** Codecs *)

Class Wire `{Tendermint} := {
  block_marshal : PbBlock -> result bytes;
  block_unmarshal : bytes -> result PbBlock;
  commit_marshal : PbCommit -> result bytes;
  commit_unmarshal : bytes -> result PbCommit;
  batch_marshal : PbBatch -> result bytes;
  batch_unmarshal : bytes -> result PbBatch;
  batch_size : PbBatch -> Z;
  state_marshal : PbState -> result bytes;
  state_unmarshal : bytes -> result PbState;
  responses_marshal : ABCIResponses -> result bytes;
  responses_unmarshal : bytes -> result ABCIResponses;
  valset_marshal : PbValidatorSet -> result bytes;
  valset_unmarshal : bytes -> result PbValidatorSet;
}.

(** What encodes without an error decodes to the same message. *)
Definition codec_law {A} (enc : A -> result bytes) (dec : bytes -> result A) : Prop :=
  forall a b, enc a = Ok b -> dec b = Ok a.

Class WireLaws `(W : Wire) := {
  block_codec : codec_law block_marshal block_unmarshal;
  commit_codec : codec_law commit_marshal commit_unmarshal;
  batch_codec : codec_law batch_marshal batch_unmarshal;
  state_codec : codec_law state_marshal state_unmarshal;
  responses_codec : codec_law responses_marshal responses_unmarshal;
  valset_codec : codec_law valset_marshal valset_unmarshal;
}.

(** Block IDs that [BlockIDFromProto] accepts: hashes are absent or 32 bytes. *)
Definition block_id_ok (b : BlockID) : Prop :=
  (length (bid_Hash b) = 0 \/ length (bid_Hash b) = 32) /\
  (length (bid_PartHash b) = 0 \/ length (bid_PartHash b) = 32).

(** What Tendermint promises of the pieces of a state: a validator set that
    passes its own validation ([vs_valid]; not an empty one) and a block ID
    survive their round trip. *)
Class TmProtoLaws `(T : Tendermint) := {
  vs_valid : ValidatorSet -> Prop;
  valset_roundtrip vs p : vs_valid vs -> vs_ToProto vs = Ok p -> vs_FromProto p = Ok vs;
  vs_valid_increment vs n : vs_valid vs -> vs_valid (vs_IncrementProposerPriority vs n);
  block_id_roundtrip b : block_id_ok b -> block_id_from_proto b = Ok b;
}.

Section MarshalBinary.
Context `{Wire}.

Definition Block_MarshalBinary (b : Block) : result bytes := block_marshal (Block_ToProto b).
Definition Batch_MarshalBinary (b : Batch) : result bytes := batch_marshal (Batch_ToProto b).
Definition Commit_MarshalBinary (c : Commit) : result bytes := commit_marshal (Commit_ToProto c).

(** On a zero receiver, as all callers do. *)
Definition Block_UnmarshalBinary (data : bytes) : result Block :=
  try! p := block_unmarshal data in Block_FromProto zero_Block (Some p).
Definition Batch_UnmarshalBinary (data : bytes) : result Batch :=
  try! p := batch_unmarshal data in Batch_FromProto p.
Definition Commit_UnmarshalBinary (data : bytes) : result Commit :=
  try! p := commit_unmarshal data in Commit_FromProto zero_Commit (Some p).
End MarshalBinary.

(** ** Lemmas *)

Lemma byte_of_Z_of_byte b : byte_of_Z (Z_of_byte b) = b.
Proof. by destruct b. Qed.

Lemma copyOr_vec {n} msg (d v : vec byte n) : copyOr msg d (vec_to_list v) = Ok v.
Proof.
  unfold copyOr, safeCopy. rewrite decide_True by apply length_vec_to_list.
  by rewrite copy_into_vec.
Qed.

(** [copyOr] succeeds exactly on a source of the array's size, and never panics. *)
Lemma copyOr_spec {n} msg (d : vec byte n) src :
  (length src = n /\ exists v, copyOr msg d src = Ok v) \/
  (length src <> n /\ copyOr msg d src = Err (New msg)).
Proof. unfold copyOr, safeCopy. case_decide; [left|right]; eauto. Qed.

Lemma header_roundtrip h : Header_FromProto zero_Header (Some (Header_ToProto h)) = Ok h.
Proof.
  destruct h as [[] ? ? ? ? ? ? ? ? ? pa ? ?]. unfold Header_FromProto, Header_ToProto.
  cbn -[copyOr zero_hash]. rewrite !copyOr_vec. cbn -[zero_hash].
  do 2 f_equal. case_decide; [done|]. destruct pa; simpl in *; [done|lia].
Qed.

(** Evidence does not survive decoding. *)
Lemma Block_FromProto_no_evidence b0 o b : Block_FromProto b0 o = Ok b -> data_Evidence (blk_Data b) = [].
Proof.
  unfold Block_FromProto. destruct o as [o|]; cbn; [|done]. destruct (Header_FromProto _ _); cbn; [|done..].
  destruct (pbb_Data o); cbn; [|done..]. intros Hb. destruct (match pbb_LastCommit o with Some lc => _ | None => _ end); cbn in Hb; by simplify_eq.
Qed.

Lemma commit_roundtrip c0 c : Commit_FromProto c0 (Some (Commit_ToProto c)) = Ok c.
Proof.
  destruct c as [? ? ? []]. unfold Commit_FromProto, Commit_ToProto. cbn -[copyOr].
  rewrite copyOr_vec. cbn. by rewrite byte_of_Z_of_byte.
Qed.

Lemma block_roundtrip b :
  data_Evidence (blk_Data b) = [] ->
  Block_FromProto zero_Block (Some (Block_ToProto b)) = Ok b.
Proof.
  intros He. unfold Block_FromProto, Block_ToProto.
  cbn -[Header_FromProto Header_ToProto Commit_FromProto Commit_ToProto zero_Header].
  change (blk_Header zero_Block) with zero_Header.
  rewrite header_roundtrip. cbn -[Commit_FromProto Commit_ToProto].
  rewrite commit_roundtrip. cbn. destruct b as [? [] ?]; simpl in *. by subst.
Qed.

Lemma map_or_panic_fmap {A B} (f : A -> result B) (g : B -> A) l :
  Forall (fun y => f (g y) = Ok y) l -> map_or_panic f (g <$> l) = Ok l.
Proof. induction 1 as [|y l Hy _ IH]; csimpl; [done|]. rewrite Hy. csimpl. by rewrite IH. Qed.

Lemma batch_roundtrip b :
  Forall (fun blk => data_Evidence (blk_Data blk) = []) (bt_Blocks b) ->
  Batch_FromProto (Batch_ToProto b) = Ok b.
Proof.
  intros He. unfold Batch_FromProto, Batch_ToProto, protoToBlocks, protoToCommits.
  cbn -[map_or_panic]. unfold blocksToProto, commitsToProto.
  rewrite (map_or_panic_fmap (fun b => Block_FromProto zero_Block (Some b))).
  2:{ eapply Forall_impl; [exact He|]. intros ? ?. by apply block_roundtrip. }
  rewrite (map_or_panic_fmap (fun c => Commit_FromProto zero_Commit (Some c))).
  2:{ apply Forall_forall. intros. apply commit_roundtrip. }
  by destruct b.
Qed.

(** A state whose validator sets and block ID Tendermint accepts, and whose
    store height is not the "old state file" value, is read back unchanged. *)
Lemma state_roundtrip `{TmProtoLaws} s p :
  vs_valid (st_NextValidators s) -> vs_valid (st_Validators s) -> vs_valid (st_LastValidators s) ->
  block_id_ok (st_LastBlockID s) ->
  ~ (st_LastStoreHeight s = 0 /\ 1 < st_LastBlockHeight s)%Z ->
  State_ToProto s = Ok p -> State_FromProto p = Ok s.
Proof.
  intros H1 H2 H3 Hb Hs Hp. unfold State_ToProto in Hp. repeat go_inv Hp. simplify_eq.
  unfold State_FromProto. cbn -[copy_into zero_hash].
  rewrite (block_id_roundtrip _ Hb). cbn -[copy_into zero_hash].
  rewrite (valset_roundtrip _ _ H1 Hres), (valset_roundtrip _ _ H2 Hres0),
    (valset_roundtrip _ _ H3 Hres1). cbn -[copy_into zero_hash].
  rewrite !copy_into_vec.
  replace ((st_LastStoreHeight s =? 0) && (1 <? st_LastBlockHeight s))%Z with false by lia.
  by destruct s.
Qed.

Section MarshalLemmas.
Context `{WireLaws}.

Lemma block_marshal_roundtrip b d :
  data_Evidence (blk_Data b) = [] ->
  Block_MarshalBinary b = Ok d -> Block_UnmarshalBinary d = Ok b.
Proof.
  intros He Hd. unfold Block_UnmarshalBinary. rewrite (block_codec _ _ Hd).
  by apply block_roundtrip.
Qed.

Lemma commit_marshal_roundtrip c d :
  Commit_MarshalBinary c = Ok d -> Commit_UnmarshalBinary d = Ok c.
Proof.
  intros Hd. unfold Commit_UnmarshalBinary. rewrite (commit_codec _ _ Hd).
  apply commit_roundtrip.
Qed.

Lemma batch_marshal_roundtrip b d :
  Forall (fun blk => data_Evidence (blk_Data blk) = []) (bt_Blocks b) ->
  Batch_MarshalBinary b = Ok d -> Batch_UnmarshalBinary d = Ok b.
Proof.
  intros He Hd. unfold Batch_UnmarshalBinary. rewrite (batch_codec _ _ Hd).
  by apply batch_roundtrip.
Qed.
End MarshalLemmas.
