(* ===== verification/Concrete.v ===== *)
(** * Concrete: a concrete environment

    Executable stand-ins for the third-party parameters of the development: a
    binary codec for every message, and Tendermint operations over toy validator
    sets, keys and hashes.  They satisfy the laws that the theorems assume, and
    are what the witnesses run on. *)
From stdpp Require Import base gmap strings vector sorting numbers list.
From S2P Require Import Prelude KVStore Types Serialization.

#[local] Obligation Tactic := idtac.
#[local] Unset Program Cases.

(** ** A prefix-free binary codec *)

Class Codec (A : Type) := {
  enc : A -> bytes;
  dec : bytes -> option (A * bytes);
  dec_enc a rest : dec (enc a ++ rest) = Some (a, rest);
}.

#[export] Program Instance byte_codec : Codec byte := {|
  enc b := [b];
  dec bs := match bs with b :: bs => Some (b, bs) | [] => None end;
|}.
Next Obligation. done. Qed.

Fixpoint enc_pos (p : positive) : bytes :=
  match p with xH => [Byte.x01] | xO p => Byte.x02 :: enc_pos p | xI p => Byte.x03 :: enc_pos p end.

Fixpoint dec_pos (bs : bytes) : option (positive * bytes) :=
  match bs with
  | Byte.x01 :: bs => Some (xH, bs)
  | Byte.x02 :: bs => prod_map xO id <$> dec_pos bs
  | Byte.x03 :: bs => prod_map xI id <$> dec_pos bs
  | _ => None
  end.

Lemma dec_enc_pos p rest : dec_pos (enc_pos p ++ rest) = Some (p, rest).
Proof. induction p as [p IH|p IH|]; simpl; rewrite ?IH; done. Qed.

#[export] Program Instance Z_codec : Codec Z := {|
  enc z := match z with Z0 => [Byte.x00] | Zpos p => Byte.x01 :: enc_pos p | Zneg p => Byte.x02 :: enc_pos p end;
  dec bs := match bs with
            | Byte.x00 :: bs => Some (0%Z, bs)
            | Byte.x01 :: bs => prod_map Zpos id <$> dec_pos bs
            | Byte.x02 :: bs => prod_map Zneg id <$> dec_pos bs
            | _ => None
            end;
|}.
Next Obligation. intros [|p|p] rest; simpl; rewrite ?dec_enc_pos; done. Qed.

Section Codecs.
Context `{CA : Codec A} `{CB : Codec B}.

#[export] Program Instance prod_codec : Codec (A * B) := {|
  enc p := enc p.1 ++ enc p.2;
  dec bs := '(a, bs) ← dec bs; '(b, bs) ← dec bs; Some ((a, b), bs);
|}.
Next Obligation. intros [a b] rest. rewrite <- app_assoc, dec_enc. simpl. by rewrite dec_enc. Qed.

#[export] Program Instance option_codec : Codec (option A) := {|
  enc o := match o with None => [Byte.x00] | Some a => Byte.x01 :: enc a end;
  dec bs := match bs with
            | Byte.x00 :: bs => Some (None, bs)
            | Byte.x01 :: bs => prod_map Some id <$> dec bs
            | _ => None
            end;
|}.
Next Obligation. intros [a|] rest; simpl; rewrite ?dec_enc; done. Qed.

Fixpoint dec_n (n : nat) (bs : bytes) : option (list A * bytes) :=
  match n with
  | O => Some ([], bs)
  | S n => '(a, bs) ← dec bs; '(l, bs) ← dec_n n bs; Some (a :: l, bs)
  end.

#[export] Program Instance list_codec : Codec (list A) := {|
  enc l := enc (Z.of_nat (length l)) ++ (l ≫= enc);
  dec bs := '(n, bs) ← dec bs; dec_n (Z.to_nat n) bs;
|}.
Next Obligation.
  intros l rest. cbv beta. rewrite <- app_assoc, dec_enc. cbn [mbind option_bind]. rewrite Nat2Z.id.
  induction l as [|a l IH]; [done|]. cbn [mbind list_bind length dec_n].
  rewrite <- app_assoc, dec_enc. cbn [mbind option_bind]. by rewrite IH.
Qed.

(** A codec through an isomorphism. *)
Program Definition iso_codec {C} (f : C -> A) (g : A -> C) (Hgf : forall c, g (f c) = c) : Codec C := {|
  enc c := enc (f c);
  dec bs := prod_map g id <$> dec bs;
|}.
Next Obligation. intros C f g Hgf c rest. simpl. rewrite dec_enc. simpl. by rewrite Hgf. Qed.
End Codecs.

#[export] Instance string_codec : Codec string.
Proof.
  refine (iso_codec (A:=list byte) String.list_byte_of_string String.string_of_list_byte _).
  apply String.string_of_list_byte_of_string.
Defined.

#[export] Instance Version_codec : Codec Version.
Proof.
  refine (iso_codec (fun v => (ver_Block v, ver_App v))
            (fun '(b, a) => {| ver_Block := b; ver_App := a |}) _). by intros [].
Defined.

#[export] Instance BlockID_codec : Codec BlockID.
Proof.
  refine (iso_codec (fun b => (bid_Hash b, bid_Total b, bid_PartHash b))
            (fun '(h, t, p) => {| bid_Hash := h; bid_Total := t; bid_PartHash := p |}) _). by intros [].
Defined.

#[export] Instance PbHeader_codec : Codec PbHeader.
Proof.
  refine (iso_codec
    (fun h => (pbh_Version h, pbh_NamespaceId h, pbh_Height h, pbh_Time h, pbh_LastHeaderHash h,
               pbh_LastCommitHash h, pbh_DataHash h, pbh_ConsensusHash h, pbh_AppHash h,
               pbh_LastResultsHash h, pbh_ProposerAddress h, pbh_AggregatorsHash h, pbh_ChainId h))
    (fun '(v, ns, h, t, lh, lc, dh, ch, ah, lr, pa, ag, ci) =>
       Build_PbHeader v ns h t lh lc dh ch ah lr pa ag ci) _). by intros [].
Defined.

#[export] Instance PbCommitSig_codec : Codec PbCommitSig.
Proof.
  refine (iso_codec
    (fun c => (pbs_BlockIdFlag c, pbs_ValidatorAddress c, pbs_Timestamp c, pbs_Signature c))
    (fun '(f, v, t, s) => Build_PbCommitSig f v t s) _). by intros [].
Defined.

#[export] Instance PbCommit_codec : Codec PbCommit.
Proof.
  refine (iso_codec
    (fun c => (pbc_Height c, pbc_HeaderHash c, pbc_Signatures c, pbc_TmSignature c))
    (fun '(h, hh, s, t) => Build_PbCommit h hh s t) _). by intros [].
Defined.

#[export] Instance PbData_codec : Codec PbData.
Proof.
  refine (iso_codec
    (fun d => (pbd_Txs d, pbd_IntermediateStateRoots d, pbd_Evidence d))
    (fun '(t, i, e) => Build_PbData t i e) _). by intros [].
Defined.

#[export] Instance PbBlock_codec : Codec PbBlock.
Proof.
  refine (iso_codec
    (fun b => (pbb_Header b, pbb_Data b, pbb_LastCommit b))
    (fun '(h, d, c) => Build_PbBlock h d c) _). by intros [].
Defined.

#[export] Instance PbBatch_codec : Codec PbBatch.
Proof.
  refine (iso_codec
    (fun b => (pbt_StartHeight b, pbt_EndHeight b, pbt_Blocks b, pbt_Commits b))
    (fun '(s, e, b, c) => Build_PbBatch s e b c) _). by intros [].
Defined.

#[export] Instance ConsensusParams_codec : Codec ConsensusParams.
Proof.
  refine (iso_codec
    (fun c => (cp_Block_MaxBytes c, cp_Block_MaxGas c, cp_Evidence_MaxAgeNumBlocks c,
               cp_Evidence_MaxAgeDuration c, cp_Evidence_MaxBytes c, cp_Validator_PubKeyTypes c,
               cp_Version_AppVersion c))
    (fun '(a, b, c, d, e, f, g) => Build_ConsensusParams a b c d e f g) _). by intros [].
Defined.

#[export] Instance EventAttribute_codec : Codec EventAttribute.
Proof.
  refine (iso_codec (fun a => (attr_Key a, attr_Value a, if attr_Index a then 1%Z else 0%Z))
            (fun '(k, v, i) => Build_EventAttribute k v (i =? 1)%Z) _). by intros [? ? []].
Defined.

#[export] Instance ABCIEvent_codec : Codec ABCIEvent.
Proof.
  refine (iso_codec (fun e => (event_Type e, event_Attributes e)) (fun '(t, a) => Build_ABCIEvent t a) _). by intros [].
Defined.

#[export] Instance ResponseBeginBlock_codec : Codec ResponseBeginBlock.
Proof. refine (iso_codec bb_Events Build_ResponseBeginBlock _). by intros []. Defined.

#[export] Instance ResponseEndBlock_codec : Codec ResponseEndBlock.
Proof.
  refine (iso_codec (fun e => (eb_Events e, eb_Rest e)) (fun '(t, a) => Build_ResponseEndBlock t a) _). by intros [].
Defined.

#[export] Instance ResponseDeliverTx_codec : Codec ResponseDeliverTx.
Proof.
  refine (iso_codec (fun r => (dtx_Code r, dtx_Events r, dtx_Rest r)) (fun '(c, e, r) => Build_ResponseDeliverTx c e r) _).
  by intros [].
Defined.

#[export] Instance ABCIResponses_codec : Codec ABCIResponses.
Proof.
  refine (iso_codec (fun r => (rs_DeliverTxs r, rs_BeginBlock r, rs_EndBlock r))
            (fun '(d, b, e) => Build_ABCIResponses d b e) _).
  by intros [].
Defined.

(** ** Toy Tendermint *)

(** Keys are byte strings, a signature verifies when it equals the key and the message has eight bytes, as the encoding of a header has here; the hash
    of a header spells its height. *)
Definition toy : Tendermint := {|
  PubKey := bytes;
  VerifySignature pk msg sig := bool_decide (sig = pk) && (length msg =? 8)%nat;
  MaxSignatureSize := 64;
  header_hash h := replicate 24 Byte.x00 ++ be_split 8 (ah_Height h);
  header_marshal h := Ok (be_split 8 (ah_Height h));
  empty_evidence_hash := [];
  commit_hash c := be_split 8 (ac_Height c);
  txs_hash txs := replicate 32 Byte.x01;
  results_hash rs := replicate 32 (byte_of_Z (Z.of_nat (length rs)));
  empty_merkle_hash := replicate 32 Byte.x00;
  Validator := Z;
  ValidatorSet := list Z;
  NewValidatorSet l := l;
  vs_Validators vs := vs;
  vs_Hash vs := replicate 32 (byte_of_Z (Z.of_nat (length vs)));
  vs_IncrementProposerPriority vs n := (fun p => p + n)%Z <$> vs;
  vs_UpdateWithChangeSet vs ups := Ok (vs ++ ups);
  PbValidatorSet := list Z;
  vs_ToProto vs := Ok vs;
  vs_FromProto vs := match vs with [] => Err (New "validator set is nil or empty") | _ => Ok vs end;
  block_id_from_proto b :=
    if decide (length (bid_Hash b) = 0 \/ length (bid_Hash b) = 32) then Ok b
    else Err (New "wrong Hash");
  BlockProtocol := 11;
  TMCoreSemVer := "0.34";
  ValidateAndComplete gd := Ok gd;
|}.

#[export] Instance toy_proto_laws : TmProtoLaws toy.
Proof.
  refine {| vs_valid := (fun vs : @ValidatorSet toy => @vs_Validators toy vs <> []) |}.
  - intros vs p Hv Hp. cbn in *. simplify_eq. by destruct p.
  - intros vs n Hv. cbn in *. by destruct vs.
  - intros b [Hb _]. cbn. by rewrite decide_True.
Defined.

#[export] Instance PbState_codec : Codec (@PbState toy).
Proof.
  refine (iso_codec (A := option Version * string * string * Z * Z * BlockID * Z * list Z * list Z * list Z
                          * Z * ConsensusParams * Z * bytes * bytes * Z * Z * Z)
    (fun p : @PbState toy => (pst_Version p, pst_Software p, pst_ChainId p, pst_InitialHeight p, pst_LastBlockHeight p,
               pst_LastBlockID p, pst_LastBlockTime p, (pst_NextValidators p : list Z), (pst_Validators p : list Z),
               (pst_LastValidators p : list Z), pst_LastHeightValidatorsChanged p, pst_ConsensusParams p,
               pst_LastHeightConsensusParamsChanged p, pst_LastResultsHash p, pst_AppHash p,
               pst_LastStoreHeight p, pst_BaseHeight p, pst_SLStateIndex p))
    (fun '(a, b, c, d, e, f, g, h, i, j, k, l, m, n, o, p, q, r) =>
       @Build_PbState toy a b c d e f g h i j k l m n o p q r) _).
  by intros [].
Defined.

Definition enc_ok `{Codec A} (a : A) : result bytes := Ok (enc a).
Definition dec_all `{Codec A} (bs : bytes) : result A :=
  match dec bs with Some (a, []) => Ok a | _ => Err (New "unmarshal") end.

Lemma codec_law_all `{Codec A} : codec_law (A:=A) enc_ok dec_all.
Proof.
  intros a b E. unfold enc_ok in E. simplify_eq. unfold dec_all.
  pose proof (dec_enc a []) as Hd. rewrite app_nil_r in Hd. by rewrite Hd.
Qed.

Definition toy_wire : @Wire toy :=
  @Build_Wire toy enc_ok dec_all enc_ok dec_all enc_ok dec_all
    (fun b => Z.of_nat (length (enc b))) enc_ok dec_all enc_ok dec_all
    (@enc_ok (list Z) _) (@dec_all (list Z) _).

#[export] Instance toy_wire_laws : WireLaws toy_wire.
Proof. split; apply codec_law_all. Qed.

(** A header, commit and block at a given height. *)
Definition toy_header (h : Z) : Header :=
  {| hdr_Version := {| ver_Block := 11; ver_App := 0 |}; hdr_NamespaceID := Vector.const Byte.x00 8;
     hdr_Height := h; hdr_Time := 0; hdr_LastHeaderHash := zero_hash; hdr_LastCommitHash := zero_hash;
     hdr_DataHash := zero_hash; hdr_ConsensusHash := zero_hash; hdr_AppHash := zero_hash;
     hdr_LastResultsHash := zero_hash; hdr_ProposerAddress := [Byte.x61]; hdr_AggregatorsHash := zero_hash;
     hdr_ChainID := "toy" |}.

Definition toy_commit (h : Z) : Commit :=
  {| cm_Height := h; cm_HeaderHash := zero_hash; cm_Signatures := [[Byte.x6b]];
     cm_TMSignature := zero_CommitSig |}.

Definition toy_block (h : Z) (txs : list Tx) : Block :=
  {| blk_Header := toy_header h;
     blk_Data := {| data_Txs := txs; data_RawRootsList := []; data_Evidence := [] |};
     blk_LastCommit := toy_commit (h - 1) |}.

Definition toy_params : ConsensusParams :=
  {| cp_Block_MaxBytes := 1000; cp_Block_MaxGas := -1; cp_Evidence_MaxAgeNumBlocks := 0;
     cp_Evidence_MaxAgeDuration := 0; cp_Evidence_MaxBytes := 0; cp_Validator_PubKeyTypes := [];
     cp_Version_AppVersion := 0 |}.

(** A state whose last block has height [lb] and whose last stored one has [ls]. *)
Definition toy_state (lb ls : Z) : @State toy :=
  {| st_Version := {| ver_Block := 11; ver_App := 0 |}; st_Software := "0.34"; st_ChainID := "toy";
     st_InitialHeight := 1; st_LastBlockHeight := lb;
     st_LastBlockID := {| bid_Hash := []; bid_Total := 0; bid_PartHash := [] |};
     st_LastBlockTime := 0; st_SLStateIndex := 0;
     st_NextValidators := [1%Z] : @ValidatorSet toy; st_Validators := [1%Z] : @ValidatorSet toy;
     st_LastValidators := [1%Z] : @ValidatorSet toy; st_LastHeightValidatorsChanged := 1;
     st_ConsensusParams := toy_params; st_LastHeightConsensusParamsChanged := 1;
     st_LastResultsHash := zero_hash; st_LastStoreHeight := ls; st_BaseHeight := 0;
     st_AppHash := zero_hash |}.
