(* ===== verification/WireSpec.v ===== *)
(** * WireSpec: what the wire forms promise

    The theorems about types/serialization.go and types/validation.go: batches
    and the blocks and commits in them survive encoding and decoding, the exact
    inputs on which decoding a block panics instead of returning an error, and
    when validating a commit succeeds, fails or panics. *)
From stdpp Require Import base gmap strings vector sorting numbers list.
From S2P Require Import Prelude KVStore Types Serialization Concrete.

Definition is_panic {A} (r : result A) : bool :=
  match r with Panic _ => true | _ => false end.

(** ** Round trips *)

Section RoundTrip.
Context {T : Tendermint} {W : Wire} `{!WireLaws W}.

(** C34: decoding inverts encoding for a batch: whatever [Batch.MarshalBinary] writes,
    [Batch.UnmarshalBinary] reads back as the same batch, all block headers, data,
    last commits and signatures included, provided no block carries evidence
    (the decoder drops evidence). *)
Theorem batch_binary_roundtrip b d :
  Forall (fun blk => data_Evidence (blk_Data blk) = []) (bt_Blocks b) ->
  Batch_MarshalBinary b = Ok d -> Batch_UnmarshalBinary d = Ok b.
Proof. apply batch_marshal_roundtrip. Qed.
End RoundTrip.

Definition toy_batch : Batch :=
  {| bt_StartHeight := 3; bt_EndHeight := 4; bt_Blocks := [toy_block 3 [[Byte.x01]]; toy_block 4 []];
     bt_Commits := [toy_commit 3; toy_commit 4] |}.

Lemma batch_binary_roundtrip_witness :
  @Batch_UnmarshalBinary toy toy_wire (enc (Batch_ToProto toy_batch)) = Ok toy_batch.
Proof.
  refine (@batch_binary_roundtrip toy toy_wire toy_wire_laws toy_batch _ _ eq_refl).
  repeat constructor.
Defined.

(** ** Decoding untrusted bytes *)

(** The arrays of a header message have their sizes. *)
Definition pb_header_sizes (h : PbHeader) : bool :=
  bool_decide (length (pbh_NamespaceId h) = 8) &&
  forallb (fun a => bool_decide (length a = 32))
    [pbh_LastHeaderHash h; pbh_LastCommitHash h; pbh_DataHash h; pbh_ConsensusHash h;
     pbh_AppHash h; pbh_LastResultsHash h; pbh_AggregatorsHash h].

Lemma Header_FromProto_spec h0 o v :
  pbh_Version o = Some v ->
  is_panic (Header_FromProto h0 (Some o)) = false /\
  is_ok (Header_FromProto h0 (Some o)) = pb_header_sizes o.
Proof.
  intros Hv. unfold Header_FromProto. simpl. rewrite Hv. simpl.
  unfold pb_header_sizes. cbn [forallb].
  repeat match goal with
  | |- context [copyOr ?m ?d ?s] =>
      let v := fresh "v" in let E := fresh "E" in
      destruct (copyOr_spec m d s) as [[? [v E]] | [? E]]; rewrite E; simpl
  end; split; try done; symmetry;
    rewrite ?andb_false_iff, ?andb_true_iff, ?bool_decide_eq_false, ?bool_decide_eq_true; tauto.
Qed.

Lemma Commit_FromProto_no_panic c0 o : is_panic (Commit_FromProto c0 (Some o)) = false.
Proof.
  unfold Commit_FromProto. simpl. by destruct (copyOr_spec "invalid length of HeaderHash" (cm_HeaderHash c0)
    (pbc_HeaderHash o)) as [[? [v ->]] | [? ->]].
Qed.

(** [Block.FromProto] on a message from the network panics exactly when the header
    or its version is missing, or when the header is well formed and the data is
    missing; wrong array sizes and a bad last commit are returned as errors. *)
Theorem block_from_proto_panics (p : PbBlock) :
  is_panic (Block_FromProto zero_Block (Some p)) =
  match pbb_Header p with
  | None => true
  | Some h => match pbh_Version h with
              | None => true
              | Some _ => pb_header_sizes h && match pbb_Data p with None => true | Some _ => false end
              end
  end.
Proof.
  unfold Block_FromProto. cbn -[Header_FromProto Commit_FromProto zero_Header].
  destruct (pbb_Header p) as [h|]; [|done].
  destruct (pbh_Version h) as [v|] eqn:Hv.
  2:{ unfold Header_FromProto. simpl. by rewrite Hv. }
  destruct (Header_FromProto_spec (blk_Header zero_Block) h v Hv) as [Hp Ho]. rewrite <- Ho.
  destruct (Header_FromProto _ (Some h)) as [hd|e|m]; [|done..]. simpl.
  destruct (pbb_Data p) as [d|]; [|done]. simpl.
  destruct (pbb_LastCommit p) as [lc|]; [|done].
  pose proof (Commit_FromProto_no_panic (blk_LastCommit zero_Block) lc) as Hc.
  by destruct (Commit_FromProto _ (Some lc)).
Qed.

(** ** Validating a commit *)

Section CommitValidate.
Context {T : Tendermint}.

(** [Commit.Validate] accepts a commit only if its first signature is the
    proposer's over the message; when it has a height it holds exactly that one
    signature, of at most the maximal size. *)
Theorem commit_validate_sound c proposer msg :
  Commit_Validate c proposer msg = Ok tt ->
  exists p sg, proposer = Some p /\ VerifySignature (seq_PublicKey p) msg sg = true /\
    head (cm_Signatures c) = Some sg /\
    ((0 < cm_Height c)%Z -> cm_Signatures c = [sg] /\ length sg <= MaxSignatureSize).
Proof.
  intros Hv. destruct (Commit_Validate_ok _ _ _ Hv) as (p & sg & -> & Hh & Hs).
  exists p, sg. repeat split; try done; intros;
    unfold Commit_Validate in Hv; go_inv Hv; destruct r;
    apply Commit_ValidateBasic_ok in Hres as [?|(sg' & Hsg & ?)]; try lia;
    rewrite Hsg in *; simpl in *; by simplify_eq.
Qed.

(** A commit with height 0 and no signature passes [ValidateBasic] and makes
    [Validate] panic on the missing signature, whoever the proposer is. *)
Theorem commit_validate_height0_panics c proposer msg :
  cm_Height c = 0%Z -> cm_Signatures c = [] ->
  Commit_ValidateBasic c = Ok tt /\ is_panic (Commit_Validate c proposer msg) = true.
Proof.
  intros Hh Hs. unfold Commit_Validate, Commit_ValidateBasic. rewrite Hh, Hs. split; [done|].
  by destruct proposer.
Qed.
End CommitValidate.

Definition toy_sequencer : @Sequencer toy := {| seq_PublicKey := [Byte.x6b] : @PubKey toy; seq_Status := Proposer |}.

Lemma commit_validate_sound_witness :
  exists sg, head (cm_Signatures (toy_commit 3)) = Some sg /\ length sg <= 64.
Proof.
  destruct (@commit_validate_sound toy (toy_commit 3) (Some toy_sequencer) (be_split 8 3) eq_refl)
    as (p & sg & _ & _ & Hh & Hl).
  exists sg. split; [exact Hh|]. exact (proj2 (Hl ltac:(cbn; lia))).
Defined.

Lemma commit_validate_height0_panics_witness :
  is_panic (@Commit_Validate toy zero_Commit (Some toy_sequencer) []) = true.
Proof. exact (proj2 (@commit_validate_height0_panics toy zero_Commit (Some toy_sequencer) [] eq_refl eq_refl)). Defined.
