(* ===== verification/Store.v ===== *)
(** * Store: blocks, commits, responses, validators and the state on disk

    Models store/store.go ([DefaultStore]) and store/pruning.go over the
    [KVStore] interface.  [Height] and [Base] are the two atomically updated
    words of the struct. *)
From stdpp Require Import base gmap strings vector sorting numbers list.
From S2P Require Import Prelude KVStore Types Serialization.

(** ** Keys *)

Definition blockPrefix : bytes := [Byte.x01].
Definition indexPrefix : bytes := [Byte.x02].
Definition commitPrefix : bytes := [Byte.x03].
Definition statePrefix : bytes := [Byte.x04].
Definition responsesPrefix : bytes := [Byte.x05].
Definition validatorsPrefix : bytes := [Byte.x06].

Definition getBlockKey (hash : hash32) : bytes := blockPrefix ++ hash.
Definition getCommitKey (hash : hash32) : bytes := commitPrefix ++ hash.
Definition getIndexKey (height : Z) : bytes := indexPrefix ++ be_split 8 height.
Definition getStateKey : bytes := statePrefix.
Definition getResponsesKey (height : Z) : bytes := responsesPrefix ++ be_split 8 height.
Definition getValidatorsKey (height : Z) : bytes := validatorsPrefix ++ be_split 8 height.

#[global] Arguments getBlockKey hash : simpl never.
#[global] Arguments getCommitKey hash : simpl never.
#[global] Arguments getIndexKey height : simpl never.
#[global] Arguments getResponsesKey height : simpl never.
#[global] Arguments getValidatorsKey height : simpl never.

Section Store.
Context `{W : Wire} `{K : KVStore}.

Record DefaultStore := { ds_db : db; ds_height : Z; ds_baseHeight : Z }.

Definition with_db (d : db) (s : DefaultStore) : DefaultStore :=
  {| ds_db := d; ds_height := ds_height s; ds_baseHeight := ds_baseHeight s |}.
Definition with_height (h : Z) (s : DefaultStore) : DefaultStore :=
  {| ds_db := ds_db s; ds_height := h; ds_baseHeight := ds_baseHeight s |}.
Definition with_base (b : Z) (s : DefaultStore) : DefaultStore :=
  {| ds_db := ds_db s; ds_height := ds_height s; ds_baseHeight := b |}.

(** Code of the key-value store run on the store's [db]. *)
Definition on_db {A} (c : M db A) : M DefaultStore A := zoom ds_db with_db c.

(** [New(kv)]. *)
Definition New_store (d : db) : DefaultStore :=
  {| ds_db := d; ds_height := 0; ds_baseHeight := 0 |}.

(** [NewBatch]. *)
Definition NewBatch (s : DefaultStore) : batch := kv_new_batch (ds_db s).

(** ** Heights *)

(** [SetHeight]: the compare-and-swap succeeds when no other goroutine wrote
    the word since it was read. *)
Definition SetHeight (height : Z) (s : DefaultStore) : DefaultStore :=
  if (ds_height s <? height)%Z then with_height height s else s.
Definition Height (s : DefaultStore) : Z := ds_height s.
Definition SetBase (height : Z) (s : DefaultStore) : DefaultStore :=
  if (ds_baseHeight s <? height)%Z then with_base height s else s.
Definition Base (s : DefaultStore) : Z := ds_baseHeight s.

(** ** Writing *)

(** [err = multierr.Append(err, batch.Set(k, v))] for each pair in turn. *)
Fixpoint batch_set_all (kvs : list (bytes * bytes)) (err : option error) : M batch (option error) :=
  match kvs with
  | [] => ret err
  | (k, v) :: kvs =>
      let! r := try (batch_set k v) in
      batch_set_all kvs (multierr_append err (match r with inl e => Some e | inr _ => None end))
  end.

(** The three entries [SaveBlock] writes. *)
Definition block_entries (block : Block) (blockBlob commitBlob : bytes) : list (bytes * bytes) :=
  let hash := Header_Hash (blk_Header block) in
  [(getBlockKey hash, blockBlob);
   (getCommitKey hash, commitBlob);
   (getIndexKey (hdr_Height (blk_Header block)), vec_to_list hash)].

Definition SaveBlock (block : Block) (commit : Commit) (obatch : option batch)
    : M DefaultStore (option batch) := fun s =>
  match result_wrap "failed to marshal Block to binary" (Block_MarshalBinary block) with
  | Err e => (Err e, s) | Panic m => (Panic m, s)
  | Ok blockBlob =>
  match result_wrap "failed to marshal Commit to binary" (Commit_MarshalBinary commit) with
  | Err e => (Err e, s) | Panic m => (Panic m, s)
  | Ok commitBlob =>
    match obatch with
    | Some b =>
        match batch_set_all (block_entries block blockBlob commitBlob) None b with
        | (Ok None, b') => (Ok (Some b'), s)
        | (Ok (Some e), _) => (Err e, s)
        | (Err e, _) => (Err e, s)
        | (Panic m, _) => (Panic m, s)
        end
    | None =>
        match batch_set_all (block_entries block blockBlob commitBlob) None (kv_new_batch (ds_db s)) with
        | (Ok None, bb) =>
            (do! on_db (wrap "failed to commit db batch" (batch_commit bb)) in ret (Some bb)) s
        | (Ok (Some e), _) => (Err (Wrap "failed to create db batch" e), s)
        | (Err e, _) => (Err e, s)
        | (Panic m, _) => (Panic m, s)
        end
    end
  end end.

(** A value stored under one key, directly or through the batch given. *)
Definition save_entry (key data : bytes) (obatch : option batch) : M DefaultStore (option batch) := fun s =>
  match obatch with
  | None => (do! on_db (kv_set key data) in ret None) s
  | Some b =>
      match batch_set key data b with
      | (Ok _, b') => (Ok (Some b'), s)
      | (Err e, _) => (Err e, s)
      | (Panic m, _) => (Panic m, s)
      end
  end.

Definition SaveBlockResponses (height : Z) (responses : ABCIResponses) (obatch : option batch)
    : M DefaultStore (option batch) :=
  let! data := lift (result_wrap "failed to marshal response" (responses_marshal responses)) in
  save_entry (getResponsesKey height) data obatch.

Definition UpdateState (state : State) (obatch : option batch) : M DefaultStore (option batch) :=
  let! pbState := lift (result_wrap "failed to marshal state to JSON" (State_ToProto state)) in
  let! data := lift (state_marshal pbState) in
  save_entry getStateKey data obatch.

Definition SaveValidators (height : Z) (validatorSet : ValidatorSet) (obatch : option batch)
    : M DefaultStore (option batch) :=
  let! pbValSet := lift (result_wrap "failed to marshal ValidatorSet to protobuf" (vs_ToProto validatorSet)) in
  let! blob := lift (result_wrap "failed to marshal ValidatorSet" (valset_marshal pbValSet)) in
  save_entry (getValidatorsKey height) blob obatch.

(** ** Reading *)

Definition loadHashFromIndex (s : DefaultStore) (height : Z) : result hash32 :=
  try! blob := result_wrap "failed to load block hash for height" (kv_get (ds_db s) (getIndexKey height)) in
  if decide (length blob = 32) then Ok (copy_into zero_hash blob)
  else Err (New "invalid hash length").

Definition LoadBlockByHash (s : DefaultStore) (hash : hash32) : result Block :=
  try! blockData := result_wrap "failed to load block data" (kv_get (ds_db s) (getBlockKey hash)) in
  result_wrap "failed to unmarshal block data" (Block_UnmarshalBinary blockData).

Definition LoadBlock (s : DefaultStore) (height : Z) : result Block :=
  try! h := result_wrap "failed to load hash from index" (loadHashFromIndex s height) in
  LoadBlockByHash s h.

Definition LoadBlockResponses (s : DefaultStore) (height : Z) : result ABCIResponses :=
  try! data := result_wrap "failed to retrieve block results" (kv_get (ds_db s) (getResponsesKey height)) in
  result_wrap "failed to unmarshal data" (responses_unmarshal data).

Definition LoadCommitByHash (s : DefaultStore) (hash : hash32) : result Commit :=
  try! commitData := result_wrap "failed to retrieve commit from hash" (kv_get (ds_db s) (getCommitKey hash)) in
  result_wrap "failed to marshal Commit into object" (Commit_UnmarshalBinary commitData).

Definition LoadCommit (s : DefaultStore) (height : Z) : result Commit :=
  try! hash := result_wrap "failed to load hash from index" (loadHashFromIndex s height) in
  LoadCommitByHash s hash.

(** [LoadState] sets [height] and [baseHeight] from the state it read; any
    error of [Get] is reported as [ErrNoStateFound]. *)
Definition LoadState : M DefaultStore State := fun s =>
  match kv_get (ds_db s) getStateKey with
  | Panic m => (Panic m, s)
  | Err _ => (Err ErrNoStateFound, s)
  | Ok blob =>
      (let! pbState := lift (result_wrap "failed to unmarshal state from store" (state_unmarshal blob)) in
       let! state := lift (result_wrap "failed to unmarshal state from proto" (State_FromProto pbState)) in
       do! modify (fun s => with_base (st_BaseHeight state) (with_height (st_LastStoreHeight state) s)) in
       ret state) s
  end.

Definition LoadValidators (s : DefaultStore) (height : Z) : result ValidatorSet :=
  try! blob := result_wrap "failed to load Validators" (kv_get (ds_db s) (getValidatorsKey height)) in
  try! pbValSet := result_wrap "failed to unmarshal to protobuf" (valset_unmarshal blob) in
  vs_FromProto pbValSet.

(** ** Pruning (store/pruning.go) *)

(** The variables of [PruneBlocks]: the store, the open batch, the counter. *)
Record PruneSt := { ps_store : DefaultStore; ps_batch : batch; ps_pruned : Z }.

Definition with_batch (b : batch) (p : PruneSt) : PruneSt :=
  {| ps_store := ps_store p; ps_batch := b; ps_pruned := ps_pruned p |}.
Definition with_store (s : DefaultStore) (p : PruneSt) : PruneSt :=
  {| ps_store := s; ps_batch := ps_batch p; ps_pruned := ps_pruned p |}.

(** [flush(batch, base)]. *)
Definition flush (base : Z) : M PruneSt unit := fun p =>
  match batch_commit (ps_batch p) (ds_db (ps_store p)) with
  | (Ok _, d) => (Ok tt, with_store (SetBase base (with_db d (ps_store p))) p)
  | (Err e, d) => (Err (Wrap "failed to prune up to height" e), with_store (with_db d (ps_store p)) p)
  | (Panic m, d) => (Panic m, with_store (with_db d (ps_store p)) p)
  end.

(** The keys deleted for one height. *)
Definition prune_keys (hash : hash32) (h : Z) : list bytes :=
  [getBlockKey hash; getCommitKey hash; getIndexKey h; getResponsesKey h; getValidatorsKey h].

(** One iteration of the loop [for h := base; h < height; h++]. *)
Definition prune_step (h : Z) : M PruneSt unit := fun p =>
  match loadHashFromIndex (ps_store p) h with
  | Panic m => (Panic m, p)
  | Err _ => (Ok tt, p)
  | Ok hash =>
      (do! zoom ps_batch with_batch (for_each batch_delete (prune_keys hash h)) in
       do! modify (fun p => {| ps_store := ps_store p; ps_batch := ps_batch p;
                               ps_pruned := u64 (ps_pruned p + 1) |}) in
       let! pruned := gets ps_pruned in
       if ((pruned mod 1000 =? 0) && (0 <? pruned))%Z then
         do! flush h in
         modify (fun p => with_batch (kv_new_batch (ds_db (ps_store p))) p)
       else ret tt) p
  end.

Definition prune_loop (base height : Z) : M PruneSt unit :=
  do! for_each prune_step (seqZ base (height - base)) in
  flush height.

Definition PruneBlocks (heightInt : Z) : M DefaultStore Z := fun s =>
  if (heightInt <=? 0)%Z then (Err (New "height must be greater than 0"), s)
  else
    let height := u64 heightInt in
    if (Height s <? height)%Z then (Err (New "cannot prune beyond the latest height"), s)
    else
      let base := Base s in
      if (height <? base)%Z then (Err (New "cannot prune: lower than base height"), s)
      else
        match prune_loop base height
                {| ps_store := s; ps_batch := kv_new_batch (ds_db s); ps_pruned := 0 |} with
        | (Ok _, p) => (Ok (ps_pruned p), ps_store p)
        | (Err e, p) => (Err e, ps_store p)
        | (Panic m, p) => (Panic m, ps_store p)
        end.
End Store.
Arguments DefaultStore {K} : assert.

(** ** Keys never collide *)

(** Keys of different kinds differ in their first byte. *)
Ltac key_ne := intros ?; done.

Lemma getIndexKey_inj h1 h2 : is_u64 h1 -> is_u64 h2 -> getIndexKey h1 = getIndexKey h2 -> h1 = h2.
Proof. intros ? ? E. apply (be_split_inj h1 h2); [done..|]. by apply (app_inv_head indexPrefix). Qed.

Lemma getBlockKey_inj a b : getBlockKey a = getBlockKey b -> a = b.
Proof. intros E. apply vec_to_list_inj2. by apply (app_inv_head blockPrefix). Qed.

Lemma getCommitKey_inj a b : getCommitKey a = getCommitKey b -> a = b.
Proof. intros E. apply vec_to_list_inj2. by apply (app_inv_head commitPrefix). Qed.

Section StoreLemmas.
Context `{W : Wire} `{K : KVStore} `{!KVLaws K}.
Implicit Types s : DefaultStore.

(** What the store holds. *)
Definition store_view s : gmap bytes bytes := kv_view (ds_db s).

Lemma batch_set_all_spec kvs err b :
  exists err' b', batch_set_all kvs err b = (Ok err', b') /\
    (err' = None -> err = None /\
                    batch_view b' = batch_view b ++ ((fun kv => OpSet kv.1 kv.2) <$> kvs)).
Proof.
  revert err b. induction kvs as [|[k v] kvs IH]; intros err b; simpl.
  { exists err, b. split; [done|]. intros ->. by rewrite app_nil_r. }
  unfold bind, try.
  destruct (batch_set_view k v b) as [(b1 & -> & Hb)|(e & b1 & -> & Hb)]; simpl.
  - destruct (IH (multierr_append err None) b1) as (err' & b' & -> & Hrec).
    exists err', b'. split; [done|]. intros Hn. destruct (Hrec Hn) as [He Hv].
    split; [by destruct err|]. rewrite Hv, Hb. csimpl. by rewrite <- app_assoc.
  - destruct (IH (multierr_append err (Some e)) b1) as (err' & b' & -> & Hrec).
    exists err', b'. split; [done|]. intros Hn. destruct (Hrec Hn) as [He Hv].
    by destruct err.
Qed.

(** The contents after [SaveBlock] of a block with these blobs. *)
Definition saved_view (block : Block) (bb cb : bytes) (m : gmap bytes bytes) : gmap bytes bytes :=
  let hash := Header_Hash (blk_Header block) in
  <[getIndexKey (hdr_Height (blk_Header block)) := vec_to_list hash]>
    (<[getCommitKey hash := cb]> (<[getBlockKey hash := bb]> m)).

Lemma SaveBlock_ok block commit s ob s' :
  SaveBlock block commit None s = (Ok ob, s') ->
  ds_height s' = ds_height s /\ ds_baseHeight s' = ds_baseHeight s /\
  exists bb cb, Block_MarshalBinary block = Ok bb /\ Commit_MarshalBinary commit = Ok cb /\
    store_view s' = saved_view block bb cb (store_view s).
Proof.
  unfold SaveBlock. destruct (Block_MarshalBinary block) as [bb|e|m]; [|done..].
  destruct (Commit_MarshalBinary commit) as [cb|e|m]; [|done..]. cbn [result_wrap].
  destruct (batch_set_all_spec (block_entries block bb cb) None (kv_new_batch (ds_db s)))
    as (err' & b' & -> & Hb).
  destruct err' as [e|]; [done|]. destruct (Hb eq_refl) as [_ Hv].
  unfold on_db. go_simpl.
  destruct (batch_commit_view b' (ds_db s)) as [(d & -> & Hd)|(e & d & -> & Hd)]; [|done].
  intros ?. simplify_eq/=. split; [done|]. split; [done|]. exists bb, cb. split; [done|]. split; [done|].
  unfold store_view. cbn. rewrite Hd, Hv, kv_new_batch_view. done.
Qed.

Lemma SaveBlock_not_ok block commit s r s' :
  SaveBlock block commit None s = (r, s') -> is_ok r = false ->
  ds_height s' = ds_height s /\ ds_baseHeight s' = ds_baseHeight s /\ store_view s' = store_view s.
Proof.
  unfold SaveBlock. destruct (Block_MarshalBinary block) as [bb|e|m]; [|by intros; simplify_eq/=..].
  destruct (Commit_MarshalBinary commit) as [cb|e|m]; [|by intros; simplify_eq/=..]. cbn [result_wrap].
  destruct (batch_set_all_spec (block_entries block bb cb) None (kv_new_batch (ds_db s)))
    as (err' & b' & -> & Hb).
  destruct err' as [e|]; [by intros; simplify_eq/=|].
  unfold on_db. go_simpl.
  destruct (batch_commit_view b' (ds_db s)) as [(d & -> & Hd)|(e & d & -> & Hd)];
    intros; simplify_eq/=. unfold store_view. cbn. by rewrite Hd.
Qed.

(** ** Loading, in terms of the contents *)

Definition view_get (m : gmap bytes bytes) (k : bytes) : result bytes :=
  match m !! k with Some v => Ok v | None => Err ErrKeyNotFound end.

Lemma kv_get_store s k : kv_get (ds_db s) k = view_get (store_view s) k.
Proof. apply kv_get_view. Qed.

Lemma loadHashFromIndex_ok s h hash :
  loadHashFromIndex s h = Ok hash <-> store_view s !! getIndexKey h = Some (vec_to_list hash).
Proof.
  unfold loadHashFromIndex. rewrite kv_get_store. unfold view_get.
  destruct (store_view s !! getIndexKey h) as [blob|]; [|by split].
  cbn -[copy_into zero_hash]. case_decide as Hl.
  - destruct (to_vec 32 blob) as [v|] eqn:E; [|by apply to_vec_None in E].
    apply to_vec_Some in E as <-. rewrite copy_into_vec.
    split; [by intros [= ->]|]. intros [= E]. f_equal. by apply vec_to_list_inj2.
  - split; intros; simplify_eq. by rewrite length_vec_to_list in Hl.
Qed.

Lemma loadHashFromIndex_no_panic s h m : loadHashFromIndex s h <> Panic m.
Proof.
  unfold loadHashFromIndex. rewrite kv_get_store. unfold view_get.
  destruct (store_view s !! getIndexKey h); cbn -[copy_into zero_hash]; [|done]. by case_decide.
Qed.

(** Two stores that agree on the entries of a block agree on what they load. *)
Lemma LoadBlock_agree s1 s2 h hash :
  store_view s1 !! getIndexKey h = Some (vec_to_list hash) ->
  store_view s2 !! getIndexKey h = Some (vec_to_list hash) ->
  store_view s1 !! getBlockKey hash = store_view s2 !! getBlockKey hash ->
  LoadBlock s1 h = LoadBlock s2 h.
Proof.
  intros H1%loadHashFromIndex_ok H2%loadHashFromIndex_ok Hb.
  unfold LoadBlock. rewrite H1, H2. cbn. unfold LoadBlockByHash. rewrite !kv_get_store.
  unfold view_get. by rewrite Hb.
Qed.

Lemma LoadCommit_agree s1 s2 h hash :
  store_view s1 !! getIndexKey h = Some (vec_to_list hash) ->
  store_view s2 !! getIndexKey h = Some (vec_to_list hash) ->
  store_view s1 !! getCommitKey hash = store_view s2 !! getCommitKey hash ->
  LoadCommit s1 h = LoadCommit s2 h.
Proof.
  intros H1%loadHashFromIndex_ok H2%loadHashFromIndex_ok Hb.
  unfold LoadCommit. rewrite H1, H2. cbn. unfold LoadCommitByHash. rewrite !kv_get_store.
  unfold view_get. by rewrite Hb.
Qed.

(** The loads depend on the contents only. *)
Lemma loadHashFromIndex_view s1 s2 h :
  store_view s1 = store_view s2 -> loadHashFromIndex s1 h = loadHashFromIndex s2 h.
Proof. intros E. unfold loadHashFromIndex. by rewrite !kv_get_store, E. Qed.

Lemma LoadBlock_view s1 s2 h : store_view s1 = store_view s2 -> LoadBlock s1 h = LoadBlock s2 h.
Proof.
  intros E. unfold LoadBlock. rewrite (loadHashFromIndex_view _ _ h E).
  destruct (loadHashFromIndex s2 h); [|done..]. cbn. unfold LoadBlockByHash.
  by rewrite !kv_get_store, E.
Qed.

Lemma LoadCommit_view s1 s2 h : store_view s1 = store_view s2 -> LoadCommit s1 h = LoadCommit s2 h.
Proof.
  intros E. unfold LoadCommit. rewrite (loadHashFromIndex_view _ _ h E).
  destruct (loadHashFromIndex s2 h); [|done..]. cbn. unfold LoadCommitByHash.
  by rewrite !kv_get_store, E.
Qed.
End StoreLemmas.
