(* ===== verification/StorePrune.v ===== *)
(** * StorePrune: pruning implements "forget the blocks below a height"

    The proof that [PruneBlocks] (store/pruning.go), with its batches flushed
    every thousand blocks, has on every outcome deleted the entries of an initial
    run of the heights asked for and nothing else. *)
From stdpp Require Import base gmap strings vector sorting numbers list.
From S2P Require Import Prelude KVStore Types Serialization Store.

Section Prune.
Context `{W : Wire} `{K : KVStore} `{!KVLaws K}.
Implicit Types (s : DefaultStore) (p : PruneSt) (m : gmap bytes bytes).

(** The hash the index of [m] gives for a height. *)
Definition index_hash m (h : Z) : option hash32 :=
  match m !! getIndexKey h with Some blob => to_vec 32 blob | None => None end.

Lemma loadHashFromIndex_index s h hash :
  loadHashFromIndex s h = Ok hash <-> index_hash (store_view s) h = Some hash.
Proof.
  rewrite loadHashFromIndex_ok. unfold index_hash.
  destruct (store_view s !! getIndexKey h) as [blob|]; [|done].
  rewrite to_vec_Some. naive_solver.
Qed.

(** The keys pruning deletes for a height. *)
Definition height_keys m (h : Z) : list bytes :=
  match index_hash m h with Some hash => prune_keys hash h | None => [] end.

(** [m] without the entries of the heights [hs]. *)
Definition pruned_view m (hs : list Z) : gmap bytes bytes :=
  apply_ops (OpDelete <$> (hs ≫= height_keys m)) m.

Lemma lookup_apply_deletes ks m k :
  apply_ops (OpDelete <$> ks) m !! k = if decide (k ∈ ks) then None else m !! k.
Proof.
  revert m. induction ks as [|k' ks IH]; intros m.
  { by rewrite decide_False by apply not_elem_of_nil. }
  cbn [fmap list_fmap apply_ops foldl apply_op]. fold (apply_ops (OpDelete <$> ks) (delete k' m)).
  rewrite IH, lookup_delete. repeat case_decide; set_solver.
Qed.

Lemma lookup_pruned_view m hs k :
  pruned_view m hs !! k = if decide (k ∈ hs ≫= height_keys m) then None else m !! k.
Proof. apply lookup_apply_deletes. Qed.

Lemma pruned_view_snoc m hs h :
  pruned_view m (hs ++ [h]) = apply_ops (OpDelete <$> height_keys m h) (pruned_view m hs).
Proof.
  unfold pruned_view. rewrite bind_app, fmap_app, apply_ops_app. simpl. by rewrite app_nil_r.
Qed.

Lemma pruned_view_subseteq m hs : pruned_view m hs ⊆ m.
Proof. apply map_subseteq_spec. intros k v. rewrite lookup_pruned_view. by case_decide. Qed.

(** An index entry is deleted only with its own height. *)
Lemma index_in_height_keys m h h' :
  is_u64 h -> is_u64 h' -> getIndexKey h ∈ height_keys m h' -> h = h'.
Proof.
  intros Hu Hu'. unfold height_keys. destruct (index_hash m h') as [hash|]; [|by rewrite elem_of_nil].
  unfold prune_keys. rewrite !elem_of_cons, elem_of_nil.
  intros [E|[E|[E|[E|[E|[]]]]]]; try done. by apply getIndexKey_inj.
Qed.

Lemma index_hash_pruned m hs h :
  Forall is_u64 (h :: hs) -> h ∉ hs -> index_hash (pruned_view m hs) h = index_hash m h.
Proof.
  intros [Hu Hus]%Forall_cons Hn. unfold index_hash. rewrite lookup_pruned_view.
  rewrite decide_False; [done|]. intros (h' & Hk & Hin)%list_elem_of_bind.
  rewrite list.Forall_forall in Hus. by rewrite (index_in_height_keys m h h' Hu (Hus _ Hin) Hk) in Hn.
Qed.

(** ** The loop *)

Definition indexed m (h : Z) : Prop := is_Some (index_hash m h).
#[global] Instance indexed_dec m h : Decision (indexed m h).
Proof. unfold indexed. apply _. Defined.

(** Number of heights that have a block. *)
Definition n_indexed m (hs : list Z) : Z := Z.of_nat (length (filter (indexed m) hs)).

Definition pending p : gmap bytes bytes :=
  apply_ops (batch_view (ps_batch p)) (store_view (ps_store p)).

(** After the iterations for [hs]: everything asked for is deleted once the
    batch is flushed, and an initial run of it already is. *)
Record prune_inv s (hs : list Z) p : Prop := {
  pi_pending : pending p = pruned_view (store_view s) hs;
  pi_store : exists k, store_view (ps_store p) = pruned_view (store_view s) (take k hs);
  pi_count : ps_pruned p = n_indexed (store_view s) hs;
  pi_height : ds_height (ps_store p) = ds_height s;
  pi_base : ds_baseHeight (ps_store p) = ds_baseHeight s \/ ds_baseHeight (ps_store p) ∈ hs;
}.

(** What holds on every outcome. *)
Record prune_partial s (hs : list Z) p : Prop := {
  pp_store : exists k, store_view (ps_store p) = pruned_view (store_view s) (take k hs);
  pp_height : ds_height (ps_store p) = ds_height s;
  pp_base : ds_baseHeight (ps_store p) = ds_baseHeight s \/ ds_baseHeight (ps_store p) ∈ hs;
}.

Lemma prune_inv_partial s hs p : prune_inv s hs p -> prune_partial s hs p.
Proof. by intros []; split. Qed.

Lemma prune_partial_app s hs hs' p : prune_partial s hs p -> prune_partial s (hs ++ hs') p.
Proof.
  intros [[k Hk] ? Hb]; split; [|done|set_solver].
  exists (k `min` length hs). rewrite take_app_le by lia. by rewrite <- take_take, (take_ge hs) by lia.
Qed.
Lemma prune_inv_0 s :
  prune_inv s [] {| ps_store := s; ps_batch := kv_new_batch (ds_db s); ps_pruned := 0 |}.
Proof.
  split; try done; [|by exists 0|by left]. unfold pending. cbn. by rewrite kv_new_batch_view.
Qed.

Lemma batch_deletes_spec ks b :
  run_spec (for_each batch_delete ks b)
    (fun _ b' => batch_view b' = batch_view b ++ (OpDelete <$> ks)) (fun _ _ => True).
Proof.
  apply (run_spec_for_each _ (fun ks' b' => batch_view b' = batch_view b ++ (OpDelete <$> ks')) _ ks []).
  { by rewrite app_nil_r. }
  intros k ks' _ b1 _ Hb1. simpl in Hb1.
  eapply run_spec_mono; [apply (write_spec_run _ _ _ _ (batch_delete_view k))| |done].
  simpl. intros _ b2 ->. by rewrite Hb1, fmap_app, app_assoc.
Qed.

(** The write of a flush: either the pending deletions are all applied and the
    base is raised, or the store is unchanged. *)
Lemma flush_spec h p :
  run_spec (flush h p)
    (fun _ p' => store_view (ps_store p') = pending p /\ ps_pruned p' = ps_pruned p /\
                 ds_height (ps_store p') = ds_height (ps_store p) /\
                 ds_baseHeight (ps_store p') = Z.max (ds_baseHeight (ps_store p)) h)
    (fun _ p' => store_view (ps_store p') = store_view (ps_store p) /\
                 ds_height (ps_store p') = ds_height (ps_store p) /\
                 ds_baseHeight (ps_store p') = ds_baseHeight (ps_store p)).
Proof.
  unfold flush.
  destruct (batch_commit_view (ps_batch p) (ds_db (ps_store p))) as [(d & -> & Hd)|(e & d & -> & Hd)]; simpl.
  - unfold SetBase, store_view. simpl.
    destruct (Z.ltb_spec (ds_baseHeight (ps_store p)) h); simpl; repeat split; (done || lia).
  - done.
Qed.

Lemma n_indexed_snoc m hs h :
  n_indexed m (hs ++ [h]) = (n_indexed m hs + (if decide (indexed m h) then 1 else 0))%Z.
Proof.
  unfold n_indexed. rewrite filter_app, length_app, filter_cons, filter_nil.
  case_decide; simpl; lia.
Qed.

(** An iteration for a height without a block changes nothing. *)
Lemma prune_inv_skip s hs h p :
  index_hash (store_view s) h = None -> prune_inv s hs p -> prune_inv s (hs ++ [h]) p.
Proof.
  intros Hnone HI. pose proof (prune_inv_partial _ _ _ HI) as HP.
  apply (prune_partial_app _ _ [h]) in HP. destruct HI, HP. split; try done.
  - rewrite pruned_view_snoc. unfold height_keys. by rewrite Hnone.
  - rewrite n_indexed_snoc, decide_False; [lia|]. unfold indexed. rewrite Hnone. by intros [].
Qed.

(** Adding the deletions of a height to the batch, and counting it. *)
Lemma prune_inv_add s hs h hash p b :
  (n_indexed (store_view s) hs < 2 ^ 64 - 1)%Z ->
  index_hash (store_view s) h = Some hash ->
  batch_view b = batch_view (ps_batch p) ++ (OpDelete <$> prune_keys hash h) ->
  prune_inv s hs p ->
  prune_inv s (hs ++ [h]) {| ps_store := ps_store p; ps_batch := b; ps_pruned := u64 (ps_pruned p + 1) |}.
Proof.
  intros Hlt Hidx Hb HI. pose proof (prune_inv_partial _ _ _ HI) as HP.
  apply (prune_partial_app _ _ [h]) in HP. destruct HI as [Hpend _ Hc _ _], HP. split; try done.
  - rewrite pruned_view_snoc, <- Hpend. unfold pending, height_keys. simpl.
    by rewrite Hidx, Hb, apply_ops_app.
  - simpl. rewrite n_indexed_snoc, decide_True by (unfold indexed; rewrite Hidx; eauto).
    rewrite Hc, u64_small; [done|]. unfold is_u64, n_indexed in *. lia.
Qed.

(** A flush in the middle, which starts a new batch. *)
Lemma prune_inv_flush s hs h p :
  h ∈ hs -> prune_inv s hs p ->
  run_spec ((do! flush h in modify (fun p => with_batch (kv_new_batch (ds_db (ps_store p))) p)) p)
    (fun _ => prune_inv s hs) (fun _ => prune_partial s hs).
Proof.
  intros Hin [Hpend [k Hk] Hc Hh Hb]. eapply run_spec_bind.
  { eapply run_spec_mono; [apply flush_spec|intros a p' HQ; exact HQ|].
    intros e p' (Hv & Hh' & Hb'). split; [|by rewrite Hh'|by rewrite Hb'].
    exists k. by rewrite Hv. }
  intros [] p' (Hv & Hp & Hh' & Hb'). split; simpl.
  - unfold pending. simpl. rewrite kv_new_batch_view. simpl. by rewrite Hv.
  - exists (length hs). by rewrite firstn_all, Hv.
  - by rewrite Hp.
  - by rewrite Hh'.
  - rewrite Hb'. destruct (Z.max_spec (ds_baseHeight (ps_store p)) h) as [[_ ->]|[_ ->]]; eauto.
Qed.

Lemma prune_step_spec s hs h p :
  Forall is_u64 (h :: hs) -> h ∉ hs -> (n_indexed (store_view s) hs < 2 ^ 64 - 1)%Z ->
  prune_inv s hs p ->
  run_spec (prune_step h p) (fun _ => prune_inv s (hs ++ [h])) (fun _ => prune_partial s (hs ++ [h])).
Proof.
  intros [Hu Hus]%Forall_cons Hn Hlt HI. pose proof HI as [_ [k Hk] _ _ _].
  assert (Hidx : index_hash (store_view (ps_store p)) h = index_hash (store_view s) h).
  { rewrite Hk. apply index_hash_pruned; [constructor; [done|by apply Forall_take]|].
    intros (i & Hi & _)%elem_of_take. by eapply Hn, list_elem_of_lookup_2. }
  unfold prune_step. destruct (loadHashFromIndex (ps_store p) h) as [hash|e|msg] eqn:El.
  - apply loadHashFromIndex_index in El. rewrite Hidx in El.
    eapply run_spec_bind.
    { pose proof (batch_deletes_spec (prune_keys hash h) (ps_batch p)) as Hd. unfold zoom.
      destruct (for_each batch_delete (prune_keys hash h) (ps_batch p)) as [[[]|e|m] b]; [| |done].
      - exact (prune_inv_add s hs h hash p b Hlt El Hd HI : (fun _ p' => prune_inv s (hs ++ [h])
          {| ps_store := ps_store p'; ps_batch := ps_batch p'; ps_pruned := u64 (ps_pruned p' + 1) |})
          tt (with_batch b p)).
      - apply prune_partial_app. destruct (prune_inv_partial _ _ _ HI). by split. }
    intros [] p1 HI1. cbn -[flush]. case_match; [|done].
    apply prune_inv_flush; [set_solver|done].
  - apply prune_inv_skip; [|done]. rewrite <- Hidx.
    destruct (index_hash (store_view (ps_store p)) h) eqn:E; [|done].
    apply loadHashFromIndex_index in E. congruence.
  - by apply loadHashFromIndex_no_panic in El.
Qed.

Lemma n_indexed_le m hs : (n_indexed m hs <= Z.of_nat (length hs))%Z.
Proof. unfold n_indexed. pose proof (length_filter (indexed m) hs). lia. Qed.

Lemma seqZ_split_bound b n hs x l :
  seqZ b n = hs ++ x :: l -> (Z.of_nat (length hs) < n)%Z.
Proof.
  intros E. apply (f_equal length) in E. rewrite length_app, length_seqZ in E. simpl in E. lia.
Qed.

(** The loop over the heights, before the last flush. *)
Lemma prune_heights_spec s base n :
  (0 <= base)%Z -> (base + n <= 2 ^ 64 - 1)%Z ->
  run_spec
    (for_each prune_step (seqZ base n)
       {| ps_store := s; ps_batch := kv_new_batch (ds_db s); ps_pruned := 0 |})
    (fun _ => prune_inv s (seqZ base n)) (fun _ => prune_partial s (seqZ base n)).
Proof.
  intros Hb Hn.
  apply (run_spec_for_each _ (prune_inv s) (fun _ => prune_partial s (seqZ base n)) (seqZ base n) []).
  { apply prune_inv_0. }
  intros x hs l p El HI. simpl in HI |- *.
  pose proof (seqZ_split_bound _ _ _ _ _ El) as Hlen.
  assert (Hall : Forall is_u64 (seqZ base n)).
  { apply list.Forall_forall. intros y [? ?]%elem_of_seqZ. unfold is_u64. lia. }
  pose proof (NoDup_seqZ base n) as Hnd. rewrite El in Hall, Hnd |- *.
  apply Forall_app in Hall as [Hhs [Hx _]%Forall_cons].
  apply NoDup_app in Hnd as (_ & Hdis & _).
  eapply run_spec_mono; [apply (prune_step_spec s hs x p)|done|].
  - by constructor.
  - intros Hin. apply (Hdis x Hin). set_solver.
  - pose proof (n_indexed_le (store_view s) hs). lia.
  - done.
  - intros e p' Hp. simpl in Hp |- *. apply (prune_partial_app _ _ l) in Hp. by rewrite <- app_assoc in Hp.
Qed.

(** [PruneBlocks] past its guards. *)
Lemma PruneBlocks_spec s hi :
  (0 <= Base s)%Z -> (0 < hi < 2 ^ 63)%Z -> (Base s <= hi <= Height s)%Z ->
  let hs := seqZ (Base s) (hi - Base s) in
  run_spec (PruneBlocks hi s)
    (fun n s' => store_view s' = pruned_view (store_view s) hs /\
                 n = n_indexed (store_view s) hs /\
                 Base s' = hi /\ Height s' = Height s)
    (fun _ s' => (exists k, store_view s' = pruned_view (store_view s) (take k hs)) /\
                 (Base s <= Base s' <= hi)%Z /\ Height s' = Height s).
Proof.
  intros Hb Hhi Hr hs. unfold PruneBlocks.
  rewrite (u64_small hi) by (unfold is_u64; lia).
  replace (hi <=? 0)%Z with false by lia. replace (Height s <? hi)%Z with false by lia.
  replace (hi <? Base s)%Z with false by lia.
  unfold prune_loop, bind.
  pose proof (prune_heights_spec s (Base s) (hi - Base s) Hb ltac:(lia)) as Hloop. fold hs in Hloop |- *.
  assert (Hbase : forall p, ds_baseHeight (ps_store p) = ds_baseHeight s \/ ds_baseHeight (ps_store p) ∈ hs ->
            (Base s <= Base (ps_store p) <= hi)%Z).
  { unfold Base in *. intros p [->|[? ?]%elem_of_seqZ]; lia. }
  destruct (for_each _ _ _) as [[[]|e|m] p]; [| |done].
  - destruct Hloop as [Hpend [k Hk] Hc Hh Hbs]. specialize (Hbase _ Hbs).
    pose proof (flush_spec hi p) as Hf.
    destruct (flush hi p) as [[[]|e|m] p']; [| |done]; simpl in *.
    + destruct Hf as (Hv & Hp & Hh' & Hb'). rewrite Hv, Hp. unfold Height, Base in *.
      rewrite Hh', Hb'. repeat split; (done || lia).
    + destruct Hf as (Hv & Hh' & Hb'). unfold Height, Base in *. rewrite Hv, Hh', Hb'.
      split; [eauto|]. split; [lia|done].
  - destruct Hloop as [Hst Hh Hbs]. simpl. split; [done|]. split; [by apply Hbase|done].
Qed.
End Prune.

(** ** The chain a store holds

    The abstract view of a store: which block and commit it gives for a height. *)
Section Chain.
Context `{W : Wire} `{K : KVStore} `{!KVLaws K}.
Implicit Types s : DefaultStore.

Definition chain s (h : Z) : option (Block * Commit) :=
  match LoadBlock s h, LoadCommit s h with
  | Ok b, Ok c => Some (b, c)
  | _, _ => None
  end.

(** Every block is stored under its own height and hash. *)
Definition store_wf s : Prop :=
  forall h b, is_u64 h -> LoadBlock s h = Ok b ->
    hdr_Height (blk_Header b) = h /\ loadHashFromIndex s h = Ok (Header_Hash (blk_Header b)).

Lemma LoadBlock_index s h b :
  LoadBlock s h = Ok b -> exists hash, index_hash (store_view s) h = Some hash /\
    is_Some (store_view s !! getBlockKey hash).
Proof.
  unfold LoadBlock. destruct (loadHashFromIndex s h) as [hash|e|m] eqn:E; [|done..].
  intros Hl. exists hash. split; [by apply loadHashFromIndex_index|].
  cbn in Hl. unfold LoadBlockByHash in Hl. rewrite kv_get_store in Hl. unfold view_get in Hl.
  destruct (store_view s !! getBlockKey hash); [eauto|done].
Qed.

Lemma LoadCommit_index s h c :
  LoadCommit s h = Ok c -> exists hash, index_hash (store_view s) h = Some hash /\
    is_Some (store_view s !! getCommitKey hash).
Proof.
  unfold LoadCommit. destruct (loadHashFromIndex s h) as [hash|e|m] eqn:E; [|done..].
  intros Hl. exists hash. split; [by apply loadHashFromIndex_index|].
  cbn in Hl. unfold LoadCommitByHash in Hl. rewrite kv_get_store in Hl. unfold view_get in Hl.
  destruct (store_view s !! getCommitKey hash); [eauto|done].
Qed.

Lemma index_hash_view s h hash :
  index_hash (store_view s) h = Some hash -> store_view s !! getIndexKey h = Some (vec_to_list hash).
Proof. rewrite <- loadHashFromIndex_index. apply loadHashFromIndex_ok. Qed.

(** Removing entries never makes a block appear. *)
Lemma LoadBlock_subseteq s1 s2 h b :
  store_view s1 ⊆ store_view s2 -> LoadBlock s1 h = Ok b -> LoadBlock s2 h = Ok b.
Proof.
  intros Hsub Hl. destruct (LoadBlock_index _ _ _ Hl) as (hash & Hi%index_hash_view & [bb Hb]).
  rewrite <- Hl. symmetry. eapply LoadBlock_agree; [exact Hi|by eapply lookup_weaken|].
  rewrite Hb. symmetry. by eapply lookup_weaken.
Qed.

Lemma LoadCommit_subseteq s1 s2 h c :
  store_view s1 ⊆ store_view s2 -> LoadCommit s1 h = Ok c -> LoadCommit s2 h = Ok c.
Proof.
  intros Hsub Hl. destruct (LoadCommit_index _ _ _ Hl) as (hash & Hi%index_hash_view & [bb Hb]).
  rewrite <- Hl. symmetry. eapply LoadCommit_agree; [exact Hi|by eapply lookup_weaken|].
  rewrite Hb. symmetry. by eapply lookup_weaken.
Qed.

Lemma chain_subseteq s1 s2 h x : store_view s1 ⊆ store_view s2 -> chain s1 h = Some x -> chain s2 h = Some x.
Proof.
  intros Hsub. unfold chain.
  destruct (LoadBlock s1 h) as [b|?|?] eqn:Eb; [|done..].
  destruct (LoadCommit s1 h) as [c|?|?] eqn:Ec; [|done..].
  by rewrite (LoadBlock_subseteq _ _ _ _ Hsub Eb), (LoadCommit_subseteq _ _ _ _ Hsub Ec).
Qed.

Lemma store_wf_subseteq s1 s2 : store_view s1 ⊆ store_view s2 -> store_wf s2 -> store_wf s1.
Proof.
  intros Hsub Hwf h b Hu Hl. destruct (Hwf h b Hu (LoadBlock_subseteq _ _ _ _ Hsub Hl)) as [? Hx].
  split; [done|]. apply loadHashFromIndex_ok in Hx. apply loadHashFromIndex_ok.
  destruct (LoadBlock_index _ _ _ Hl) as (hash & Hi%index_hash_view & _).
  pose proof (lookup_weaken _ _ _ _ Hi Hsub). congruence.
Qed.

(** In a well-formed store two heights never share a block. *)
Lemma store_wf_hash s h h' b hash :
  store_wf s -> is_u64 h -> is_u64 h' -> LoadBlock s h = Ok b ->
  index_hash (store_view s) h = Some hash -> index_hash (store_view s) h' = Some hash -> h = h'.
Proof.
  intros Hwf Hu Hu' Hl Hi Hi'. destruct (Hwf _ _ Hu Hl) as [<- _].
  assert (Hl' : LoadBlock s h' = Ok b).
  { rewrite <- Hl. apply loadHashFromIndex_index in Hi, Hi'. unfold LoadBlock. by rewrite Hi, Hi'. }
  by destruct (Hwf _ _ Hu' Hl') as [? _].
Qed.
End Chain.
