(* ===== verification/StoreSpec.v ===== *)
(** * StoreSpec: what the stores promise

    The theorems about store/: the key-value stores are isolated and atomic, the
    block store refines the abstract chain of StorePrune.v under saving and
    pruning, and the state is read back after a restart. *)
From stdpp Require Import base gmap strings vector sorting numbers list.
From S2P Require Import Prelude KVStore Types Serialization Concrete Store StorePrune.

Section KVTheorems.
Context (K : KVStore) `{!KVLaws K}.

(** An operation added to a batch. *)
Definition add_op (K : KVStore) (o : kvop) : M batch unit :=
  match o with OpSet k v => batch_set k v | OpDelete k => batch_delete k end.

(** Running writes in a row, alone or in batches; a Go error is ignored. *)
Inductive kv_step (K : KVStore) : db -> db -> Prop :=
| step_set k v d : kv_step K d (snd (kv_set k v d))
| step_delete k d : kv_step K d (snd (kv_delete k d))
| step_batch ops d : kv_step K d (snd (batch_commit (snd (for_each (add_op K) ops (kv_new_batch d))) d)).

(** An operation on a key under [p]. *)
Definition op_under (p : bytes) (o : kvop) : Prop := exists k, match o with OpSet k' _ | OpDelete k' => k' = p ++ k end.

Lemma prefix_batch_under p ops b :
  Forall (op_under p) (@batch_view K _ b) -> Forall (op_under p) (@batch_view K _ (snd (for_each (add_op (PrefixKV K p)) ops b))).
Proof.
  revert b. induction ops as [|o ops IH]; intros b Hb; cbn [for_each]; [done|]. unfold bind.
  assert (Ho : Forall (op_under p) (@batch_view K _ (snd (add_op (PrefixKV K p) o b)))).
  { destruct o as [k v|k]; cbn; unfold prefix_batch_set, prefix_batch_delete.
    - destruct (@batch_set_view K _ (p ++ k) v b) as [(b' & -> & Hv)|(e & b' & -> & Hv)]; cbn; rewrite Hv; [|done].
      apply Forall_app_2; [done|]. constructor; [by exists k|constructor].
    - destruct (@batch_delete_view K _ (p ++ k) b) as [(b' & -> & Hv)|(e & b' & -> & Hv)]; cbn; rewrite Hv; [|done].
      apply Forall_app_2; [done|]. constructor; [by exists k|constructor]. }
  destruct (add_op (PrefixKV K p) o b) as [[] b']; [by apply IH|done..].
Qed.

Lemma sub_map_ops_other p q ops m :
  ~ p `prefix_of` q -> ~ q `prefix_of` p -> Forall (op_under p) ops -> sub_map q (apply_ops ops m) = sub_map q m.
Proof.
  intros Hpq Hqp Hops. revert m. induction Hops as [|o ops [k Ho] _ IH]; intros m; [done|].
  change (apply_ops (o :: ops) m) with (apply_ops ops (apply_op m o)). rewrite IH.
  destruct o; cbn; subst; [by apply sub_map_insert_other|by apply sub_map_delete_other].
Qed.

(** A write through [p] is not seen through [q]. *)
Lemma kv_step_isolated p q d d' :
  ~ p `prefix_of` q -> ~ q `prefix_of` p -> kv_step (PrefixKV K p) d d' -> sub_map q (@kv_view K _ d') = sub_map q (@kv_view K _ d).
Proof.
  intros Hpq Hqp [k' v d1|k' d1|ops d1]; cbn.
  - destruct (@kv_set_view K _ (p ++ k') v d1) as [(d2 & E & Hv)|(e & d2 & E & Hv)];
      unfold prefix_set; rewrite E; cbn; rewrite Hv; [by apply sub_map_insert_other|done].
  - destruct (@kv_delete_view K _ (p ++ k') d1) as [(d2 & E & Hv)|(e & d2 & E & Hv)];
      unfold prefix_delete; rewrite E; cbn; rewrite Hv; [by apply sub_map_delete_other|done].
  - unfold prefix_batch_commit, prefix_new_batch. match goal with |- context [@batch_commit _ ?x d1] => set (b := x) end.
    assert (Hb : Forall (op_under p) (@batch_view K _ b)) by (apply prefix_batch_under; by rewrite (@kv_new_batch_view K _)).
    destruct (@batch_commit_view K _ b d1) as [(d2 & E & Hv)|(e & d2 & E & Hv)]; rewrite E; cbn; rewrite Hv; [by apply (sub_map_ops_other p)|done].
Qed.

(** A write through a prefix of a store is a write of that store. *)
Lemma kv_step_nested p d d' : kv_step (PrefixKV K p) d d' -> kv_step K d d'.
Proof.
  intros [k v d1|k d1|ops d1]; [apply (step_set K)|apply (step_delete K)|].
  assert (E : forall b, for_each (add_op (PrefixKV K p)) ops b =
    for_each (add_op K) ((fun o => match o with OpSet k v => OpSet (p ++ k) v | OpDelete k => OpDelete (p ++ k) end) <$> ops) b).
  { induction ops as [|o ops IH]; intros b; [done|]. cbn [for_each fmap list_fmap]. unfold bind.
    assert (add_op (PrefixKV K p) o b = add_op K (match o with OpSet k v => OpSet (p ++ k) v | OpDelete k => OpDelete (p ++ k) end) b) as ->
      by (by destruct o). destruct (add_op K _ b) as [[] b']; [apply IH|done..]. }
  cbn. rewrite E. apply (step_batch K).
Qed.

Lemma kv_get_isolated q d d' k : sub_map q (@kv_view K _ d') = sub_map q (@kv_view K _ d) -> @kv_get (PrefixKV K q) d' k = @kv_get (PrefixKV K q) d k.
Proof. intros E. rewrite !kv_get_view. cbn. unfold compose. by rewrite E. Qed.

(** Two [PrefixKV] stores over one database do not see each other's writes when
    neither prefix extends the other: no write through [p], failed or not, changes
    what [Get] returns through [q]. *)
Theorem prefix_kv_isolated p q d d' k :
  ~ p `prefix_of` q -> ~ q `prefix_of` p ->
  rtc (kv_step (PrefixKV K p)) d d' ->
  @kv_get (PrefixKV K q) d' k = @kv_get (PrefixKV K q) d k.
Proof.
  intros Hpq Hqp. induction 1 as [d|d d1 d2 Hstep _ IH]; [done|]. rewrite IH.
  by apply kv_get_isolated, (kv_step_isolated p).
Qed.
End KVTheorems.

(** The two stores of the node under the prefixes 0 (blocks) and 1 (data availability). *)
Lemma prefix_kv_isolated_witness :
  @kv_get (PrefixKV MemKV [Byte.x01])
    (snd (@kv_set (PrefixKV MemKV [Byte.x00]) [Byte.x07] [Byte.x08] (∅ : gmap bytes bytes))) [Byte.x07]
  = Err ErrKeyNotFound.
Proof.
  rewrite (prefix_kv_isolated MemKV [Byte.x00] [Byte.x01] (∅ : gmap bytes bytes)).
  - reflexivity.
  - intros [l Hl]. discriminate Hl.
  - intros [l Hl]. discriminate Hl.
  - apply rtc_once. constructor.
Defined.

Section BadgerTheorems.
Context (Bg : Badger) (L : BadgerLaws Bg).

(** Sets collected in a batch, then committed. *)
Definition set_in_batch (kvs : list (bytes * bytes)) : M (@db (BadgerKV Bg)) unit := fun d =>
  match for_each (fun kv => @batch_set (BadgerKV Bg) kv.1 kv.2) kvs (@kv_new_batch (BadgerKV Bg) d) with
  | (Ok _, b) => @batch_commit (BadgerKV Bg) b d
  | (Err e, _) => (Err e, d)
  | (Panic m, _) => (Panic m, d)
  end.

Lemma set_in_batch_spec kvs d :
  run_spec (set_in_batch kvs d)
    (fun _ d' => badger_view d' = apply_ops ((fun kv => OpSet kv.1 kv.2) <$> kvs) (badger_view d))
    (fun _ d' => badger_view d' = badger_view d).
Proof.
  unfold set_in_batch.
  assert (Hb : run_spec (for_each (fun kv => @batch_set (BadgerKV Bg) kv.1 kv.2) kvs
                           (@kv_new_batch (BadgerKV Bg) d))
                 (fun _ b => txn_writes b = (fun kv => OpSet kv.1 kv.2) <$> kvs) (fun _ _ => True)).
  { apply (run_spec_for_each _ (fun kvs' b => txn_writes b = (fun kv => OpSet kv.1 kv.2) <$> kvs') _ kvs []).
    { apply new_txn_writes. }
    intros [k v] kvs' _ b _ Hb. eapply run_spec_mono; [apply (write_spec_run _ _ _ _ (txn_set_writes k v))| |done].
    intros u b' Hb'. simpl in *. by rewrite Hb', Hb, fmap_app. }
  destruct (for_each _ _ _) as [[[]|e|m] b]; [|done..].
  eapply run_spec_mono; [apply (write_spec_run _ _ _ _ (txn_commit_view b))| |done].
  intros u d' Hd. cbn in *. by rewrite Hd, Hb.
Qed.

Lemma lookup_apply_sets (kvs : list (bytes * bytes)) (m : gmap bytes bytes) k :
  k ∉ kvs.*1 -> apply_ops ((fun kv => OpSet kv.1 kv.2) <$> kvs) m !! k = m !! k.
Proof.
  revert m. induction kvs as [|[k' v'] kvs IH]; intros m Hk; [done|]. csimpl in Hk.
  apply not_elem_of_cons in Hk as [? ?].
  transitivity (<[k':=v']> m !! k); [by apply (IH (<[k':=v']> m))|by rewrite lookup_insert_ne].
Qed.

Lemma lookup_apply_sets_in (kvs : list (bytes * bytes)) (m : gmap bytes bytes) k v :
  NoDup kvs.*1 -> (k, v) ∈ kvs ->
  apply_ops ((fun kv => OpSet kv.1 kv.2) <$> kvs) m !! k = Some v.
Proof.
  revert m. induction kvs as [|[k' v'] kvs IH]; intros m Hnd Hin; [by apply elem_of_nil in Hin|].
  csimpl in Hnd. apply NoDup_cons in Hnd as [Hk Hnd].
  apply elem_of_cons in Hin as [E|Hin].
  - simplify_eq. transitivity (<[k':=v']> m !! k'); [by apply (lookup_apply_sets kvs (<[k':=v']> m))|by rewrite lookup_insert_eq].
  - by apply (IH (<[k':=v']> m)).
Qed.

(** A Badger-backed batch is atomic: when building or committing it returns an
    error, every read is unchanged, and when it succeeds every key of the batch
    reads back its value and every other key is unchanged; it never panics. *)
Theorem badger_batch_atomic (kvs : list (bytes * bytes)) d r d' :
  NoDup kvs.*1 ->
  set_in_batch kvs d = (r, d') ->
  match r with
  | Ok _ => forall k, (forall v, (k, v) ∈ kvs -> @kv_get (BadgerKV Bg) d' k = Ok v) /\
                      (k ∉ kvs.*1 -> @kv_get (BadgerKV Bg) d' k = @kv_get (BadgerKV Bg) d k)
  | Err _ => forall k, @kv_get (BadgerKV Bg) d' k = @kv_get (BadgerKV Bg) d k
  | Panic _ => False
  end.
Proof.
  intros Hnd E. pose proof (set_in_batch_spec kvs d) as Hs. rewrite E in Hs.
  destruct r as [[]|e|m]; simpl in Hs; [| |done].
  - intros k. split.
    + intros v Hin. rewrite (@kv_get_view (BadgerKV Bg) (BadgerKV_laws Bg L)). cbn.
      rewrite Hs. by rewrite (lookup_apply_sets_in kvs _ k v).
    + intros Hk. rewrite !(@kv_get_view (BadgerKV Bg) (BadgerKV_laws Bg L)). cbn.
      rewrite Hs. by rewrite lookup_apply_sets.
  - intros k. rewrite !(@kv_get_view (BadgerKV Bg) (BadgerKV_laws Bg L)). cbn. by rewrite Hs.
Qed.
End BadgerTheorems.

(** A database in memory in the place of Badger; a transaction keeps its writes. *)
Definition mem_badger : Badger := {|
  badger_db := gmap bytes bytes;
  badger_txn := gmap bytes bytes * list kvop;
  NewTransaction d _ := (d, []);
  txn_get t k := match t.1 !! k with Some v => Ok v | None => Err (New "Key not found") end;
  txn_set k v := modify (fun t => (t.1, t.2 ++ [OpSet k v]));
  txn_delete k := modify (fun t => (t.1, t.2 ++ [OpDelete k]));
  txn_commit t := modify (apply_ops t.2);
  txn_discard t := (t.1, []);
  txn_items t p := (fun kv => (kv.1, Ok kv.2)) <$> map_range p t.1;
  badger_ErrKeyNotFound := New "Key not found";
|}.

Definition mem_badger_laws : BadgerLaws mem_badger.
Proof.
  refine (@Build_BadgerLaws mem_badger (fun d => d) (fun t => t.2) _ _ _ _ _); intros; try done.
  - by apply write_spec_modify.
  - by apply write_spec_modify.
  - by apply write_spec_modify.
Defined.

Lemma badger_batch_atomic_witness :
  @kv_get (BadgerKV mem_badger)
    (snd (set_in_batch mem_badger [([Byte.x01], [Byte.x02]); ([Byte.x03], [Byte.x04])] (∅ : gmap bytes bytes)))
    [Byte.x03] = Ok [Byte.x04].
Proof.
  refine (proj1 (badger_batch_atomic mem_badger mem_badger_laws
    [([Byte.x01], [Byte.x02]); ([Byte.x03], [Byte.x04])] (∅ : gmap bytes bytes) (Ok tt) _ _ eq_refl
    [Byte.x03]) [Byte.x04] _).
  - apply (bool_decide_unpack _). vm_compute. exact I.
  - apply (bool_decide_unpack _). vm_compute. exact I.
Defined.

(** ** The block store *)

Section BlockStore.
Context {T : Tendermint} {W : Wire} `{!WireLaws W} {K : KVStore} `{!KVLaws K}.
Implicit Types s : DefaultStore.

Lemma lookup_saved_index block bb cb m h :
  is_u64 h -> is_u64 (hdr_Height (blk_Header block)) ->
  saved_view block bb cb m !! getIndexKey h =
  if decide (h = hdr_Height (blk_Header block)) then Some (vec_to_list (Header_Hash (blk_Header block)))
  else m !! getIndexKey h.
Proof.
  intros Hu Hb. unfold saved_view. case_decide as E; [subst; by rewrite lookup_insert_eq|].
  rewrite lookup_insert_ne by (intros E'%getIndexKey_inj; [by subst|done..]).
  by rewrite !lookup_insert_ne by key_ne.
Qed.

Lemma lookup_saved_block block bb cb m hash :
  saved_view block bb cb m !! getBlockKey hash =
  if decide (hash = Header_Hash (blk_Header block)) then Some bb else m !! getBlockKey hash.
Proof.
  unfold saved_view. rewrite !(lookup_insert_ne _ _ (getBlockKey hash)) by key_ne.
  case_decide as E; [subst; by rewrite lookup_insert_eq|].
  by rewrite lookup_insert_ne by (intros E'%getBlockKey_inj; by subst).
Qed.

Lemma lookup_saved_commit block bb cb m hash :
  saved_view block bb cb m !! getCommitKey hash =
  if decide (hash = Header_Hash (blk_Header block)) then Some cb else m !! getCommitKey hash.
Proof.
  unfold saved_view. rewrite lookup_insert_ne by key_ne.
  case_decide as E; [subst; by rewrite lookup_insert_eq|].
  rewrite lookup_insert_ne by (intros E'%getCommitKey_inj; by subst).
  by rewrite lookup_insert_ne by key_ne.
Qed.

(** No other height is indexed under the hash of [block]. *)
Definition hash_fresh s (block : Block) : Prop :=
  forall h, is_u64 h -> h <> hdr_Height (blk_Header block) ->
    loadHashFromIndex s h <> Ok (Header_Hash (blk_Header block)).

Lemma saved_load block commit s s' bb cb h :
  is_u64 h -> is_u64 (hdr_Height (blk_Header block)) -> hash_fresh s block ->
  data_Evidence (blk_Data block) = [] ->
  Block_MarshalBinary block = Ok bb -> Commit_MarshalBinary commit = Ok cb ->
  store_view s' = saved_view block bb cb (store_view s) ->
  if decide (h = hdr_Height (blk_Header block))
  then LoadBlock s' h = Ok block /\ LoadCommit s' h = Ok commit /\
       loadHashFromIndex s' h = Ok (Header_Hash (blk_Header block))
  else LoadBlock s' h = LoadBlock s h /\ LoadCommit s' h = LoadCommit s h /\
       loadHashFromIndex s' h = loadHashFromIndex s h.
Proof.
  intros Hu Hub Hfr Hev Hbb Hcb Hv.
  pose proof (lookup_saved_index block bb cb (store_view s) h Hu Hub) as Hidx. rewrite <- Hv in Hidx.
  case_decide as E.
  - apply loadHashFromIndex_ok in Hidx as Hl.
    unfold LoadBlock, LoadCommit, LoadBlockByHash, LoadCommitByHash. rewrite Hl. cbn.
    rewrite !kv_get_store, Hv. unfold view_get.
    rewrite lookup_saved_block, lookup_saved_commit, !decide_True by done. cbn.
    rewrite (block_marshal_roundtrip block bb), (commit_marshal_roundtrip commit cb) by done. done.
  - assert (Hl : loadHashFromIndex s' h = loadHashFromIndex s h).
    { unfold loadHashFromIndex. rewrite !kv_get_store. unfold view_get. by rewrite Hidx. }
    split; [|split]; [| |done]; unfold LoadBlock, LoadCommit; rewrite Hl;
      specialize (Hfr h Hu E); destruct (loadHashFromIndex s h) as [hash|?|?]; try done; cbn;
      unfold LoadBlockByHash, LoadCommitByHash; rewrite !kv_get_store, Hv; unfold view_get;
      [rewrite lookup_saved_block|rewrite lookup_saved_commit]; rewrite decide_False by congruence; done.
Qed.

Lemma saved_store_wf block commit s s' bb cb :
  is_u64 (hdr_Height (blk_Header block)) -> hash_fresh s block -> data_Evidence (blk_Data block) = [] ->
  Block_MarshalBinary block = Ok bb -> Commit_MarshalBinary commit = Ok cb ->
  store_view s' = saved_view block bb cb (store_view s) -> store_wf s -> store_wf s'.
Proof.
  intros Hu Hfr Hev Hbb Hcb Hv Hwf h b Huh Hl.
  pose proof (saved_load block commit s s' bb cb h Huh Hu Hfr Hev Hbb Hcb Hv) as Hload.
  case_decide as E; destruct Hload as (Hlb & _ & Hlh).
  - rewrite Hlb in Hl. by simplify_eq.
  - rewrite Hlh. apply Hwf; [done|]. by rewrite <- Hlb.
Qed.

(** The abstract chain after a block was saved. *)
Lemma SaveBlock_chain block commit s ob s' :
  SaveBlock block commit None s = (Ok ob, s') ->
  is_u64 (hdr_Height (blk_Header block)) -> data_Evidence (blk_Data block) = [] ->
  hash_fresh s block -> store_wf s ->
  (forall h, is_u64 h ->
     chain s' h = if decide (h = hdr_Height (blk_Header block)) then Some (block, commit) else chain s h) /\
  store_wf s' /\ Height s' = Height s /\ Base s' = Base s.
Proof.
  intros (Hh & Hb & bb & cb & Hbb & Hcb & Hv)%SaveBlock_ok Hu Hev Hfr Hwf.
  pose proof (fun h Hh => saved_load block commit s s' bb cb h Hh Hu Hfr Hev Hbb Hcb Hv) as Hload.
  split; [|split; [|done]].
  - intros h Huh. specialize (Hload h Huh). unfold chain.
    case_decide; destruct Hload as (-> & -> & _); done.
  - by eapply saved_store_wf.
Qed.

(** C13: saving a block refines the abstract chain: [SaveBlock] sets the entry of the
    block's own height to the pair given and leaves every other height alone, keeps
    every block under its own height and hash, and does not move [Height] or [Base]. *)
Theorem save_block_extends_chain block commit s ob s' :
  SaveBlock block commit None s = (Ok ob, s') ->
  is_u64 (hdr_Height (blk_Header block)) -> data_Evidence (blk_Data block) = [] ->
  hash_fresh s block -> store_wf s ->
  (forall h, is_u64 h ->
     chain s' h = if decide (h = hdr_Height (blk_Header block)) then Some (block, commit) else chain s h) /\
  store_wf s' /\ Height s' = Height s /\ Base s' = Base s.
Proof. apply SaveBlock_chain. Qed.

(** A failed [SaveBlock] leaves no trace: whatever the error, every height loads
    what it loaded before and [Height] and [Base] are unchanged. *)
Theorem save_block_failure_atomic block commit s r s' :
  SaveBlock block commit None s = (r, s') -> is_ok r = false ->
  (forall h, LoadBlock s' h = LoadBlock s h /\ LoadCommit s' h = LoadCommit s h) /\
  Height s' = Height s /\ Base s' = Base s.
Proof.
  intros Hs Hr. destruct (SaveBlock_not_ok _ _ _ _ _ Hs Hr) as (Hh & Hb & Hv).
  split; [|done]. intros h. split; [by apply LoadBlock_view|by apply LoadCommit_view].
Qed.

(** ** Pruning *)

(** A height whose index entry is kept keeps its block and commit. *)
Lemma pruned_keeps s m' hs h b hash key :
  m' = pruned_view (store_view s) hs -> Forall is_u64 (h :: hs) -> h ∉ hs -> store_wf s ->
  LoadBlock s h = Ok b -> index_hash (store_view s) h = Some hash ->
  key = getBlockKey hash \/ key = getCommitKey hash \/ key = getIndexKey h ->
  m' !! key = store_view s !! key.
Proof.
  intros -> [Hu Hus]%Forall_cons Hn Hwf Hl Hi Hkey. rewrite lookup_pruned_view.
  rewrite decide_False; [done|]. intros (h' & Hk & Hin)%list_elem_of_bind.
  assert (Hne : h <> h') by congruence. rewrite list.Forall_forall in Hus. specialize (Hus _ Hin).
  unfold height_keys in Hk. destruct (index_hash (store_view s) h') as [hash'|] eqn:Hi'; [|set_solver].
  unfold prune_keys in Hk. rewrite !elem_of_cons, elem_of_nil in Hk.
  destruct Hkey as [-> | [-> | ->]]; destruct Hk as [E| [E| [E| [E| [E| []]]]]]; try done.
  - apply getBlockKey_inj in E as ->. by apply Hne, (store_wf_hash s h h' b hash').
  - apply getCommitKey_inj in E as ->. by apply Hne, (store_wf_hash s h h' b hash').
  - by apply getIndexKey_inj in E.
Qed.

Lemma pruned_chain s s' hs h :
  store_view s' = pruned_view (store_view s) hs -> Forall is_u64 (h :: hs) -> store_wf s ->
  chain s' h = if decide (h ∈ hs) then None else chain s h.
Proof.
  intros Hv Hus Hwf. case_decide as Hin.
  - unfold chain. destruct (LoadBlock s' h) as [b|?|?] eqn:E; [|done..]. exfalso.
    destruct (LoadBlock_index _ _ _ E) as (hash & Hi & _). unfold index_hash in Hi.
    rewrite Hv, lookup_pruned_view in Hi. case_decide as Hk; [done|]. apply Hk, list_elem_of_bind.
    exists h. split; [|done]. unfold height_keys, index_hash. rewrite Hi. unfold prune_keys. set_solver.
  - pose proof (pruned_view_subseteq (store_view s) hs) as Hsub. rewrite <- Hv in Hsub.
    destruct (chain s h) as [x|] eqn:E.
    + unfold chain in *. destruct (LoadBlock s h) as [b|?|?] eqn:Eb; [|done..].
      destruct (LoadBlock_index _ _ _ Eb) as (hash & Hi & _).
      pose proof (fun k => pruned_keeps s _ hs h b hash k Hv Hus Hin Hwf Eb Hi) as Hk.
      apply index_hash_view in Hi.
      rewrite (LoadBlock_agree s' s h hash), (LoadCommit_agree s' s h hash); rewrite ?Hk; eauto.
      by rewrite Eb.
    + destruct (chain s' h) as [x|] eqn:E'; [|done]. by rewrite (chain_subseteq _ _ _ _ Hsub E') in E.
Qed.

Lemma Forall_seqZ_u64 h base n :
  is_u64 h -> (0 <= base)%Z -> (base + n <= 2 ^ 64)%Z -> Forall is_u64 (h :: seqZ base n).
Proof.
  intros. constructor; [done|]. apply list.Forall_forall. intros y [? ?]%elem_of_seqZ. unfold is_u64. lia.
Qed.

(** C14: pruning refines "forget the heights below [hi]": it never panics; when it
    returns, exactly the heights from the old base up to [hi] are gone, every other
    height loads what it did, the base is [hi], and the count returned is the number
    of heights that had a block; when it fails, every height outside that range still
    loads what it did and the base has not passed [hi].  The store stays well formed
    and [Height] does not move. *)
Theorem prune_blocks_refines s hi r s' :
  PruneBlocks hi s = (r, s') -> store_wf s ->
  (0 <= Base s)%Z -> (0 < hi < 2 ^ 63)%Z -> (Base s <= hi <= Height s)%Z ->
  store_wf s' /\ Height s' = Height s /\
  match r with
  | Ok n => (forall h, is_u64 h -> chain s' h = if decide (Base s <= h < hi)%Z then None else chain s h) /\
            Base s' = hi /\
            n = Z.of_nat (length (filter (fun h => indexed (store_view s) h) (seqZ (Base s) (hi - Base s))))
  | Err _ => (forall h, is_u64 h -> ~ (Base s <= h < hi)%Z -> chain s' h = chain s h) /\
             (Base s <= Base s' <= hi)%Z
  | Panic _ => False
  end.
Proof.
  intros E Hwf Hb Hhi Hr. pose proof (PruneBlocks_spec s hi Hb Hhi Hr) as Hs. simpl in Hs.
  rewrite E in Hs. destruct r as [n|e|m]; simpl in Hs; [| |done].
  - destruct Hs as (Hv & -> & Hb' & Hh'). split.
    { eapply store_wf_subseteq; [|exact Hwf]. rewrite Hv. apply pruned_view_subseteq. }
    split; [done|]. split; [|done]. intros h Hu.
    rewrite (pruned_chain s s' _ h Hv); [|apply Forall_seqZ_u64; (done || lia)|done].
    apply decide_ext. rewrite elem_of_seqZ. lia.
  - destruct Hs as ([k Hv] & Hb' & Hh'). split.
    { eapply store_wf_subseteq; [|exact Hwf]. rewrite Hv. apply pruned_view_subseteq. }
    split; [done|]. split; [|done]. intros h Hu Hn.
    pose proof (Forall_seqZ_u64 h (Base s) (hi - Base s) Hu ltac:(lia) ltac:(lia)) as Hall.
    rewrite (pruned_chain s s' _ h Hv); [|apply Forall_cons in Hall as [? ?]; constructor; [done|by apply Forall_take]|done].
    rewrite decide_False; [done|]. intros Hin%elem_of_take. destruct Hin as (i & Hin & _).
    apply list_elem_of_lookup_2, elem_of_seqZ in Hin. lia.
Qed.

(** ** Entries that are not blocks *)

(** Keys of the state, responses and validators. *)
Definition aux_key (k : bytes) : Prop :=
  k = getStateKey \/ exists h, k = getResponsesKey h \/ k = getValidatorsKey h.

Lemma not_aux_index h : ~ aux_key (getIndexKey h).
Proof. by intros [?|(h' & [?|?])]. Qed.
Lemma not_aux_block hash : ~ aux_key (getBlockKey hash).
Proof. by intros [?|(h' & [?|?])]. Qed.
Lemma not_aux_commit hash : ~ aux_key (getCommitKey hash).
Proof. by intros [?|(h' & [?|?])]. Qed.

(** Stores that agree on everything else load the same blocks. *)
Lemma loads_aux s s' h :
  (forall k, ~ aux_key k -> store_view s' !! k = store_view s !! k) ->
  LoadBlock s' h = LoadBlock s h /\ LoadCommit s' h = LoadCommit s h /\
  loadHashFromIndex s' h = loadHashFromIndex s h.
Proof.
  intros Hk.
  assert (Hl : loadHashFromIndex s' h = loadHashFromIndex s h).
  { unfold loadHashFromIndex. rewrite !kv_get_store. unfold view_get. by rewrite Hk by apply not_aux_index. }
  unfold LoadBlock, LoadCommit. rewrite Hl. destruct (loadHashFromIndex s h) as [hash|?|?]; [|done..]. cbn.
  unfold LoadBlockByHash, LoadCommitByHash. rewrite !kv_get_store. unfold view_get.
  by rewrite !Hk by (apply not_aux_block || apply not_aux_commit).
Qed.

Lemma chain_aux s s' h :
  (forall k, ~ aux_key k -> store_view s' !! k = store_view s !! k) -> chain s' h = chain s h.
Proof. intros Hk. unfold chain. by destruct (loads_aux s s' h Hk) as (-> & -> & _). Qed.

Lemma store_wf_aux s s' :
  (forall k, ~ aux_key k -> store_view s' !! k = store_view s !! k) -> store_wf s -> store_wf s'.
Proof.
  intros Hk Hwf h b Hu Hl. destruct (loads_aux s s' h Hk) as (Hb & _ & Hh). rewrite Hh. apply Hwf; [done|congruence].
Qed.

(** ** The state *)

Lemma save_entry_direct key data s ob s' :
  save_entry key data None s = (Ok ob, s') ->
  store_view s' = <[key:=data]> (store_view s) /\
  ds_height s' = ds_height s /\ ds_baseHeight s' = ds_baseHeight s.
Proof.
  unfold save_entry, on_db. go_simpl.
  destruct (kv_set_view key data (ds_db s)) as [(d & -> & Hd)|(e & d & -> & Hd)]; [|done].
  intros ?. by simplify_eq/=.
Qed.

Lemma UpdateState_ok st s ob s' :
  UpdateState st None s = (Ok ob, s') ->
  exists p data, State_ToProto st = Ok p /\ state_marshal p = Ok data /\
    store_view s' = <[getStateKey:=data]> (store_view s).
Proof.
  unfold UpdateState, lift, bind.
  destruct (State_ToProto st) as [p|?|?]; [|done..]. cbn.
  destruct (state_marshal p) as [data|?|?] eqn:E; [|done..]. intros Hs.
  exists p, data. repeat split; [done|]. by apply save_entry_direct in Hs as (-> & _).
Qed.

(** The state value [LoadState] returns for a stored state: the store height of a
    state file without one is taken from the last block. *)
Definition reloaded (st : State) : State :=
  if ((st_LastStoreHeight st =? 0) && (1 <? st_LastBlockHeight st))%Z
  then {| st_Version := st_Version st; st_Software := st_Software st; st_ChainID := st_ChainID st;
          st_InitialHeight := st_InitialHeight st; st_LastBlockHeight := st_LastBlockHeight st;
          st_LastBlockID := st_LastBlockID st; st_LastBlockTime := st_LastBlockTime st;
          st_SLStateIndex := st_SLStateIndex st; st_NextValidators := st_NextValidators st;
          st_Validators := st_Validators st; st_LastValidators := st_LastValidators st;
          st_LastHeightValidatorsChanged := st_LastHeightValidatorsChanged st;
          st_ConsensusParams := st_ConsensusParams st;
          st_LastHeightConsensusParamsChanged := st_LastHeightConsensusParamsChanged st;
          st_LastResultsHash := st_LastResultsHash st;
          st_LastStoreHeight := u64 (st_LastBlockHeight st);
          st_BaseHeight := st_BaseHeight st; st_AppHash := st_AppHash st |}
  else st.

Context `{!TmProtoLaws T}.

(** States Tendermint's own types accept back. *)
Record state_ok (st : State) : Prop := {
  so_next : vs_valid (st_NextValidators st);
  so_validators : vs_valid (st_Validators st);
  so_last : vs_valid (st_LastValidators st);
  so_block_id : block_id_ok (st_LastBlockID st);
}.

Lemma state_reloaded st p : state_ok st -> State_ToProto st = Ok p -> State_FromProto p = Ok (reloaded st).
Proof.
  intros [H1 H2 H3 H4] Hp. unfold State_ToProto in Hp. repeat go_inv Hp. simplify_eq.
  unfold State_FromProto. cbn. rewrite (block_id_roundtrip _ H4). cbn.
  rewrite (valset_roundtrip _ _ H1 Hres), (valset_roundtrip _ _ H2 Hres0),
    (valset_roundtrip _ _ H3 Hres1). cbn. rewrite !copy_into_vec.
  unfold reloaded. case_match; [done|by destruct st].
Qed.

Lemma reloaded_same st : ~ (st_LastStoreHeight st = 0 /\ 1 < st_LastBlockHeight st)%Z -> reloaded st = st.
Proof. intros Hn. unfold reloaded. case_match eqn:E; [lia|done]. Qed.

Lemma reloaded_base st : st_BaseHeight (reloaded st) = st_BaseHeight st.
Proof. unfold reloaded. by case_match. Qed.

(** What [LoadState] does on a store that holds a state. *)
Lemma LoadState_view st p data s :
  state_ok st -> State_ToProto st = Ok p -> state_marshal p = Ok data ->
  store_view s !! getStateKey = Some data ->
  LoadState s = (Ok (reloaded st), with_base (st_BaseHeight st) (with_height (st_LastStoreHeight (reloaded st)) s)).
Proof.
  intros Hok Ep Hm Hv. unfold LoadState. rewrite kv_get_store. unfold view_get. rewrite Hv.
  unfold lift, bind. rewrite (state_codec _ _ Hm). cbn. rewrite (state_reloaded st p Hok Ep). cbn.
  by rewrite reloaded_base.
Qed.

(** C22: a state written by [UpdateState] is what a node restarted on the same database
    loads, and the restarted store's [Height] and [Base] are the state's; the one
    exception is a state with store height 0 past block 1, whose store height is
    taken to be its last block height. *)
Theorem state_survives_restart st s ob s' :
  UpdateState st None s = (Ok ob, s') -> state_ok st ->
  exists s2, LoadState (New_store (ds_db s')) = (Ok (reloaded st), s2) /\
    Height s2 = st_LastStoreHeight (reloaded st) /\ Base s2 = st_BaseHeight st /\
    (~ (st_LastStoreHeight st = 0 /\ 1 < st_LastBlockHeight st)%Z -> reloaded st = st) /\
    (forall h, LoadBlock s2 h = LoadBlock s h /\ LoadCommit s2 h = LoadCommit s h).
Proof.
  intros (p & data & Ep & Hm & Hv)%UpdateState_ok Hok.
  rewrite (LoadState_view st p data (New_store (ds_db s'))); [|done..|].
  2:{ change (store_view s' !! getStateKey = Some data). by rewrite Hv, lookup_insert_eq. }
  eexists. split; [done|]. cbn. split; [done|]. split; [done|]. split.
  { intros Hn. by apply reloaded_same. }
  intros h. edestruct loads_aux as (Hb & Hc & _); [|split; [exact Hb|exact Hc]].
  intros k Hk. change (store_view s' !! k = store_view s !! k).
  rewrite Hv, lookup_insert_ne; [done|]. intros <-. apply Hk. by left.
Qed.
End BlockStore.

(** ** Witnesses: a store in memory with the toy codecs *)

Section Witnesses.
#[local] Existing Instance toy.
#[local] Existing Instance toy_wire.
#[local] Existing Instance MemKV.

Definition empty_store : DefaultStore := New_store (∅ : gmap bytes bytes).

Lemma empty_store_index h : loadHashFromIndex empty_store h = Err (Wrap "failed to load block hash for height" ErrKeyNotFound).
Proof. reflexivity. Qed.

Lemma empty_store_fresh b : hash_fresh empty_store b.
Proof. intros h _ _. by rewrite empty_store_index. Qed.

Lemma empty_store_wf : store_wf empty_store.
Proof. intros h b _. unfold LoadBlock. by rewrite empty_store_index. Qed.

Definition store5 : DefaultStore := snd (SaveBlock (toy_block 5 [[Byte.x01]]) (toy_commit 5) None empty_store).

Lemma store5_run : exists ob, SaveBlock (toy_block 5 [[Byte.x01]]) (toy_commit 5) None empty_store = (Ok ob, store5).
Proof. apply is_ok_run. vm_compute. reflexivity. Qed.

Lemma save_block_extends_chain_witness : chain store5 5 = Some (toy_block 5 [[Byte.x01]], toy_commit 5).
Proof.
  destruct store5_run as [ob E].
  exact (proj1 (save_block_extends_chain (toy_block 5 [[Byte.x01]]) (toy_commit 5) empty_store ob store5 E
    ltac:(cbn; unfold is_u64; lia) eq_refl (empty_store_fresh _) empty_store_wf)
    5%Z ltac:(unfold is_u64; lia)).
Defined.

(** The same store at height 7, ready to prune. *)
Definition store7 : DefaultStore := SetHeight 7 store5.

Lemma store7_wf : store_wf store7.
Proof.
  destruct store5_run as [ob (_ & _ & bb & cb & Hbb & Hcb & Hv)%SaveBlock_ok].
  eapply (saved_store_wf (toy_block 5 [[Byte.x01]]) (toy_commit 5) empty_store);
    [cbn; unfold is_u64; lia|apply empty_store_fresh|done|exact Hbb|exact Hcb| |apply empty_store_wf].
  rewrite <- Hv. unfold store7, SetHeight. by case_match.
Qed.

Definition pruned7 : DefaultStore := snd (PruneBlocks 6 store7).

Lemma pruned7_run : exists n, PruneBlocks 6 store7 = (Ok n, pruned7).
Proof. apply is_ok_run. vm_compute. reflexivity. Qed.

Lemma prune_blocks_refines_witness : chain pruned7 5 = None /\ Base pruned7 = 6%Z.
Proof.
  destruct pruned7_run as [n E].
  pose proof (prune_blocks_refines store7 6 (Ok n) pruned7 E store7_wf
    ltac:(vm_compute; congruence) ltac:(lia) ltac:(vm_compute; split; congruence)) as (_ & _ & Hc & Hb & _).
  exact (conj (Hc 5%Z ltac:(unfold is_u64; lia)) Hb).
Defined.

Lemma toy_state_ok lb ls : state_ok (toy_state lb ls).
Proof. split; [done..|]. split; by left. Qed.

Definition state_store : DefaultStore := snd (UpdateState (toy_state 4 5) None empty_store).

Lemma state_store_run : exists ob, UpdateState (toy_state 4 5) None empty_store = (Ok ob, state_store).
Proof. apply is_ok_run. vm_compute. reflexivity. Qed.

Lemma state_survives_restart_witness :
  exists s2, LoadState (New_store (ds_db state_store)) = (Ok (toy_state 4 5), s2) /\ Height s2 = 5%Z.
Proof.
  destruct state_store_run as [ob E].
  destruct (state_survives_restart (toy_state 4 5) empty_store ob state_store E (toy_state_ok 4 5))
    as (s2 & Hl & Hh & _). exists s2. exact (conj Hl Hh).
Defined.
End Witnesses.

(** A full disk: every commit of a batch fails. *)
Definition FullKV : KVStore := {|
  db := gmap bytes bytes;
  batch := list kvop;
  kv_get := @kv_get MemKV;
  kv_set _ _ := fail (New "no space left on device");
  kv_delete _ := fail (New "no space left on device");
  kv_new_batch _ := [];
  batch_set := @batch_set MemKV;
  batch_delete := @batch_delete MemKV;
  batch_commit _ := fail (New "no space left on device");
  batch_discard _ := [];
  kv_prefix_iterator := @kv_prefix_iterator MemKV;
|}.

#[global] Instance FullKV_laws : KVLaws FullKV.
Proof.
  refine (@Build_KVLaws FullKV (fun d => d) (fun b => b) _ _ _ _ _ _ _); try done;
    try (by intros; apply write_spec_modify); intros; intros s; right; eexists _, _; by split.
Defined.

Definition full_store : @DefaultStore FullKV := @New_store FullKV (∅ : gmap bytes bytes).
Definition full_run : result (option (@batch FullKV)) * @DefaultStore FullKV :=
  @SaveBlock toy toy_wire FullKV (toy_block 5 []) (toy_commit 5) None full_store.

Lemma save_block_failure_atomic_witness :
  @LoadBlock toy toy_wire FullKV full_run.2 5 = @LoadBlock toy toy_wire FullKV full_store 5.
Proof.
  refine (proj1 (proj1 (@save_block_failure_atomic toy toy_wire FullKV FullKV_laws
    (toy_block 5 []) (toy_commit 5) full_store full_run.1 full_run.2 _ _) 5%Z)).
  - destruct full_run eqn:E. exact E.
  - vm_compute. reflexivity.
Defined.
