(* ===== verification/Conv.v ===== *)
(** * Conv: the ABCI forms of headers, commits and blocks

    Models conv/abci/block.go.  [tmproto.Header] and [tmtypes.Header] have the
    same fields and are one record here. *)
From stdpp Require Import base gmap strings vector sorting numbers list.
From S2P Require Import Prelude Types.

(** [tmtypes.Block] without evidence. *)
Record ABCIBlock := {
  ab_Header : ABCIHeader;
  ab_Txs : list bytes;
  ab_LastCommit : ABCICommit;
}.

(** [tmtypes.BlockMeta]. *)
Record BlockMeta := {
  bm_BlockID : BlockID;
  bm_BlockSize : Z;
  bm_Header : ABCIHeader;
  bm_NumTxs : Z;
}.

(** [tmtypes.Block.Hash] and [Size]. *)
Class TmBlock := {
  abci_block_hash : ABCIBlock -> bytes;
  abci_block_size : ABCIBlock -> Z;
}.

(** [tmtypes.BlockIDFlagCommit]. *)
Definition BlockIDFlagCommit : byte := Byte.x02.

Section Conv.
Context `{Tendermint}.

Definition ToABCIHeaderPB (header : Header) : ABCIHeader := {|
  ah_Version := {| ver_Block := ver_Block (hdr_Version header); ver_App := ver_App (hdr_Version header) |};
  ah_Height := i64 (hdr_Height header);
  ah_Time := i64 (hdr_Time header);
  ah_LastBlockID := {| bid_Hash := hdr_LastHeaderHash header; bid_Total := 1;
                       bid_PartHash := hdr_LastHeaderHash header |};
  ah_LastCommitHash := hdr_LastCommitHash header;
  ah_DataHash := hdr_DataHash header;
  ah_ValidatorsHash := hdr_AggregatorsHash header;
  ah_NextValidatorsHash := hdr_AggregatorsHash header;
  ah_ConsensusHash := hdr_ConsensusHash header;
  ah_AppHash := hdr_AppHash header;
  ah_LastResultsHash := hdr_LastResultsHash header;
  ah_EvidenceHash := empty_evidence_hash;
  ah_ProposerAddress := hdr_ProposerAddress header;
  ah_ChainID := hdr_ChainID header;
|}.

Definition ToABCIHeader (header : Header) : ABCIHeader := {|
  ah_Version := {| ver_Block := ver_Block (hdr_Version header); ver_App := ver_App (hdr_Version header) |};
  ah_Height := i64 (hdr_Height header);
  ah_Time := i64 (hdr_Time header);
  ah_LastBlockID := {| bid_Hash := hdr_LastHeaderHash header; bid_Total := 1;
                       bid_PartHash := hdr_LastHeaderHash header |};
  ah_LastCommitHash := hdr_LastCommitHash header;
  ah_DataHash := hdr_DataHash header;
  ah_ValidatorsHash := hdr_AggregatorsHash header;
  ah_NextValidatorsHash := hdr_AggregatorsHash header;
  ah_ConsensusHash := hdr_ConsensusHash header;
  ah_AppHash := hdr_AppHash header;
  ah_LastResultsHash := hdr_LastResultsHash header;
  ah_EvidenceHash := empty_evidence_hash;
  ah_ProposerAddress := hdr_ProposerAddress header;
  ah_ChainID := hdr_ChainID header;
|}.

(** The first signature of a commit, when there is one. *)
Definition set_first_sig (f : CommitSig -> CommitSig) (sigs : list CommitSig) : list CommitSig :=
  match sigs with sg :: sigs => f sg :: sigs | [] => [] end.

Definition with_address (addr : bytes) (cs : CommitSig) : CommitSig :=
  {| cs_BlockIDFlag := cs_BlockIDFlag cs; cs_ValidatorAddress := addr;
     cs_Timestamp := cs_Timestamp cs; cs_Signature := cs_Signature cs |}.
Definition with_timestamp (t : Z) (cs : CommitSig) : CommitSig :=
  {| cs_BlockIDFlag := cs_BlockIDFlag cs; cs_ValidatorAddress := cs_ValidatorAddress cs;
     cs_Timestamp := t; cs_Signature := cs_Signature cs |}.

Definition ToABCICommit (commit : Commit) (header : Header) : ABCICommit :=
  let headerHash := Header_Hash header in
  {| ac_Height := i64 (cm_Height commit);
     ac_Round := 0;
     ac_BlockID := {| bid_Hash := headerHash; bid_Total := 1; bid_PartHash := headerHash |};
     ac_Signatures :=
       if decide (length (cs_Signature (cm_TMSignature commit)) = 0) then
         let sigs := (fun sig => {| cs_BlockIDFlag := BlockIDFlagCommit; cs_ValidatorAddress := [];
                                    cs_Timestamp := zero_time; cs_Signature := sig |})
                     <$> cm_Signatures commit in
         if decide (length (cm_Signatures commit) = 1) then
           set_first_sig (fun cs => with_timestamp (i64 (hdr_Time header))
                                      (with_address (hdr_ProposerAddress header) cs)) sigs
         else sigs
       else [cm_TMSignature commit] |}.

Definition ToABCIBlockDataTxs (data : Data) : list bytes := data_Txs data.

Definition ToABCIBlock (block : Block) : result ABCIBlock :=
  let abciHeader := ToABCIHeader (blk_Header block) in
  let abciCommit := ToABCICommit (blk_LastCommit block) (blk_Header block) in
  let abciCommit :=
    if decide (length (ac_Signatures abciCommit) = 1) then
      {| ac_Height := ac_Height abciCommit; ac_Round := ac_Round abciCommit;
         ac_BlockID := ac_BlockID abciCommit;
         ac_Signatures := set_first_sig (with_address (hdr_ProposerAddress (blk_Header block)))
                            (ac_Signatures abciCommit) |}
    else abciCommit in
  Ok {| ab_Header := abciHeader;
        ab_Txs := ToABCIBlockDataTxs (blk_Data block);
        ab_LastCommit := abciCommit |}.

Definition ToABCIBlockMeta `{TmBlock} (block : Block) : result BlockMeta :=
  try! tmblock := ToABCIBlock block in
  Ok {| bm_BlockID := {| bid_Hash := abci_block_hash tmblock; bid_Total := 0; bid_PartHash := [] |};
        bm_BlockSize := abci_block_size tmblock;
        bm_Header := ab_Header tmblock;
        bm_NumTxs := Z.of_nat (length (ab_Txs tmblock)) |}.

(** ** Lemmas *)

(** The header an application or a light client sees hashes to the block hash the
    store and the commits use. *)
Lemma ToABCIHeader_hash header :
  Header_Hash header = copy_into zero_hash (header_hash (ToABCIHeader header)).
Proof. done. Qed.

Lemma ToABCIHeaderPB_eq header : ToABCIHeaderPB header = ToABCIHeader header.
Proof. done. Qed.

(** A commit with a Tendermint signature, or with one signature, converts to a
    commit with exactly one signature, by the proposer. *)
Lemma ToABCIBlock_one_sig block b :
  ToABCIBlock block = Ok b ->
  cs_Signature (cm_TMSignature (blk_LastCommit block)) <> [] \/
    length (cm_Signatures (blk_LastCommit block)) = 1 ->
  exists cs, ac_Signatures (ab_LastCommit b) = [cs] /\
    cs_ValidatorAddress cs = hdr_ProposerAddress (blk_Header block).
Proof.
  intros E Hs. unfold ToABCIBlock in E. injection E as <-. simpl.
  destruct block as [hd dt [ht hh sigs [fl va ts sg]]]; simpl in *.
  destruct sg as [|x sg]; destruct sigs as [|s1 [|s2 sigs]]; simpl in *;
    repeat case_decide; simpl in *; try lia; try (by eexists; split); destruct Hs; (done || lia).
Qed.
End Conv.
