(* ===== verification/Executor.v ===== *)
(** * Executor: creating, validating, executing and committing blocks

    Models state/executor.go.  The application behind the ABCI connections and
    Tendermint's event bus are outside the program: classes [App] and [EventBus];
    the mempool is used through the interface [MempoolI], which
    [NodeMempool] of MempoolSpec.v implements. *)
From stdpp Require Import base gmap strings vector sorting numbers list.
From S2P Require Import Prelude Types Conv.

(** ** The application (ABCI) *)

Record ValidatorUpdate := { vu_PubKey : bytes; vu_Power : Z }.

Record RequestInitChain := {
  ric_Time : Z;
  ric_ChainId : string;
  ric_ConsensusParams : ConsensusParams;
  ric_Validators : list ValidatorUpdate;
  ric_AppStateBytes : bytes;
  ric_InitialHeight : Z;
}.

(** [abci.ConsensusParams] of a response: each part may be missing. *)
Record ParamsUpdate := {
  pu_Block : option (Z * Z);
  pu_Evidence : option (Z * Z * Z);
  pu_Validator : option (list string);
  pu_Version : option Z;
}.

Record ResponseInitChain := { ri_ConsensusParams : option ParamsUpdate; ri_AppHash : bytes }.

(** [abci.ResponseInfo]. *)
Record ResponseInfo := { inf_LastBlockHeight : Z; inf_LastBlockAppHash : bytes }.

(** [abci.RequestBeginBlock]; the commit info and byzantine validators are empty. *)
Record RequestBeginBlock := { rb_Hash : bytes; rb_Header : ABCIHeader }.

(** [abci.ResponseCommit]. *)
Record ResponseCommit := { rc_Data : bytes; rc_RetainHeight : Z }.

(** The application.  [app_DeliverTx] is [DeliverTxAsync] of the in-process
    client: it runs the response callback before it returns, and gives either
    the response or the exception ([inl]). *)
Class App := {
  app : Type;
  app_InitChain : RequestInitChain -> M app ResponseInitChain;
  app_Info : app -> result ResponseInfo;
  app_BeginBlock : RequestBeginBlock -> M app ResponseBeginBlock;
  app_DeliverTx : bytes -> M app (string + ResponseDeliverTx);
  app_EndBlock : Z -> M app ResponseEndBlock;
  app_Commit : M app ResponseCommit;
}.

(** Tendermint's validators and their keys. *)
Class TmValidators `{Tendermint} := {
  val_PubKeyToProto : Validator -> result bytes;
  val_VotingPower : Validator -> Z;
  pubkey_ToValidator : PubKey -> Z -> result Validator;
}.

(** ** The mempool, as the executor uses it (mempool/mempool.go: [Mempool]) *)
Class MempoolI := {
  mempool : Type;
  mp_ReapMaxBytesMaxGas : Z -> Z -> mempool -> list Tx;
  mp_FlushAppConn : M mempool unit;
  mp_Update : Z -> list Tx -> list ResponseDeliverTx -> Z -> Z -> M mempool unit;
}.

(** ** Events *)

Inductive Event :=
| EventNewBlock (block : ABCIBlock) (beginBlock : ResponseBeginBlock) (endBlock : ResponseEndBlock)
| EventNewBlockHeader (header : ABCIHeader) (numTxs : Z) (beginBlock : ResponseBeginBlock) (endBlock : ResponseEndBlock)
| EventTx (height index : Z) (tx : bytes) (res : ResponseDeliverTx).

Class EventBus := {
  event_bus : Type;
  eb_publish : Event -> M event_bus unit;
}.

Section Executor.
Context {T : Tendermint} {TV : TmValidators} {A : App} {MP : MempoolI} {EB : EventBus}.

(** The fields [BlockExecutor] keeps from its construction. *)
Record BlockExecutor := {
  be_proposerAddress : bytes;
  be_namespaceID : vec byte 8;
  be_chainID : string;
}.

(** What the executor's connections point to: the application, the mempool and,
    when there is one, the event bus. *)
Record ExecEnv := {
  ee_app : app;
  ee_mempool : mempool;
  ee_eventBus : option event_bus;
}.

Definition with_app (a : app) (x : ExecEnv) : ExecEnv :=
  {| ee_app := a; ee_mempool := ee_mempool x; ee_eventBus := ee_eventBus x |}.
Definition with_mempool (mp : mempool) (x : ExecEnv) : ExecEnv :=
  {| ee_app := ee_app x; ee_mempool := mp; ee_eventBus := ee_eventBus x |}.
Definition with_eventBus (eb : option event_bus) (x : ExecEnv) : ExecEnv :=
  {| ee_app := ee_app x; ee_mempool := ee_mempool x; ee_eventBus := eb |}.

Definition on_app {R} (c : M app R) : M ExecEnv R := zoom ee_app with_app c.
Definition on_mempool {R} (c : M mempool R) : M ExecEnv R := zoom ee_mempool with_mempool c.

Definition toDymintTxs (txs : list bytes) : list Tx := txs.
Definition fromDymintTxs (optiTxs : list Tx) : list bytes := optiTxs.

(** [NewBlockExecutor]; [hex_decode] is [hex.DecodeString]. *)
Definition NewBlockExecutor (hex_decode : string -> result bytes)
    (proposerAddress : bytes) (namespaceID chainID : string) : result BlockExecutor :=
  try! bs := hex_decode namespaceID in
  Ok {| be_proposerAddress := proposerAddress;
        be_namespaceID := copy_into (Vector.const Byte.x00 8) bs;
        be_chainID := chainID |}.

(** The loop of [InitChain] over the validators. *)
Fixpoint validator_updates (validators : list Validator) : result (list ValidatorUpdate) :=
  match validators with
  | [] => Ok []
  | v :: vs =>
      try! tmkey := val_PubKeyToProto v in
      try! ups := validator_updates vs in
      Ok ({| vu_PubKey := tmkey; vu_Power := val_VotingPower v |} :: ups)
  end.

Definition InitChain (genesis : GenesisDoc) (validators : list Validator) : M ExecEnv ResponseInitChain :=
  let! ups := lift (validator_updates validators) in
  let! params := lift (deref (gd_ConsensusParams genesis)) in
  on_app (app_InitChain {|
    ric_Time := gd_GenesisTime genesis;
    ric_ChainId := gd_ChainID genesis;
    ric_ConsensusParams := params;
    ric_Validators := ups;
    ric_AppStateBytes := gd_AppState genesis;
    ric_InitialHeight := gd_InitialHeight genesis |}).

(** ** Creating a block *)

Definition getLastCommitHash (lastCommit : Commit) (header : Header) : bytes :=
  commit_hash (ToABCICommit lastCommit header).

Definition getDataHash (data : Data) : bytes := txs_hash (ToABCIBlockDataTxs data).

(** The header before its hashes are filled in. *)
Definition new_header (e : BlockExecutor) (height now : Z) (lastHeaderHash : hash32) (state : State)
    (lastCommitHash dataHash aggregatorsHash : hash32) : Header := {|
  hdr_Version := {| ver_Block := ver_Block (st_Version state); ver_App := ver_App (st_Version state) |};
  hdr_NamespaceID := be_namespaceID e;
  hdr_Height := height;
  hdr_Time := u64 now;
  hdr_LastHeaderHash := lastHeaderHash;
  hdr_LastCommitHash := lastCommitHash;
  hdr_DataHash := dataHash;
  hdr_ConsensusHash := zero_hash;
  hdr_AppHash := st_AppHash state;
  hdr_LastResultsHash := st_LastResultsHash state;
  hdr_ProposerAddress := be_proposerAddress e;
  hdr_AggregatorsHash := aggregatorsHash;
  hdr_ChainID := be_chainID e;
|}.

(** [CreateBlock] at the time [now]: the hashes are computed one after the other
    on the header as filled so far. *)
Definition CreateBlock (e : BlockExecutor) (height : Z) (lastCommit : Commit) (lastHeaderHash : hash32)
    (state : State) (now : Z) (mp : mempool) : Block :=
  let maxBytes := cp_Block_MaxBytes (st_ConsensusParams state) in
  let maxGas := cp_Block_MaxGas (st_ConsensusParams state) in
  let data := {| data_Txs := toDymintTxs (mp_ReapMaxBytesMaxGas maxBytes maxGas mp);
                 data_RawRootsList := []; data_Evidence := [] |} in
  let hdr := new_header e height now lastHeaderHash state in
  let lastCommitHash := copy_into zero_hash (getLastCommitHash lastCommit (hdr zero_hash zero_hash zero_hash)) in
  let dataHash := copy_into zero_hash (getDataHash data) in
  let aggregatorsHash := copy_into zero_hash (vs_Hash (st_Validators state)) in
  {| blk_Header := hdr lastCommitHash dataHash aggregatorsHash;
     blk_Data := data;
     blk_LastCommit := lastCommit |}.

(** ** Validation *)

Definition validateBlock (state : State) (block : Block) : result unit :=
  try! _ := Block_ValidateBasic block in
  let hdr := blk_Header block in
  if decide (ver_App (hdr_Version hdr) <> ver_App (st_Version state) \/
             ver_Block (hdr_Version hdr) <> ver_Block (st_Version state))
  then Err (New "block version mismatch")
  else if ((st_LastBlockHeight state <=? 0) && negb (hdr_Height hdr =? u64 (st_InitialHeight state)))%Z
  then Err (New "initial block height mismatch")
  else if ((0 <? st_LastBlockHeight state) && negb (hdr_Height hdr =? u64 (st_LastStoreHeight state + 1)))%Z
  then Err (New "block height mismatch")
  else if decide (vec_to_list (hdr_AppHash hdr) <> vec_to_list (st_AppHash state))
  then Err (New "AppHash mismatch")
  else if decide (vec_to_list (hdr_LastResultsHash hdr) <> vec_to_list (st_LastResultsHash state))
  then Err (New "LastResultsHash mismatch")
  else Ok tt.

Definition validateCommit (proposer : option Sequencer) (commit : Commit) (header : Header) : result unit :=
  try! abciHeaderBytes := header_marshal (ToABCIHeaderPB header) in
  Commit_Validate commit proposer abciHeaderBytes.

Definition Validate (state : State) (block : Block) (commit : Commit) (proposer : option Sequencer)
    : result unit :=
  try! _ := validateBlock state block in
  validateCommit proposer commit (blk_Header block).

(** ** Execution *)

(** The loop over the transactions, collecting what the callback receives. *)
Fixpoint deliver_txs (txs : list Tx) : M app (list ResponseDeliverTx) :=
  match txs with
  | [] => ret []
  | tx :: txs =>
      let! r := app_DeliverTx tx in
      match r with
      | inl exception => fail (New exception)
      | inr res => let! rs := deliver_txs txs in ret (res :: rs)
      end
  end.

(** The header given to the application. *)
Definition begin_header (e : BlockExecutor) (state : State) (header : Header) : ABCIHeader :=
  let h := ToABCIHeaderPB header in
  {| ah_Version := ah_Version h; ah_Height := ah_Height h; ah_Time := ah_Time h;
     ah_LastBlockID := ah_LastBlockID h; ah_LastCommitHash := ah_LastCommitHash h;
     ah_DataHash := ah_DataHash h; ah_ValidatorsHash := vs_Hash (st_Validators state);
     ah_NextValidatorsHash := ah_NextValidatorsHash h; ah_ConsensusHash := ah_ConsensusHash h;
     ah_AppHash := ah_AppHash h; ah_LastResultsHash := ah_LastResultsHash h;
     ah_EvidenceHash := ah_EvidenceHash h; ah_ProposerAddress := ah_ProposerAddress h;
     ah_ChainID := be_chainID e |}.

Definition Execute (e : BlockExecutor) (state : State) (block : Block) : M app ABCIResponses :=
  let! beginBlock := app_BeginBlock {| rb_Hash := Block_Hash block;
                                       rb_Header := begin_header e state (blk_Header block) |} in
  let! deliverTxs := deliver_txs (data_Txs (blk_Data block)) in
  let! endBlock := app_EndBlock (i64 (hdr_Height (blk_Header block))) in
  ret {| rs_DeliverTxs := deliverTxs; rs_BeginBlock := beginBlock; rs_EndBlock := endBlock |}.

(** ** The state after a block *)

(** [updateState]; an error of [UpdateWithChangeSet] returns the old state and no
    error, as in the source. *)
Definition updateState (state : State) (block : Block) (validatorUpdates : list Validator) : result State :=
  let height := hdr_Height (blk_Header block) in
  let upd : result (option (ValidatorSet * Z)) :=
    if decide (0 < length (vs_Validators (st_NextValidators state))) then
      if decide (0 < length validatorUpdates) then
        match vs_UpdateWithChangeSet (st_NextValidators state) validatorUpdates with
        | Ok vs => Ok (Some (vs_IncrementProposerPriority vs 1, i64 (height + 1 + 1)))
        | Err _ => Ok None
        | Panic m => Panic m
        end
      else Ok (Some (vs_IncrementProposerPriority (st_NextValidators state) 1,
                     st_LastHeightValidatorsChanged state))
    else Ok (Some (st_NextValidators state, st_LastHeightValidatorsChanged state)) in
  try! u := upd in
  match u with
  | None => Ok state
  | Some (nValSet, lastHeightValSetChanged) =>
      Ok {| st_Version := st_Version state;
            st_Software := st_Software state;
            st_ChainID := st_ChainID state;
            st_InitialHeight := st_InitialHeight state;
            st_LastBlockHeight := i64 height;
            st_LastBlockID := {| bid_Hash := Header_Hash (blk_Header block); bid_Total := 0; bid_PartHash := [] |};
            st_LastBlockTime := i64 (hdr_Time (blk_Header block));
            st_SLStateIndex := st_SLStateIndex state;
            st_NextValidators := nValSet;
            st_Validators := st_NextValidators state;
            st_LastValidators := st_LastValidators state;
            st_LastHeightValidatorsChanged := lastHeightValSetChanged;
            st_ConsensusParams := st_ConsensusParams state;
            st_LastHeightConsensusParamsChanged := st_LastHeightConsensusParamsChanged state;
            st_LastResultsHash := st_LastResultsHash state;
            st_LastStoreHeight := st_LastStoreHeight state;
            st_BaseHeight := st_BaseHeight state;
            st_AppHash := st_AppHash state |}
  end.

Definition UpdateStateFromResponses (resp : ABCIResponses) (state : State) (block : Block) : result State :=
  updateState state block [].

(** ** Commit *)

(** [commit]: flush the mempool connection, commit the application, then update
    the mempool with the block, under the mempool's lock. *)
Definition commit (state : State) (block : Block) (deliverTxs : list ResponseDeliverTx)
    : M ExecEnv (bytes * Z) :=
  do! on_mempool mp_FlushAppConn in
  let! resp := on_app app_Commit in
  let maxBytes := cp_Block_MaxBytes (st_ConsensusParams state) in
  let maxGas := cp_Block_MaxGas (st_ConsensusParams state) in
  do! on_mempool (mp_Update (i64 (hdr_Height (blk_Header block))) (fromDymintTxs (data_Txs (blk_Data block)))
                    deliverTxs maxBytes maxGas) in
  ret (rc_Data resp, rc_RetainHeight resp).

(** [err = multierr.Append(err, e.eventBus.Publish...(ev))]. *)
Definition publish (ev : Event) (err : option error) : M event_bus (option error) :=
  let! r := try (eb_publish ev) in
  ret (multierr_append err (match r with inl e => Some e | inr _ => None end)).

(** One [EventTx] per response; [abciBlock.Data.Txs[i]] panics when there are more
    responses than transactions. *)
Fixpoint publish_txs (height : Z) (txs : list bytes) (i : nat) (dtxs : list ResponseDeliverTx)
    (err : option error) : M event_bus (option error) :=
  match dtxs with
  | [] => ret err
  | dtx :: dtxs =>
      let! tx := lift (index txs i) in
      let! err := publish (EventTx height (u32 (Z.of_nat i)) tx dtx) err in
      publish_txs height txs (S i) dtxs err
  end.

(** The events of a block. *)
Definition publish_block (resp : ABCIResponses) (abciBlock : ABCIBlock) (height : Z) (validatorsHash : bytes)
    : M event_bus unit :=
  let hdr := ab_Header abciBlock in
  let header := {| ah_Version := ah_Version hdr; ah_Height := ah_Height hdr; ah_Time := ah_Time hdr;
    ah_LastBlockID := ah_LastBlockID hdr; ah_LastCommitHash := ah_LastCommitHash hdr;
    ah_DataHash := ah_DataHash hdr; ah_ValidatorsHash := validatorsHash;
    ah_NextValidatorsHash := ah_NextValidatorsHash hdr; ah_ConsensusHash := ah_ConsensusHash hdr;
    ah_AppHash := ah_AppHash hdr; ah_LastResultsHash := ah_LastResultsHash hdr;
    ah_EvidenceHash := ah_EvidenceHash hdr; ah_ProposerAddress := ah_ProposerAddress hdr;
    ah_ChainID := ah_ChainID hdr |} in
  let blk := {| ab_Header := header; ab_Txs := ab_Txs abciBlock; ab_LastCommit := ab_LastCommit abciBlock |} in
  let! err := publish (EventNewBlock blk (rs_BeginBlock resp) (rs_EndBlock resp)) None in
  let! err := publish (EventNewBlockHeader header (Z.of_nat (length (ab_Txs abciBlock)))
                         (rs_BeginBlock resp) (rs_EndBlock resp)) err in
  let! err := publish_txs height (ab_Txs abciBlock) 0 (rs_DeliverTxs resp) err in
  match err with None => ret tt | Some e => fail e end.

Definition publishEvents (resp : ABCIResponses) (block : Block) (state : State) : M ExecEnv unit := fun x =>
  match ee_eventBus x with
  | None => (Ok tt, x)
  | Some eb =>
      match ToABCIBlock block with
      | Ok abciBlock =>
          match publish_block resp abciBlock (i64 (hdr_Height (blk_Header block)))
                  (vs_Hash (st_Validators state)) eb with
          | (r, eb') => (r, with_eventBus (Some eb') x)
          end
      | Err e => (Err e, x)
      | Panic m => (Panic m, x)
      end
  end.

(** The state with the application hash and results hash of a commit. *)
Definition committed_state (state : State) (appHash : bytes) (resp : ABCIResponses) : State := {|
  st_Version := st_Version state; st_Software := st_Software state; st_ChainID := st_ChainID state;
  st_InitialHeight := st_InitialHeight state; st_LastBlockHeight := st_LastBlockHeight state;
  st_LastBlockID := st_LastBlockID state; st_LastBlockTime := st_LastBlockTime state;
  st_SLStateIndex := st_SLStateIndex state; st_NextValidators := st_NextValidators state;
  st_Validators := st_Validators state; st_LastValidators := st_LastValidators state;
  st_LastHeightValidatorsChanged := st_LastHeightValidatorsChanged state;
  st_ConsensusParams := st_ConsensusParams state;
  st_LastHeightConsensusParamsChanged := st_LastHeightConsensusParamsChanged state;
  st_LastResultsHash := copy_into (st_LastResultsHash state) (results_hash (rs_DeliverTxs resp));
  st_LastStoreHeight := st_LastStoreHeight state; st_BaseHeight := st_BaseHeight state;
  st_AppHash := copy_into (st_AppHash state) appHash |}.

(** [Commit]: the caller's state gets the new application hash and results hash. *)
Definition Commit_block (state : State) (block : Block) (resp : ABCIResponses) : M ExecEnv (State * Z) :=
  let! (appHash, retainHeight) := commit state block (rs_DeliverTxs resp) in
  let state' := committed_state state appHash resp in
  do! publishEvents resp block state' in
  ret (state', retainHeight).

(** [GetAppInfo]. *)
Definition GetAppInfo (x : ExecEnv) : result ResponseInfo := app_Info (ee_app x).
End Executor.

(** What the node relies on from an application (the ABCI specification): the
    height of a block is the one of its [BeginBlock] header, a commit makes it the
    last height [Info] reports, with the hash the commit returned; heights are
    int64 values. *)
Class AppLaws (A : App) := {
  app_pending : app -> Z;
  app_begin_pending req a r a' :
    app_BeginBlock req a = (Ok r, a') -> app_pending a' = ah_Height (rb_Header req);
  app_deliver_pending tx a r a' : app_DeliverTx tx a = (Ok r, a') -> app_pending a' = app_pending a;
  app_end_pending h a r a' : app_EndBlock h a = (Ok r, a') -> app_pending a' = app_pending a;
  app_commit_info a rc a' :
    app_Commit a = (Ok rc, a') ->
    app_Info a' = Ok {| inf_LastBlockHeight := app_pending a; inf_LastBlockAppHash := rc_Data rc |};
  app_retain_range a rc a' : app_Commit a = (Ok rc, a') -> is_i64 (rc_RetainHeight rc);
}.

Section ExecutorLemmas.
Context {T : Tendermint} {TV : TmValidators} {A : App} `{!AppLaws A} {MP : MempoolI} {EB : EventBus}.

Lemma deliver_txs_ok txs a rs a' :
  deliver_txs txs a = (Ok rs, a') -> length rs = length txs /\ app_pending a' = app_pending a.
Proof.
  revert a rs a'. induction txs as [|tx txs IH]; intros a rs a' Hr; simpl in Hr.
  { unfold ret in Hr. by simplify_eq. }
  go_inv Hr. apply app_deliver_pending in Hrun. destruct r as [ex|res]; [done|].
  go_inv Hr. unfold ret in Hr. simplify_eq. apply IH in Hrun0 as [Hl Hp]. simpl. split; congruence.
Qed.

(** An execution that returns has one response per transaction and leaves the
    application ready to commit the block's height. *)
Lemma Execute_ok e st block a rs a' :
  Execute e st block a = (Ok rs, a') ->
  length (rs_DeliverTxs rs) = length (data_Txs (blk_Data block)) /\
  app_pending a' = i64 (hdr_Height (blk_Header block)).
Proof.
  intros Hr. unfold Execute in Hr. go_inv Hr. go_inv Hr. go_inv Hr. unfold ret in Hr. simplify_eq.
  apply app_begin_pending in Hrun. apply deliver_txs_ok in Hrun0 as [Hl Hp]. apply app_end_pending in Hrun1.
  simpl in *. split; congruence.
Qed.

(** The state after a block, before its commit. *)
Lemma updateState_heights rs st block ns :
  UpdateStateFromResponses rs st block = Ok ns ->
  st_LastBlockHeight ns = i64 (hdr_Height (blk_Header block)) /\ st_LastStoreHeight ns = st_LastStoreHeight st /\
  st_AppHash ns = st_AppHash st /\ st_LastResultsHash ns = st_LastResultsHash st /\
  st_Version ns = st_Version st /\ st_BaseHeight ns = st_BaseHeight st /\ st_InitialHeight ns = st_InitialHeight st.
Proof.
  unfold UpdateStateFromResponses, updateState. rewrite (decide_False (P:=0 < length [])) by (simpl; lia).
  intros Hr. go_inv Hr. case_decide; simplify_eq/=; done.
Qed.

Lemma publishEvents_app resp block st x r x' :
  publishEvents resp block st x = (r, x') -> ee_app x' = ee_app x /\ ee_mempool x' = ee_mempool x.
Proof.
  unfold publishEvents. destruct (ee_eventBus x); [|by intros [= <- <-]].
  destruct (ToABCIBlock block); [|by intros [= <- <-]..].
  destruct (publish_block _ _ _ _ _) as [r' eb']. by intros [= <- <-].
Qed.

Lemma Commit_block_ok st block resp x st' n x' :
  Commit_block st block resp x = (Ok (st', n), x') ->
  exists rc, app_Commit (ee_app x) = (Ok rc, ee_app x') /\
    st' = committed_state st (rc_Data rc) resp /\ n = rc_RetainHeight rc.
Proof.
  intros Hr. unfold Commit_block in Hr. go_inv Hr. destruct r as [appHash n0]. go_inv Hr.
  unfold ret in Hr. simplify_eq. apply publishEvents_app in Hrun0 as [Ha _].
  unfold commit in Hrun. go_inv Hrun. unfold on_mempool in Hrun0. go_inv Hrun0.
  go_inv Hrun. unfold on_app in Hrun1. go_inv Hrun1. go_inv Hrun. unfold on_mempool in Hrun2. go_inv Hrun2.
  unfold ret in Hrun. simplify_eq. simpl in *. exists r1. by rewrite Ha.
Qed.
End ExecutorLemmas.
