(* ===== verification/Gossip.v ===== *)
(** * Gossip: blocks on the p2p network

    Models p2p/events.go ([GossipedBlock]), p2p/gossip.go ([wrapValidator]) and
    the block validator of p2p/validator.go.  libp2p and Tendermint's pubsub
    server are outside the program: publishing a local event is the parameter
    [publish] of [BlockValidator]. *)
From stdpp Require Import base gmap strings vector sorting numbers list.
From S2P Require Import Prelude Types Serialization.

(** p2p/events.go: [GossipedBlock]. *)
Record GossipedBlock := { gb_Block : Block; gb_Commit : Commit }.

Definition zero_GossipedBlock : GossipedBlock := {| gb_Block := zero_Block; gb_Commit := zero_Commit |}.

(** p2p/pb: [GossipedBlock]. *)
Record PbGossipedBlock := { pg_Block : option PbBlock; pg_Commit : option PbCommit }.

Class GossipWire := {
  gossip_marshal : PbGossipedBlock -> result bytes;
  gossip_unmarshal : bytes -> result PbGossipedBlock;
}.

Class GossipWireLaws (G : GossipWire) := {
  gossip_codec : codec_law gossip_marshal gossip_unmarshal;
}.

Definition GossipedBlock_ToProto (e : GossipedBlock) : PbGossipedBlock :=
  {| pg_Block := Some (Block_ToProto (gb_Block e)); pg_Commit := Some (Commit_ToProto (gb_Commit e)) |}.

Definition GossipedBlock_FromProto (e : GossipedBlock) (other : PbGossipedBlock) : result GossipedBlock :=
  try! b := Block_FromProto (gb_Block e) (pg_Block other) in
  try! c := Commit_FromProto (gb_Commit e) (pg_Commit other) in
  Ok {| gb_Block := b; gb_Commit := c |}.

Section Gossip.
Context {T : Tendermint} {G : GossipWire}.

Definition GossipedBlock_MarshalBinary (e : GossipedBlock) : result bytes :=
  gossip_marshal (GossipedBlock_ToProto e).

(** On a zero receiver, as [BlockValidator] calls it. *)
Definition GossipedBlock_UnmarshalBinary (data : bytes) : result GossipedBlock :=
  try! p := gossip_unmarshal data in
  GossipedBlock_FromProto zero_GossipedBlock p.

Definition GossipedBlock_Validate (e : GossipedBlock) : result unit :=
  try! _ := Block_ValidateBasic (gb_Block e) in
  try! _ := Commit_ValidateBasic (gb_Commit e) in
  Ok tt.

(** A message of the network: its bytes and the peer it comes from. *)
Record GossipMessage := { gm_Data : bytes; gm_From : bytes }.

Context {S : Type}.

(** [BlockValidator]: whether the message is relayed; a block that passes the basic
    checks is published to the local subscribers. *)
Definition BlockValidator (publish : GossipedBlock -> M S unit) (blockMsg : GossipMessage) : M S bool := fun s =>
  match GossipedBlock_UnmarshalBinary (gm_Data blockMsg) with
  | Err _ => (Ok false, s)
  | Panic m => (Panic m, s)
  | Ok gossipedBlock =>
      match GossipedBlock_Validate gossipedBlock with
      | Err _ => (Ok false, s)
      | Panic m => (Panic m, s)
      | Ok _ =>
          match publish gossipedBlock s with
          | (Ok _, s') => (Ok true, s')
          | (Err _, s') => (Ok false, s')
          | (Panic m, s') => (Panic m, s')
          end
      end
  end.

(** [wrapValidator]: our own messages are relayed but not handled. *)
Definition wrapValidator (ownID : bytes) (validator : GossipMessage -> M S bool) (msg : GossipMessage) : M S bool :=
  if decide (gm_From msg = ownID) then ret true else validator msg.
End Gossip.

(** ** Lemmas *)

Section GossipLemmas.
Context {T : Tendermint} {G : GossipWire} `{!GossipWireLaws G}.

Lemma gossip_roundtrip e d :
  data_Evidence (blk_Data (gb_Block e)) = [] ->
  GossipedBlock_MarshalBinary e = Ok d -> GossipedBlock_UnmarshalBinary d = Ok e.
Proof.
  intros Hev Hd. unfold GossipedBlock_UnmarshalBinary. rewrite (gossip_codec _ _ Hd). cbn -[Block_FromProto Commit_FromProto].
  unfold GossipedBlock_FromProto, GossipedBlock_ToProto. cbn -[Block_FromProto Commit_FromProto zero_Block].
  rewrite block_roundtrip by done. cbn -[Commit_FromProto zero_Commit]. rewrite commit_roundtrip. by destruct e.
Qed.
End GossipLemmas.
