(* ===== verification/Layers.v ===== *)
(** * Layers: the interfaces of the settlement and data availability layers

    Models the types of settlement/settlement.go, settlement/errors.go and
    da/da.go: what the block manager sees of the two layers. *)
From stdpp Require Import base gmap strings vector sorting numbers list.
From S2P Require Import Prelude Types.

(** [StatusCode] of da/da.go and of settlement/settlement.go. *)
Inductive StatusCode := StatusUnknown | StatusSuccess | StatusTimeout | StatusError.

#[global] Instance StatusCode_eq_dec : EqDecision StatusCode.
Proof. solve_decision. Defined.

(** [da.Client]: the name of a client. *)
Abbreviation DAClient := string.

(** ** Data availability (da/da.go) *)

(** [da.BaseResult]. *)
Record DABaseResult := { dr_Code : StatusCode; dr_Message : string; dr_DAHeight : Z }.

(** [da.ResultRetrieveBatch]: the batches are pointers. *)
Record DAResultRetrieveBatch := { drr_Base : DABaseResult; drr_Batches : list (option Batch) }.

(** [da.ResultCheckBatch]. *)
Record DAResultCheckBatch := { drc_Base : DABaseResult; drc_DataAvailable : bool }.

(** [DataAvailabilityLayerClient] and [BatchRetriever]. *)
Class DALayer := {
  dalc : Type;
  da_SubmitBatch : Batch -> M dalc DABaseResult;
  da_CheckBatchAvailability : Z -> M dalc DAResultCheckBatch;
  da_RetrieveBatches : Z -> M dalc DAResultRetrieveBatch;
  da_GetClientType : DAClient;
}.

(** ** Settlement (settlement/settlement.go) *)

Record DAMetaData := { dm_Height : Z; dm_Client : DAClient }.

(** [settlement.Batch]; [MetaData] and its [DA] are pointers. *)
Record SLBatch := {
  sb_StartHeight : Z;
  sb_EndHeight : Z;
  sb_AppHashes : list hash32;
  sb_MetaData : option (option DAMetaData);
}.

(** [settlement.ResultRetrieveBatch]; the embedded batch is a pointer. *)
Record SLResultRetrieveBatch := {
  srb_Code : StatusCode;
  srb_StateIndex : Z;
  srb_Batch : option SLBatch;
}.

Definition ErrBatchNotFound : error := New "batch not found".
Definition ErrNoSequencerForRollapp : error := New "no sequencer registered on the hub for this rollapp".
Definition ErrBatchNotAccepted : error := New "batch not accepted".

(** [LayerI]: [RetrieveBatch] with no index asks for the latest batch. *)
Class SettlementLayer `{Tendermint} := {
  slc : Type;
  sl_SubmitBatch : Batch -> DAClient -> DABaseResult -> M slc unit;
  sl_RetrieveBatch : option Z -> M slc SLResultRetrieveBatch;
  sl_GetSequencersList : M slc (list Sequencer);
  sl_GetProposer : M slc (option Sequencer);
}.
