(* ===== verification/Manager.v ===== *)
(** * Manager: producing, applying, synchronising and submitting blocks

    Models the package block/: [Manager] of block/manager.go and its handlers in
    block.go, produce.go, submit.go, retriever.go, synctarget.go and pruning.go,
    over the store, the executor and the interfaces of the two layers.  A handler
    runs to its end before the next one starts; the places where the code waits
    (the sync condition, full channels) are values of the outcome types. *)
From stdpp Require Import base gmap strings vector sorting numbers list.
From S2P Require Import Prelude KVStore Types Serialization Store Conv Executor Gossip Layers.

(** [config.BlockManagerConfig]; durations in nanoseconds. *)
Record BlockManagerConfig := {
  bc_BlockTime : Z;
  bc_EmptyBlocksMaxTime : Z;
  bc_BatchSubmitMaxTime : Z;
  bc_NamespaceID : string;
  bc_BlockBatchSize : Z;
  bc_BlockBatchMaxSizeBytes : Z;
}.

Definition BlockManagerConfig_Validate (c : BlockManagerConfig) : result unit :=
  if (bc_BlockTime c <=? 0)%Z then Err (New "block_time must be positive")
  else if (bc_EmptyBlocksMaxTime c <? 0)%Z
  then Err (New "empty_blocks_max_time must be positive or zero to disable")
  else if (bc_BatchSubmitMaxTime c <=? 0)%Z then Err (New "batch_submit_max_time must be positive")
  else if (negb (bc_EmptyBlocksMaxTime c =? 0) && (bc_EmptyBlocksMaxTime c <=? bc_BlockTime c))%Z
  then Err (New "empty_blocks_max_time must be greater than block_time")
  else if (bc_BatchSubmitMaxTime c <? bc_BlockTime c)%Z
  then Err (New "batch_submit_max_time must be greater than block_time")
  else if (bc_BlockBatchSize c <=? 0)%Z then Err (New "block_batch_size must be positive")
  else if (bc_BlockBatchMaxSizeBytes c <=? 0)%Z then Err (New "block_batch_size_bytes must be positive")
  else Ok tt.

(** [tmtypes.Vote] of [createTMSignature]. *)
Record Vote := {
  vote_Height : Z;
  vote_Round : Z;
  vote_Timestamp : Z;
  vote_BlockID : BlockID;
  vote_ValidatorAddress : bytes;
  vote_ValidatorIndex : Z;
}.

(** The proposer's libp2p key, and the Tendermint key made from it. *)
Class ProposerKey := {
  key_address : result bytes;
  key_Sign : bytes -> result bytes;
  key_SignVote : string -> Vote -> result bytes;
  key_VerifyVote : string -> Vote -> bytes -> bool;
}.

(** The p2p client: publishing to the block topic. *)
Class P2PClient := {
  p2pc : Type;
  p2p_GossipBlock : bytes -> M p2pc unit;
}.

Section Manager.
Context {T : Tendermint} {W : Wire} {K : KVStore} {TV : TmValidators} {A : App} {MP : MempoolI}
  {EB : EventBus} {G : GossipWire} {DA : DALayer} {SL : SettlementLayer} {P : P2PClient} {PK : ProposerKey}.

(** The fields set at construction. *)
Record ManagerConf := {
  mc_conf : BlockManagerConfig;
  mc_genesis : GenesisDoc;
  mc_executor : BlockExecutor;
}.

(** The state of [Manager], with what its clients point to.  The channels hold one
    value; the diode keeps the latest value written to it. *)
Record Manager := {
  m_lastState : State;
  m_store : DefaultStore;
  m_exec : ExecEnv;
  m_dalc : dalc;
  m_settlementClient : slc;
  m_p2pClient : p2pc;
  m_syncTarget : Z;
  m_lastSubmissionTime : Z;
  m_batchInProcess : bool;
  m_syncTargetDiode : option Z;
  m_shouldProduceBlocksCh : option bool;
  m_produceEmptyBlockCh : option bool;
}.

Definition set_lastState (x : State) (m : Manager) : Manager :=
  {| m_lastState := x; m_store := m_store m; m_exec := m_exec m; m_dalc := m_dalc m;
     m_settlementClient := m_settlementClient m; m_p2pClient := m_p2pClient m;
     m_syncTarget := m_syncTarget m; m_lastSubmissionTime := m_lastSubmissionTime m;
     m_batchInProcess := m_batchInProcess m; m_syncTargetDiode := m_syncTargetDiode m;
     m_shouldProduceBlocksCh := m_shouldProduceBlocksCh m; m_produceEmptyBlockCh := m_produceEmptyBlockCh m |}.
Definition set_store (x : DefaultStore) (m : Manager) : Manager :=
  {| m_lastState := m_lastState m; m_store := x; m_exec := m_exec m; m_dalc := m_dalc m;
     m_settlementClient := m_settlementClient m; m_p2pClient := m_p2pClient m;
     m_syncTarget := m_syncTarget m; m_lastSubmissionTime := m_lastSubmissionTime m;
     m_batchInProcess := m_batchInProcess m; m_syncTargetDiode := m_syncTargetDiode m;
     m_shouldProduceBlocksCh := m_shouldProduceBlocksCh m; m_produceEmptyBlockCh := m_produceEmptyBlockCh m |}.
Definition set_exec (x : ExecEnv) (m : Manager) : Manager :=
  {| m_lastState := m_lastState m; m_store := m_store m; m_exec := x; m_dalc := m_dalc m;
     m_settlementClient := m_settlementClient m; m_p2pClient := m_p2pClient m;
     m_syncTarget := m_syncTarget m; m_lastSubmissionTime := m_lastSubmissionTime m;
     m_batchInProcess := m_batchInProcess m; m_syncTargetDiode := m_syncTargetDiode m;
     m_shouldProduceBlocksCh := m_shouldProduceBlocksCh m; m_produceEmptyBlockCh := m_produceEmptyBlockCh m |}.
Definition set_dalc (x : dalc) (m : Manager) : Manager :=
  {| m_lastState := m_lastState m; m_store := m_store m; m_exec := m_exec m; m_dalc := x;
     m_settlementClient := m_settlementClient m; m_p2pClient := m_p2pClient m;
     m_syncTarget := m_syncTarget m; m_lastSubmissionTime := m_lastSubmissionTime m;
     m_batchInProcess := m_batchInProcess m; m_syncTargetDiode := m_syncTargetDiode m;
     m_shouldProduceBlocksCh := m_shouldProduceBlocksCh m; m_produceEmptyBlockCh := m_produceEmptyBlockCh m |}.
Definition set_settlement (x : slc) (m : Manager) : Manager :=
  {| m_lastState := m_lastState m; m_store := m_store m; m_exec := m_exec m; m_dalc := m_dalc m;
     m_settlementClient := x; m_p2pClient := m_p2pClient m;
     m_syncTarget := m_syncTarget m; m_lastSubmissionTime := m_lastSubmissionTime m;
     m_batchInProcess := m_batchInProcess m; m_syncTargetDiode := m_syncTargetDiode m;
     m_shouldProduceBlocksCh := m_shouldProduceBlocksCh m; m_produceEmptyBlockCh := m_produceEmptyBlockCh m |}.
Definition set_p2p (x : p2pc) (m : Manager) : Manager :=
  {| m_lastState := m_lastState m; m_store := m_store m; m_exec := m_exec m; m_dalc := m_dalc m;
     m_settlementClient := m_settlementClient m; m_p2pClient := x;
     m_syncTarget := m_syncTarget m; m_lastSubmissionTime := m_lastSubmissionTime m;
     m_batchInProcess := m_batchInProcess m; m_syncTargetDiode := m_syncTargetDiode m;
     m_shouldProduceBlocksCh := m_shouldProduceBlocksCh m; m_produceEmptyBlockCh := m_produceEmptyBlockCh m |}.
Definition set_syncParams (target time : Z) (diode : option Z) (m : Manager) : Manager :=
  {| m_lastState := m_lastState m; m_store := m_store m; m_exec := m_exec m; m_dalc := m_dalc m;
     m_settlementClient := m_settlementClient m; m_p2pClient := m_p2pClient m;
     m_syncTarget := target; m_lastSubmissionTime := time;
     m_batchInProcess := m_batchInProcess m; m_syncTargetDiode := diode;
     m_shouldProduceBlocksCh := m_shouldProduceBlocksCh m; m_produceEmptyBlockCh := m_produceEmptyBlockCh m |}.
Definition set_batchInProcess (x : bool) (m : Manager) : Manager :=
  {| m_lastState := m_lastState m; m_store := m_store m; m_exec := m_exec m; m_dalc := m_dalc m;
     m_settlementClient := m_settlementClient m; m_p2pClient := m_p2pClient m;
     m_syncTarget := m_syncTarget m; m_lastSubmissionTime := m_lastSubmissionTime m;
     m_batchInProcess := x; m_syncTargetDiode := m_syncTargetDiode m;
     m_shouldProduceBlocksCh := m_shouldProduceBlocksCh m; m_produceEmptyBlockCh := m_produceEmptyBlockCh m |}.
Definition set_channels (should empty : option bool) (m : Manager) : Manager :=
  {| m_lastState := m_lastState m; m_store := m_store m; m_exec := m_exec m; m_dalc := m_dalc m;
     m_settlementClient := m_settlementClient m; m_p2pClient := m_p2pClient m;
     m_syncTarget := m_syncTarget m; m_lastSubmissionTime := m_lastSubmissionTime m;
     m_batchInProcess := m_batchInProcess m; m_syncTargetDiode := m_syncTargetDiode m;
     m_shouldProduceBlocksCh := should; m_produceEmptyBlockCh := empty |}.

Definition on_store {R} (c : M DefaultStore R) : M Manager R := zoom m_store set_store c.
Definition on_exec {R} (c : M ExecEnv R) : M Manager R := zoom m_exec set_exec c.
Definition on_dalc {R} (c : M dalc R) : M Manager R := zoom m_dalc set_dalc c.
Definition on_settlement {R} (c : M slc R) : M Manager R := zoom m_settlementClient set_settlement c.
Definition on_p2p {R} (c : M p2pc R) : M Manager R := zoom m_p2pClient set_p2p c.

Definition with_appHash (h : hash32) (s : State) : State :=
  {| st_Version := st_Version s; st_Software := st_Software s; st_ChainID := st_ChainID s;
     st_InitialHeight := st_InitialHeight s; st_LastBlockHeight := st_LastBlockHeight s;
     st_LastBlockID := st_LastBlockID s; st_LastBlockTime := st_LastBlockTime s;
     st_SLStateIndex := st_SLStateIndex s; st_NextValidators := st_NextValidators s;
     st_Validators := st_Validators s; st_LastValidators := st_LastValidators s;
     st_LastHeightValidatorsChanged := st_LastHeightValidatorsChanged s;
     st_ConsensusParams := st_ConsensusParams s;
     st_LastHeightConsensusParamsChanged := st_LastHeightConsensusParamsChanged s;
     st_LastResultsHash := st_LastResultsHash s; st_LastStoreHeight := st_LastStoreHeight s;
     st_BaseHeight := st_BaseHeight s; st_AppHash := h |}.
Definition with_resultsHash (h : hash32) (s : State) : State :=
  {| st_Version := st_Version s; st_Software := st_Software s; st_ChainID := st_ChainID s;
     st_InitialHeight := st_InitialHeight s; st_LastBlockHeight := st_LastBlockHeight s;
     st_LastBlockID := st_LastBlockID s; st_LastBlockTime := st_LastBlockTime s;
     st_SLStateIndex := st_SLStateIndex s; st_NextValidators := st_NextValidators s;
     st_Validators := st_Validators s; st_LastValidators := st_LastValidators s;
     st_LastHeightValidatorsChanged := st_LastHeightValidatorsChanged s;
     st_ConsensusParams := st_ConsensusParams s;
     st_LastHeightConsensusParamsChanged := st_LastHeightConsensusParamsChanged s;
     st_LastResultsHash := h; st_LastStoreHeight := st_LastStoreHeight s;
     st_BaseHeight := st_BaseHeight s; st_AppHash := st_AppHash s |}.
(** [LastValidators], [LastStoreHeight] and [BaseHeight] set together. *)
Definition with_stored (lastValidators : ValidatorSet) (height base : Z) (s : State) : State :=
  {| st_Version := st_Version s; st_Software := st_Software s; st_ChainID := st_ChainID s;
     st_InitialHeight := st_InitialHeight s; st_LastBlockHeight := st_LastBlockHeight s;
     st_LastBlockID := st_LastBlockID s; st_LastBlockTime := st_LastBlockTime s;
     st_SLStateIndex := st_SLStateIndex s; st_NextValidators := st_NextValidators s;
     st_Validators := st_Validators s; st_LastValidators := lastValidators;
     st_LastHeightValidatorsChanged := st_LastHeightValidatorsChanged s;
     st_ConsensusParams := st_ConsensusParams s;
     st_LastHeightConsensusParamsChanged := st_LastHeightConsensusParamsChanged s;
     st_LastResultsHash := st_LastResultsHash s; st_LastStoreHeight := height;
     st_BaseHeight := base; st_AppHash := st_AppHash s |}.
Definition with_SLStateIndex (i : Z) (s : State) : State :=
  {| st_Version := st_Version s; st_Software := st_Software s; st_ChainID := st_ChainID s;
     st_InitialHeight := st_InitialHeight s; st_LastBlockHeight := st_LastBlockHeight s;
     st_LastBlockID := st_LastBlockID s; st_LastBlockTime := st_LastBlockTime s;
     st_SLStateIndex := i; st_NextValidators := st_NextValidators s;
     st_Validators := st_Validators s; st_LastValidators := st_LastValidators s;
     st_LastHeightValidatorsChanged := st_LastHeightValidatorsChanged s;
     st_ConsensusParams := st_ConsensusParams s;
     st_LastHeightConsensusParamsChanged := st_LastHeightConsensusParamsChanged s;
     st_LastResultsHash := st_LastResultsHash s; st_LastStoreHeight := st_LastStoreHeight s;
     st_BaseHeight := st_BaseHeight s; st_AppHash := st_AppHash s |}.

(** ** Applying a block (block/block.go) *)

(** A slice converted to an array of 32 bytes: it panics when the slice is too short. *)
Definition to_array32 (s : bytes) : result hash32 :=
  if decide (32 <= length s) then Ok (copy_into zero_hash s)
  else Panic "cannot convert slice to array: length too short".

Definition alignStoreWithApp (block : Block) : M Manager bool :=
  let height := hdr_Height (blk_Header block) in
  let! proxyAppInfo := wrap "failed to get app info" (read (fun m => GetAppInfo (m_exec m))) in
  if negb (u64 (inf_LastBlockHeight proxyAppInfo) =? height)%Z then ret false
  else
    let! appHash := lift (to_array32 (inf_LastBlockAppHash proxyAppInfo)) in
    do! modify (fun m =>
          let s := m_lastState m in
          set_lastState (with_stored (st_Validators s) height (st_BaseHeight s) (with_appHash appHash s)) m) in
    let! resp := wrap "failed to load block responses" (read (fun m => LoadBlockResponses (m_store m) height)) in
    do! modify (fun m =>
          let s := m_lastState m in
          set_lastState (with_resultsHash
            (copy_into (st_LastResultsHash s) (results_hash (rs_DeliverTxs resp))) s) m) in
    let! s := gets m_lastState in
    do! wrap "failed to update state" (on_store (UpdateState s None)) in
    do! modify (fun m => set_store (SetHeight height (m_store m)) m) in
    ret true.

Context (cfg : ManagerConf).

Definition executeBlock (block : Block) (commit : Commit) : M Manager ABCIResponses :=
  let! proposer := on_settlement sl_GetProposer in
  let! state := gets m_lastState in
  do! lift (Validate state block commit proposer) in
  on_exec (on_app (Execute (mc_executor cfg) state block)).

Definition pruneBlocks (retainHeight : Z) : M Manager Z :=
  let! syncTarget := gets m_syncTarget in
  if (i64 syncTarget <? retainHeight)%Z then fail (New "cannot prune uncommitted blocks")
  else wrap "failed to prune block store" (on_store (PruneBlocks retainHeight)).

(** [applyBlock] from [SaveBlock] to the first [batch.Commit()]: the block is
    stored, executed, and the new state, not yet committed by the application, is
    persisted with the responses and the validators. *)
Definition apply_prepare (block : Block) (commit : Commit) : M Manager (State * ABCIResponses) :=
  let height := hdr_Height (blk_Header block) in
  do! on_store (SaveBlock block commit None) in
  let! responses := executeBlock block commit in
  let! state := gets m_lastState in
  let! newState := lift (UpdateStateFromResponses responses state block) in
  let! b := gets (fun m => NewBatch (m_store m)) in
  let! b := on_store (SaveBlockResponses height responses (Some b)) in
  do! modify (set_lastState newState) in
  let! b := on_store (UpdateState newState b) in
  let! b := on_store (SaveValidators height (st_Validators newState) b) in
  let! b := lift (deref b) in
  do! on_store (on_db (batch_commit b)) in
  ret (newState, responses).

(** [applyBlock] after [executor.Commit]: prune, then persist the committed state
    and raise the store height. *)
Definition apply_finish (block : Block) (newState : State) (retainHeight : Z) : M Manager unit :=
  let height := hdr_Height (blk_Header block) in
  do! (if (0 <? retainHeight)%Z then do! try (pruneBlocks retainHeight) in ret tt else ret tt) in
  let! last := gets m_lastState in
  let! base := gets (fun m => Base (m_store m)) in
  let newState := with_stored (st_Validators last) height base newState in
  do! on_store (UpdateState newState None) in
  do! modify (set_lastState newState) in
  modify (fun m => set_store (SetHeight height (m_store m)) m).

Definition applyBlock (block : Block) (commit : Commit) : M Manager unit :=
  let! height := gets (fun m => Height (m_store m)) in
  if negb (hdr_Height (blk_Header block) =? u64 (height + 1))%Z then ret tt
  else
    let! isAlignRequired := alignStoreWithApp block in
    if isAlignRequired : bool then ret tt
    else
      let! (newState, responses) := apply_prepare block commit in
      let! (newState, retainHeight) := on_exec (Commit_block newState block responses) in
      apply_finish block newState retainHeight.

Definition gossipBlock (block : Block) (commit : Commit) : M Manager unit :=
  let! bs := lift (GossipedBlock_MarshalBinary {| gb_Block := block; gb_Commit := commit |}) in
  on_p2p (p2p_GossipBlock bs).

(** [applyBlockCallback]: an error is only logged. *)
Definition applyBlockCallback (eventData : GossipedBlock) : M Manager unit :=
  do! try (applyBlock (gb_Block eventData) (gb_Commit eventData)) in ret tt.

(** ** Producing a block (block/produce.go) *)

Definition createTMSignature (block : Block) (proposerAddress : bytes) (voteTimestamp : Z) (chainID : string)
    : result bytes :=
  let headerHash := Header_Hash (blk_Header block) in
  let vote := {| vote_Height := i64 (hdr_Height (blk_Header block)); vote_Round := 0;
                 vote_Timestamp := voteTimestamp;
                 vote_BlockID := {| bid_Hash := headerHash; bid_Total := 1; bid_PartHash := headerHash |};
                 vote_ValidatorAddress := proposerAddress; vote_ValidatorIndex := 0 |} in
  try! signature := key_SignVote chainID vote in
  if key_VerifyVote chainID vote signature then Ok signature else Err (New "wrong signature").

(** The commit and header hash a new block refers to. *)
Definition last_commit (newHeight height : Z) (s : DefaultStore) : result (Commit * hash32) :=
  if (newHeight =? u64 (gd_InitialHeight (mc_genesis cfg)))%Z then
    Ok ({| cm_Height := height; cm_HeaderHash := zero_hash; cm_Signatures := [];
           cm_TMSignature := zero_CommitSig |}, zero_hash)
  else
    try! lastCommit := result_wrap "error while loading last commit" (LoadCommit s height) in
    try! lastBlock := result_wrap "error while loading last block" (LoadBlock s height) in
    Ok (lastCommit, Header_Hash (blk_Header lastBlock)).

(** The proposer's commit of a new block. *)
Definition sign_block (block : Block) (voteTimestamp : Z) (chainID : string) : result Commit :=
  try! abciHeaderBytes := header_marshal (ToABCIHeaderPB (blk_Header block)) in
  try! proposerAddress := key_address in
  try! sign := key_Sign abciHeaderBytes in
  try! tmSignature := createTMSignature block proposerAddress voteTimestamp chainID in
  Ok {| cm_Height := hdr_Height (blk_Header block);
        cm_HeaderHash := Header_Hash (blk_Header block);
        cm_Signatures := [sign];
        cm_TMSignature := {| cs_BlockIDFlag := Byte.x02; cs_ValidatorAddress := proposerAddress;
                             cs_Timestamp := voteTimestamp; cs_Signature := tmSignature |} |}.

(** The block to publish at [newHeight] and its commit: the one already stored
    there, or a new one from the mempool. *)
Definition next_block (allowEmpty : bool) (now voteTimestamp newHeight : Z) (lastCommit : Commit)
    (lastHeaderHash : hash32) (m : Manager) : result (Block * Commit) :=
  match LoadBlock (m_store m) newHeight with
  | Ok pendingBlock =>
      try! commit := LoadCommit (m_store m) newHeight in
      Ok (pendingBlock, commit)
  | Panic msg => Panic msg
  | Err _ =>
      let block := CreateBlock (mc_executor cfg) newHeight lastCommit lastHeaderHash (m_lastState m) now
                     (ee_mempool (m_exec m)) in
      if negb allowEmpty && bool_decide (length (data_Txs (blk_Data block)) = 0) then Err ErrSkippedEmptyBlock
      else
        try! commit := sign_block block voteTimestamp (st_ChainID (m_lastState m)) in
        Ok (block, commit)
  end.

(** [produceBlock]; [now] and [voteTimestamp] are the two readings of the clock. *)
Definition produceBlock (allowEmpty : bool) (now voteTimestamp : Z) : M Manager unit :=
  let! height := gets (fun m => Height (m_store m)) in
  let newHeight := u64 (height + 1) in
  let! (lastCommit, lastHeaderHash) := read (fun m => last_commit newHeight height (m_store m)) in
  let! (block, commit) := read (next_block allowEmpty now voteTimestamp newHeight lastCommit lastHeaderHash) in
  do! gossipBlock block commit in
  applyBlock block commit.
End Manager.
