(* ===== verification/ManagerLoops.v ===== *)
(** * ManagerLoops: starting the manager, and its loops

    Models [NewManager] and its helpers (block/manager.go), the handlers of the
    production, submission, retrieval and sync-target loops (block/produce.go,
    submit.go, retriever.go, synctarget.go).  An iteration of a [select] loop is one
    definition; where the code can wait on a full channel or a condition, the
    outcome says so. *)
From stdpp Require Import base gmap strings vector sorting numbers list.
From S2P Require Import Prelude KVStore Types Serialization Store Conv Executor Gossip Layers Manager.

Section Loops.
Context {T : Tendermint} {W : Wire} {K : KVStore} {TV : TmValidators} {A : App} {MP : MempoolI}
  {EB : EventBus} {G : GossipWire} {DA : DALayer} {SL : SettlementLayer} {P : P2PClient} {PK : ProposerKey}.

(** ** Construction (block/manager.go) *)

(** What [NewManager] is given. *)
Record Parts := {
  pt_store : DefaultStore;
  pt_exec : ExecEnv;
  pt_dalc : dalc;
  pt_settlement : slc;
  pt_p2p : p2pc;
}.

Definition pt_set_store (s : DefaultStore) (p : Parts) : Parts :=
  {| pt_store := s; pt_exec := pt_exec p; pt_dalc := pt_dalc p; pt_settlement := pt_settlement p; pt_p2p := pt_p2p p |}.
Definition pt_set_exec (x : ExecEnv) (p : Parts) : Parts :=
  {| pt_store := pt_store p; pt_exec := x; pt_dalc := pt_dalc p; pt_settlement := pt_settlement p; pt_p2p := pt_p2p p |}.
Definition pt_set_settlement (x : slc) (p : Parts) : Parts :=
  {| pt_store := pt_store p; pt_exec := pt_exec p; pt_dalc := pt_dalc p; pt_settlement := x; pt_p2p := pt_p2p p |}.

Definition getInitialState (genesis : GenesisDoc) : M DefaultStore State := fun s =>
  match LoadState s with
  | (Err e, s') => if decide (e = ErrNoStateFound) then (NewFromGenesisDoc genesis, s') else (Err e, s')
  | r => r
  end.

(** The parts of the consensus parameters an application may change. *)
Definition update_params (u : ParamsUpdate) (c : ConsensusParams) : ConsensusParams := {|
  cp_Block_MaxBytes := match pu_Block u with Some (b, _) => b | None => cp_Block_MaxBytes c end;
  cp_Block_MaxGas := match pu_Block u with Some (_, g) => g | None => cp_Block_MaxGas c end;
  cp_Evidence_MaxAgeNumBlocks :=
    match pu_Evidence u with Some (n, _, _) => n | None => cp_Evidence_MaxAgeNumBlocks c end;
  cp_Evidence_MaxAgeDuration :=
    match pu_Evidence u with Some (_, d, _) => d | None => cp_Evidence_MaxAgeDuration c end;
  cp_Evidence_MaxBytes :=
    match pu_Evidence u with Some (_, _, b) => b | None => cp_Evidence_MaxBytes c end;
  cp_Validator_PubKeyTypes := match pu_Validator u with Some t => t | None => cp_Validator_PubKeyTypes c end;
  cp_Version_AppVersion := match pu_Version u with Some v => v | None => cp_Version_AppVersion c end;
|}.

Definition updateInitChainState (s : State) (res : ResponseInitChain) (validators : list Validator) : result State :=
  let appHash := if decide (0 < length (ri_AppHash res)) then copy_into (st_AppHash s) (ri_AppHash res)
                 else st_AppHash s in
  if decide (length validators <= 0) then Panic "Validators must be greater than zero"
  else
    let params := match ri_ConsensusParams res with
                  | Some u => update_params u (st_ConsensusParams s)
                  | None => st_ConsensusParams s end in
    let version := match ri_ConsensusParams res with
                   | Some _ => {| ver_Block := ver_Block (st_Version s); ver_App := cp_Version_AppVersion params |}
                   | None => st_Version s end in
    let vs := vs_IncrementProposerPriority (NewValidatorSet validators) 1 in
    Ok {| st_Version := version; st_Software := st_Software s; st_ChainID := st_ChainID s;
          st_InitialHeight := st_InitialHeight s; st_LastBlockHeight := st_LastBlockHeight s;
          st_LastBlockID := st_LastBlockID s; st_LastBlockTime := st_LastBlockTime s;
          st_SLStateIndex := st_SLStateIndex s; st_NextValidators := vs;
          st_Validators := vs; st_LastValidators := vs;
          st_LastHeightValidatorsChanged := st_LastHeightValidatorsChanged s;
          st_ConsensusParams := params;
          st_LastHeightConsensusParamsChanged := st_LastHeightConsensusParamsChanged s;
          st_LastResultsHash := copy_into (st_LastResultsHash s) empty_merkle_hash;
          st_LastStoreHeight := st_LastStoreHeight s;
          st_BaseHeight := st_BaseHeight s; st_AppHash := appHash |}.

(** The validators of a new chain: its sequencers, with power 1. *)
Fixpoint sequencer_validators (l : list Sequencer) : result (list Validator) :=
  match l with
  | [] => Ok []
  | sequencer :: l =>
      try! v := pubkey_ToValidator (seq_PublicKey sequencer) 1 in
      try! vs := sequencer_validators l in
      Ok (v :: vs)
  end.

(** The genesis branch of [NewManager]. *)
Definition init_chain (genesis : GenesisDoc) (s : State) : M Parts State :=
  let! sequencersList := zoom pt_settlement pt_set_settlement sl_GetSequencersList in
  let! validators := lift (sequencer_validators sequencersList) in
  let! res := zoom pt_exec pt_set_exec (InitChain genesis validators) in
  let! s := lift (updateInitChainState s res validators) in
  do! zoom pt_store pt_set_store (UpdateState s None) in
  ret s.

Definition NewManager (hex_decode : string -> result bytes) (conf : BlockManagerConfig) (genesis : GenesisDoc)
    : M Parts (ManagerConf * Manager) :=
  let! proposerAddress := lift key_address in
  let! exec := lift (result_wrap "failed to create block executor"
                 (NewBlockExecutor hex_decode proposerAddress (bc_NamespaceID conf) (gd_ChainID genesis))) in
  let! s := wrap "failed to get initial state" (zoom pt_store pt_set_store (getInitialState genesis)) in
  let! s := if (i64 (st_LastBlockHeight s + 1) =? gd_InitialHeight genesis)%Z
            then init_chain genesis s else ret s in
  let! p := get in
  ret ({| mc_conf := conf; mc_genesis := genesis; mc_executor := exec |},
       {| m_lastState := s; m_store := pt_store p; m_exec := pt_exec p; m_dalc := pt_dalc p;
          m_settlementClient := pt_settlement p; m_p2pClient := pt_p2p p;
          m_syncTarget := 0; m_lastSubmissionTime := 0; m_batchInProcess := false;
          m_syncTargetDiode := None; m_shouldProduceBlocksCh := None; m_produceEmptyBlockCh := None |}).

Context (cfg : ManagerConf).

(** ** The sync target (block/synctarget.go) *)

(** [updateSyncParams]; [now] is the clock. *)
Definition updateSyncParams (endHeight now : Z) : M Manager unit :=
  modify (set_syncParams endHeight now (Some endHeight)).

(** [getLatestBatchFromSL]: one attempt. *)
Definition getLatestBatchFromSL : M Manager SLResultRetrieveBatch := on_settlement (sl_RetrieveBatch None).

(** The start of [SyncTargetLoop]: an error is only logged. *)
Definition SyncTargetLoop_start (now : Z) : M Manager unit :=
  let! r := try getLatestBatchFromSL in
  match r with
  | inl _ => ret tt
  | inr res => let! b := lift (deref (srb_Batch res)) in updateSyncParams (sb_EndHeight b) now
  end.

(** [SyncTargetLoop] on a batch-accepted event. *)
Definition onNewBatchAccepted (endHeight now : Z) : M Manager unit :=
  do! updateSyncParams endHeight now in
  modify (set_batchInProcess false).

(** ** Retrieving from the data availability layer (block/retriever.go) *)

Definition updateStateIndex (stateIndex : Z) : M Manager unit :=
  do! modify (fun m => set_lastState (with_SLStateIndex stateIndex (m_lastState m)) m) in
  let! s := gets m_lastState in
  do! on_store (UpdateState s None) in
  ret tt.

Definition fetchBatch (daHeight : Z) : M Manager DAResultRetrieveBatch :=
  let! batchRes := on_dalc (da_RetrieveBatches daHeight) in
  match dr_Code (drr_Base batchRes) with
  | StatusError => fail (New "failed to retrieve batch")
  | StatusTimeout => fail (New "timeout during retrieve batch")
  | _ => ret batchRes
  end.

(** The blocks of a batch from the [i]-th on. *)
Fixpoint apply_blocks (i : nat) (blocks : list Block) (commits : list Commit) : M Manager unit :=
  match blocks with
  | [] => ret tt
  | block :: blocks =>
      let! commit := lift (index commits i) in
      do! applyBlock cfg block commit in
      apply_blocks (S i) blocks commits
  end.

Definition processNextDABatch (daHeight : Z) : M Manager unit :=
  let! batchResp := fetchBatch daHeight in
  for_each (fun b => let! batch := lift (deref b) in apply_blocks 0 (bt_Blocks batch) (bt_Commits batch))
    (drr_Batches batchResp).

(** The loop of [syncUntilTarget]: [false] when the fuel runs out. *)
Fixpoint sync_loop (fuel : nat) (currentHeight syncTarget : Z) : M Manager bool :=
  if (currentHeight <? syncTarget)%Z then
    match fuel with
    | O => ret false
    | S fuel =>
        let! idx := gets (fun m => u64 (st_SLStateIndex (m_lastState m) + 1)) in
        let! r := try (on_settlement (sl_RetrieveBatch (Some idx))) in
        match r with
        | inl _ => sync_loop fuel currentHeight syncTarget
        | inr res =>
            let! b := lift (deref (srb_Batch res)) in
            let! md := lift (deref (sb_MetaData b)) in
            let! d := lift (deref md) in
            let! r := try (processNextDABatch (dm_Height d)) in
            match r with
            | inl _ => ret true
            | inr _ =>
                let! r := try (updateStateIndex (srb_StateIndex res)) in
                match r with
                | inl _ => ret true
                | inr _ =>
                    let! h := gets (fun m => Height (m_store m)) in
                    sync_loop fuel h syncTarget
                end
            end
        end
    end
  else ret true.

Definition syncUntilTarget (fuel : nat) (syncTarget : Z) : M Manager bool :=
  let! currentHeight := gets (fun m => Height (m_store m)) in
  sync_loop fuel currentHeight syncTarget.

(** The test of [RetriveLoop] after a round: are the waiters of [isSyncedCond] woken? *)
Definition is_synced (m : Manager) : bool := (m_syncTarget m <=? Height (m_store m))%Z.

(** An iteration of [RetriveLoop]: it takes the value of the diode, synchronises, and
    says whether it signals [isSyncedCond]; [None] when there is nothing to take. *)
Definition RetriveLoop_step (fuel : nat) : M Manager (option bool) :=
  let! d := gets m_syncTargetDiode in
  match d with
  | None => ret None
  | Some syncTarget =>
      do! modify (fun m => set_syncParams (m_syncTarget m) (m_lastSubmissionTime m) None m) in
      do! syncUntilTarget fuel syncTarget in
      let! s := gets is_synced in
      ret (Some s)
  end.

(** ** Submitting batches (block/submit.go) *)

Definition validateLastBlockInBatchIsEmpty (startHeight endHeight : Z) (s : DefaultStore) : result bool :=
  try! lastBlock := LoadBlock s endHeight in
  Ok (bool_decide (length (data_Txs (blk_Data lastBlock)) = 0)).

(** The largest capacity [make] accepts for a slice of pointers. *)
Definition maxSliceCap : Z := 2 ^ 45.

(** The loop of [createNextDABatch]: [height], and the blocks and commits appended so
    far; [None] when the fuel runs out. *)
Fixpoint batch_loop (fuel : nat) (startHeight endHeight height : Z) (blocks : list Block) (commits : list Commit)
    (s : DefaultStore) : result (option (Z * list Block * list Commit)) :=
  if (height <=? endHeight)%Z then
    match fuel with
    | O => Ok None
    | S fuel =>
        try! block := LoadBlock s height in
        try! commit := LoadCommit s height in
        let blocks' := blocks ++ [block] in
        let commits' := commits ++ [commit] in
        let totalSize := batch_size (Batch_ToProto {| bt_StartHeight := startHeight; bt_EndHeight := endHeight;
                                                      bt_Blocks := blocks'; bt_Commits := commits' |}) in
        if (i64 (bc_BlockBatchMaxSizeBytes (mc_conf cfg)) <? totalSize)%Z
        then Ok (Some (height, blocks, commits))
        else batch_loop fuel startHeight endHeight (u64 (height + 1)) blocks' commits' s
    end
  else Ok (Some (height, blocks, commits)).

Definition createNextDABatch (fuel : nat) (startHeight endHeight : Z) (s : DefaultStore) : result (option Batch) :=
  let batchSize := u64 (endHeight - startHeight + 1) in
  if (maxSliceCap <? batchSize)%Z then Panic "makeslice: cap out of range"
  else
    try! r := batch_loop fuel startHeight endHeight startHeight [] [] s in
    match r with
    | None => Ok None
    | Some (height, blocks, commits) =>
        Ok (Some {| bt_StartHeight := startHeight; bt_EndHeight := u64 (height - 1);
                    bt_Blocks := blocks; bt_Commits := commits |})
    end.

(** What an iteration of the submit loop did. *)
Inductive SubmitOutcome :=
| SubmitSkipped                       (* nothing to submit, or a batch in process *)
| SubmitFailed                        (* returned early with a logged error *)
| SubmitBlocked (startHeight endHeight : Z)  (* waiting to send on a full produceEmptyBlockCh *)
| SubmitNoFuel
| Submitted (b : Batch).

(** [submitNextBatch] after the empty block was requested. *)
Definition submit_rest (fuel : nat) (startHeight endHeight : Z) : M Manager SubmitOutcome :=
  let! r := try (read (fun m => createNextDABatch fuel startHeight endHeight (m_store m))) in
  match r with
  | inl _ => ret SubmitFailed
  | inr None => ret SubmitNoFuel
  | inr (Some nextBatch) =>
      let! resultSubmitToDA := on_dalc (da_SubmitBatch nextBatch) in
      if negb (bool_decide (dr_Code resultSubmitToDA = StatusSuccess))
      then panic "Failed to submit next batch to DA Layer"
      else
        do! on_settlement (sl_SubmitBatch nextBatch da_GetClientType resultSubmitToDA) in
        ret (Submitted nextBatch)
  end.

Definition submitNextBatch (fuel : nat) : M Manager SubmitOutcome :=
  let! startHeight := gets (fun m => u64 (m_syncTarget m + 1)) in
  let! endHeight := gets (fun m => u64 (st_LastBlockHeight (m_lastState m))) in
  let! r := try (read (fun m => validateLastBlockInBatchIsEmpty startHeight endHeight (m_store m))) in
  match r with
  | inl _ => ret SubmitFailed
  | inr true => submit_rest fuel startHeight endHeight
  | inr false =>
      let! ch := gets m_produceEmptyBlockCh in
      match ch with
      | Some _ => ret (SubmitBlocked startHeight endHeight)
      | None =>
          do! modify (fun m => set_channels (m_shouldProduceBlocksCh m) (Some true) m) in
          submit_rest fuel startHeight endHeight
      end
  end.

(** [SubmitLoop] on a tick; the error of [produceBlock] is only logged. *)
Definition SubmitLoop_tick (fuel : nat) (now voteTimestamp : Z) : M Manager SubmitOutcome :=
  let! syncTarget := gets m_syncTarget in
  let! height := gets (fun m => Height (m_store m)) in
  if (u64 (height - syncTarget) =? 0)%Z then ret SubmitSkipped
  else
    let! inProcess := gets m_batchInProcess in
    if inProcess : bool then ret SubmitSkipped
    else
      do! modify (set_batchInProcess true) in
      do! try (produceBlock cfg true now voteTimestamp) in
      submitNextBatch fuel.

(** ** Producing blocks (block/produce.go) *)

(** Where [waitForSync] is: done, or waiting on [isSyncedCond]. *)
Inductive SyncWait := SyncDone | SyncWaiting.

Definition waitForSync (now : Z) : M Manager SyncWait :=
  let! r := try getLatestBatchFromSL in
  match r with
  | inl e =>
      if decide (e = ErrBatchNotFound) then
        do! modify (fun m => set_syncParams (u64 (gd_InitialHeight (mc_genesis cfg) - 1))
                               (m_lastSubmissionTime m) (m_syncTargetDiode m) m) in
        ret SyncDone
      else fail e
  | inr res =>
      let! b := lift (deref (srb_Batch res)) in
      do! updateSyncParams (sb_EndHeight b) now in
      let! s := gets is_synced in
      ret (if s : bool then SyncDone else SyncWaiting)
  end.

(** The variables of [ProduceBlockLoop]: whether the next block may be empty, and
    where the loop is. *)
Inductive LoopStatus :=
| LoopRunning                (* in the select *)
| LoopStopped                (* waiting for a healthy status *)
| LoopBlocked.               (* sending [false] on a full shouldProduceBlocksCh *)

Record ProduceLoop := { pl_produceEmptyBlock : bool; pl_status : LoopStatus }.

(** What the select of the loop receives. *)
Inductive LoopEvent :=
| EvProduceEmptyBlock
| EvEmptyBlocksTimeout
| EvTicker (now voteTimestamp : Z)
| EvHealth.

(** An iteration of the loop.  While it is stopped only the health channel is read;
    blocked on its own channel it reads nothing. *)
Definition ProduceBlockLoop_step (l : ProduceLoop) (ev : LoopEvent) : M Manager ProduceLoop :=
  match pl_status l, ev with
  | LoopBlocked, _ => ret l
  | _, EvHealth =>
      let! ch := gets m_shouldProduceBlocksCh in
      match ch with
      | None => ret l
      | Some shouldProduceBlocks =>
          do! modify (fun m => set_channels None (m_produceEmptyBlockCh m) m) in
          ret {| pl_produceEmptyBlock := pl_produceEmptyBlock l;
                 pl_status := if shouldProduceBlocks : bool then LoopRunning else LoopStopped |}
      end
  | LoopStopped, _ => ret l
  | LoopRunning, EvProduceEmptyBlock =>
      let! ch := gets m_produceEmptyBlockCh in
      match ch with
      | None => ret l
      | Some _ =>
          do! modify (fun m => set_channels (m_shouldProduceBlocksCh m) None m) in
          ret {| pl_produceEmptyBlock := true; pl_status := LoopRunning |}
      end
  | LoopRunning, EvEmptyBlocksTimeout =>
      if (0 <? bc_EmptyBlocksMaxTime (mc_conf cfg))%Z
      then ret {| pl_produceEmptyBlock := true; pl_status := LoopRunning |} else ret l
  | LoopRunning, EvTicker now voteTimestamp =>
      let! r := try (produceBlock cfg (pl_produceEmptyBlock l) now voteTimestamp) in
      match r with
      | inl e =>
          if decide (e = ErrSkippedEmptyBlock) then ret l
          else
            let! ch := gets m_shouldProduceBlocksCh in
            match ch with
            | Some _ => ret {| pl_produceEmptyBlock := pl_produceEmptyBlock l; pl_status := LoopBlocked |}
            | None =>
                do! modify (fun m => set_channels (Some false) (m_produceEmptyBlockCh m) m) in
                ret l
            end
      | inr _ =>
          if (0 <? bc_EmptyBlocksMaxTime (mc_conf cfg))%Z
          then ret {| pl_produceEmptyBlock := false; pl_status := LoopRunning |} else ret l
      end
  end.

(** [healthStatusEventCallback]: [false] when the send has to wait. *)
Definition healthStatusEventCallback (healthy : bool) : M Manager bool :=
  let! ch := gets m_shouldProduceBlocksCh in
  match ch with
  | Some _ => ret false
  | None => do! modify (fun m => set_channels (Some healthy) (m_produceEmptyBlockCh m) m) in ret true
  end.
End Loops.
