(* ===== verification/ManagerInv.v ===== *)
(** * ManagerInv: what the handlers of the manager keep

    Runs of [applyBlock] (block/block.go) taken apart: what each of its phases has
    done when it returns, and what every run leaves unchanged, failed or not. *)
From stdpp Require Import base gmap strings vector sorting numbers list.
From S2P Require Import Prelude KVStore Types Serialization Store StorePrune StoreSpec Conv Executor Gossip Layers Manager.

(** ** The store height is kept by everything but [SetHeight] *)

Section StoreHeights.
Context {T : Tendermint} {W : Wire} {K : KVStore}.

(** Everything but the contents of the database is kept. *)
Lemma on_db_heights h b {R} (c : M db R) :
  preserves (fun s => ds_height s = h /\ ds_baseHeight s = b) (on_db c).
Proof. apply preserves_zoom. by intros s d Hs _. Qed.

Lemma save_entry_heights h b key data ob :
  preserves (fun s => ds_height s = h /\ ds_baseHeight s = b) (save_entry key data ob).
Proof.
  intros s Hs. unfold save_entry. destruct ob as [bt|].
  - by destruct (batch_set key data bt) as [[] ?].
  - apply preserves_bind; [apply on_db_heights|by intros; apply preserves_ret|done].
Qed.

Lemma SaveBlock_heights h b block commit ob :
  preserves (fun s => ds_height s = h /\ ds_baseHeight s = b) (SaveBlock block commit ob).
Proof.
  intros s Hs. unfold SaveBlock. repeat (case_match; try done).
  apply preserves_bind; [apply on_db_heights|intros; apply preserves_ret|done].
Qed.

Lemma UpdateState_heights h b st ob :
  preserves (fun s => ds_height s = h /\ ds_baseHeight s = b) (UpdateState st ob).
Proof.
  unfold UpdateState. apply preserves_bind; [apply preserves_lift|intros].
  apply preserves_bind; [apply preserves_lift|intros]. apply save_entry_heights.
Qed.

Lemma SaveBlockResponses_heights h b n rs ob :
  preserves (fun s => ds_height s = h /\ ds_baseHeight s = b) (SaveBlockResponses n rs ob).
Proof.
  unfold SaveBlockResponses. apply preserves_bind; [apply preserves_lift|intros]. apply save_entry_heights.
Qed.

Lemma SaveValidators_heights h b n vs ob :
  preserves (fun s => ds_height s = h /\ ds_baseHeight s = b) (SaveValidators n vs ob).
Proof.
  unfold SaveValidators. apply preserves_bind; [apply preserves_lift|intros].
  apply preserves_bind; [apply preserves_lift|intros]. apply save_entry_heights.
Qed.

Lemma flush_height h base : preserves (fun p => ds_height (ps_store p) = h) (flush base).
Proof.
  intros p Hp. unfold flush. destruct (batch_commit _ _) as [[] d]; simpl; [|done..].
  unfold SetBase. by case_match.
Qed.

Lemma prune_step_height h x : preserves (fun p => ds_height (ps_store p) = h) (prune_step x).
Proof.
  intros p Hp. unfold prune_step. destruct (loadHashFromIndex _ _); [|done..].
  apply (preserves_bind (fun p => ds_height (ps_store p) = h)); [by apply preserves_zoom| |done]. intros _.
  apply preserves_bind; [by apply preserves_modify|intros _].
  apply preserves_bind; [apply preserves_gets|intros pruned]. case_match; [|apply preserves_ret].
  apply preserves_bind; [apply flush_height|intros _]. by apply preserves_modify.
Qed.

Lemma PruneBlocks_height h n : preserves (fun s => ds_height s = h) (PruneBlocks n).
Proof.
  intros s Hs. unfold PruneBlocks. repeat (case_match; try done).
  all: match goal with E : prune_loop _ _ _ = (_, ?p) |- _ =>
    assert (preserves (fun p => ds_height (ps_store p) = h) (prune_loop (Base s) (u64 n))) as Hl;
      [|apply (f_equal snd) in E; simpl in E; rewrite <- E; by apply Hl] end.
  all: unfold prune_loop; apply preserves_bind; [|intros; apply flush_height];
    apply preserves_for_each; intros; apply prune_step_height.
Qed.
End StoreHeights.

#[export] Hint Resolve on_db_heights save_entry_heights SaveBlock_heights UpdateState_heights
  SaveBlockResponses_heights SaveValidators_heights : go_inv.

Section Keep.
Context {T : Tendermint} {W : Wire} {K : KVStore} {TV : TmValidators} {A : App} {MP : MempoolI}
  {EB : EventBus} {G : GossipWire} {DA : DALayer} {SL : SettlementLayer} {P : P2PClient} {PK : ProposerKey}.
Context (cfg : ManagerConf).

Lemma on_store_preserves (Q : DefaultStore -> Prop) {R} (c : M DefaultStore R) :
  preserves Q c -> preserves (fun m => Q (m_store m)) (on_store c).
Proof. intros H. apply preserves_zoom. intros m s Hm ->. by apply H. Qed.

Lemma on_exec_store (Q : DefaultStore -> Prop) {R} (c : M ExecEnv R) : preserves (fun m => Q (m_store m)) (on_exec c).
Proof. by apply preserves_zoom. Qed.

Lemma on_settlement_store (Q : DefaultStore -> Prop) {R} (c : M slc R) :
  preserves (fun m => Q (m_store m)) (on_settlement c).
Proof. by apply preserves_zoom. Qed.

(** The height of the manager's store. *)
Definition m_height (m : Manager) : Z := Height (m_store m).

Lemma heights_height {R} (c : M DefaultStore R) h :
  (forall b, preserves (fun s => ds_height s = h /\ ds_baseHeight s = b) c) ->
  preserves (fun m => m_height m = h) (on_store c).
Proof.
  intros H. apply (on_store_preserves (fun s => ds_height s = h)). intros s Hs.
  by destruct (H (ds_baseHeight s) s (conj Hs eq_refl)).
Qed.

Lemma pruneBlocks_height h n : preserves (fun m => m_height m = h) (pruneBlocks n).
Proof.
  unfold pruneBlocks. apply preserves_bind; [apply preserves_gets|intros t]. case_match; [apply preserves_fail|].
  apply preserves_wrap, (on_store_preserves (fun s => ds_height s = h)), PruneBlocks_height.
Qed.

Lemma executeBlock_height h block commit : preserves (fun m => m_height m = h) (executeBlock cfg block commit).
Proof.
  unfold executeBlock. apply preserves_bind; [apply (on_settlement_store (fun s => Height s = h))|intros].
  apply preserves_bind; [apply preserves_gets|intros]. apply preserves_bind; [apply preserves_lift|intros].
  apply (on_exec_store (fun s => Height s = h)).
Qed.

Lemma apply_prepare_height h block commit : preserves (fun m => m_height m = h) (apply_prepare cfg block commit).
Proof.
  unfold apply_prepare.
  apply preserves_bind; [apply heights_height; auto with go_inv|intros _].
  apply preserves_bind; [apply executeBlock_height|intros rs].
  apply preserves_bind; [apply preserves_gets|intros st].
  apply preserves_bind; [apply preserves_lift|intros ns].
  apply preserves_bind; [apply preserves_gets|intros b].
  apply preserves_bind; [apply heights_height; auto with go_inv|intros b1].
  apply preserves_bind; [by apply preserves_modify|intros _].
  apply preserves_bind; [apply heights_height; auto with go_inv|intros b2].
  apply preserves_bind; [apply heights_height; auto with go_inv|intros b3].
  apply preserves_bind; [apply preserves_lift|intros b4].
  apply preserves_bind; [apply heights_height; auto with go_inv|intros _]. apply preserves_ret.
Qed.

(** The last step of a block: the height is raised to the block's. *)
Lemma set_height_triple h block :
  triple (fun m => m_height m = h)
    (modify (fun m => set_store (SetHeight (hdr_Height (blk_Header block)) (m_store m)) m))
    (fun _ m => m_height m = Z.max h (hdr_Height (blk_Header block))) (fun m => m_height m = h).
Proof.
  apply triple_modify. intros m <-. unfold m_height, Height. simpl. unfold SetHeight.
  destruct (Z.ltb_spec (ds_height (m_store m)) (hdr_Height (blk_Header block))); simpl; lia.
Qed.

Lemma apply_finish_height h block ns n :
  triple (fun m => m_height m = h) (apply_finish block ns n)
    (fun _ m => m_height m = Z.max h (hdr_Height (blk_Header block))) (fun m => m_height m = h).
Proof.
  unfold apply_finish. apply triple_bind_keep; [|done|intros _].
  { case_match; [|apply preserves_ret].
    apply preserves_bind; [|intros; apply preserves_ret]. apply preserves_try, pruneBlocks_height. }
  apply triple_bind_keep; [apply preserves_gets|done|intros].
  apply triple_bind_keep; [apply preserves_gets|done|intros].
  apply triple_bind_keep; [apply heights_height; auto with go_inv|done|intros _].
  apply triple_bind_keep; [by apply preserves_modify|done|intros _].
  apply set_height_triple.
Qed.

Lemma align_height h block :
  triple (fun m => m_height m = h) (alignStoreWithApp block)
    (fun (b : bool) m => m_height m = if b then Z.max h (hdr_Height (blk_Header block)) else h)
    (fun m => m_height m = h).
Proof.
  unfold alignStoreWithApp.
  apply triple_bind_keep; [apply preserves_wrap, preserves_read|done|intros info]. case_match.
  { by apply triple_ret. }
  apply triple_bind_keep; [apply preserves_lift|done|intros].
  apply triple_bind_keep; [by apply preserves_modify|done|intros _].
  apply triple_bind_keep; [apply preserves_wrap, preserves_read|done|intros].
  apply triple_bind_keep; [by apply preserves_modify|done|intros _].
  apply triple_bind_keep; [apply preserves_gets|done|intros].
  apply triple_bind_keep; [apply preserves_wrap, heights_height; auto with go_inv|done|intros _].
  eapply triple_bind; [apply set_height_triple|intros []]. by apply triple_ret.
Qed.

Lemma Commit_block_height h ns block rs : preserves (fun m => m_height m = h) (on_exec (Commit_block ns block rs)).
Proof. apply (on_exec_store (fun s => Height s = h)). Qed.

Lemma applyBlock_height h block commit :
  triple (fun m => m_height m = h) (applyBlock cfg block commit)
    (fun _ m => m_height m = h \/
       (m_height m = Z.max h (u64 (h + 1)) /\ hdr_Height (blk_Header block) = u64 (h + 1)))
    (fun m => m_height m = h).
Proof.
  unfold applyBlock. intros m Hm. rewrite (bind_ok _ _ m h m) by (unfold gets; by rewrite <- Hm).
  destruct (Z.eqb_spec (hdr_Height (blk_Header block)) (u64 (h + 1))) as [E|E]; simpl; [|by left].
  revert m Hm. change (triple (fun m => m_height m = h)
    (let! isAlignRequired := alignStoreWithApp block in
     if isAlignRequired : bool then ret tt
     else
       let! (newState, responses) := apply_prepare cfg block commit in
       let! (newState, retainHeight) := on_exec (Commit_block newState block responses) in
       apply_finish block newState retainHeight)
    (fun _ m => m_height m = h \/
       (m_height m = Z.max h (u64 (h + 1)) /\ hdr_Height (blk_Header block) = u64 (h + 1)))
    (fun m => m_height m = h)).
  eapply triple_bind; [apply align_height|intros [|]].
  { apply triple_ret. intros m ->. right. by rewrite E. }
  apply triple_bind_keep; [apply apply_prepare_height|done|intros [ns rs]].
  apply triple_bind_keep; [apply Commit_block_height|done|intros [ns' n]].
  intros m Hm. pose proof (apply_finish_height h block ns' n m Hm) as Hf.
  destruct (apply_finish block ns' n m) as [[] m']; [|done..]. right. by rewrite Hf, E.
Qed.
End Keep.

(** ** What a run that returns has done *)

Section Runs.
Context {T : Tendermint} {W : Wire} {K : KVStore} `{!KVLaws K} {TV : TmValidators} {A : App} {MP : MempoolI}
  {EB : EventBus} {G : GossipWire} {DA : DALayer} {SL : SettlementLayer} {P : P2PClient} {PK : ProposerKey}.
Context (cfg : ManagerConf).

Lemma save_entry_batch key data b s ob s' :
  save_entry key data (Some b) s = (Ok ob, s') ->
  s' = s /\ exists b', ob = Some b' /\ batch_view b' = batch_view b ++ [OpSet key data].
Proof.
  unfold save_entry. destruct (batch_set_view key data b) as [(b' & -> & Hb)|(e & b' & -> & Hb)]; [|done].
  intros ?. simplify_eq. eauto.
Qed.

Lemma SaveBlockResponses_batch h rs b s ob s' :
  SaveBlockResponses h rs (Some b) s = (Ok ob, s') ->
  s' = s /\ exists d b', responses_marshal rs = Ok d /\ ob = Some b' /\
    batch_view b' = batch_view b ++ [OpSet (getResponsesKey h) d].
Proof.
  unfold SaveBlockResponses, lift, bind. destruct (responses_marshal rs) as [d|?|?]; [|done..].
  intros (-> & b' & -> & Hb)%save_entry_batch. eauto 10.
Qed.

Lemma UpdateState_batch st b s ob s' :
  UpdateState st (Some b) s = (Ok ob, s') ->
  s' = s /\ exists p d b', State_ToProto st = Ok p /\ state_marshal p = Ok d /\ ob = Some b' /\
    batch_view b' = batch_view b ++ [OpSet getStateKey d].
Proof.
  unfold UpdateState, lift, bind. destruct (State_ToProto st) as [p|?|?]; [|done..]. cbn.
  destruct (state_marshal p) as [d|?|?] eqn:E; [|done..].
  intros (-> & b' & -> & Hb)%save_entry_batch. eauto 10.
Qed.

Lemma SaveValidators_batch h vs b s ob s' :
  SaveValidators h vs (Some b) s = (Ok ob, s') ->
  s' = s /\ exists d b', ob = Some b' /\ batch_view b' = batch_view b ++ [OpSet (getValidatorsKey h) d].
Proof.
  unfold SaveValidators, lift, bind. destruct (vs_ToProto vs) as [p|?|?]; [|done..]. cbn.
  destruct (valset_marshal p) as [d|?|?] eqn:E; [|done..].
  intros (-> & b' & -> & Hb)%save_entry_batch. eauto 10.
Qed.

Lemma batch_commit_db b s s' :
  on_db (batch_commit b) s = (Ok tt, s') ->
  store_view s' = apply_ops (batch_view b) (store_view s) /\ ds_height s' = ds_height s /\
  ds_baseHeight s' = ds_baseHeight s.
Proof.
  unfold on_db, zoom. destruct (batch_commit_view b (ds_db s)) as [(d & -> & Hd)|(e & d & -> & Hd)]; [|done].
  intros ?. by simplify_eq/=.
Qed.

Lemma executeBlock_ok block commit m rs m1 :
  executeBlock cfg block commit m = (Ok rs, m1) ->
  exists proposer sl' app1,
    sl_GetProposer (m_settlementClient m) = (Ok proposer, sl') /\
    Validate (m_lastState m) block commit proposer = Ok tt /\
    Execute (mc_executor cfg) (m_lastState m) block (ee_app (m_exec m)) = (Ok rs, app1) /\
    m1 = set_exec (with_app app1 (m_exec m)) (set_settlement sl' m).
Proof.
  intros Hr. unfold executeBlock in Hr. go_inv Hr. go_inv Hr. go_inv Hr.
  unfold on_settlement in Hrun. go_inv Hrun. go_inv Hrun0. go_inv Hrun1. subst.
  unfold on_exec in Hr. go_inv Hr. unfold on_app in Hr. go_inv Hr. subst. simpl in *.
  destruct r1. eauto 10.
Qed.

(** The contents of the database after the first phase. *)
Definition prepared_view (block : Block) (bb cb rb sb vb : bytes) (m : gmap bytes bytes) : gmap bytes bytes :=
  let h := hdr_Height (blk_Header block) in
  <[getValidatorsKey h := vb]> (<[getStateKey := sb]> (<[getResponsesKey h := rb]> (saved_view block bb cb m))).

Record prepared (block : Block) (commit : Commit) (m : Manager) (ns : State) (rs : ABCIResponses) (m1 : Manager)
    : Prop := {
  pr_validated : exists proposer sl', sl_GetProposer (m_settlementClient m) = (Ok proposer, sl') /\
    Validate (m_lastState m) block commit proposer = Ok tt;
  pr_executed : exists app1, m_exec m1 = with_app app1 (m_exec m) /\
    Execute (mc_executor cfg) (m_lastState m) block (ee_app (m_exec m)) = (Ok rs, app1);
  pr_newState : UpdateStateFromResponses rs (m_lastState m) block = Ok ns;
  pr_lastState : m_lastState m1 = ns;
  pr_heights : Height (m_store m1) = Height (m_store m) /\ Base (m_store m1) = Base (m_store m);
  pr_syncTarget : m_syncTarget m1 = m_syncTarget m;
  pr_view : exists bb cb rb p sb vb,
    Block_MarshalBinary block = Ok bb /\ Commit_MarshalBinary commit = Ok cb /\ responses_marshal rs = Ok rb /\
    State_ToProto ns = Ok p /\ state_marshal p = Ok sb /\
    (exists sv, store_view sv = saved_view block bb cb (store_view (m_store m))) /\
    store_view (m_store m1) = prepared_view block bb cb rb sb vb (store_view (m_store m));
}.

Lemma apply_prepare_ok block commit m ns rs m1 :
  apply_prepare cfg block commit m = (Ok (ns, rs), m1) -> prepared block commit m ns rs m1.
Proof.
  intros Hr. unfold apply_prepare in Hr.
  go_inv Hr. unfold on_store in Hrun. go_inv Hrun. subst s.
  go_inv Hr. apply executeBlock_ok in Hrun0 as (pr & sl' & app1 & Hpr & Hval & Hex & ->).
  go_inv Hr. go_inv Hrun0. go_inv Hr. go_inv Hrun0. go_inv Hr. go_inv Hrun1.
  go_inv Hr. unfold on_store in Hrun1. go_inv Hrun1. subst.
  go_inv Hr. go_inv Hrun2. go_inv Hr. unfold on_store in Hrun2. go_inv Hrun2. subst.
  go_inv Hr. unfold on_store in Hrun3. go_inv Hrun3. subst.
  go_inv Hr. go_inv Hrun4. go_inv Hr. unfold on_store in Hrun5. go_inv Hrun5. subst.
  unfold ret in Hr. simplify_eq. simpl in *.
  apply SaveBlock_ok in Hrun as (Hh & Hb & bb & cb & Hbb & Hcb & Hv).
  apply SaveBlockResponses_batch in Hrun1 as (-> & rb & b1 & Hrb & -> & Hb1).
  apply UpdateState_batch in Hrun2 as (-> & p & sb & b2 & Hp & Hsb & -> & Hb2).
  apply SaveValidators_batch in Hrun3 as (-> & vb & b3 & -> & Hb3).
  simpl in Hrun4. simplify_eq. destruct r6. apply batch_commit_db in Hrun5 as (Hv' & Hh' & Hb').
  split; simpl; eauto.
  - unfold Height, Base. simpl. by rewrite Hh', Hb'.
  - exists bb, cb, rb, p, sb, vb. repeat split; try done; [by exists t|]. rewrite Hv', Hb3, Hb2, Hb1.
    unfold NewBatch. simpl. rewrite kv_new_batch_view. simpl. by rewrite Hv.
Qed.

(** The store after the optional pruning of [apply_finish]. *)
Definition maybe_pruned (n : Z) (s s1 : DefaultStore) : Prop :=
  s1 = s \/ ((0 < n)%Z /\ exists r, PruneBlocks n s = (r, s1)).

Lemma prune_opt_ok n m m1 :
  (if (0 <? n)%Z then do! try (pruneBlocks n) in ret tt else ret tt) m = (Ok tt, m1) ->
  exists s1, m1 = set_store s1 m /\ maybe_pruned n (m_store m) s1.
Proof.
  destruct (Z.ltb_spec 0 n) as [Hn|_].
  2:{ intros [= <-]. exists (m_store m). split; [by destruct m|by left]. }
  unfold bind, try, ret, pruneBlocks, gets, bind, wrap, on_store, zoom.
  destruct (i64 (m_syncTarget m) <? n)%Z.
  { intros [= <-]. exists (m_store m). split; [by destruct m|by left]. }
  destruct (PruneBlocks n (m_store m)) as [[x|e|msg] s1] eqn:E; intros; simplify_eq;
    (exists s1; split; [done|right; split; [done|eauto]]).
Qed.

Record finished (block : Block) (ns : State) (n : Z) (m m' : Manager) : Prop := {
  fi_pruned : exists s1, maybe_pruned n (m_store m) s1 /\
    m_lastState m' = with_stored (st_Validators (m_lastState m)) (hdr_Height (blk_Header block)) (Base s1) ns /\
    Base (m_store m') = Base s1 /\
    exists p d, State_ToProto (m_lastState m') = Ok p /\ state_marshal p = Ok d /\
      store_view (m_store m') = <[getStateKey := d]> (store_view s1);
  fi_exec : m_exec m' = m_exec m;
  fi_height : Height (m_store m') = Z.max (Height (m_store m)) (hdr_Height (blk_Header block));
}.

Lemma maybe_pruned_height n s s1 : maybe_pruned n s s1 -> Height s1 = Height s.
Proof.
  intros [->|(_ & r & E)]; [done|]. apply (f_equal snd) in E. simpl in E. rewrite <- E.
  by apply (PruneBlocks_height (Height s) n s).
Qed.

(** Whatever the outcome of pruning, it removed the entries of heights from the base up to
    the height asked for, which is within the chain. *)
Lemma maybe_pruned_view n s s1 :
  maybe_pruned n s s1 -> is_i64 n -> (0 <= Base s)%Z ->
  exists hs, (forall h, h ∈ hs -> Base s <= h < n /\ n <= Height s)%Z /\
    store_view s1 = pruned_view (store_view s) hs /\ (0 <= Base s1)%Z /\ Height s1 = Height s.
Proof.
  intros Hp Hi Hb. pose proof (maybe_pruned_height _ _ _ Hp) as Hh.
  assert (Hsame : exists hs, (forall h, h ∈ hs -> Base s <= h < n /\ n <= Height s)%Z /\
    store_view s = pruned_view (store_view s) hs /\ (0 <= Base s)%Z /\ Height s = Height s).
  { exists []. split_and!; try done. by intros h ?%elem_of_nil. }
  destruct Hp as [->|(Hn & r & E)]; [done|].
  unfold is_i64 in Hi. unfold PruneBlocks in E. rewrite u64_small in E by (unfold is_u64; lia).
  destruct (Z.leb_spec n 0); [lia|].
  destruct (Z.ltb_spec (Height s) n); [by simplify_eq|]. destruct (Z.ltb_spec n (Base s)); [by simplify_eq|].
  pose proof (PruneBlocks_spec s n Hb ltac:(lia) ltac:(lia)) as Hp. simpl in Hp. unfold PruneBlocks in Hp.
  rewrite u64_small in Hp by (unfold is_u64; lia).
  replace (n <=? 0)%Z with false in Hp by lia. replace (Height s <? n)%Z with false in Hp by lia.
  replace (n <? Base s)%Z with false in Hp by lia. rewrite E in Hp.
  destruct r as [x|e|msg]; simpl in Hp; [| |done].
  - destruct Hp as (Hv & _ & -> & _). eexists. split; [|split; [exact Hv|lia]]. intros h ?%elem_of_seqZ. lia.
  - destruct Hp as ([k Hv] & ? & _). eexists. split; [|split; [exact Hv|lia]].
    intros h (i & Hin & _)%elem_of_take. apply list_elem_of_lookup_2, elem_of_seqZ in Hin. lia.
Qed.

Lemma apply_finish_ok block ns n m m' :
  apply_finish block ns n m = (Ok tt, m') -> finished block ns n m m'.
Proof.
  intros Hr. unfold apply_finish in Hr. go_inv Hr. destruct r.
  apply prune_opt_ok in Hrun as (s1 & -> & Hp). pose proof (maybe_pruned_height _ _ _ Hp) as Hh.
  go_inv Hr. go_inv Hrun. go_inv Hr. go_inv Hrun. go_inv Hr. unfold on_store in Hrun. go_inv Hrun. subst.
  pose proof Hrun as (p & d & Hps & Hd & Hv)%UpdateState_ok.
  assert (Hhb : ds_height t = ds_height s1 /\ ds_baseHeight t = ds_baseHeight s1).
  { apply (f_equal snd) in Hrun. simpl in Hrun. rewrite <- Hrun.
    by apply UpdateState_heights. }
  go_inv Hr. go_inv Hrun0. go_inv Hr. destruct Hhb as [Hht Hbt].
  assert (Hview : forall x, store_view (SetHeight x t) = store_view t /\
            Height (SetHeight x t) = Z.max (Height t) x /\ Base (SetHeight x t) = Base t).
  { intros x. unfold SetHeight, Height, Base. destruct (Z.ltb_spec (ds_height t) x); simpl; repeat split; lia. }
  split; simpl.
  - exists s1. split; [done|]. split; [done|]. destruct (Hview (hdr_Height (blk_Header block))) as (Hvv & _ & Hb).
    split; [by rewrite Hb|]. exists p, d. by rewrite Hvv.
  - done.
  - destruct (Hview (hdr_Height (blk_Header block))) as (_ & -> & _). unfold Height in *. lia.
Qed.
End Runs.
