(* ===== verification/ConcreteNode.v ===== *)
(** * ConcreteNode: a concrete environment for the block manager

    An application that counts its blocks, a mempool that holds a list, an
    in-memory settlement and data availability layer: the instances at which the
    theorems about the manager are evaluated. *)
From stdpp Require Import base gmap strings vector sorting numbers list.
From S2P Require Import Prelude KVStore Types Serialization Concrete Store StoreSpec Conv Executor Gossip Layers Manager ManagerLoops.

(** The application: the committed height and the height being executed. *)
Definition toy_app : App := {|
  app := Z * Z;
  app_InitChain _ := ret {| ri_ConsensusParams := None; ri_AppHash := [] |};
  app_Info a := Ok {| inf_LastBlockHeight := a.1; inf_LastBlockAppHash := replicate 32 Byte.x61 |};
  app_BeginBlock req := fun a => (Ok {| bb_Events := [] |}, (a.1, ah_Height (rb_Header req)));
  app_DeliverTx tx := ret (inr {| dtx_Code := 0; dtx_Events := []; dtx_Rest := tx |});
  app_EndBlock _ := ret {| eb_Events := []; eb_Rest := [] |};
  app_Commit := fun a => (Ok {| rc_Data := replicate 32 Byte.x61; rc_RetainHeight := 0 |}, (a.2, a.2));
|}.

#[export] Instance toy_app_laws : AppLaws toy_app.
Proof.
  refine (@Build_AppLaws toy_app (fun a : Z * Z => a.2) _ _ _ _ _); intros;
    repeat match goal with
    | H : @app_BeginBlock _ _ _ = _ |- _ => injection H as <- <-
    | H : @app_DeliverTx _ _ _ = _ |- _ => injection H as <- <-
    | H : @app_EndBlock _ _ _ = _ |- _ => injection H as <- <-
    | H : @app_Commit _ _ = _ |- _ => injection H as <- <-
    end; done.
Qed.

Definition toy_validators : @TmValidators toy :=
  @Build_TmValidators toy (fun v => Ok (be_split 8 v)) (fun v => v) (fun _ p => Ok p).

(** The mempool is the list of its transactions. *)
Definition toy_mempool : MempoolI := {|
  mempool := list Tx;
  mp_ReapMaxBytesMaxGas _ _ mp := mp;
  mp_FlushAppConn := ret tt;
  mp_Update _ txs _ _ _ := modify (filter (fun tx => tx ∉ txs));
|}.

Definition toy_events : EventBus := {| event_bus := list Event; eb_publish ev := modify (cons ev) |}.

#[export] Instance PbGossipedBlock_codec : Codec PbGossipedBlock.
Proof.
  refine (iso_codec (fun g => (pg_Block g, pg_Commit g)) (fun '(b, c) => Build_PbGossipedBlock b c) _). by intros [].
Defined.

Definition toy_gossip : GossipWire := {| gossip_marshal := enc_ok; gossip_unmarshal := dec_all |}.

#[export] Instance toy_gossip_laws : GossipWireLaws toy_gossip.
Proof. split. apply codec_law_all. Qed.

(** Data availability: the batches submitted, one per height from 1 on. *)
Definition toy_da : DALayer := {|
  dalc := list Batch;
  da_SubmitBatch b := fun d =>
    (Ok {| dr_Code := StatusSuccess; dr_Message := ""; dr_DAHeight := Z.of_nat (length d) + 1 |}, d ++ [b]);
  da_CheckBatchAvailability h := fun d =>
    (Ok {| drc_Base := {| dr_Code := StatusSuccess; dr_Message := ""; dr_DAHeight := h |};
           drc_DataAvailable := bool_decide (is_Some (d !! Z.to_nat (h - 1))) |}, d);
  da_RetrieveBatches h := fun d =>
    (Ok {| drr_Base := {| dr_Code := StatusSuccess; dr_Message := ""; dr_DAHeight := h |};
           drr_Batches := match d !! Z.to_nat (h - 1) with Some b => [Some b] | None => [] end |}, d);
  da_GetClientType := "mock";
|}.

(** Settlement: the batches accepted, one per state index from 1 on. *)
Definition toy_sl_result (i : Z) (b : SLBatch) : SLResultRetrieveBatch :=
  {| srb_Code := StatusSuccess; srb_StateIndex := i; srb_Batch := Some b |}.

Definition toy_proposer : @Sequencer toy := {| seq_PublicKey := [Byte.x6b] : @PubKey toy; seq_Status := Proposer |}.

Definition toy_sl : @SettlementLayer toy := @Build_SettlementLayer toy (list SLBatch)
  (fun b client da => modify (fun l => l ++
     [{| sb_StartHeight := bt_StartHeight b; sb_EndHeight := bt_EndHeight b;
         sb_AppHashes := (fun blk => hdr_AppHash (blk_Header blk)) <$> bt_Blocks b;
         sb_MetaData := Some (Some {| dm_Height := dr_DAHeight da; dm_Client := client |}) |}]))
  (fun i l =>
     let i := default (Z.of_nat (length l)) i in
     (match l !! Z.to_nat (i - 1) with
      | Some b => if (0 <? i)%Z then Ok (toy_sl_result i b) else Err ErrBatchNotFound
      | None => Err ErrBatchNotFound end, l))
  (ret [toy_proposer])
  (ret (Some toy_proposer)).

Definition toy_p2p : P2PClient := {| p2pc := list bytes; p2p_GossipBlock bs := modify (cons bs) |}.

Definition toy_key : ProposerKey := {|
  key_address := Ok [Byte.x61];
  key_Sign _ := Ok [Byte.x6b];
  key_SignVote _ _ := Ok [Byte.x6b];
  key_VerifyVote _ _ _ := true;
|}.

(** Import this module to compute with the instances above. *)
Module ToyInstances.
#[export] Existing Instance toy.
#[export] Existing Instance toy_wire.
#[export] Existing Instance MemKV.
#[export] Existing Instance toy_validators.
#[export] Existing Instance toy_app.
#[export] Existing Instance toy_mempool.
#[export] Existing Instance toy_events.
#[export] Existing Instance toy_gossip.
#[export] Existing Instance toy_da.
#[export] Existing Instance toy_sl.
#[export] Existing Instance toy_p2p.
#[export] Existing Instance toy_key.
End ToyInstances.
Import ToyInstances.

Definition toy_genesis : GenesisDoc :=
  {| gd_GenesisTime := 0; gd_ChainID := "toy"; gd_InitialHeight := 1; gd_ConsensusParams := Some toy_params;
     gd_AppHash := []; gd_AppState := [] |}.

Definition toy_conf : BlockManagerConfig :=
  {| bc_BlockTime := 1; bc_EmptyBlocksMaxTime := 3; bc_BatchSubmitMaxTime := 10; bc_NamespaceID := "";
     bc_BlockBatchSize := 5; bc_BlockBatchMaxSizeBytes := 100000 |}.

Definition toy_cfg : ManagerConf :=
  {| mc_conf := toy_conf; mc_genesis := toy_genesis;
     mc_executor := {| be_proposerAddress := [Byte.x61]; be_namespaceID := Vector.const Byte.x00 8;
                       be_chainID := "toy" |} |}.

Definition toy_exec (txs : list Tx) : ExecEnv :=
  {| ee_app := (0%Z, 0%Z) : @app toy_app; ee_mempool := txs : @mempool toy_mempool;
     ee_eventBus := Some ([] : @event_bus toy_events) |}.

(** A node at genesis with these transactions in its mempool. *)
Definition toy_node (txs : list Tx) : Manager :=
  {| m_lastState := toy_state 0 0; m_store := empty_store; m_exec := toy_exec txs;
     m_dalc := [] : @dalc toy_da; m_settlementClient := [] : @slc toy toy_sl; m_p2pClient := [] : @p2pc toy_p2p;
     m_syncTarget := 0; m_lastSubmissionTime := 0; m_batchInProcess := false; m_syncTargetDiode := None;
     m_shouldProduceBlocksCh := None; m_produceEmptyBlockCh := None |}.

(** The first block, applied. *)
Definition block1 : Block := toy_block 1 [[Byte.x01]; [Byte.x02]].
Abbreviation run1 := (applyBlock toy_cfg block1 (toy_commit 1) (toy_node [])).

Lemma run1_ok : run1 = (Ok tt, run1.2).
Proof. destruct (is_ok_run run1) as [[] E]; [vm_compute; reflexivity|exact E]. Qed.

Lemma run1_height : Height (m_store run1.2) = 1%Z.
Proof. vm_compute. reflexivity. Qed.
