(* ===== verification/ExecSpec.v ===== *)
(** * ExecSpec: what creating and validating blocks promise

    The theorems about state/executor.go: a block made by [CreateBlock] passes the
    validation of the state it was made for, what an accepted block satisfies, and
    that a block whose execution was interrupted before the application's commit
    is accepted again. *)
From stdpp Require Import base gmap strings vector sorting numbers list.
From S2P Require Import Prelude KVStore Types Serialization Concrete Store StoreSpec Conv Executor Gossip Layers Manager ManagerLoops ConcreteNode.

Section ExecSpec.
Context {T : Tendermint} {TV : TmValidators} {A : App} {MP : MempoolI} {EB : EventBus}.
Implicit Types (st : State) (block : Block).

(** The height [validateBlock] expects. *)
Definition expected_height st : Z :=
  if (st_LastBlockHeight st <=? 0)%Z then u64 (st_InitialHeight st) else u64 (st_LastStoreHeight st + 1).

Lemma version_eq (v w : Version) :
  ~ (ver_App v <> ver_App w \/ ver_Block v <> ver_Block w) -> v = w.
Proof.
  destruct v as [a b], w as [c d]; simpl. intros Hn.
  destruct (decide (a = c)) as [->|], (decide (b = d)) as [->|]; [done|exfalso; apply Hn; auto..].
Qed.

Lemma validateBlock_iff st block :
  validateBlock st block = Ok tt <->
  Block_ValidateBasic block = Ok tt /\ hdr_Version (blk_Header block) = st_Version st /\
  hdr_Height (blk_Header block) = expected_height st /\
  hdr_AppHash (blk_Header block) = st_AppHash st /\ hdr_LastResultsHash (blk_Header block) = st_LastResultsHash st.
Proof.
  unfold validateBlock, expected_height.
  destruct (Block_ValidateBasic block) as [[]|e|msg]; simpl; [|by split; [|intros (? & _)]..].
  case_decide as Hv.
  { split; [done|]. intros (_ & E & _). rewrite E in Hv. by destruct Hv. }
  apply version_eq in Hv.
  destruct (Z.leb_spec (st_LastBlockHeight st) 0); destruct (Z.ltb_spec 0 (st_LastBlockHeight st)); simpl; try lia.
  all: match goal with |- context [(?a =? ?b)%Z] => destruct (Z.eqb_spec a b) end; simpl;
    [|by split; [|intros (_ & _ & ? & _)]].
  all: case_decide as Ha; [by split; [|intros (_ & _ & _ & E & _); rewrite E in Ha]|].
  all: case_decide as Hl; [by split; [|intros (_ & _ & _ & _ & E); rewrite E in Hl]|].
  all: split; [|done]; intros _; split_and!; try done; apply vec_to_list_inj2;
    [exact Ha|exact Hl].
Qed.

(** C35: a block made by [CreateBlock] for the next height is accepted by
    [validateBlock] in the state it was made for, whatever the mempool holds, as soon
    as the proposer has an address and the last commit passes its basic validation. *)
Theorem created_block_validates e height lastCommit lastHeaderHash st now mp :
  height = expected_height st -> be_proposerAddress e <> [] -> Commit_ValidateBasic lastCommit = Ok tt ->
  validateBlock st (CreateBlock e height lastCommit lastHeaderHash st now mp) = Ok tt.
Proof.
  intros Hh Ha Hc. apply validateBlock_iff. unfold CreateBlock, new_header. simpl. split.
  - unfold Block_ValidateBasic, Header_ValidateBasic. simpl.
    rewrite decide_False by (by destruct (be_proposerAddress e)). simpl. by rewrite Hc.
  - split_and!; try done. by destruct (st_Version st).
Qed.

(** A block whose execution was persisted but not committed by the application
    validates again: in the state [applyBlock] saved before the commit, the same block
    with the same commit and proposer is still accepted, so the crash is repaired by
    executing it once more. *)
Theorem uncommitted_block_validates_again rs st block commit proposer ns :
  Validate st block commit proposer = Ok tt -> UpdateStateFromResponses rs st block = Ok ns ->
  (0 <= st_LastStoreHeight st)%Z -> hdr_Height (blk_Header block) = (st_LastStoreHeight st + 1)%Z ->
  (st_LastStoreHeight st + 1 < 2 ^ 63)%Z ->
  Validate ns block commit proposer = Ok tt.
Proof.
  intros Hv Hu H0 Hh Hlt. apply updateState_heights in Hu as (Hlb & Hls & Hah & Hlr & Hver & _).
  unfold Validate in *. go_inv Hv. destruct r. apply validateBlock_iff in Hres as (Hb & Hv1 & _ & Ha & Hr).
  assert (validateBlock ns block = Ok tt) as ->; [|done]. apply validateBlock_iff.
  rewrite Hah, Hlr, Hver. split_and!; try done. unfold expected_height. rewrite Hlb, Hls, i64_small by (unfold is_i64; lia).
  replace (hdr_Height (blk_Header block) <=? 0)%Z with false by lia. rewrite u64_small by (unfold is_u64; lia). done.
Qed.
End ExecSpec.

Import ToyInstances.

Lemma created_block_validates_witness :
  validateBlock (toy_state 0 0)
    (CreateBlock (mc_executor toy_cfg) 1 zero_Commit zero_hash (toy_state 0 0) 42 ([[Byte.x01]] : @mempool toy_mempool))
  = Ok tt.
Proof. exact (created_block_validates (mc_executor toy_cfg) 1 zero_Commit zero_hash (toy_state 0 0) 42 _ eq_refl ltac:(discriminate) eq_refl). Defined.

Abbreviation replay_ns := (get_ok (toy_state 0 0) (UpdateStateFromResponses
  {| rs_DeliverTxs := []; rs_BeginBlock := {| bb_Events := [] |}; rs_EndBlock := {| eb_Events := []; eb_Rest := [] |} |} (toy_state 0 0) block1)).

Lemma uncommitted_block_validates_again_witness :
  Validate replay_ns block1 (toy_commit 1) (Some toy_proposer) = Ok tt.
Proof.
  refine (uncommitted_block_validates_again {| rs_DeliverTxs := []; rs_BeginBlock := {| bb_Events := [] |}; rs_EndBlock := {| eb_Events := []; eb_Rest := [] |} |}
    (toy_state 0 0) block1 (toy_commit 1) (Some toy_proposer) replay_ns _ _ _ _ _).
  - vm_compute. reflexivity.
  - apply get_ok_result. reflexivity.
  - vm_compute. congruence.
  - reflexivity.
  - vm_compute. reflexivity.
Defined.
