(* ===== verification/ManagerSpec.v ===== *)
(** * ManagerSpec: what applying a block promises

    The theorems about [applyBlock] and [NewManager] (package block/): the height
    moves by one block at a time and only when the whole application succeeded, a
    block reaches the application only after validation, what a successful run
    leaves in the store, the state and the application, and the recovery after a
    crash between the application's commit and the store's. *)
From stdpp Require Import base gmap strings vector sorting numbers list.
From S2P Require Import Prelude KVStore Types Serialization Concrete Store StorePrune StoreSpec Conv Executor Gossip Layers Manager ManagerLoops ManagerInv ConcreteNode.

Section ApplyBlock.
Context {T : Tendermint} {W : Wire} `{!WireLaws W} `{!TmProtoLaws T} {K : KVStore} `{!KVLaws K}
  {TV : TmValidators} {A : App} `{!AppLaws A} {MP : MempoolI} {EB : EventBus} {G : GossipWire}
  {DA : DALayer} {SL : SettlementLayer} {P : P2PClient} {PK : ProposerKey}.
Context (cfg : ManagerConf).
Implicit Types (m : Manager) (s : DefaultStore).

(** ** Heights *)

(** The store height moves one block at a time: whatever [applyBlock] does - return,
    fail or panic - the height is unchanged, or it went up by exactly one, for a block
    of that height and a run that returned without an error. *)
Theorem apply_block_height_step block commit m r m' :
  applyBlock cfg block commit m = (r, m') -> is_u64 (m_height m) ->
  m_height m' = m_height m \/
  (r = Ok tt /\ m_height m' = (m_height m + 1)%Z /\ hdr_Height (blk_Header block) = (m_height m + 1)%Z).
Proof.
  intros E Hu. pose proof (applyBlock_height cfg (m_height m) block commit m eq_refl) as Ht. rewrite E in Ht.
  destruct r as [[]|e|msg]; [|by left..]. destruct Ht as [?|[Hh Hb]]; [by left|].
  destruct (decide (m_height m + 1 < 2 ^ 64)%Z) as [Hlt|Hge].
  - rewrite u64_small in Hh, Hb by (unfold is_u64 in *; lia). right. split; [done|]. lia.
  - left. unfold is_u64 in Hu. assert (u64 (m_height m + 1) = 0)%Z as Hz; [|lia].
    unfold u64. replace (m_height m + 1)%Z with (2 ^ 64)%Z by lia. apply Z_mod_same_full.
Qed.

(** ** Validation before execution *)

Lemma executeBlock_app block commit m r m' :
  executeBlock cfg block commit m = (r, m') ->
  (exists proposer sl', sl_GetProposer (m_settlementClient m) = (Ok proposer, sl') /\
     Validate (m_lastState m) block commit proposer = Ok tt) \/
  (is_ok r = false /\ m_exec m' = m_exec m).
Proof.
  unfold executeBlock, on_settlement, bind, zoom.
  destruct (sl_GetProposer (m_settlementClient m)) as [[pr|e|msg] sl'] eqn:Ep;
    [|intros [= <- <-]; by right..]. simpl. unfold gets, lift. simpl.
  destruct (Validate (m_lastState m) block commit pr) as [[]|e|msg] eqn:Ev; [|intros [= <- <-]; by right..].
  intros _. left. eauto.
Qed.

Lemma SaveBlock_exec block commit m r m' :
  on_store (SaveBlock block commit None) m = (r, m') ->
  m_exec m' = m_exec m /\ m_settlementClient m' = m_settlementClient m /\ m_lastState m' = m_lastState m.
Proof. unfold on_store, zoom. destruct (SaveBlock _ _ _ _). by intros [= <- <-]. Qed.

Lemma align_exec block m r m' : alignStoreWithApp block m = (r, m') -> m_exec m' = m_exec m.
Proof.
  intros E. apply (f_equal snd) in E. simpl in E. rewrite <- E.
  assert (Hp : preserves (fun m1 => m_exec m1 = m_exec m) (alignStoreWithApp block)); [|by apply Hp].
  unfold alignStoreWithApp. apply preserves_bind; [apply preserves_wrap, preserves_read|intros info].
  case_match; [apply preserves_ret|].
  apply preserves_bind; [apply preserves_lift|intros].
  apply preserves_bind; [by apply preserves_modify|intros _].
  apply preserves_bind; [apply preserves_wrap, preserves_read|intros].
  apply preserves_bind; [by apply preserves_modify|intros _].
  apply preserves_bind; [apply preserves_gets|intros].
  apply preserves_bind; [by apply preserves_wrap, preserves_zoom|intros _].
  apply preserves_bind; [by apply preserves_modify|intros _]. apply preserves_ret.
Qed.

Lemma align_false block m m' : alignStoreWithApp block m = (Ok false, m') -> m' = m.
Proof.
  intros Hr. unfold alignStoreWithApp in Hr. go_inv Hr. go_inv Hrun. go_inv Hrun. case_match.
  { by unfold ret in Hr; simplify_eq. }
  do 6 go_inv Hr. go_inv Hr. unfold ret in Hr. by simplify_eq.
Qed.

Lemma apply_prepare_app block commit m r m' :
  apply_prepare cfg block commit m = (r, m') ->
  (exists proposer sl', sl_GetProposer (m_settlementClient m) = (Ok proposer, sl') /\
     Validate (m_lastState m) block commit proposer = Ok tt) \/
  (is_ok r = false /\ m_exec m' = m_exec m).
Proof.
  unfold apply_prepare, bind at 1.
  destruct (on_store (SaveBlock block commit None) m) as [[ob|e|msg] m1] eqn:Es;
    apply SaveBlock_exec in Es as (He & Hs & Hl); [|intros [= <- <-]; by right..].
  unfold bind at 1. destruct (executeBlock cfg block commit m1) as [r2 m2] eqn:Ex.
  pose proof (executeBlock_app _ _ _ _ _ Ex) as Hx. rewrite Hs, Hl in Hx.
  destruct Hx as [Hv|[Hr Hx]]; [by intros _; left|]. destruct r2; [done|..];
    intros [= <- <-]; right; by rewrite Hx, He.
Qed.

Lemma Validate_ok st block commit pr :
  Validate st block commit pr = Ok tt ->
  validateBlock st block = Ok tt /\
  exists proposer sg bs, pr = Some proposer /\ header_marshal (ToABCIHeaderPB (blk_Header block)) = Ok bs /\
    head (cm_Signatures commit) = Some sg /\ VerifySignature (seq_PublicKey proposer) bs sg = true.
Proof.
  unfold Validate. intros Hv. go_inv Hv. destruct r. split; [done|]. unfold validateCommit in Hv. go_inv Hv.
  apply Commit_Validate_ok in Hv as (p & sg & -> & Hh & Hs). eauto 10.
Qed.

(** C3: the application only ever sees validated blocks: after any run of
    [applyBlock], either the application, the mempool and the event bus are
    untouched, or the block has the next height and [Validate] accepted it against the
    last state, with a first signature by the settlement layer's proposer over the header. *)
Theorem apply_block_validates_first block commit m r m' :
  applyBlock cfg block commit m = (r, m') ->
  m_exec m' = m_exec m \/
  (hdr_Height (blk_Header block) = u64 (m_height m + 1) /\
   validateBlock (m_lastState m) block = Ok tt /\
   exists proposer sl' sg bs,
     sl_GetProposer (m_settlementClient m) = (Ok (Some proposer), sl') /\
     header_marshal (ToABCIHeaderPB (blk_Header block)) = Ok bs /\
     head (cm_Signatures commit) = Some sg /\
     VerifySignature (seq_PublicKey proposer) bs sg = true).
Proof.
  intros Hr. unfold applyBlock in Hr. rewrite (bind_ok _ _ m (m_height m) m) in Hr by done.
  destruct (Z.eqb_spec (hdr_Height (blk_Header block)) (u64 (m_height m + 1))) as [Eh|Eh]; simpl in Hr.
  2:{ unfold ret in Hr. simplify_eq. by left. }
  unfold bind at 1 in Hr.
  destruct (alignStoreWithApp block m) as [[[|]|e|msg] m1] eqn:Ea;
    pose proof (align_exec _ _ _ _ Ea) as He; [unfold ret in Hr; simplify_eq; by left| |simplify_eq; by left..].
  apply align_false in Ea as ->. unfold bind at 1 in Hr.
  destruct (apply_prepare cfg block commit m) as [[[ns rs]|e|msg] m1] eqn:Ep;
    apply apply_prepare_app in Ep as [(pr & sl' & Hpr & Hv)|[? Hx]]; try done; [|simplify_eq..]; try (by left).
  all: right; split; [done|]; apply Validate_ok in Hv as (? & p & sg & bs & -> & ? & ? & ?); eauto 10.
Qed.

(** ** A successful run *)

Lemma prepared_view_aux (block : Block) (bb cb rb sb vb : bytes) (m : gmap bytes bytes) (k : bytes) :
  ~ aux_key k -> prepared_view block bb cb rb sb vb m !! k = saved_view block bb cb m !! k.
Proof.
  intros Hk. unfold prepared_view. rewrite !lookup_insert_ne; [done|intros <-; apply Hk..]; unfold aux_key; eauto.
Qed.

(** Pruning as [applyBlock] does it keeps every block from the store height on. *)
Lemma maybe_pruned_chain n s s1 :
  maybe_pruned n s s1 -> is_i64 n -> store_wf s -> (0 <= Base s)%Z ->
  store_wf s1 /\ (0 <= Base s1)%Z /\ forall h, is_u64 h -> (Height s <= h)%Z -> chain s1 h = chain s h.
Proof.
  intros Hp Hi Hwf Hb. destruct (maybe_pruned_view n s s1 Hp Hi Hb) as (hs & Hhs & Hv & Hb1 & Hle).
  split; [|split; [done|]].
  - eapply store_wf_subseteq; [|exact Hwf]. rewrite Hv. apply pruned_view_subseteq.
  - intros h Hu Hge. rewrite (pruned_chain s s1 hs h Hv); [|constructor; [done|]|done].
    + rewrite decide_False; [done|]. intros Hin%Hhs. lia.
    + apply list.Forall_forall. intros x Hx%Hhs. unfold is_i64 in Hi. unfold is_u64. lia.
Qed.

(** The three phases of a run that returns. *)
Lemma applyBlock_ok block commit m m' :
  applyBlock cfg block commit m = (Ok tt, m') ->
  hdr_Height (blk_Header block) = u64 (m_height m + 1) ->
  (forall info, GetAppInfo (m_exec m) = Ok info ->
     u64 (inf_LastBlockHeight info) <> hdr_Height (blk_Header block)) ->
  exists ns rs m1 ns' n m2,
    prepared cfg block commit m ns rs m1 /\
    on_exec (Commit_block ns block rs) m1 = (Ok (ns', n), m2) /\
    finished block ns' n m2 m'.
Proof.
  intros Hr Hh Hinfo. unfold applyBlock in Hr. rewrite (bind_ok _ _ m (m_height m) m) in Hr by done.
  rewrite Hh, Z.eqb_refl in Hr. simpl in Hr. go_inv Hr.
  assert (r = false) as ->.
  { unfold alignStoreWithApp in Hrun. go_inv Hrun. go_inv Hrun0. go_inv Hrun0. specialize (Hinfo _ Hrun0).
    replace (u64 (inf_LastBlockHeight r0) =? hdr_Height (blk_Header block))%Z with false in Hrun by lia.
    simpl in Hrun. unfold ret in Hrun. by simplify_eq. }
  apply align_false in Hrun as ->. go_inv Hr. destruct r as [ns rs]. go_inv Hr. destruct r as [ns' n].
  apply apply_prepare_ok in Hrun. apply apply_finish_ok in Hr. eauto 10.
Qed.

(** After the first phase the block is in the store, and nothing else changed there. *)
Lemma prepared_chain block commit m ns rs m1 :
  prepared cfg block commit m ns rs m1 ->
  data_Evidence (blk_Data block) = [] -> hash_fresh (m_store m) block -> store_wf (m_store m) ->
  is_u64 (hdr_Height (blk_Header block)) ->
  store_wf (m_store m1) /\
  forall h, is_u64 h -> chain (m_store m1) h
    = if decide (h = hdr_Height (blk_Header block)) then Some (block, commit) else chain (m_store m) h.
Proof.
  intros [_ _ _ _ _ _ (bb & cb & rb & p & sb & vb & Hbb & Hcb & _ & _ & _ & (sv & Hsv) & Hv)] Hev Hfr Hwf Hu.
  assert (Haux : forall k, ~ aux_key k -> store_view (m_store m1) !! k = store_view sv !! k).
  { intros k Hk. rewrite Hv, Hsv. by apply prepared_view_aux. }
  split.
  - eapply store_wf_aux; [exact Haux|]. by eapply saved_store_wf.
  - intros h Huh. rewrite (chain_aux sv) by done. unfold chain.
    pose proof (saved_load block commit (m_store m) sv bb cb h Huh Hu Hfr Hev Hbb Hcb Hsv) as Hl.
    case_decide; by destruct Hl as (-> & -> & _).
Qed.

(** The block is at its height, and the store is still well formed. *)
(** The application stands at the block that was committed. *)
Lemma finished_info block commit m ns rs m1 ns' n m2 m' :
  prepared cfg block commit m ns rs m1 -> on_exec (Commit_block ns block rs) m1 = (Ok (ns', n), m2) -> finished block ns' n m2 m' ->
  exists info, GetAppInfo (m_exec m') = Ok info /\ inf_LastBlockHeight info = i64 (hdr_Height (blk_Header block)).
Proof.
  intros [_ (app1 & Hx & Hex) _ _ _ _ _] Hc [_ Hxf _]. unfold on_exec in Hc. go_inv Hc. subst m2.
  apply Commit_block_ok in Hc as (rc & Hrc & _ & _). simpl in *. rewrite Hx in Hrc. simpl in Hrc. apply Execute_ok in Hex as [_ Hp].
  eexists. split; [unfold GetAppInfo; rewrite Hxf; by apply (app_commit_info _ _ _ Hrc)|done].
Qed.

Lemma applyBlock_info block commit m m' :
  applyBlock cfg block commit m = (Ok tt, m') -> hdr_Height (blk_Header block) = u64 (m_height m + 1) ->
  (forall info, GetAppInfo (m_exec m) = Ok info -> u64 (inf_LastBlockHeight info) <> hdr_Height (blk_Header block)) ->
  exists info, GetAppInfo (m_exec m') = Ok info /\ inf_LastBlockHeight info = i64 (hdr_Height (blk_Header block)).
Proof. intros Hr Hh Hi. apply applyBlock_ok in Hr as (ns & rs & m1 & ns' & n & m2 & Hp & Hc & Hf); [|done..]. by eapply finished_info. Qed.

Lemma applyBlock_stored block commit m m' :
  applyBlock cfg block commit m = (Ok tt, m') ->
  (0 <= m_height m)%Z -> (m_height m + 1 < 2 ^ 63)%Z -> hdr_Height (blk_Header block) = (m_height m + 1)%Z ->
  (forall info, GetAppInfo (m_exec m) = Ok info -> u64 (inf_LastBlockHeight info) <> hdr_Height (blk_Header block)) ->
  data_Evidence (blk_Data block) = [] -> hash_fresh (m_store m) block -> store_wf (m_store m) -> (0 <= Base (m_store m))%Z ->
  m_height m' = hdr_Height (blk_Header block) /\
  chain (m_store m') (hdr_Height (blk_Header block)) = Some (block, commit) /\ store_wf (m_store m').
Proof.
  intros Hr H0 Hlt Hh Hinfo Hev Hfr Hwf Hb. assert (Hu : is_u64 (m_height m + 1)) by (unfold is_u64; lia).
  apply applyBlock_ok in Hr as (ns & rs & m1 & ns' & n & m2 & Hp & Hc & Hf); [|by rewrite u64_small|done].
  pose proof Hp as [_ _ _ _ [Hh1 Hb1] _ _].
  unfold on_exec in Hc. go_inv Hc. subst m2. pose proof (Commit_block_ok _ _ _ _ _ _ _ Hc) as (rc & Hrc & -> & ->).
  destruct Hf as [(s1 & Hs1 & _ & _ & p' & d & _ & _ & Hv') _ Hhf]. simpl in *.
  destruct (prepared_chain _ _ _ _ _ _ Hp Hev Hfr Hwf) as [Hwf1 Hch1]; [by rewrite Hh|].
  destruct (maybe_pruned_chain _ _ _ Hs1) as (Hwfs & _ & Hchs); [by eapply app_retain_range|done|by rewrite Hb1|].
  assert (Haux : forall k, ~ aux_key k -> store_view (m_store m') !! k = store_view s1 !! k).
  { intros k Hk. rewrite Hv', lookup_insert_ne; [done|]. intros <-. apply Hk. by left. }
  split_and!; [unfold m_height in *; rewrite Hhf, Hh1; lia| |by eapply store_wf_aux].
  rewrite (chain_aux s1) by done. rewrite Hchs; [|by rewrite Hh|]. { by rewrite Hch1, decide_True by (done || by rewrite Hh). }
  rewrite Hh1. unfold m_height in Hh. lia.
Qed.

(** C2: a block that [applyBlock] applied is stored, executed and committed: the height is
    the block's, the block and its commit load back, the store stays well formed, the
    application ran the block once and committed it, the state has the hashes the
    commit and the execution gave, and a node restarted on the database loads exactly
    this state and height. *)
Theorem apply_block_commits block commit m m' :
  applyBlock cfg block commit m = (Ok tt, m') ->
  (0 <= m_height m)%Z -> (m_height m + 1 < 2 ^ 63)%Z ->
  hdr_Height (blk_Header block) = (m_height m + 1)%Z ->
  (forall info, GetAppInfo (m_exec m) = Ok info ->
     u64 (inf_LastBlockHeight info) <> hdr_Height (blk_Header block)) ->
  data_Evidence (blk_Data block) = [] -> hash_fresh (m_store m) block ->
  store_wf (m_store m) -> (0 <= Base (m_store m))%Z ->
  m_height m' = hdr_Height (blk_Header block) /\
  chain (m_store m') (hdr_Height (blk_Header block)) = Some (block, commit) /\
  store_wf (m_store m') /\
  st_LastStoreHeight (m_lastState m') = hdr_Height (blk_Header block) /\
  st_LastBlockHeight (m_lastState m') = hdr_Height (blk_Header block) /\
  (exists rs app1 rc,
     Execute (mc_executor cfg) (m_lastState m) block (ee_app (m_exec m)) = (Ok rs, app1) /\
     app_Commit app1 = (Ok rc, ee_app (m_exec m')) /\
     length (rs_DeliverTxs rs) = length (data_Txs (blk_Data block)) /\
     st_AppHash (m_lastState m') = copy_into (st_AppHash (m_lastState m)) (rc_Data rc) /\
     st_LastResultsHash (m_lastState m')
     = copy_into (st_LastResultsHash (m_lastState m)) (results_hash (rs_DeliverTxs rs))) /\
  (state_ok (m_lastState m') -> exists s2,
     LoadState (New_store (ds_db (m_store m'))) = (Ok (m_lastState m'), s2) /\ Height s2 = m_height m').
Proof.
  intros Hr H0 Hlt Hh Hinfo Hev Hfr Hwf Hb. assert (Hu : is_u64 (m_height m + 1)) by (unfold is_u64; lia).
  destruct (applyBlock_stored block commit m m') as (Hmh & Hch & Hwf'); [done..|].
  apply applyBlock_ok in Hr as (ns & rs & m1 & ns' & n & m2 & Hp & Hc & Hf); [|by rewrite u64_small|done].
  pose proof Hp as [_ (app1 & Hx & Hex) Hns Hls _ _ _].
  unfold on_exec in Hc. go_inv Hc. subst m2. pose proof (Commit_block_ok _ _ _ _ _ _ _ Hc) as (rc & Hrc & -> & ->).
  destruct Hf as [(s1 & Hs1 & Hlast & Hbase & p' & d & Hp' & Hd & Hv') Hx' _]. simpl in *.
  apply updateState_heights in Hns as (Hlb & _ & Hah & Hlr & _).
  rewrite Hlast. simpl. split_and!; try done.
  - rewrite Hlb, i64_small; [done|]. unfold is_i64. lia.
  - exists rs, app1, rc. rewrite Hx in Hrc. simpl in Hrc. rewrite Hx'. simpl. rewrite Hah, Hlr.
    repeat split; try done. by apply Execute_ok in Hex as [? _].
  - intros Hok. rewrite <- Hlast in Hok |- *. eexists. split.
    + rewrite (LoadState_view (m_lastState m') p' d); [|done..|].
      2:{ change (store_view (m_store m') !! getStateKey = Some d). by rewrite Hv', lookup_insert_eq. }
      rewrite reloaded_same; [done|]. rewrite Hlast. simpl. lia.
    + simpl. rewrite Hlast. simpl. done.
Qed.

(** ** Restarting after a crash *)

(** [NewManager] on a database that holds a state past genesis. *)
Lemma NewManager_loaded hex conf genesis p st pb data cfg2 mr p' :
  store_view (pt_store p) !! getStateKey = Some data -> State_ToProto st = Ok pb -> state_marshal pb = Ok data ->
  state_ok st -> i64 (st_LastBlockHeight (reloaded st) + 1) <> gd_InitialHeight genesis ->
  NewManager hex conf genesis p = (Ok (cfg2, mr), p') ->
  m_lastState mr = reloaded st /\ m_exec mr = pt_exec p /\
  m_store mr = with_base (st_BaseHeight st) (with_height (st_LastStoreHeight (reloaded st)) (pt_store p)).
Proof.
  intros Hd Hpb Hm Hok Hne Hr. unfold NewManager in Hr.
  go_inv Hr. go_inv Hrun. go_inv Hr. go_inv Hrun0. go_inv Hr. go_inv Hrun1. go_inv Hrun1. subst.
  unfold getInitialState in Hrun1. rewrite (LoadState_view st pb data) in Hrun1 by done. simplify_eq.
  replace (i64 (st_LastBlockHeight (reloaded st) + 1) =? gd_InitialHeight genesis)%Z with false in Hr by lia.
  go_inv Hr. go_inv Hrun1. go_inv Hr. unfold Prelude.get in Hrun1. simplify_eq. go_inv Hr. by simpl.
Qed.

Lemma UpdateState_reliable `{!KVReliable K} st pb d s :
  State_ToProto st = Ok pb -> state_marshal pb = Ok d ->
  exists s', UpdateState st None s = (Ok None, s') /\
    store_view s' = <[getStateKey := d]> (store_view s) /\ Height s' = Height s /\ Base s' = Base s.
Proof.
  intros Hp Hd. unfold UpdateState, lift, bind. rewrite Hp. cbn. rewrite Hd.
  unfold save_entry, on_db, bind, zoom. pose proof (kv_set_ok getStateKey d (ds_db s)) as Hok.
  destruct (kv_set_view getStateKey d (ds_db s)) as [(d' & E & Hv)|(e & d' & E & Hv)]; rewrite E in *; [|done].
  eexists. split; [done|]. done.
Qed.

(** [alignStoreWithApp] when the application already committed the block. *)
Lemma align_recovers `{!KVReliable K} block m info rs pb d st' :
  GetAppInfo (m_exec m) = Ok info ->
  u64 (inf_LastBlockHeight info) = hdr_Height (blk_Header block) ->
  length (inf_LastBlockAppHash info) = 32 ->
  LoadBlockResponses (m_store m) (hdr_Height (blk_Header block)) = Ok rs ->
  st' = with_resultsHash (copy_into (st_LastResultsHash (m_lastState m)) (results_hash (rs_DeliverTxs rs)))
          (with_stored (st_Validators (m_lastState m)) (hdr_Height (blk_Header block))
             (st_BaseHeight (m_lastState m))
             (with_appHash (copy_into zero_hash (inf_LastBlockAppHash info)) (m_lastState m))) ->
  State_ToProto st' = Ok pb -> state_marshal pb = Ok d ->
  exists m', alignStoreWithApp block m = (Ok true, m') /\ m_lastState m' = st' /\ m_exec m' = m_exec m /\
    store_view (m_store m') = <[getStateKey := d]> (store_view (m_store m)) /\
    m_height m' = Z.max (m_height m) (hdr_Height (blk_Header block)).
Proof.
  intros Hi Hh Hl Hrs Hst Hpb Hd. destruct (UpdateState_reliable st' pb d (m_store m) Hpb Hd) as (s' & Hu & Hv & Hhs & _).
  unfold alignStoreWithApp, bind, wrap, read, lift, modify, gets, on_store, zoom. rewrite Hi. cbn -[UpdateState LoadBlockResponses].
  rewrite Hh, Z.eqb_refl. cbn -[UpdateState LoadBlockResponses]. unfold to_array32. rewrite decide_True by lia. cbn -[UpdateState LoadBlockResponses]. rewrite Hrs. cbn -[UpdateState LoadBlockResponses].
  subst st'. rewrite Hu. cbn -[UpdateState LoadBlockResponses]. eexists. split; [done|]. cbn -[UpdateState LoadBlockResponses]. split; [done|]. split; [done|].
  unfold m_height, Height in *. cbn. unfold SetHeight.
  destruct (Z.ltb_spec (ds_height s') (hdr_Height (blk_Header block))); cbn; split; (done || lia).
Qed.

End ApplyBlock.

(** ** Witnesses: the first block of a concrete node *)

Import ToyInstances.

Lemma node0_fresh : hash_fresh (m_store (toy_node [])) block1.
Proof. apply empty_store_fresh. Qed.

Lemma apply_block_height_step_witness :
  m_height run1.2 = m_height (toy_node []) \/
  (run1.1 = Ok tt /\ m_height run1.2 = (m_height (toy_node []) + 1)%Z /\
   hdr_Height (blk_Header block1) = (m_height (toy_node []) + 1)%Z).
Proof.
  exact (apply_block_height_step toy_cfg block1 (toy_commit 1) (toy_node []) run1.1 run1.2
           (surjective_pairing run1) ltac:(vm_compute; split; congruence)).
Defined.

Lemma apply_block_validates_first_witness :
  m_exec run1.2 = m_exec (toy_node []) \/ validateBlock (toy_state 0 0) block1 = Ok tt.
Proof.
  destruct (apply_block_validates_first toy_cfg block1 (toy_commit 1) (toy_node []) run1.1 run1.2
              (surjective_pairing run1)) as [H|(_ & H & _)]; [left|right]; exact H.
Defined.

Lemma node0_info info :
  GetAppInfo (m_exec (toy_node [])) = Ok info -> u64 (inf_LastBlockHeight info) <> hdr_Height (blk_Header block1).
Proof. intros [= <-]. by vm_compute. Qed.

Lemma apply_block_commits_witness :
  chain (m_store run1.2) 1 = Some (block1, toy_commit 1) /\
  exists s2, LoadState (New_store (ds_db (m_store run1.2))) = (Ok (m_lastState run1.2), s2) /\ Height s2 = 1%Z.
Proof.
  destruct (apply_block_commits toy_cfg block1 (toy_commit 1) (toy_node []) run1.2 run1_ok
    ltac:(vm_compute; congruence) ltac:(vm_compute; congruence) ltac:(vm_compute; congruence)
    node0_info eq_refl node0_fresh empty_store_wf ltac:(vm_compute; congruence))
    as (Hh & Hc & _ & _ & _ & _ & Hl).
  split; [exact Hc|]. destruct Hl as (s2 & Hl & Hs).
  - split; [vm_compute; congruence..|]. split; vm_compute; auto.
  - exists s2. split; [exact Hl|]. rewrite Hs. exact Hh.
Defined.

(** A crash of the same node after the application's commit, and its restart. *)
Definition no_responses : ABCIResponses := {| rs_DeliverTxs := []; rs_BeginBlock := {| bb_Events := [] |}; rs_EndBlock := {| eb_Events := []; eb_Rest := [] |} |}.
Abbreviation crash_prepare := (apply_prepare toy_cfg block1 (toy_commit 1) (toy_node [])).
Abbreviation crash_ns := (get_ok (toy_state 0 0, no_responses) crash_prepare.1).1.
Abbreviation crash_rs := (get_ok (toy_state 0 0, no_responses) crash_prepare.1).2.
Abbreviation crash_commit := (on_exec (Commit_block crash_ns block1 crash_rs) crash_prepare.2).
Abbreviation crash_ns' := (get_ok (toy_state 0 0, 0%Z) crash_commit.1).1.
Abbreviation crash_finish := (apply_finish block1 crash_ns' 0 crash_commit.2).
Abbreviation crash_parts :=
  {| pt_store := New_store (ds_db (m_store crash_commit.2)); pt_exec := m_exec crash_commit.2;
     pt_dalc := [] : @dalc toy_da; pt_settlement := [] : @slc toy toy_sl; pt_p2p := [] : @p2pc toy_p2p |}.
Abbreviation crash_restart := (NewManager (fun _ => Ok []) toy_conf toy_genesis crash_parts).
Abbreviation crash_mr := (get_ok (toy_cfg, toy_node []) crash_restart.1).2.

Lemma crash_prepare_ok : crash_prepare = (Ok (crash_ns, crash_rs), crash_prepare.2).
Proof. rewrite (get_ok_run (toy_state 0 0, no_responses) crash_prepare) at 1; [|vm_compute; reflexivity]. by destruct (get_ok _ _). Qed.

Lemma crash_commit_ok : crash_commit = (Ok (crash_ns', 0%Z), crash_commit.2).
Proof.
  rewrite (get_ok_run (toy_state 0 0, 0%Z) crash_commit) at 1; [|vm_compute; reflexivity].
  assert (Hz : (get_ok (toy_state 0 0, 0%Z) crash_commit.1).2 = 0%Z) by (vm_compute; reflexivity).
  by destruct (get_ok _ _) as [x z]; simpl in Hz; rewrite Hz.
Qed.

Lemma crash_finish_ok : crash_finish = (Ok tt, crash_finish.2).
Proof. destruct (is_ok_run crash_finish) as [[] E]; [vm_compute; reflexivity|exact E]. Qed.

Lemma crash_restart_ok : crash_restart = (Ok (get_ok (toy_cfg, toy_node []) crash_restart.1), crash_restart.2).
Proof. apply get_ok_run. vm_compute. reflexivity. Qed.

