(* ===== verification/ChainInv.v ===== *)
(** * ChainInv: the handlers of the manager do not rewrite the chain

    Invariant of every handler of the block manager (block/), on every outcome: whatever
    blocks are gossiped or retrieved, the blocks and commits of the heights the store has
    reached stay what they are, but for those that pruning removes. *)
From stdpp Require Import base gmap strings vector sorting numbers list.
From S2P Require Import Prelude KVStore Types Serialization Concrete Store StorePrune StoreSpec Conv Executor Gossip Layers Manager ManagerLoops ManagerInv ConcreteNode ManagerSpec.

Section Store.
Context {T : Tendermint} {W : Wire} {K : KVStore} `{!KVLaws K}.
Implicit Types s : DefaultStore.

(** Headers of different heights have different hashes. *)
Definition hash_separates : Prop :=
  forall h1 h2 : Header, is_u64 (hdr_Height h1) -> is_u64 (hdr_Height h2) -> Header_Hash h1 = Header_Hash h2 -> hdr_Height h1 = hdr_Height h2.

(** Every hash of the index is that of a header of its height. *)
Definition index_ok s : Prop :=
  forall h hash, is_u64 h -> index_hash (store_view s) h = Some hash -> exists hdr, hdr_Height hdr = h /\ Header_Hash hdr = hash.

Lemma chain_agree s s' h :
  index_hash (store_view s') h = index_hash (store_view s) h ->
  (forall hash, index_hash (store_view s) h = Some hash ->
     store_view s' !! getBlockKey hash = store_view s !! getBlockKey hash /\
     store_view s' !! getCommitKey hash = store_view s !! getCommitKey hash) ->
  chain s' h = chain s h.
Proof.
  intros Hi Hk. unfold chain. destruct (index_hash (store_view s) h) as [hash|] eqn:E.
  - destruct (Hk hash eq_refl) as [Hb Hc]. apply index_hash_view in E, Hi.
    by rewrite (LoadBlock_agree s' s h hash), (LoadCommit_agree s' s h hash).
  - destruct (LoadBlock s h) as [b| |] eqn:Eb; [apply LoadBlock_index in Eb as (x & Hx & _); congruence|..];
      (destruct (LoadBlock s' h) as [b'| |] eqn:Eb'; [apply LoadBlock_index in Eb' as (x & Hx & _); congruence|done..]).
Qed.

(** ** The invariant *)

(** [settled s0 N R s]: the heights up to [N] hold in [s] what they held in [s0] or, below [R],
    possibly nothing any more. *)
Record settled (s0 : DefaultStore) (N R : Z) (s : DefaultStore) : Prop := {
  se_index : index_ok s;
  se_base : (0 <= Base s)%Z;
  se_u64 : is_u64 (Height s);
  se_height : (Height s0 <= Height s)%Z;
  se_kept h : is_u64 h -> (0 < h <= N)%Z -> (R <= h)%Z -> chain s h = chain s0 h;
  se_same h x : is_u64 h -> (0 < h <= N)%Z -> chain s h = Some x -> chain s0 h = Some x;
}.

Context (s0 : DefaultStore) (N R : Z).

Lemma settled_refl : index_ok s0 -> (0 <= Base s0)%Z -> is_u64 (Height s0) -> settled s0 N R s0.
Proof. by split. Qed.

(** Only auxiliary entries changed, and the height did not fall. *)
Lemma settled_aux s s' :
  settled s0 N R s -> (forall k, ~ aux_key k -> store_view s' !! k = store_view s !! k) ->
  is_u64 (Height s') -> (Height s <= Height s')%Z -> Base s' = Base s -> settled s0 N R s'.
Proof.
  intros [Hi Hb Hu Hh Hk Hs] Hv Hu' Hle Hb'. split; [|lia|done|lia|..].
  - intros h hash Huh Hx. apply (Hi h hash Huh). rewrite <- Hx. unfold index_hash. by rewrite Hv by apply not_aux_index.
  - intros h Huh H1 H2. rewrite (chain_aux s s') by done. by apply Hk.
  - intros h x Huh H1. rewrite (chain_aux s s') by done. by apply Hs.
Qed.

Lemma settled_same s s' :
  settled s0 N R s -> store_view s' = store_view s -> Height s' = Height s -> Base s' = Base s -> settled s0 N R s'.
Proof. intros Hs Hv Hh Hb. apply (settled_aux s); [done|by intros; rewrite Hv|by rewrite Hh; apply (se_u64 _ _ _ _ Hs)|lia|done]. Qed.

(** A block was saved above the heights up to [N], or at height 0. *)
Lemma settled_saved block bb cb s s' :
  hash_separates -> settled s0 N R s -> is_u64 (hdr_Height (blk_Header block)) ->
  (hdr_Height (blk_Header block) = 0 \/ N < hdr_Height (blk_Header block))%Z ->
  store_view s' = saved_view block bb cb (store_view s) -> Height s' = Height s -> Base s' = Base s -> settled s0 N R s'.
Proof.
  intros Hsep [Hi Hb Hu Hh Hk Hs] Hub Hlt Hv Eh Eb.
  assert (Hidx : forall h, is_u64 h -> h <> hdr_Height (blk_Header block) -> index_hash (store_view s') h = index_hash (store_view s) h).
  { intros h Huh Hne. unfold index_hash. rewrite Hv, lookup_saved_index by done. by rewrite decide_False. }
  assert (Hch : forall h, is_u64 h -> (0 < h <= N)%Z -> chain s' h = chain s h).
  { intros h Huh Hle. apply chain_agree; [apply Hidx; [done|lia]|]. intros hash Hx.
    destruct (Hi h hash Huh Hx) as (hdr & Eh' & Ehash). rewrite Hv, lookup_saved_block, lookup_saved_commit.
    rewrite !decide_False; [done|..]; intros ->; apply Hsep in Ehash; try done; try lia; by rewrite Eh'. }
  split; [|lia|by rewrite Eh|lia|..].
  - intros h hash Huh Hx. destruct (decide (h = hdr_Height (blk_Header block))) as [->|Hne]; [|apply (Hi h); [done|by rewrite <- Hidx]].
    exists (blk_Header block). split; [done|]. unfold index_hash in Hx. rewrite Hv, lookup_saved_index, decide_True in Hx by done.
    apply to_vec_Some in Hx. by apply vec_to_list_inj2 in Hx.
  - intros h Huh H1 H2. rewrite Hch by done. by apply Hk.
  - intros h x Huh H1. rewrite Hch by done. by apply Hs.
Qed.

Lemma settled_pruned n s s1 :
  hash_separates -> settled s0 N R s -> maybe_pruned n s s1 -> is_i64 n -> (n <= R)%Z -> settled s0 N R s1.
Proof.
  intros Hsep [Hi Hb Hu0 Hh Hk Hs] Hp Hn HR. destruct (maybe_pruned_view n s s1 Hp Hn Hb) as (hs & Hhs & Hv & Hb1 & Hh1).
  pose proof (pruned_view_subseteq (store_view s) hs) as Hsub. rewrite <- Hv in Hsub.
  assert (Hus : Forall is_u64 hs).
  { apply list.Forall_forall. intros h [? _]%Hhs. unfold is_i64 in Hn. unfold is_u64. lia. }
  split; [|lia|by rewrite Hh1|lia|..].
  - intros h hash Hu Hx. apply (Hi h hash Hu). unfold index_hash in *. destruct (store_view s1 !! getIndexKey h) eqn:E; [|done].
    by rewrite (lookup_weaken _ _ _ _ E Hsub).
  - intros h Hu H1 H2. rewrite <- Hk by done. assert (Hnin : h ∉ hs) by (intros [? _]%Hhs; lia).
    apply chain_agree; [rewrite Hv; apply index_hash_pruned; [by constructor|done]|]. intros hash Hx.
    assert (Hkeep : forall key, key = getBlockKey hash \/ key = getCommitKey hash -> store_view s1 !! key = store_view s !! key).
    { intros key Hkey. rewrite Hv, lookup_pruned_view. rewrite decide_False; [done|]. intros (h' & Hk' & Hin)%list_elem_of_bind.
      rewrite list.Forall_forall in Hus. specialize (Hus _ Hin). unfold height_keys in Hk'.
      destruct (index_hash (store_view s) h') as [hash'|] eqn:Hi'; [|set_solver].
      assert (hash' = hash) as ->.
      { unfold prune_keys in Hk'. rewrite !elem_of_cons, elem_of_nil in Hk'.
        destruct Hkey as [-> | ->]; destruct Hk' as [E|[E|[E|[E|[E|[]]]]]]; try done; by apply getBlockKey_inj in E || apply getCommitKey_inj in E. }
      destruct (Hi h hash Hu Hx) as (d & E1 & E2), (Hi h' hash Hus Hi') as (d' & E1' & E2').
      assert (hdr_Height d = hdr_Height d') as E by (apply Hsep; [by rewrite E1|by rewrite E1'|congruence]).
      apply Hnin. by rewrite <- E1, E, E1'. }
    split; apply Hkeep; eauto.
  - intros h x Hu H1 Hx. apply (Hs h); [done..|]. by apply (chain_subseteq s1 s).
Qed.
(** ** The operations of the store *)

(** A batch of auxiliary entries. *)
Definition aux_batch (ob : option batch) : Prop :=
  forall b, ob = Some b -> Forall (fun op => exists k v, op = OpSet k v /\ aux_key k) (batch_view b).

Lemma aux_batch_view (ops : list kvop) (m : gmap bytes bytes) (k : bytes) :
  Forall (fun op => exists k' v, op = OpSet k' v /\ aux_key k') ops -> ~ aux_key k -> apply_ops ops m !! k = m !! k.
Proof.
  intros Hops Hk. revert m. induction Hops as [|op ops (k' & v & -> & Ha) _ IH]; intros m; [done|].
  transitivity (<[k':=v]> m !! k); [by apply (IH (<[k':=v]> m))|]. apply lookup_insert_ne. by intros ->.
Qed.

Lemma save_entry_settled key data ob :
  aux_key key -> aux_batch ob ->
  triple (settled s0 N R) (save_entry key data ob) (fun ob' s => aux_batch ob' /\ settled s0 N R s) (settled s0 N R).
Proof.
  intros Hk Hob s Hs. destruct ob as [bt|]; unfold save_entry.
  - destruct (batch_set_view key data bt) as [(b & -> & Hb)|(e & b & -> & _)]; [|done]. split; [|done].
    intros b' [= <-]. rewrite Hb. apply Forall_app_2; [by apply Hob|]. constructor; [eauto|constructor].
  - unfold on_db. go_simpl.
    destruct (kv_set_view key data (ds_db s)) as [(d & -> & Hd)|(e & d & -> & Hd)]; simpl; [split; [done|]|by apply (settled_same s)].
    apply (settled_aux s); [done| |apply (se_u64 _ _ _ _ Hs)|done|done]. intros k Hn. unfold store_view. simpl. rewrite Hd.
    apply lookup_insert_ne. by intros ->.
Qed.

Lemma UpdateState_settled st ob :
  aux_batch ob -> triple (settled s0 N R) (UpdateState st ob) (fun ob' s => aux_batch ob' /\ settled s0 N R s) (settled s0 N R).
Proof.
  intros Hob. apply triple_bind_keep; [apply preserves_lift|done|intros]. apply triple_bind_keep; [apply preserves_lift|done|intros].
  apply save_entry_settled; [by left|done].
Qed.
Lemma SaveBlockResponses_settled n rs ob :
  aux_batch ob -> triple (settled s0 N R) (SaveBlockResponses n rs ob) (fun ob' s => aux_batch ob' /\ settled s0 N R s) (settled s0 N R).
Proof. intros Hob. apply triple_bind_keep; [apply preserves_lift|done|intros]. apply save_entry_settled; [right; eauto|done]. Qed.
Lemma SaveValidators_settled n vs ob :
  aux_batch ob -> triple (settled s0 N R) (SaveValidators n vs ob) (fun ob' s => aux_batch ob' /\ settled s0 N R s) (settled s0 N R).
Proof.
  intros Hob. apply triple_bind_keep; [apply preserves_lift|done|intros]. apply triple_bind_keep; [apply preserves_lift|done|intros].
  apply save_entry_settled; [right; eauto|done].
Qed.

Lemma batch_commit_settled b : aux_batch (Some b) -> preserves (settled s0 N R) (on_db (batch_commit b)).
Proof.
  intros Hb s Hs. unfold on_db, zoom. destruct (batch_commit_view b (ds_db s)) as [(d & -> & Hd)|(e & d & -> & Hd)]; simpl;
    [|by apply (settled_same s)].
  apply (settled_aux s); [done| |apply (se_u64 _ _ _ _ Hs)|done|done]. intros k Hn. unfold store_view. simpl. rewrite Hd.
  apply aux_batch_view; [by apply Hb|done].
Qed.

Lemma SaveBlock_settled block commit :
  hash_separates -> is_u64 (hdr_Height (blk_Header block)) ->
  (hdr_Height (blk_Header block) = 0 \/ N < hdr_Height (blk_Header block))%Z ->
  preserves (settled s0 N R) (SaveBlock block commit None).
Proof.
  intros Hsep Hu Hh s Hs. destruct (SaveBlock block commit None s) as [r s'] eqn:E. simpl. destruct (is_ok r) eqn:Er.
  - destruct r; [|done..]. apply SaveBlock_ok in E as (? & ? & bb & cb & _ & _ & Hv). by eapply settled_saved.
  - apply SaveBlock_not_ok in E as (? & ? & ?); [|done]. by apply (settled_same s).
Qed.

Lemma PruneBlocks_settled n :
  hash_separates -> is_i64 n -> (0 < n <= R)%Z -> preserves (settled s0 N R) (PruneBlocks n).
Proof.
  intros Hsep Hi Hn s Hs. destruct (PruneBlocks n s) as [r s'] eqn:E. simpl.
  apply (settled_pruned n s); [done..| |done|lia]. right. eauto with lia.
Qed.

Lemma SetHeight_settled x s : is_u64 x -> settled s0 N R s -> settled s0 N R (SetHeight x s).
Proof.
  intros Hx Hs. unfold SetHeight. destruct (Z.ltb_spec (ds_height s) x); [|done].
  apply (settled_aux s); try done. unfold Height. simpl. lia.
Qed.
End Store.

(** ** Invariants of the handlers *)

(** The handlers change the store and the execution environment through [applyBlock] and
    [UpdateState] only: what these keep, every handler keeps. *)
Section Steps.
Context {T : Tendermint} {W : Wire} {K : KVStore} {TV : TmValidators} {A : App} {MP : MempoolI}
  {EB : EventBus} {G : GossipWire} {DA : DALayer} {SL : SettlementLayer} {P : P2PClient} {PK : ProposerKey}.
Context (cfg : ManagerConf).

(** One handler of the manager run to its end, whatever it returned: the subscriptions of
    [EventListener] and the iterations of the loops that [Start] launches, on any input of its
    Go type (the clock is an [int64], the height of an accepted batch a [uint64]). *)
Inductive manager_step : Manager -> Manager -> Prop :=
| step_gossiped e m : manager_step m (applyBlockCallback cfg e m).2
| step_health healthy m : manager_step m (healthStatusEventCallback healthy m).2
| step_waitForSync now m : is_i64 now -> manager_step m (waitForSync cfg now m).2
| step_produce l ev m : manager_step m (ProduceBlockLoop_step cfg l ev m).2
| step_submit fuel now voteTimestamp m : manager_step m (SubmitLoop_tick cfg fuel now voteTimestamp m).2
| step_submit_resumed fuel startHeight endHeight m : manager_step m (submit_rest cfg fuel startHeight endHeight m).2
| step_retrieve fuel m : manager_step m (RetriveLoop_step cfg fuel m).2
| step_syncTarget now m : is_i64 now -> manager_step m (SyncTargetLoop_start now m).2
| step_accepted endHeight now m : is_u64 endHeight -> is_i64 now -> manager_step m (onNewBatchAccepted endHeight now m).2.

Context (I : Manager -> Prop) (Hframe : forall m m', m_store m' = m_store m -> m_exec m' = m_exec m -> I m -> I m')
  (Happly : forall block commit, preserves I (applyBlock cfg block commit))
  (Hupdate : forall st, preserves I (on_store (UpdateState st None))).

Lemma on_dalc_inv {B} (c : M dalc B) : preserves I (on_dalc c).
Proof. apply preserves_zoom. intros m t Hm _. by apply (Hframe m). Qed.
Lemma on_p2p_inv {B} (c : M p2pc B) : preserves I (on_p2p c).
Proof. apply preserves_zoom. intros m t Hm _. by apply (Hframe m). Qed.
Lemma on_settlement_inv {B} (c : M slc B) : preserves I (on_settlement c).
Proof. apply preserves_zoom. intros m t Hm _. by apply (Hframe m). Qed.

(** A handler that touches the store through [applyBlock] and [UpdateState] only. *)
Ltac keep := repeat first
  [ apply Happly | apply Hupdate | apply preserves_bind; [|intros] | apply preserves_try
  | apply on_dalc_inv | apply on_p2p_inv | apply on_settlement_inv
  | solve [auto with go_inv] | solve [let m0 := fresh in let H0 := fresh in apply preserves_modify; intros m0 H0; by apply (Hframe m0)] | case_match ].

Lemma produceBlock_inv allowEmpty now vt : preserves I (produceBlock cfg allowEmpty now vt).
Proof. unfold produceBlock, gossipBlock. keep. Qed.

Lemma apply_blocks_inv i blocks commits : preserves I (apply_blocks cfg i blocks commits).
Proof. revert i. induction blocks as [|b blocks IH]; intros i; simpl; [apply preserves_ret|]. keep. Qed.

Lemma processNextDABatch_inv h : preserves I (processNextDABatch cfg h).
Proof.
  unfold processNextDABatch, fetchBatch. apply preserves_bind; [keep|intros r].
  apply preserves_for_each. intros b _. keep. apply apply_blocks_inv.
Qed.

Lemma sync_loop_inv fuel h target : preserves I (sync_loop cfg fuel h target).
Proof.
  revert h. induction fuel as [|fuel IH]; intros h; simpl; case_match; try apply preserves_ret.
  apply preserves_bind; [apply preserves_gets|intros idx].
  apply preserves_bind; [keep|intros [e|res]]; [apply IH|].
  do 3 (apply preserves_bind; [apply preserves_lift|intros]).
  apply preserves_bind; [apply preserves_try, processNextDABatch_inv|intros [e|[]]]; [apply preserves_ret|].
  apply preserves_bind; [unfold updateStateIndex; keep|intros [e|[]]]; [apply preserves_ret|].
  apply preserves_bind; [apply preserves_gets|intros]. apply IH.
Qed.

Lemma submit_rest_inv fuel a b : preserves I (submit_rest cfg fuel a b).
Proof. unfold submit_rest. keep. Qed.

Lemma SubmitLoop_tick_inv fuel now vt : preserves I (SubmitLoop_tick cfg fuel now vt).
Proof. unfold SubmitLoop_tick, submitNextBatch. keep; first [apply produceBlock_inv|apply submit_rest_inv]. Qed.

Lemma manager_step_inv m m' : manager_step m m' -> I m -> I m'.
Proof.
  intros Hstep Hm. destruct Hstep; revert m Hm.
  - unfold applyBlockCallback. keep.
  - unfold healthStatusEventCallback. keep.
  - unfold waitForSync, getLatestBatchFromSL, updateSyncParams. keep.
  - unfold ProduceBlockLoop_step. keep; apply produceBlock_inv.
  - apply SubmitLoop_tick_inv.
  - apply submit_rest_inv.
  - unfold RetriveLoop_step, syncUntilTarget. keep; apply sync_loop_inv.
  - unfold SyncTargetLoop_start, getLatestBatchFromSL, updateSyncParams. keep.
  - unfold onNewBatchAccepted, updateSyncParams. keep.
Qed.
End Steps.

(** ** The handlers of the manager *)

Section Handlers.
Context {T : Tendermint} {W : Wire} {K : KVStore} `{!KVLaws K} {TV : TmValidators} {A : App} `{!AppLaws A} {MP : MempoolI}
  {EB : EventBus} {G : GossipWire} {DA : DALayer} {SL : SettlementLayer} {P : P2PClient} {PK : ProposerKey}.
Context (cfg : ManagerConf) (s0 : DefaultStore) (N R : Z).

(** The application never asks to retain from a height above [R]. *)
Definition retains_from : Prop :=
  forall a rc a', app_Commit a = (Ok rc, a') -> (rc_RetainHeight rc <= R)%Z.

Context (Hsep : hash_separates) (Hret : retains_from).

(** The manager's store keeps the invariant. *)
Definition m_settled (m : Manager) : Prop := settled s0 N R (m_store m).

Lemma on_store_triple {B} (P1 E : DefaultStore -> Prop) (Q : B -> DefaultStore -> Prop) (c : M DefaultStore B) :
  triple P1 c Q E -> triple (fun m => P1 (m_store m)) (on_store c) (fun b m => Q b (m_store m)) (fun m => E (m_store m)).
Proof. intros H m Hm. specialize (H _ Hm). unfold on_store, zoom. by destruct (c (m_store m)) as [[] ?]. Qed.

(** A batch that holds auxiliary entries only goes through the next step. *)
Lemma aux_bind {B} ob (c : option batch -> M DefaultStore (option batch)) (k : option batch -> M Manager B) :
  (forall ob, aux_batch ob -> triple (settled s0 N R) (c ob) (fun ob' s => aux_batch ob' /\ settled s0 N R s) (settled s0 N R)) ->
  aux_batch ob -> (forall ob', aux_batch ob' -> preserves m_settled (k ob')) ->
  preserves m_settled (bind (on_store (c ob)) k).
Proof.
  intros Hc Hob Hk m Hm. pose proof (on_store_triple _ _ _ _ (Hc ob Hob) m Hm) as Ht. unfold bind.
  destruct (on_store (c ob) m) as [[ob'|e|msg] m1]; [|done..]. destruct Ht. by apply Hk.
Qed.

Lemma executeBlock_settled block commit : preserves m_settled (executeBlock cfg block commit).
Proof.
  apply preserves_bind; [apply (on_settlement_store (settled s0 N R))|intros].
  apply preserves_bind; [apply preserves_gets|intros]. apply preserves_bind; [apply preserves_lift|intros].
  apply (on_exec_store (settled s0 N R)).
Qed.

(** [apply_prepare] after the block was saved. *)
Definition apply_saved (block : Block) (commit : Commit) : M Manager (State * ABCIResponses) :=
  let height := hdr_Height (blk_Header block) in
  let! responses := executeBlock cfg block commit in
  let! state := gets m_lastState in
  let! newState := lift (UpdateStateFromResponses responses state block) in
  let! b := gets (fun m => NewBatch (m_store m)) in
  let! b := on_store (SaveBlockResponses height responses (Some b)) in
  do! modify (set_lastState newState) in
  let! b := on_store (UpdateState newState b) in
  let! b := on_store (SaveValidators height (st_Validators newState) b) in
  let! b := lift (deref b) in
  do! on_store (on_db (batch_commit b)) in
  ret (newState, responses).

Lemma apply_prepare_saved block commit :
  apply_prepare cfg block commit = (do! on_store (SaveBlock block commit None) in apply_saved block commit).
Proof. done. Qed.

Lemma apply_saved_settled block commit : preserves m_settled (apply_saved block commit).
Proof.
  unfold apply_saved.
  apply preserves_bind; [apply executeBlock_settled|intros rs].
  apply preserves_bind; [apply preserves_gets|intros st]. apply preserves_bind; [apply preserves_lift|intros ns].
  intros m Hm. rewrite (bind_ok _ _ m (NewBatch (m_store m)) m) by done. revert m Hm.
  assert (Hb : forall m : Manager, aux_batch (Some (NewBatch (m_store m)))).
  { intros m b [= <-]. unfold NewBatch. rewrite kv_new_batch_view. constructor. }
  intros m. refine (aux_bind (Some (NewBatch (m_store m))) (SaveBlockResponses (hdr_Height (blk_Header block)) rs) _ _ (Hb m) _ m);
    [by intros; apply SaveBlockResponses_settled|intros b1 Hb1].
  apply preserves_bind; [by apply preserves_modify|intros _].
  apply (aux_bind b1 (UpdateState ns)); [by intros; apply UpdateState_settled|done|intros b2 Hb2].
  apply (aux_bind b2 (SaveValidators _ (st_Validators ns))); [by intros; apply SaveValidators_settled|done|intros b3 Hb3].
  destruct b3 as [b3|]; [|by intros m']. intros m' Hm'. rewrite (bind_ok _ _ m' b3 m') by done. revert m' Hm'.
  apply preserves_bind; [by apply (on_store_preserves (settled s0 N R)), batch_commit_settled|intros; apply preserves_ret].
Qed.

Lemma apply_prepare_settled block commit :
  is_u64 (hdr_Height (blk_Header block)) ->
  (hdr_Height (blk_Header block) = 0 \/ N < hdr_Height (blk_Header block))%Z ->
  preserves m_settled (apply_prepare cfg block commit).
Proof.
  intros Hu Hh. rewrite apply_prepare_saved.
  apply preserves_bind; [by apply (on_store_preserves (settled s0 N R)), SaveBlock_settled|intros _]. apply apply_saved_settled.
Qed.

Lemma UpdateState_m_settled st : preserves m_settled (on_store (UpdateState st None)).
Proof.
  intros m Hm. pose proof (on_store_triple _ _ _ _ (UpdateState_settled s0 N R st None ltac:(done)) m Hm) as Ht.
  destruct (on_store _ m) as [[] ?]; [apply Ht|done..].
Qed.

Lemma set_height_settled x : is_u64 x -> preserves m_settled (modify (fun m => set_store (SetHeight x (m_store m)) m)).
Proof. intros Hx. apply preserves_modify. intros m Hm. by apply SetHeight_settled. Qed.

Lemma apply_finish_settled block ns n :
  is_u64 (hdr_Height (blk_Header block)) -> is_i64 n -> (n <= R)%Z -> preserves m_settled (apply_finish block ns n).
Proof.
  intros Hu Hi Hn. unfold apply_finish. apply preserves_bind; [|intros _].
  { destruct (Z.ltb_spec 0 n); [|apply preserves_ret]. apply preserves_bind; [|intros; apply preserves_ret].
    apply preserves_try. unfold pruneBlocks. apply preserves_bind; [apply preserves_gets|intros t]. case_match; [apply preserves_fail|].
    by apply preserves_wrap, (on_store_preserves (settled s0 N R)), PruneBlocks_settled. }
  apply preserves_bind; [apply preserves_gets|intros]. apply preserves_bind; [apply preserves_gets|intros].
  apply preserves_bind; [apply UpdateState_m_settled|intros _].
  apply preserves_bind; [by apply preserves_modify|intros _]. by apply set_height_settled.
Qed.

Lemma align_settled block : is_u64 (hdr_Height (blk_Header block)) -> preserves m_settled (alignStoreWithApp block).
Proof.
  intros Hu. unfold alignStoreWithApp. apply preserves_bind; [apply preserves_wrap, preserves_read|intros info].
  case_match; [apply preserves_ret|].
  apply preserves_bind; [apply preserves_lift|intros]. apply preserves_bind; [by apply preserves_modify|intros _].
  apply preserves_bind; [apply preserves_wrap, preserves_read|intros]. apply preserves_bind; [by apply preserves_modify|intros _].
  apply preserves_bind; [apply preserves_gets|intros].
  apply preserves_bind; [apply preserves_wrap, UpdateState_m_settled|intros _].
  apply preserves_bind; [by apply set_height_settled|intros _]. apply preserves_ret.
Qed.

(** From here on the store has reached the heights up to [N]. *)
Context (HN : (N <= Height s0)%Z).

Lemma applyBlock_settled block commit : preserves m_settled (applyBlock cfg block commit).
Proof.
  intros m Hm. unfold applyBlock. rewrite (bind_ok _ _ m (Height (m_store m)) m) by done.
  destruct (Z.eqb_spec (hdr_Height (blk_Header block)) (u64 (Height (m_store m) + 1))) as [E|E]; simpl; [|done].
  assert (Hu : is_u64 (hdr_Height (blk_Header block))) by (rewrite E; apply u64_range).
  assert (Hh : (hdr_Height (blk_Header block) = 0 \/ N < hdr_Height (blk_Header block))%Z).
  { rewrite E. pose proof (se_u64 _ _ _ _ Hm) as Hu0. pose proof (se_height _ _ _ _ Hm). unfold is_u64 in Hu0.
    destruct (decide (Height (m_store m) + 1 < 2 ^ 64)%Z); [right; rewrite u64_small; [lia|unfold is_u64; lia]|left].
    replace (Height (m_store m) + 1)%Z with (2 ^ 64)%Z by lia. done. }
  clear E. revert m Hm. apply preserves_bind; [by apply align_settled|intros [|]; [apply preserves_ret|]].
  apply preserves_bind; [by apply apply_prepare_settled|intros [ns rs]].
  intros m Hm. unfold bind, on_exec, zoom. destruct (Commit_block ns block rs (m_exec m)) as [[[ns' n]|e|msg] x] eqn:Ec; [|done..].
  apply Commit_block_ok in Ec as (rc & Hrc & _ & ->).
  apply apply_finish_settled; [done|by eapply app_retain_range|by eapply Hret|done].
Qed.

Lemma manager_step_settled m m' : manager_step cfg m m' -> m_settled m -> m_settled m'.
Proof.
  apply manager_step_inv; [|apply applyBlock_settled|apply UpdateState_m_settled].
  unfold m_settled. by intros m1 m2 ->.
Qed.
End Handlers.

Section Immutable.
Context {T : Tendermint} {W : Wire} {K : KVStore} `{!KVLaws K} {TV : TmValidators} {A : App} `{!AppLaws A} {MP : MempoolI}
  {EB : EventBus} {G : GossipWire} {DA : DALayer} {SL : SettlementLayer} {P : P2PClient} {PK : ProposerKey}.
Context (cfg : ManagerConf).

(** C4: committed blocks are immutable: whatever the peers gossip, the layers return and the
    clock says, and however the handlers of the manager follow one another, fail or panic -
    each running to its end before the next, see ApplyRace.v for calls that overlap -
    the store height never falls, every height it had reached keeps exactly its block and
    commit from the highest retain height the application asks for on, and below that
    height a block is at most pruned, never replaced. *)
Theorem committed_blocks_immutable (R : Z) m m' :
  rtc (manager_step cfg) m m' ->
  hash_separates -> retains_from R ->
  index_ok (m_store m) -> (0 <= Base (m_store m))%Z -> is_u64 (m_height m) ->
  (m_height m <= m_height m')%Z /\ is_u64 (m_height m') /\
  forall h, (0 < h <= m_height m)%Z ->
    ((R <= h)%Z -> chain (m_store m') h = chain (m_store m) h) /\
    (chain (m_store m') h = None \/ chain (m_store m') h = chain (m_store m) h).
Proof.
  intros Hrun Hsep Hret Hi Hb Hu.
  assert (Hs : m_settled (m_store m) (m_height m) R m').
  { assert (Hs : m_settled (m_store m) (m_height m) R m) by (by apply settled_refl). revert Hs. unfold m_height. generalize (m_store m).
    clear Hi Hb Hu. intros s0. induction Hrun as [|? ? ? Hstep _ IH]; [done|]. intros Hs. by eapply IH, manager_step_settled. }
  destruct Hs as [_ _ Hu' Hh Hk Hs]. split_and!; [done..|]. intros h Hh0. assert (Huh : is_u64 h) by (unfold is_u64 in *; lia).
  split; [by intros; apply Hk|]. destruct (chain (m_store m') h) as [x|] eqn:E; [right|by left]. symmetry. by apply Hs.
Qed.
End Immutable.

(** ** A concrete run *)

Import ToyInstances.

Lemma copy_into_full_inj {B n} (d : vec B n) (l1 l2 : list B) :
  length l1 = n -> length l2 = n -> copy_into d l1 = copy_into d l2 -> l1 = l2.
Proof.
  intros H1 H2. destruct (to_vec n l1) as [v1|] eqn:E1; [|by apply to_vec_None in E1].
  destruct (to_vec n l2) as [v2|] eqn:E2; [|by apply to_vec_None in E2].
  apply to_vec_Some in E1 as <-. apply to_vec_Some in E2 as <-. rewrite !copy_into_vec. by intros ->.
Qed.

Lemma toy_hash_separates : hash_separates.
Proof.
  intros h1 h2 H1 H2 E. unfold Header_Hash in E. apply copy_into_full_inj in E; [|done..].
  assert (E' : be_split 8 (i64 (hdr_Height h1)) = be_split 8 (i64 (hdr_Height h2))) by (apply (app_inv_head _ _ _ E)).
  apply (f_equal be_combine) in E'. rewrite !be_combine_split in E'. change (8 * Z.of_nat 8)%Z with 64%Z in E'.
  fold (u64 (i64 (hdr_Height h1))) (u64 (i64 (hdr_Height h2))) in E'. by rewrite !u64_i64, !u64_small in E'.
Qed.

Lemma toy_retains : retains_from 0.
Proof. intros a rc a' [= <- <-]. done. Qed.

Lemma empty_index_ok : index_ok empty_store.
Proof. by intros h hash _. Qed.

(** The first block applied; then a peer sends another block of height 1 and a block of
    height 2 with a wrong signature, and the loops run once each. *)
Definition forged (h : Z) : GossipedBlock :=
  {| gb_Block := toy_block h [[Byte.x66]];
     gb_Commit := {| cm_Height := h; cm_HeaderHash := zero_hash; cm_Signatures := [[Byte.x66]]; cm_TMSignature := zero_CommitSig |} |}.
Definition after_gossip : Manager := (applyBlockCallback toy_cfg (forged 2) (applyBlockCallback toy_cfg (forged 1) run1.2).2).2.
Definition after_loops : Manager :=
  (RetriveLoop_step toy_cfg 5 (SubmitLoop_tick toy_cfg 5 1 1
    (ProduceBlockLoop_step toy_cfg {| pl_produceEmptyBlock := true; pl_status := LoopRunning |} (EvTicker 1 1) after_gossip).2).2).2.

Lemma after_loops_reachable : rtc (manager_step toy_cfg) run1.2 after_loops.
Proof.
  eapply rtc_l; [apply (step_gossiped toy_cfg (forged 1))|]. eapply rtc_l; [apply (step_gossiped toy_cfg (forged 2))|].
  eapply rtc_l; [apply (step_produce toy_cfg {| pl_produceEmptyBlock := true; pl_status := LoopRunning |} (EvTicker 1 1))|].
  eapply rtc_l; [apply (step_submit toy_cfg 5 1 1)|]. eapply rtc_l; [apply (step_retrieve toy_cfg 5)|]. unfold after_loops, after_gossip. apply rtc_refl.
Qed.

Lemma run1_index_ok : index_ok (m_store run1.2).
Proof.
  eapply se_index, (applyBlock_settled toy_cfg empty_store 0 0 toy_hash_separates toy_retains ltac:(done)).
  apply settled_refl; [apply empty_index_ok|by vm_compute..].
Qed.

Lemma committed_blocks_immutable_witness : chain (m_store after_loops) 1 = Some (block1, toy_commit 1).
Proof.
  destruct (committed_blocks_immutable toy_cfg 0 run1.2 after_loops after_loops_reachable toy_hash_separates toy_retains
    run1_index_ok ltac:(vm_compute; congruence) ltac:(vm_compute; split; congruence)) as (_ & _ & Hk).
  destruct (Hk 1%Z ltac:(vm_compute; split; congruence)) as [-> _]; [vm_compute; reflexivity|lia].
Defined.
