(* ===== verification/ForgedBlock.v ===== *)
(** * ForgedBlock: a block of the next height that nobody signed

    [applyBlock] (block/block.go) saves a block before it validates it, the sequencer listens
    to gossiped blocks like every other node ([EventListener] of block/manager.go), and
    [produceBlock] (block/produce.go) takes a block it finds at the next height for its own
    pending one.  Together: what a node does once a peer has sent it a block of the next
    height that passes the basic checks of p2p/validator.go and nothing more. *)
From stdpp Require Import base gmap strings vector sorting numbers list.
From S2P Require Import Prelude KVStore Types Serialization Concrete Store StorePrune StoreSpec Conv Executor Gossip Layers Manager ManagerLoops ManagerInv ConcreteNode ManagerSpec ChainInv.

Section Forged.
Context {T : Tendermint} {W : Wire} `{!WireLaws W} {K : KVStore} `{!KVLaws K} {TV : TmValidators} {A : App} {MP : MempoolI}
  {EB : EventBus} {G : GossipWire} {DA : DALayer} {SL : SettlementLayer} {P : P2PClient} {PK : ProposerKey}.
Context (cfg : ManagerConf).
Implicit Types (m : Manager) (s : DefaultStore).

(** A saved block and commit load back at their height. *)
Lemma saved_load_own block commit s ob s' :
  SaveBlock block commit None s = (Ok ob, s') -> is_u64 (hdr_Height (blk_Header block)) -> data_Evidence (blk_Data block) = [] ->
  LoadBlock s' (hdr_Height (blk_Header block)) = Ok block /\ LoadCommit s' (hdr_Height (blk_Header block)) = Ok commit.
Proof.
  intros (_ & _ & bb & cb & Hbb & Hcb & Hv)%SaveBlock_ok Hu Hev.
  pose proof (lookup_saved_index block bb cb (store_view s) _ Hu Hu) as Hidx. rewrite <- Hv, decide_True in Hidx by done.
  apply loadHashFromIndex_ok in Hidx as Hl.
  unfold LoadBlock, LoadCommit, LoadBlockByHash, LoadCommitByHash. rewrite Hl. cbn. rewrite !kv_get_store, Hv. unfold view_get.
  rewrite lookup_saved_block, lookup_saved_commit, !decide_True by done. cbn.
  by rewrite (block_marshal_roundtrip block bb), (commit_marshal_roundtrip commit cb).
Qed.

(** The steps of a sequencer that hears of no other block: the loops of production,
    submission and the sync target, and the health events. *)
Inductive sequencer_step : Manager -> Manager -> Prop :=
| seq_health healthy m : sequencer_step m (healthStatusEventCallback healthy m).2
| seq_waitForSync now m : sequencer_step m (waitForSync cfg now m).2
| seq_produce l ev m : sequencer_step m (ProduceBlockLoop_step cfg l ev m).2
| seq_submit fuel now voteTimestamp m : sequencer_step m (SubmitLoop_tick cfg fuel now voteTimestamp m).2
| seq_submit_resumed fuel startHeight endHeight m : sequencer_step m (submit_rest cfg fuel startHeight endHeight m).2
| seq_syncTarget now m : sequencer_step m (SyncTargetLoop_start now m).2
| seq_accepted endHeight now m : sequencer_step m (onNewBatchAccepted endHeight now m).2.

Context (block : Block) (commit : Commit) (st : State) (x : ExecEnv) (H : Z) (info : ResponseInfo).

(** [block] is of the next height, the application is not ahead of the store, and the
    proposer that the settlement layer names did not sign it. *)
Context (Hu : is_u64 H) (Hh : hdr_Height (blk_Header block) = u64 (H + 1)) (Hev : data_Evidence (blk_Data block) = [])
  (Hinfo : GetAppInfo x = Ok info) (Hahead : u64 (inf_LastBlockHeight info) <> hdr_Height (blk_Header block))
  (Hforged : forall l, exists pr l' e, sl_GetProposer l = (Ok pr, l') /\ Validate st block commit pr = Err e).

(** The block is stored at the next height; nothing was executed. *)
Record jammed m : Prop := {
  j_height : m_height m = H;
  j_state : m_lastState m = st;
  j_exec : m_exec m = x;
  j_block : LoadBlock (m_store m) (hdr_Height (blk_Header block)) = Ok block;
  j_commit : LoadCommit (m_store m) (hdr_Height (blk_Header block)) = Ok commit;
}.

Lemma align_not_ahead m : m_exec m = x -> alignStoreWithApp block m = (Ok false, m).
Proof.
  intros Hx. unfold alignStoreWithApp, wrap, bind, read. rewrite Hx, Hinfo.
  by destruct (Z.eqb_spec (u64 (inf_LastBlockHeight info)) (hdr_Height (blk_Header block))).
Qed.

Lemma jammed_view m s1 : store_view s1 = store_view (m_store m) -> Height s1 = H -> jammed m -> jammed (set_store s1 m).
Proof.
  intros Hv H1 [_ Es Ex Hb Hc]. split; try done; simpl; [by rewrite (LoadBlock_view s1 _ _ Hv)|by rewrite (LoadCommit_view s1 _ _ Hv)].
Qed.

(** It is not executed. *)
Lemma executeBlock_forged m :
  m_lastState m = st -> exists e l, executeBlock cfg block commit m = (Err e, set_settlement l m).
Proof.
  intros Es. unfold executeBlock, on_settlement, bind, zoom, gets, lift. simpl.
  destruct (Hforged (m_settlementClient m)) as (pr & l & e & -> & Hv). simpl. rewrite Es, Hv. eauto.
Qed.

(** Applying it: it is saved, unless the store fails, and not executed. *)
Lemma applyBlock_forged m :
  m_height m = H -> m_lastState m = st -> m_exec m = x ->
  exists r m', applyBlock cfg block commit m = (r, m') /\ is_ok r = false /\
    (is_ok (SaveBlock block commit None (m_store m)).1 = true -> jammed m' /\ exists e, r = Err e) /\ (jammed m -> jammed m').
Proof.
  intros Eh Es Ex. unfold applyBlock. rewrite (bind_ok _ _ m H m) by (unfold gets; by rewrite <- Eh).
  rewrite Hh, Z.eqb_refl. cbn [negb]. rewrite (bind_ok _ _ m false m) by (by apply align_not_ahead). cbn [negb].
  unfold apply_prepare, on_store, zoom, bind at 1. unfold bind at 1.
  destruct (SaveBlock block commit None (m_store m)) as [r1 s1] eqn:E.
  pose proof (SaveBlock_not_ok _ _ _ _ _ E) as Hf. pose proof (SaveBlock_heights H (Base (m_store m)) block commit None (m_store m)) as Hht.
  rewrite E in Hht. destruct (Hht (conj Eh eq_refl)) as [Hh1 _]. destruct r1 as [ob|e|msg].
  - destruct (executeBlock_forged (set_store s1 m) Es) as (e & l & Hx). unfold bind at 1. rewrite Hx.
    assert (Hj : jammed (set_settlement l (set_store s1 m))).
    { apply saved_load_own in E as [Hb Hc]; [|rewrite Hh; apply u64_range|done]. by split. }
    eauto 15.
  - destruct (Hf eq_refl) as (_ & _ & Hv). eexists _, _. split_and!; try done. by apply jammed_view.
  - destruct (Hf eq_refl) as (_ & _ & Hv). eexists _, _. split_and!; try done. by apply jammed_view.
Qed.

(** A tick of production takes the stored block for the pending one. *)
Lemma produceBlock_jammed allowEmpty now vt m :
  jammed m -> is_ok (produceBlock cfg allowEmpty now vt m).1 = false /\ jammed (produceBlock cfg allowEmpty now vt m).2.
Proof.
  intros Hj. pose proof Hj as [Eh Es Ex Hb Hc].
  enough (exists r m', produceBlock cfg allowEmpty now vt m = (r, m') /\ is_ok r = false /\ jammed m') as (r & m' & -> & ?); [done|].
  unfold produceBlock.
  rewrite (bind_ok _ _ m H m) by (unfold gets; by rewrite <- Eh). unfold bind at 1, read at 1.
  destruct (last_commit cfg (u64 (H + 1)) H (m_store m)) as [[lc lh]|e|msg]; [|by eauto 10..].
  unfold bind at 1, read. unfold next_block. rewrite <- Hh, Hb, Hc. cbn [result_bind].
  unfold gossipBlock, on_p2p, lift, bind at 1, bind at 1.
  destruct (GossipedBlock_MarshalBinary _) as [bs|e|msg]; [|by eauto 10..]. unfold zoom.
  destruct (p2p_GossipBlock bs (m_p2pClient m)) as [[[]|e|msg] q]; [|by eexists _, _..].
  destruct (applyBlock_forged (set_p2p q m) Eh Es Ex) as (r & m' & -> & Hr & _ & Hk).
  eexists _, _. split_and!; [done..|]. apply Hk. by split.
Qed.

Lemma produceBlock_keeps allowEmpty now vt : preserves jammed (produceBlock cfg allowEmpty now vt).
Proof. intros m Hm. by apply produceBlock_jammed. Qed.

Ltac keep_jam := repeat first
  [ apply produceBlock_keeps | apply preserves_bind; [|intros] | apply preserves_try | solve [auto with go_inv]
  | solve [apply preserves_modify; by intros ? []] | solve [apply preserves_zoom; by intros ? ? []] | case_match ].

Lemma sequencer_step_jammed m m' : sequencer_step m m' -> jammed m -> jammed m'.
Proof.
  intros Hstep Hm. destruct Hstep; revert m Hm.
  - unfold healthStatusEventCallback. keep_jam.
  - unfold waitForSync, getLatestBatchFromSL, updateSyncParams, on_settlement. keep_jam.
  - unfold ProduceBlockLoop_step. keep_jam.
  - unfold SubmitLoop_tick, submitNextBatch, submit_rest, on_dalc, on_settlement. keep_jam.
  - unfold submit_rest, on_dalc, on_settlement. keep_jam.
  - unfold SyncTargetLoop_start, getLatestBatchFromSL, updateSyncParams, on_settlement. keep_jam.
  - unfold onNewBatchAccepted, updateSyncParams. keep_jam.
Qed.

Lemma sequencer_run_jammed m m' : rtc sequencer_step m m' -> jammed m -> jammed m'.
Proof. induction 1; eauto using sequencer_step_jammed. Qed.
End Forged.

Section Halt.
Context {T : Tendermint} {W : Wire} `{!WireLaws W} {K : KVStore} `{!KVLaws K} {TV : TmValidators} {A : App} {MP : MempoolI}
  {EB : EventBus} {G : GossipWire} {DA : DALayer} {SL : SettlementLayer} {P : P2PClient} {PK : ProposerKey}.
Context (cfg : ManagerConf).

Lemma GossipedBlock_no_evidence data e : GossipedBlock_UnmarshalBinary data = Ok e -> data_Evidence (blk_Data (gb_Block e)) = [].
Proof.
  unfold GossipedBlock_UnmarshalBinary, GossipedBlock_FromProto. destruct (gossip_unmarshal data) as [p|?|?]; cbn -[Block_FromProto Commit_FromProto]; [|done..].
  destruct (Block_FromProto _ _) as [b|?|?] eqn:E; cbn -[Commit_FromProto]; [|done..].
  destruct (Commit_FromProto _ _); cbn; [|done..]. intros [= <-]. by eapply Block_FromProto_no_evidence.
Qed.

(** C17: one message of any peer stops a sequencer: a gossiped block of the next height that
    passes the basic checks but is not signed by the proposer is relayed and stays in the
    store, and from then on, whatever the loops of the sequencer do, every attempt to produce
    a block fails and neither the height nor the state nor the application moves, until
    another block of that height arrives. *)
Theorem forged_block_halts_production msg e info m :
  GossipedBlock_UnmarshalBinary (gm_Data msg) = Ok e -> GossipedBlock_Validate e = Ok tt ->
  hdr_Height (blk_Header (gb_Block e)) = u64 (m_height m + 1) ->
  GetAppInfo (m_exec m) = Ok info -> u64 (inf_LastBlockHeight info) <> hdr_Height (blk_Header (gb_Block e)) ->
  is_ok (SaveBlock (gb_Block e) (gb_Commit e) None (m_store m)).1 = true ->
  (forall l, exists pr l' err, sl_GetProposer l = (Ok pr, l') /\
     Validate (m_lastState m) (gb_Block e) (gb_Commit e) pr = Err err) ->
  exists m1, BlockValidator (applyBlockCallback cfg) msg m = (Ok true, m1) /\
  forall m2, rtc (sequencer_step cfg) m1 m2 ->
    (forall allowEmpty now voteTimestamp, is_ok (produceBlock cfg allowEmpty now voteTimestamp m2).1 = false) /\
    m_height m2 = m_height m /\ m_lastState m2 = m_lastState m /\ m_exec m2 = m_exec m.
Proof.
  intros Hun Hval Hh Hinfo Hahead Hsave Hforged. pose proof (GossipedBlock_no_evidence _ _ Hun) as Hev.
  destruct (applyBlock_forged cfg (gb_Block e) (gb_Commit e) (m_lastState m) (m_exec m) (m_height m) info Hh Hev Hinfo Hahead Hforged m
    eq_refl eq_refl eq_refl) as (r & m1 & Ha & _ & Hj & _).
  destruct (Hj Hsave) as [Hj1 [err ->]]. exists m1. split.
  - unfold BlockValidator. rewrite Hun, Hval. unfold applyBlockCallback, bind, try. by rewrite Ha.
  - intros m2 Hrun. pose proof (sequencer_run_jammed cfg (gb_Block e) (gb_Commit e) _ _ _ info Hh Hev Hinfo Hahead Hforged _ _ Hrun Hj1) as Hj2.
    split; [|by destruct Hj2]. intros. by apply (produceBlock_jammed cfg (gb_Block e) (gb_Commit e) _ _ _ info Hh Hev Hinfo Hahead Hforged).
Qed.
End Halt.

(** ** A concrete sequencer *)

Import ToyInstances.

Definition forged_msg : GossipMessage := {| gm_Data := get_ok [] (GossipedBlock_MarshalBinary (forged 2)); gm_From := [Byte.x70] |}.
Definition forged_node : Manager := (BlockValidator (applyBlockCallback toy_cfg) forged_msg run1.2).2.

(** A node at height 1; after the message its production loop runs and fails. *)
Lemma forged_block_halts_production_witness :
  is_ok (produceBlock toy_cfg true 3 3
    (ProduceBlockLoop_step toy_cfg {| pl_produceEmptyBlock := true; pl_status := LoopRunning |} (EvTicker 2 2) forged_node).2).1 = false.
Proof.
  destruct (forged_block_halts_production toy_cfg forged_msg (forged 2)
    {| inf_LastBlockHeight := 1; inf_LastBlockAppHash := replicate 32 Byte.x61 |} run1.2) as (m1 & E & Hm).
  - vm_compute. reflexivity.
  - vm_compute. reflexivity.
  - vm_compute. reflexivity.
  - vm_compute. reflexivity.
  - vm_compute. congruence.
  - vm_compute. reflexivity.
  - intros l. exists (Some toy_proposer), l. eexists. split; [reflexivity|vm_compute; reflexivity].
  - apply Hm. unfold forged_node. rewrite E. apply rtc_once, (seq_produce toy_cfg).
Defined.

