(* ===== verification/ApplyRace.v ===== *)
(** * ApplyRace: two goroutines in applyBlock

    [applyBlock] (block/block.go) takes no lock, and three goroutines call it: the production
    loop, the loop that retrieves batches and the handler of gossiped blocks.  Here a call is
    a thread that stops between the parts of [applyBlock], and the parts of several threads
    interleave; each part runs as a whole, so these are some of the interleavings of the
    program.  Alone, a thread does what [applyBlock] of Manager.v does. *)
From stdpp Require Import base gmap strings vector sorting numbers list.
From S2P Require Import Prelude KVStore Types Serialization Concrete Store StorePrune StoreSpec Conv Executor Gossip Layers Manager ManagerLoops ManagerInv ConcreteNode ExecSpec ManagerSpec ChainInv ForgedBlock.

Section Race.
Context {T : Tendermint} {W : Wire} {K : KVStore} {TV : TmValidators} {A : App} {MP : MempoolI}
  {EB : EventBus} {G : GossipWire} {DA : DALayer} {SL : SettlementLayer} {P : P2PClient} {PK : ProposerKey}.
Context (cfg : ManagerConf).

(** ** A call of applyBlock in parts *)

Inductive apply_pc :=
| AtCheck                                             (* the height *)
| AtAlign                                             (* alignStoreWithApp *)
| AtSave                                              (* store.SaveBlock *)
| AtExecute                                           (* executeBlock *)
| AtPersist (responses : ABCIResponses)               (* up to batch.Commit *)
| AtCommit (newState : State) (responses : ABCIResponses)
| AtFinish (newState : State) (retainHeight : Z)      (* pruning, the state, the height *)
| AtEnd (r : result unit).

Record thread := { th_block : Block; th_commit : Commit; th_pc : apply_pc }.
Definition at_pc (pc : apply_pc) (t : thread) : thread := {| th_block := th_block t; th_commit := th_commit t; th_pc := pc |}.
Definition calling (block : Block) (commit : Commit) : thread := {| th_block := block; th_commit := commit; th_pc := AtCheck |}.

(** [applyBlock] from [UpdateStateFromResponses] to the first [batch.Commit()]. *)
Definition apply_persist (block : Block) (responses : ABCIResponses) : M Manager (State * ABCIResponses) :=
  let height := hdr_Height (blk_Header block) in
  let! state := gets m_lastState in
  let! newState := lift (UpdateStateFromResponses responses state block) in
  let! b := gets (fun m => NewBatch (m_store m)) in
  let! b := on_store (SaveBlockResponses height responses (Some b)) in
  do! modify (set_lastState newState) in
  let! b := on_store (UpdateState newState b) in
  let! b := on_store (SaveValidators height (st_Validators newState) b) in
  let! b := lift (deref b) in
  do! on_store (on_db (batch_commit b)) in
  ret (newState, responses).

(** The next part of a call, and where the call stands after it. *)
Definition part (t : thread) : M Manager apply_pc :=
  let block := th_block t in
  match th_pc t with
  | AtCheck =>
      let! height := gets (fun m => Height (m_store m)) in
      ret (if negb (hdr_Height (blk_Header block) =? u64 (height + 1))%Z then AtEnd (Ok tt) else AtAlign)
  | AtAlign => let! isAlignRequired := alignStoreWithApp block in ret (if isAlignRequired : bool then AtEnd (Ok tt) else AtSave)
  | AtSave => do! on_store (SaveBlock block (th_commit t) None) in ret AtExecute
  | AtExecute => let! responses := executeBlock cfg block (th_commit t) in ret (AtPersist responses)
  | AtPersist responses => let! (newState, responses) := apply_persist block responses in ret (AtCommit newState responses)
  | AtCommit newState responses =>
      let! (newState, retainHeight) := on_exec (Commit_block newState block responses) in ret (AtFinish newState retainHeight)
  | AtFinish newState retainHeight => do! apply_finish block newState retainHeight in ret (AtEnd (Ok tt))
  | AtEnd r => ret (AtEnd r)
  end.

(** An error or a panic ends the call. *)
Definition run_part (t : thread) (m : Manager) : thread * Manager :=
  match part t m with
  | (Ok pc, m') => (at_pc pc t, m')
  | (Err e, m') => (at_pc (AtEnd (Err e)) t, m')
  | (Panic msg, m') => (at_pc (AtEnd (Panic msg)) t, m')
  end.

Fixpoint run_parts (n : nat) (t : thread) (m : Manager) : thread * Manager :=
  match n with O => (t, m) | S n => let '(t, m) := run_part t m in run_parts n t m end.

(** A step: the scheduler picks a thread. *)
Inductive race_step : Manager * list thread -> Manager * list thread -> Prop :=
| race i t t' m m' ts : ts !! i = Some t -> run_part t m = (t', m') -> race_step (m, ts) (m', <[i := t']> ts).

(** ** A call that is alone *)

Lemma run_parts_end n r t m : th_pc t = AtEnd r -> run_parts n t m = (t, m).
Proof.
  intros Ht. induction n as [|n IH]; [done|]. cbn. unfold run_part, part. rewrite Ht. cbn.
  unfold at_pc. rewrite <- Ht. by destruct t.
Qed.

Lemma run_parts_step n t m :
  run_parts (S n) t m = match part t m with
                        | (Ok pc, m') => run_parts n (at_pc pc t) m'
                        | (Err e, m') => (at_pc (AtEnd (Err e)) t, m')
                        | (Panic msg, m') => (at_pc (AtEnd (Panic msg)) t, m')
                        end.
Proof. cbn. unfold run_part. destruct (part t m) as [[pc|e|msg] m']; [done|by eapply run_parts_end..]. Qed.

Lemma prepare_parts block commit m :
  apply_prepare cfg block commit m
  = (do! on_store (SaveBlock block commit None) in
     let! responses := executeBlock cfg block commit in
     apply_persist block responses) m.
Proof. done. Qed.

(** The parts one after the other are [applyBlock]. *)
Lemma applyBlock_parts block commit m r m' :
  applyBlock cfg block commit m = (r, m') ->
  run_parts 7 (calling block commit) m = ({| th_block := block; th_commit := commit; th_pc := AtEnd r |}, m').
Proof.
  unfold applyBlock. rewrite (bind_ok _ _ m (m_height m) m) by done. intros Hr. rewrite run_parts_step.
  unfold part at 1, calling. cbn [th_pc th_block th_commit]. rewrite (bind_ok _ _ m (m_height m) m) by done. cbn [ret].
  destruct (negb _); [unfold ret in Hr; simplify_eq; by eapply run_parts_end|].
  rewrite run_parts_step. unfold part at 1. cbn [th_pc th_block th_commit at_pc]. unfold bind in Hr at 1. unfold bind at 1.
  destruct (alignStoreWithApp block m) as [[[|]|e|msg] m1]; cbn [ret]; [unfold ret in Hr; simplify_eq; by eapply run_parts_end| |simplify_eq; done..].
  unfold bind in Hr at 1. rewrite prepare_parts in Hr. rewrite run_parts_step. unfold part at 1. cbn [th_pc th_block th_commit at_pc].
  unfold bind in Hr at 1. unfold bind at 1. destruct (on_store _ m1) as [[ob|e|msg] m2]; cbn [ret]; [|simplify_eq; done..].
  rewrite run_parts_step. unfold part at 1. cbn [th_pc th_block th_commit at_pc].
  unfold bind in Hr at 1. unfold bind at 1. destruct (executeBlock _ _ _ m2) as [[rs|e|msg] m3]; cbn [ret]; [|simplify_eq; done..].
  rewrite run_parts_step. unfold part at 1. cbn [th_pc th_block th_commit at_pc]. unfold bind at 1.
  destruct (apply_persist block rs m3) as [[[ns rs']|e|msg] m4]; cbn [ret]; [|simplify_eq; done..].
  rewrite run_parts_step. unfold part at 1. cbn [th_pc th_block th_commit at_pc]. unfold bind at 1. unfold bind in Hr at 1.
  destruct (on_exec _ m4) as [[[ns' n]|e|msg] m5]; cbn [ret]; [|simplify_eq; done..].
  rewrite run_parts_step. unfold part at 1. cbn [th_pc th_block th_commit at_pc]. unfold bind at 1. rewrite Hr.
  by destruct r as [[]|e|msg].
Qed.

(** The scheduler can let a thread run. *)
Lemma race_parts n i t t' m m' ts :
  ts !! i = Some t -> run_parts n t m = (t', m') -> rtc race_step (m, ts) (m', <[i := t']> ts).
Proof.
  revert t m ts. induction n as [|n IH]; intros t m ts Ht Hr; cbn in Hr.
  - simplify_eq. rewrite list_insert_id by done. apply rtc_refl.
  - destruct (run_part t m) as [t1 m1] eqn:E. eapply rtc_l; [by eapply race|].
    pose proof (lookup_lt_Some _ _ _ Ht) as Hlt. rewrite <- (list_insert_insert_eq ts i t' t1).
    apply (IH t1 m1); [|done]. by apply list_lookup_insert_eq.
Qed.
End Race.

(** ** The last one to save wins *)

Section Replaced.
Context {T : Tendermint} {W : Wire} `{!WireLaws W} {K : KVStore} `{!KVLaws K} {TV : TmValidators} {A : App} `{!AppLaws A} {MP : MempoolI}
  {EB : EventBus} {G : GossipWire} {DA : DALayer} {SL : SettlementLayer} {P : P2PClient} {PK : ProposerKey}.
Context (cfg : ManagerConf).

(** The state after a block was applied. *)
Lemma applyBlock_state block commit m m' :
  applyBlock cfg block commit m = (Ok tt, m') ->
  (0 <= m_height m)%Z -> (m_height m + 1 < 2 ^ 63)%Z -> hdr_Height (blk_Header block) = (m_height m + 1)%Z ->
  (forall info, GetAppInfo (m_exec m) = Ok info -> u64 (inf_LastBlockHeight info) <> hdr_Height (blk_Header block)) ->
  m_height m' = (m_height m + 1)%Z /\ st_LastStoreHeight (m_lastState m') = (m_height m + 1)%Z /\
  st_LastBlockHeight (m_lastState m') = (m_height m + 1)%Z.
Proof.
  intros Hr H0 Hlt Hh Hinfo.
  apply applyBlock_ok in Hr as (ns & rs & m1 & ns' & n & m2 & Hp & Hc & Hf); [|rewrite u64_small by (unfold is_u64; lia); done|done].
  destruct Hp as [_ _ Hns _ [Hh1 _] _ _]. unfold on_exec in Hc. go_inv Hc. subst m2.
  apply Commit_block_ok in Hc as (rc & _ & -> & _). destruct Hf as [(s1 & _ & Hlast & _) _ Hhf]. cbn in Hhf.
  apply updateState_heights in Hns as (Hlb & _). unfold m_height in *. rewrite Hhf, Hh1, Hlast. cbn. rewrite Hlb.
  split_and!; [lia|done|]. rewrite i64_small; [done|unfold is_i64; lia].
Qed.

(** A block of the height just applied is not accepted any more. *)
Lemma executeBlock_late block commit m r m' :
  executeBlock cfg block commit m = (r, m') ->
  (0 < hdr_Height (blk_Header block) < 2 ^ 63)%Z -> st_LastStoreHeight (m_lastState m) = hdr_Height (blk_Header block) ->
  st_LastBlockHeight (m_lastState m) = hdr_Height (blk_Header block) ->
  is_ok r = false /\ m_exec m' = m_exec m /\ m_store m' = m_store m.
Proof.
  intros Hr Hh Hs Hb.
  assert (Hst : m_store m' = m_store m).
  { assert (Hp : preserves (fun m1 => m_store m1 = m_store m) (executeBlock cfg block commit)); [|specialize (Hp m eq_refl); by rewrite Hr in Hp].
    unfold executeBlock. repeat (apply preserves_bind; [auto with go_inv|intros]).
    - apply (on_settlement_store (fun s => s = m_store m)).
    - apply (on_exec_store (fun s => s = m_store m)). }
  apply executeBlock_app in Hr as [(pr & sl' & _ & Hv)|[Hok Hx]]; [|done]. exfalso.
  apply Validate_ok in Hv as [Hv _]. apply validateBlock_iff in Hv as (_ & _ & Hv & _).
  unfold expected_height in Hv. rewrite Hs, Hb in Hv. destruct (Z.leb_spec (hdr_Height (blk_Header block)) 0); [lia|].
  rewrite u64_small in Hv by (unfold is_u64; lia). lia.
Qed.

(** C8: [applyBlock] is not safe to call from two goroutines, which a node does: whenever a
    block applies at the next height, a second call with any other block of that height - one
    that no proposer signed, sent by a peer - that has passed the check of the height before
    and goes on afterwards ends with an error and leaves its own block and commit in the
    store at the height that was committed, where the application ran the first one. *)
Theorem unlocked_apply_replaces_block block commit block' commit' info m m1 :
  applyBlock cfg block commit m = (Ok tt, m1) ->
  (0 <= m_height m)%Z -> (m_height m + 1 < 2 ^ 63)%Z ->
  hdr_Height (blk_Header block) = (m_height m + 1)%Z -> hdr_Height (blk_Header block') = (m_height m + 1)%Z ->
  GetAppInfo (m_exec m) = Ok info -> u64 (inf_LastBlockHeight info) <> (m_height m + 1)%Z ->
  data_Evidence (blk_Data block') = [] -> is_ok (SaveBlock block' commit' None (m_store m1)).1 = true ->
  exists m2 r,
    rtc (race_step cfg) (m, [calling block commit; calling block' commit'])
      (m2, [at_pc (AtEnd (Ok tt)) (calling block commit); at_pc (AtEnd r) (calling block' commit')]) /\
    is_ok r = false /\
    m_height m2 = (m_height m + 1)%Z /\ m_exec m2 = m_exec m1 /\
    chain (m_store m2) (m_height m + 1)%Z = Some (block', commit').
Proof.
  intros Hr H0 Hlt Hh Hh' Hinfo Hahead Hev Hsave. set (H := (m_height m + 1)%Z) in *.
  assert (Hu : u64 H = H) by (apply u64_small; unfold is_u64; lia).
  destruct (applyBlock_state block commit m m1 Hr H0 Hlt Hh) as (Hm1 & Hs1 & Hb1); [intros i' Hi'; rewrite Hh; congruence|].
  destruct (is_ok_run _ Hsave) as [ob Es]. set (s2 := (SaveBlock block' commit' None (m_store m1)).2) in *.
  destruct (saved_load_own block' commit' (m_store m1) ob s2) as [Hlb Hlc]; [by rewrite Es|rewrite Hh'; unfold is_u64; lia|done|].
  set (t1 := calling block commit). set (t2 := calling block' commit').
  destruct (executeBlock cfg block' commit' (set_store s2 m1)) as [r m2] eqn:Ex.
  destruct (executeBlock_late _ _ _ _ _ Ex) as (Hok & Hx2 & Hst2); [rewrite Hh'; lia|by rewrite Hh'..|].
  set (r' := match r with Ok _ => Ok tt | Err e => Err e | Panic msg => Panic msg end).
  exists m2, r'. split_and!.
  - (* the second call passes the check and the alignment *)
    etrans; [apply (race_parts cfg 2 1 t2 (at_pc AtSave t2) m m); [done|]|].
    { rewrite run_parts_step. unfold part at 1, t2, calling. cbn [th_pc th_block th_commit]. rewrite (bind_ok _ _ m (m_height m) m) by done.
      fold H. rewrite Hh', Hu, Z.eqb_refl. cbn [negb ret]. rewrite run_parts_step. unfold part at 1. cbn [th_pc th_block th_commit at_pc].
      rewrite (bind_ok _ _ m false m); [done|]. unfold alignStoreWithApp, wrap, bind at 1, read at 1. rewrite Hinfo. cbn.
      destruct (Z.eqb_spec (u64 (inf_LastBlockHeight info)) (hdr_Height (blk_Header block'))) as [E|]; [by rewrite Hh' in E|done]. }
    (* the first call runs *)
    etrans; [apply (race_parts cfg 7 0 t1 (at_pc (AtEnd (Ok tt)) t1) m m1); [done|by apply applyBlock_parts]|].
    (* the second call goes on *)
    refine (race_parts cfg 2 1 (at_pc AtSave t2) (at_pc (AtEnd r') t2) m1 m2 [at_pc (AtEnd (Ok tt)) t1; at_pc AtSave t2] eq_refl _).
    rewrite run_parts_step. unfold part at 1, t2, calling.
    cbn [th_pc th_block th_commit at_pc]. unfold on_store. rewrite (bind_ok _ _ m1 ob (set_store s2 m1)) by (unfold zoom; by rewrite Es). cbn [ret].
    rewrite run_parts_step. unfold part at 1. cbn [th_pc th_block th_commit at_pc]. unfold bind at 1. rewrite Ex. by destruct r.
  - by destruct r.
  - unfold m_height in *. rewrite Hst2. cbn. assert (Hs : SaveBlock block' commit' None (m_store m1) = (Ok ob, s2)) by (by rewrite Es).
    apply SaveBlock_ok in Hs as (Hsh & _). unfold Height in *. by rewrite Hsh.
  - done.
  - rewrite Hst2. cbn. unfold chain. rewrite Hh' in Hlb, Hlc. by rewrite Hlb, Hlc.
Qed.
End Replaced.

(** ** On a concrete node *)

Import ToyInstances.

(** A peer's block of height 1 in place of the one the node applied. *)
Lemma unlocked_apply_replaces_block_witness :
  exists m2 r,
    rtc (race_step toy_cfg) (toy_node [], [calling block1 (toy_commit 1); calling (gb_Block (forged 1)) (gb_Commit (forged 1))])
      (m2, [at_pc (AtEnd (Ok tt)) (calling block1 (toy_commit 1)); at_pc (AtEnd r) (calling (gb_Block (forged 1)) (gb_Commit (forged 1)))]) /\
    chain (m_store m2) 1 = Some (gb_Block (forged 1), gb_Commit (forged 1)) /\ gb_Block (forged 1) <> block1.
Proof.
  destruct (unlocked_apply_replaces_block toy_cfg block1 (toy_commit 1) (gb_Block (forged 1)) (gb_Commit (forged 1))
    {| inf_LastBlockHeight := 0; inf_LastBlockAppHash := replicate 32 Byte.x61 |} (toy_node []) run1.2 run1_ok)
    as (m2 & r & Hrun & _ & _ & _ & Hc).
  - vm_compute. congruence.
  - vm_compute. congruence.
  - vm_compute. reflexivity.
  - vm_compute. reflexivity.
  - vm_compute. reflexivity.
  - vm_compute. congruence.
  - reflexivity.
  - vm_compute. reflexivity.
  - exists m2, r. split; [exact Hrun|]. split; [exact Hc|]. intros E. apply (f_equal (fun b => length (data_Txs (blk_Data b)))) in E. vm_compute in E. congruence.
Defined.

(** The same block from the retrieval loop and from gossip: it is executed, committed and
    published twice. *)
Definition twice : Manager :=
  let t := calling block1 (toy_commit 1) in
  let '(t1, m) := run_parts toy_cfg 3 t (toy_node []) in
  let '(t2, m) := run_parts toy_cfg 3 t m in
  let '(t1, m) := run_parts toy_cfg 1 t1 m in
  let '(t2, m) := run_parts toy_cfg 1 t2 m in
  let '(_, m) := run_parts toy_cfg 3 t1 m in
  (run_parts toy_cfg 3 t2 m).2.
Example block_published_twice :
  length <$> ee_eventBus (m_exec run1.2) = Some 4 /\ length <$> ee_eventBus (m_exec twice) = Some 8.
Proof. vm_compute. split; reflexivity. Qed.
