(* ===== verification/Authentic.v ===== *)
(** * Authentic: what the proposer's signature protects

    [applyBlock] (block/block.go) executes a block after [Validate] (state/executor.go) has
    found the signature of the proposer over its header.  Theorems: whatever peers and layers
    send, every header a node commits is one that the proposer signed, so that two nodes that
    follow the same proposer have the same headers; but the transactions are not bound to the
    header, and a block with a signed header and other transactions is executed. *)
From stdpp Require Import base gmap strings vector sorting numbers list.
From S2P Require Import Prelude KVStore Types Serialization Concrete Store StorePrune StoreSpec Conv Executor Gossip Layers Manager ManagerLoops ManagerInv ConcreteNode ManagerSpec ChainInv.

Section Authentic.
Context {T : Tendermint} {W : Wire} `{!WireLaws W} {K : KVStore} `{!KVLaws K} {TV : TmValidators} {A : App} `{!AppLaws A} {MP : MempoolI}
  {EB : EventBus} {G : GossipWire} {DA : DALayer} {SL : SettlementLayer} {P : P2PClient} {PK : ProposerKey}.
Implicit Types (m : Manager) (s : DefaultStore).

(** ** The header of a saved block *)

Lemma saved_header block bb b : Block_MarshalBinary block = Ok bb -> Block_UnmarshalBinary bb = Ok b -> blk_Header b = blk_Header block.
Proof.
  intros Hm Hu. unfold Block_UnmarshalBinary in Hu. rewrite (block_codec _ _ Hm) in Hu. cbn [result_bind] in Hu.
  unfold Block_FromProto, Block_ToProto in Hu. cbn -[Header_FromProto Header_ToProto Commit_FromProto Commit_ToProto zero_Header] in Hu.
  change (blk_Header zero_Block) with zero_Header in Hu. rewrite header_roundtrip in Hu. cbn -[Commit_FromProto Commit_ToProto] in Hu.
  rewrite commit_roundtrip in Hu. cbn in Hu. by simplify_eq.
Qed.

Lemma saved_chain_header block commit s ob s' b c :
  SaveBlock block commit None s = (Ok ob, s') -> is_u64 (hdr_Height (blk_Header block)) ->
  chain s' (hdr_Height (blk_Header block)) = Some (b, c) -> blk_Header b = blk_Header block.
Proof.
  intros (_ & _ & bb & cb & Hbb & Hcb & Hv)%SaveBlock_ok Hu Hc. unfold chain in Hc.
  destruct (LoadBlock s' _) as [b'| |] eqn:El; [|done..]. destruct (LoadCommit s' _); [|done..]. simplify_eq.
  pose proof (lookup_saved_index block bb cb (store_view s) _ Hu Hu) as Hidx. rewrite <- Hv, decide_True in Hidx by done.
  apply loadHashFromIndex_ok in Hidx as Hl.
  unfold LoadBlock, LoadBlockByHash in El. rewrite Hl in El. cbn in El. rewrite kv_get_store, Hv in El. unfold view_get in El.
  rewrite lookup_saved_block, decide_True in El by done. cbn in El. destruct (Block_UnmarshalBinary bb) as [x| |] eqn:Ex; cbn in El; [|done..].
  simplify_eq. by eapply saved_header.
Qed.

(** ** The invariant *)

Context (cfg : ManagerConf).

(** The messages that the proposers signed: nobody else makes a signature that their keys
    verify. *)
Context (signed : bytes -> Prop).
Definition unforgeable : Prop :=
  forall l proposer l' bs sg, sl_GetProposer l = (Ok (Some proposer), l') -> VerifySignature (seq_PublicKey proposer) bs sg = true -> signed bs.

(** What is signed of a header: its form for the application, encoded. *)
Definition header_bytes (hdr : Header) : result bytes := header_marshal (ToABCIHeaderPB hdr).
Definition header_signed (hdr : Header) : Prop := exists bs, header_bytes hdr = Ok bs /\ signed bs.

Definition good (h : Z) (b : Block) : Prop := header_signed (blk_Header b) /\ hdr_Height (blk_Header b) = h.

(** Committed headers are signed, and so is the one at the next height when the application
    has committed it already. *)
Record authentic m : Prop := {
  au_index : index_ok (m_store m);
  au_base : (0 <= Base (m_store m))%Z;
  au_u64 : is_u64 (m_height m);
  au_signed h b c : (0 < h <= m_height m)%Z -> chain (m_store m) h = Some (b, c) -> good h b;
  au_ahead info b c : (0 < u64 (m_height m + 1))%Z -> GetAppInfo (m_exec m) = Ok info -> u64 (inf_LastBlockHeight info) = u64 (m_height m + 1) ->
    chain (m_store m) (u64 (m_height m + 1)) = Some (b, c) -> good (u64 (m_height m + 1)) b;
}.

(** The retain height is an [int64]. *)
Lemma retains_int64 : retains_from (2 ^ 63).
Proof. intros a rc a' Hc. apply app_retain_range in Hc. unfold is_i64 in Hc. lia. Qed.

Lemma authentic_settled m : authentic m -> m_settled (m_store m) (m_height m) (2 ^ 63) m.
Proof. intros [Hi Hb Hu _ _]. by apply settled_refl. Qed.

(** A store that keeps the heights of the manager [m], and the next one too. *)
Lemma settled_signed m s : authentic m -> settled (m_store m) (m_height m) (2 ^ 63) s ->
  forall h b c, (0 < h <= m_height m)%Z -> chain s h = Some (b, c) -> good h b.
Proof.
  intros Ha Hs h b c Hh Hc. assert (is_u64 h) by (pose proof (au_u64 _ Ha); unfold is_u64 in *; lia).
  by eapply (au_signed _ Ha), (se_same _ _ _ _ Hs).
Qed.

Lemma u64_succ_ne x : u64 (x + 1) <> u64 x.
Proof.
  unfold u64. intros E. assert (H : (((x + 1) mod 2 ^ 64 - x mod 2 ^ 64) mod 2 ^ 64 = 1 mod 2 ^ 64)%Z).
  { rewrite <- Zminus_mod. f_equal. lia. }
  rewrite E, Z.sub_diag in H. done.
Qed.

Lemma u64_next H : is_u64 H -> u64 (H + 1) = (H + 1)%Z \/ (u64 (H + 1) = 0 /\ H = 2 ^ 64 - 1)%Z.
Proof.
  intros Hu. destruct (decide (H + 1 < 2 ^ 64)%Z); [left; apply u64_small; unfold is_u64 in *; lia|right].
  assert (H = 2 ^ 64 - 1)%Z as -> by (unfold is_u64 in *; lia). done.
Qed.

(** ** Applying a block *)

(** The height was raised over a header that is signed, and the application stands there. *)
Lemma authentic_raised m m' info :
  authentic m -> m_settled (m_store m) (m_height m) (2 ^ 63) m' -> m_height m' = Z.max (m_height m) (u64 (m_height m + 1)) ->
  GetAppInfo (m_exec m') = Ok info -> u64 (inf_LastBlockHeight info) = u64 (m_height m + 1) ->
  ((0 < u64 (m_height m + 1))%Z ->
   forall b c, chain (m_store m') (u64 (m_height m + 1)) = Some (b, c) -> good (u64 (m_height m + 1)) b) -> authentic m'.
Proof.
  intros Ha Hs Hh Hi Hinfo Hg. pose proof (settled_signed m _ Ha Hs) as Hold. destruct Hs as [Hix Hb Hu _ _ _].
  destruct (u64_next (m_height m) (au_u64 _ Ha)) as [E|[E _]]; rewrite E in Hh, Hinfo, Hg.
  - assert (Hm : m_height m' = (m_height m + 1)%Z) by lia. split; [done|done|done|..].
    + intros h b c Hle Hc. destruct (decide (h = m_height m + 1)%Z) as [->|]; [eapply Hg; [lia|done]|]. eapply Hold; [lia|done].
    + intros info' b c _ Hi' Hx. rewrite Hi in Hi'. simplify_eq. rewrite Hinfo, Hm in Hx. destruct (u64_succ_ne (m_height m + 1)).
      congruence.
  - assert (Hm : m_height m' = m_height m) by (pose proof (au_u64 _ Ha); unfold is_u64 in *; lia). split; [done|done|done|..].
    + rewrite Hm. done.
    + rewrite Hm, E. lia.
Qed.

(** The height stayed, and either nothing was executed or the next header is signed. *)
Lemma authentic_stayed m m' :
  authentic m -> m_settled (m_store m) (m_height m) (2 ^ 63) m' -> m_height m' = m_height m ->
  (forall info b c, (0 < u64 (m_height m + 1))%Z -> GetAppInfo (m_exec m') = Ok info -> u64 (inf_LastBlockHeight info) = u64 (m_height m + 1) ->
     chain (m_store m') (u64 (m_height m + 1)) = Some (b, c) -> good (u64 (m_height m + 1)) b) -> authentic m'.
Proof.
  intros Ha Hs Hh Hg. pose proof (settled_signed m _ Ha Hs) as Hold. destruct Hs as [Hix Hb Hu _ _ _].
  split; [done..| |]; rewrite Hh; done.
Qed.

Context (Hsep : hash_separates) (Hunf : unforgeable).

Lemma whole_settled m block commit : authentic m -> m_settled (m_store m) (m_height m) (2 ^ 63) (applyBlock cfg block commit m).2.
Proof. intros Ha. apply applyBlock_settled; [done|apply retains_int64|done|by apply authentic_settled]. Qed.

Lemma align_authentic block m r m' :
  authentic m -> hdr_Height (blk_Header block) = u64 (m_height m + 1) -> alignStoreWithApp block m = (r, m') -> authentic m'.
Proof.
  intros Ha Hh Hr. assert (Hu : is_u64 (hdr_Height (blk_Header block))) by (rewrite Hh; apply u64_range).
  assert (Hset : forall N, m_settled (m_store m) N (2 ^ 63) m').
  { intros N. pose proof (align_settled (m_store m) N (2 ^ 63) block Hu m) as Hp. rewrite Hr in Hp. apply Hp.
    destruct Ha. by apply settled_refl. }
  pose proof (align_exec _ _ _ _ Hr) as Hx. pose proof (align_height (m_height m) block m eq_refl) as Hht. rewrite Hr in Hht.
  assert (Hnext : forall b c, (0 < u64 (m_height m + 1))%Z -> chain (m_store m') (u64 (m_height m + 1)) = Some (b, c) ->
                    chain (m_store m) (u64 (m_height m + 1)) = Some (b, c)).
  { intros b c Hpos. apply (se_same _ (u64 (m_height m + 1)) _ _ (Hset _)); [apply u64_range|lia]. }
  assert (Hstay : m_height m' = m_height m -> authentic m').
  { intros E. apply (authentic_stayed m); [done|done|done|]. rewrite Hx. intros info b c Hpos Hi Hinfo Hc. eapply au_ahead; eauto. }
  destruct r as [[|]|e|msg]; [|by apply Hstay..]. rewrite Hh in Hht.
  unfold alignStoreWithApp in Hr. go_inv Hr. go_inv Hrun. go_inv Hrun.
  destruct (Z.eqb_spec (u64 (inf_LastBlockHeight r)) (hdr_Height (blk_Header block))) as [Ei|]; [|done].
  apply (authentic_raised m m' r); [done|done|done|by rewrite Hx|by rewrite Ei|]. intros Hpos b c Hc.
  eapply au_ahead; eauto. congruence.
Qed.

(** After its height was found to be the next one, and the application behind it. *)
Lemma applied_ok block commit m m' :
  (let! (newState, responses) := apply_prepare cfg block commit in
   let! (newState, retainHeight) := on_exec (Commit_block newState block responses) in
   apply_finish block newState retainHeight) m = (Ok tt, m') ->
  m_height m' = Z.max (m_height m) (hdr_Height (blk_Header block)) /\
  exists info, GetAppInfo (m_exec m') = Ok info /\ inf_LastBlockHeight info = i64 (hdr_Height (blk_Header block)).
Proof.
  intros Hr. go_inv Hr. destruct r as [ns rs]. go_inv Hr. destruct r as [ns' n]. apply apply_prepare_ok in Hrun. apply apply_finish_ok in Hr.
  split; [|by eapply finished_info]. destruct Hrun as [_ _ _ _ [Hh _] _ _], Hr as [_ _ Hf]. unfold on_exec in Hrun0. go_inv Hrun0. subst.
  unfold m_height. by rewrite Hf, <- Hh.
Qed.

(** A saved block that passed validation: whatever comes after, the header at its height is
    its own, and signed. *)
Lemma validated_good block commit m ob m1 pr sl' :
  authentic m -> hdr_Height (blk_Header block) = u64 (m_height m + 1) ->
  on_store (SaveBlock block commit None) m = (Ok ob, m1) ->
  sl_GetProposer (m_settlementClient m1) = (Ok pr, sl') -> Validate (m_lastState m1) block commit pr = Ok tt ->
  forall m', m_settled (m_store m1) (u64 (m_height m + 1)) (2 ^ 63) m' -> (0 < u64 (m_height m + 1))%Z ->
  forall b c, chain (m_store m') (u64 (m_height m + 1)) = Some (b, c) -> good (u64 (m_height m + 1)) b.
Proof.
  intros Ha Hh Hsave Hpr Hv m' Hset Hpos b c Hc.
  apply Validate_ok in Hv as (_ & p & sg & bs & -> & Hbs & _ & Hsg).
  apply (se_same _ _ _ _ Hset) in Hc; [|apply u64_range|lia].
  assert (blk_Header b = blk_Header block) as E.
  { unfold on_store in Hsave. go_inv Hsave. subst m1. simpl in Hc. rewrite <- Hh in Hc. eapply saved_chain_header; [done| |done].
    rewrite Hh. apply u64_range. }
  unfold good. rewrite E, Hh. split; [|done]. exists bs. split; [done|]. by eapply Hunf.
Qed.

(** [applyBlock] from the validation on. *)
Definition apply_rest block commit : M Manager unit :=
  let! (newState, responses) := apply_saved cfg block commit in
  let! (newState, retainHeight) := on_exec (Commit_block newState block responses) in
  apply_finish block newState retainHeight.

Lemma rest_settled s0 N block commit :
  is_u64 (hdr_Height (blk_Header block)) -> preserves (m_settled s0 N (2 ^ 63)) (apply_rest block commit).
Proof.
  intros Hu. apply preserves_bind; [apply apply_saved_settled|intros [ns rs]].
  intros m Hm. unfold bind, on_exec, zoom. destruct (Commit_block ns block rs (m_exec m)) as [[[ns' n]|e|msg] x] eqn:Ec; [|done..].
  apply Commit_block_ok in Ec as (rc & Hrc & _ & ->). apply app_retain_range in Hrc.
  apply apply_finish_settled; [done|done|done| |done]. unfold is_i64 in Hrc. lia.
Qed.

(** Nothing was executed, or the block was valid. *)
Lemma rest_validated block commit m r m' :
  apply_rest block commit m = (r, m') ->
  (exists pr sl', sl_GetProposer (m_settlementClient m) = (Ok pr, sl') /\ Validate (m_lastState m) block commit pr = Ok tt) \/
  (is_ok r = false /\ m_exec m' = m_exec m).
Proof.
  unfold apply_rest, apply_saved, bind at 1. unfold bind at 1. destruct (executeBlock cfg block commit m) as [r1 m1] eqn:Ex.
  apply executeBlock_app in Ex as [?|[Hr1 Hx]]; [by left|]. destruct r1; [done|..]; intros [= <- <-]; by right.
Qed.

Lemma applied_authentic block commit m r m' :
  authentic m -> hdr_Height (blk_Header block) = u64 (m_height m + 1) ->
  (forall info, GetAppInfo (m_exec m) = Ok info -> u64 (inf_LastBlockHeight info) <> u64 (m_height m + 1)) ->
  (let! (newState, responses) := apply_prepare cfg block commit in
   let! (newState, retainHeight) := on_exec (Commit_block newState block responses) in
   apply_finish block newState retainHeight) m = (r, m') ->
  m_settled (m_store m) (m_height m) (2 ^ 63) m' -> (is_ok r = false -> m_height m' = m_height m) -> authentic m'.
Proof.
  intros Ha Hh Hbehind Hr Hset Hht. pose proof Hr as Hok.
  assert (Hu : is_u64 (hdr_Height (blk_Header block))) by (rewrite Hh; apply u64_range).
  assert (Hidle : is_ok r = false -> m_exec m' = m_exec m -> authentic m').
  { intros Hn Hx. apply (authentic_stayed m); [done|done|by apply Hht|]. rewrite Hx. intros info b c _ Hi Hinfo. by destruct (Hbehind info Hi). }
  rewrite apply_prepare_saved in Hr. unfold bind at 1 in Hr. unfold bind at 1 in Hr.
  destruct (on_store (SaveBlock block commit None) m) as [r1 m1] eqn:Es. pose proof (SaveBlock_exec _ _ _ _ _ Es) as (Hx1 & _).
  destruct r1 as [ob|e|msg]; [|injection Hr as <- <-; by apply Hidle..].
  change (apply_rest block commit m1 = (r, m')) in Hr.
  destruct (rest_validated _ _ _ _ _ Hr) as [(pr & sl' & Hpr & Hv)|[Hn Hx]]; [|apply Hidle; congruence].
  assert (Hgood : (0 < u64 (m_height m + 1))%Z -> forall b c, chain (m_store m') (u64 (m_height m + 1)) = Some (b, c) -> good (u64 (m_height m + 1)) b).
  { apply (validated_good block commit m ob m1 pr sl' Ha Hh Es Hpr Hv). pose proof (rest_settled (m_store m1) (u64 (m_height m + 1)) block commit Hu m1) as Hp.
    rewrite Hr in Hp. apply Hp. apply (f_equal snd) in Es. cbn [snd] in Es. rewrite <- Es.
    pose proof (on_store_preserves (settled (m_store m) 0 (2 ^ 63)) _ (SaveBlock_settled (m_store m) 0 (2 ^ 63) block commit Hsep Hu ltac:(unfold is_u64 in Hu; lia)) m) as Hs0.
    destruct Hs0 as [? ? ? _ _ _]; [destruct Ha; by apply settled_refl|]. by apply settled_refl. }
  destruct r as [[]|e|msg]; [|apply (authentic_stayed m); [done|done|by apply Hht|intros info b c Hpos _ _; by apply Hgood]..].
  apply applied_ok in Hok as (Hmax & info & Hi & Hinfo).
  apply (authentic_raised m m' info); [done|done|by rewrite <- Hh|done| |done]. by rewrite Hinfo, u64_i64, u64_small, Hh.
Qed.

Lemma applyBlock_authentic block commit : preserves authentic (applyBlock cfg block commit).
Proof.
  intros m Ha. destruct (applyBlock cfg block commit m) as [r m'] eqn:Hr. cbn [snd].
  pose proof (whole_settled m block commit Ha) as Hset. pose proof (applyBlock_height cfg (m_height m) block commit m eq_refl) as Hht.
  rewrite Hr in Hset, Hht. unfold applyBlock in Hr. rewrite (bind_ok _ _ m (m_height m) m) in Hr by done.
  destruct (Z.eqb_spec (hdr_Height (blk_Header block)) (u64 (m_height m + 1))) as [Eh|]; cbn [negb] in Hr; [|by injection Hr as <- <-].
  unfold bind at 1 in Hr. destruct (alignStoreWithApp block m) as [[[|]|e|msg] m1] eqn:Ea;
    try (injection Hr as <- <-; by eapply align_authentic).
  pose proof (align_false _ _ _ Ea) as ->. eapply applied_authentic; [done|done| |exact Hr|done|by destruct r as [[]| |]].
  intros info Hi E. unfold alignStoreWithApp in Ea. rewrite (bind_ok _ _ m info m) in Ea by (unfold wrap, read; by rewrite Hi).
  rewrite E, Eh, Z.eqb_refl in Ea. cbn [negb] in Ea. do 6 go_inv Ea. done.
Qed.

Lemma on_store_authentic {B} (c : M DefaultStore B) m :
  (forall N, settled (m_store m) N (2 ^ 63) (c (m_store m)).2) -> Height (c (m_store m)).2 = Height (m_store m) ->
  authentic m -> authentic (on_store c m).2.
Proof.
  intros Hset Hh Ha. unfold on_store, zoom. destruct (c (m_store m)) as [r s'] eqn:E. cbn [snd] in *.
  apply (authentic_stayed m); [done|apply Hset|done|]. intros info b c' Hpos Hi Hinfo Hc. eapply au_ahead; [done|done|done|done|].
  apply (se_same _ _ _ _ (Hset (u64 (m_height m + 1)))) in Hc; [done|apply u64_range|lia].
Qed.

Lemma UpdateState_authentic st : preserves authentic (on_store (UpdateState st None)).
Proof.
  intros m Ha. apply on_store_authentic; [|pose proof (UpdateState_heights (Height (m_store m)) (Base (m_store m)) st None (m_store m)) as H; by apply H|done].
  intros N. assert (Hs : settled (m_store m) N (2 ^ 63) (m_store m)) by (destruct Ha; by apply settled_refl).
  pose proof (UpdateState_settled (m_store m) N (2 ^ 63) st None ltac:(done) (m_store m) Hs) as Ht.
  destruct (UpdateState st None (m_store m)) as [[] ?]; [apply Ht|done..].
Qed.

(** What leaves the store, its height and the application alone. *)
Lemma frame_authentic m m' : m_store m' = m_store m -> m_exec m' = m_exec m -> authentic m -> authentic m'.
Proof. intros Es Ex [? ? ? ? ?]. unfold m_height in *. split; unfold m_height; rewrite ?Es, ?Ex; done. Qed.

Lemma manager_step_authentic m m' : manager_step cfg m m' -> authentic m -> authentic m'.
Proof.
  apply manager_step_inv; [|apply applyBlock_authentic|apply UpdateState_authentic]. apply frame_authentic.
Qed.

(** ** Signed headers *)

(** C7: a node commits only headers that the proposer signed: whatever the peers gossip, the
    data availability layer returns and the handlers of the manager do, in any order and on any
    outcome, every block at a height that the store has reached has a header of that height over
    which a proposer named by the settlement layer made a signature. *)
Theorem committed_headers_signed m m' :
  authentic m -> rtc (manager_step cfg) m m' ->
  forall h b c, (0 < h <= m_height m')%Z -> chain (m_store m') h = Some (b, c) ->
    header_signed (blk_Header b) /\ hdr_Height (blk_Header b) = h.
Proof.
  intros Ha Hrun. assert (Ha' : authentic m') by (induction Hrun; [done|]; eauto using manager_step_authentic).
  intros h b c. apply (au_signed _ Ha').
Qed.
End Authentic.

(** ** Two nodes *)

Section Agreement.
Context {T : Tendermint} {W : Wire} `{!WireLaws W} {K : KVStore} `{!KVLaws K} {TV : TmValidators} {A : App} `{!AppLaws A} {MP : MempoolI}
  {EB : EventBus} {G : GossipWire} {DA : DALayer} {SL : SettlementLayer} {P : P2PClient} {PK : ProposerKey}.
Context (signed : bytes -> Prop).

(** The proposer signs one header per height. *)
Definition one_header_per_height : Prop :=
  forall h1 h2 bs1 bs2, header_bytes h1 = Ok bs1 -> header_bytes h2 = Ok bs2 -> signed bs1 -> signed bs2 ->
    hdr_Height h1 = hdr_Height h2 -> bs1 = bs2.

Lemma authentic_run cfg m m' :
  hash_separates -> unforgeable signed -> authentic signed m -> rtc (manager_step cfg) m m' -> authentic signed m'.
Proof. intros Hsep Hunf Ha Hrun. induction Hrun; [done|]. eauto using manager_step_authentic. Qed.


(** ** The transactions *)

Definition with_data (d : Data) (b : Block) : Block := {| blk_Header := blk_Header b; blk_Data := d; blk_LastCommit := blk_LastCommit b |}.

Lemma Validate_ignores_data st d block commit pr : Validate st (with_data d block) commit pr = Validate st block commit pr.
Proof. done. Qed.

(** C9: the transactions of a block are not authenticated: for a signed block whose transactions
    were exchanged for any others - the hash of the data in its header is never compared - the
    checks of the gossip network, of the commit and of the executor answer as for the block
    itself, and the manager runs the application on the other transactions.  When that returns,
    the node holds the tampered block under the header that the proposer signed, at the height
    where a node that was sent the block itself holds the block. *)
Theorem tampered_data_executed cfg (d : Data) block commit m pr sl' :
  sl_GetProposer (m_settlementClient m) = (Ok pr, sl') -> Validate (m_lastState m) block commit pr = Ok tt ->
  GossipedBlock_Validate {| gb_Block := with_data d block; gb_Commit := commit |}
    = GossipedBlock_Validate {| gb_Block := block; gb_Commit := commit |} /\
  executeBlock cfg (with_data d block) commit m
    = on_exec (on_app (Execute (mc_executor cfg) (m_lastState m) (with_data d block))) (set_settlement sl' m) /\
  forall m1 m2, applyBlock cfg block commit m = (Ok tt, m1) -> applyBlock cfg (with_data d block) commit m = (Ok tt, m2) ->
    (0 <= m_height m)%Z -> (m_height m + 1 < 2 ^ 63)%Z -> hdr_Height (blk_Header block) = (m_height m + 1)%Z ->
    (forall info, GetAppInfo (m_exec m) = Ok info -> u64 (inf_LastBlockHeight info) <> hdr_Height (blk_Header block)) ->
    data_Evidence (blk_Data block) = [] -> data_Evidence d = [] -> hash_fresh (m_store m) block -> store_wf (m_store m) -> (0 <= Base (m_store m))%Z ->
    m_height m1 = m_height m2 /\ chain (m_store m1) (m_height m1) = Some (block, commit) /\
    chain (m_store m2) (m_height m2) = Some (with_data d block, commit) /\ Header_Hash (blk_Header (with_data d block)) = Header_Hash (blk_Header block).
Proof.
  intros Hpr Hv. split_and!; [done|..].
  - unfold executeBlock, bind, on_settlement, zoom, gets, lift. rewrite Hpr. cbn [m_lastState set_settlement]. by rewrite Validate_ignores_data, Hv.
  - intros m1 m2 H1 H2 ? ? Hh ? ? ? Hfr ? ?.
    destruct (applyBlock_stored cfg block commit m m1) as (E1 & C1 & _); [done..|].
    destruct (applyBlock_stored cfg (with_data d block) commit m m2) as (E2 & C2 & _); [done..|].
    rewrite E1, E2. by split_and!.
Qed.
End Agreement.

(** ** Concrete runs *)

Section AuthRun.
Import ToyInstances.

(** The toy proposer signs the messages that spell a height. *)
Definition toy_signed (bs : bytes) : Prop := length bs = 8%nat.

Lemma toy_unforgeable : unforgeable toy_signed.
Proof. intros l pr l' bs sg _ Hv. cbn in Hv. unfold toy_signed. apply andb_true_iff in Hv as [_ Hv]. by apply Nat.eqb_eq. Qed.

Lemma toy_one_header : one_header_per_height toy_signed.
Proof. intros h1 h2 bs1 bs2 E1 E2 _ _ Hh. unfold header_bytes in *. cbn in E1, E2. rewrite Hh in E1. congruence. Qed.

Lemma toy_node_authentic txs : authentic toy_signed (toy_node txs).
Proof.
  split; [apply empty_index_ok|done|done|..].
  - intros h b c Hh. vm_compute in Hh. destruct Hh as [H1 H2]. by destruct h.
  - intros info b c _ [= <-] E. vm_compute in E. discriminate E.
Qed.

(** One node is sent the block and forged ones; another one the block with other
    transactions. *)
Definition tampered : GossipedBlock := {| gb_Block := with_data {| data_Txs := [[Byte.x66]]; data_RawRootsList := []; data_Evidence := [] |} block1; gb_Commit := toy_commit 1 |}.
Definition honest : GossipedBlock := {| gb_Block := block1; gb_Commit := toy_commit 1 |}.
Definition node_a : Manager := (applyBlockCallback toy_cfg (forged 2) (applyBlockCallback toy_cfg honest (toy_node [])).2).2.
Definition node_b : Manager := (applyBlockCallback toy_cfg tampered (toy_node [])).2.

Lemma node_a_reached : rtc (manager_step toy_cfg) (toy_node []) node_a.
Proof. eapply rtc_l; [apply (step_gossiped toy_cfg honest)|]. eapply rtc_l; [apply (step_gossiped toy_cfg (forged 2))|]. unfold node_a. apply rtc_refl. Qed.
Lemma node_b_reached : rtc (manager_step toy_cfg) (toy_node []) node_b.
Proof. eapply rtc_l; [apply (step_gossiped toy_cfg tampered)|]. unfold node_b. apply rtc_refl. Qed.

Lemma committed_headers_signed_witness : exists b c, chain (m_store node_a) 1 = Some (b, c) /\ hdr_Height (blk_Header b) = 1%Z.
Proof.
  assert (E : exists b c, chain (m_store node_a) 1 = Some (b, c)) by (do 2 eexists; vm_compute; reflexivity).
  destruct E as (b & c & E). exists b, c. split; [exact E|].
  refine (proj2 (committed_headers_signed toy_cfg toy_signed toy_hash_separates toy_unforgeable (toy_node []) node_a (toy_node_authentic []) node_a_reached 1 b c _ E)).
  vm_compute. split; congruence.
Defined.


Lemma tampered_data_executed_witness :
  executeBlock toy_cfg (gb_Block tampered) (toy_commit 1) (toy_node [])
  = on_exec (on_app (Execute (mc_executor toy_cfg) (toy_state 0 0) (gb_Block tampered))) (toy_node []) /\
  chain (m_store node_b) 1 = Some (gb_Block tampered, toy_commit 1).
Proof.
  split; [|vm_compute; reflexivity].
  exact (proj1 (proj2 (tampered_data_executed toy_cfg (blk_Data (gb_Block tampered)) block1 (toy_commit 1) (toy_node []) (Some toy_proposer) [] eq_refl eq_refl))).
Defined.
End AuthRun.
