(* ===== verification/TestData.v ===== *)
(** * TestData: the chains and mocks that the tests run on

    Models testutil/types.go, testutil/block.go, testutil/mocks.go and mempool/mock/mempool.go:
    the generators of blocks, commits, batches, states and genesis documents, the mock of the
    application, the store that fails on demand and the empty mempool.  The source of randomness
    and the generation of keys are libraries: class [Rand].  Theorem: whatever the random bytes
    are, a generated batch is accepted block by block by the executor over the mock application,
    from the generated state on; blocks generated with transactions are not. *)
From stdpp Require Import base gmap strings vector sorting numbers list.
From S2P Require Import Prelude KVStore Types Serialization Concrete Store Conv Executor Gossip Layers Manager ManagerLoops ConcreteNode ExecSpec.

(** [crypto/rand], and a validator set of one new key. *)
Class Rand `{Tendermint} := {
  rng : Type;
  rand_Read : nat -> rng -> bytes * option error * rng;      (* the buffer afterwards *)
  rand_Int : Z -> rng -> Z * rng;
  rand_ValidatorSet : rng -> ValidatorSet * rng;
}.

(** [rand.Read] fills the buffer it is given; [rand.Int] is below its bound. *)
Class RandLaws `{!Tendermint} (R : Rand) := {
  rand_Read_length n r : length (rand_Read n r).1.1 = n;
  rand_Int_range max r : (0 < max)%Z -> (0 <= (rand_Int max r).1 < max)%Z;
}.

Definition DefaultBatchSize : Z := 5.
Definition BlockVersion : Z := 1.
Definition AppVersion : Z := 2.

Section Generators.
Context {T : Tendermint} {R : Rand} {PK : ProposerKey}.

(** ** Random data (testutil/types.go) *)

Definition random (n : nat) : M rng (bytes * option error) := fun r => let '(b, err, r) := rand_Read n r in (Ok (b, err), r).

Fixpoint create_hashes (n : nat) : M rng (list hash32) :=
  match n with
  | O => ret []
  | S n =>
      let! (b, err) := random 32 in
      match err with
      | Some e => panic "rand"
      | None => let! hs := create_hashes n in ret (copy_into zero_hash b :: hs)
      end
  end.
Definition createRandomHashes : M rng (list hash32) := create_hashes 8.

Definition GetRandomBytes (n : nat) : M rng bytes := let! (data, _) := random n in ret data.

Definition GetRandomTx : M rng Tx :=
  let! n := (fun r => let '(n, r) := rand_Int 100 r in (Ok n, r)) in
  GetRandomBytes (Z.to_nat (n + 100)).

(** Between 100 and 199 bytes. *)
Lemma GetRandomTx_size `{!RandLaws R} r tx r' : GetRandomTx r = (Ok tx, r') -> 100 <= length tx < 200.
Proof.
  unfold GetRandomTx, GetRandomBytes, random, bind, ret. pose proof (rand_Int_range 100 r ltac:(lia)) as Hn.
  destruct (rand_Int 100 r) as [n r1]. pose proof (rand_Read_length (Z.to_nat (n + 100)) r1) as Hl.
  destruct (rand_Read (Z.to_nat (n + 100)) r1) as [[b err] r2]. intros [= <- _]. cbn in *. lia.
Qed.

(** The conversion of a slice to an array panics when the slice is shorter. *)
Definition getEmptyLastResultsHash : result hash32 :=
  let h := results_hash [] in
  if (32 <=? length h)%nat then Ok (copy_into zero_hash h) else Panic "cannot convert slice to array pointer".

(** [h[i]] of the hashes: there are eight. *)
Definition generateBlock (height : Z) : M rng Block :=
  let! h := createRandomHashes in
  let! empty := lift getEmptyLastResultsHash in
  let! h0 := lift (index h 0) in let! h1 := lift (index h 1) in let! h2 := lift (index h 2) in let! h3 := lift (index h 3) in
  let! h6 := lift (index h 6) in let! h7 := lift (index h 7) in
  ret {| blk_Header := {|
           hdr_Version := {| ver_Block := BlockVersion; ver_App := AppVersion |};
           hdr_NamespaceID := copy_into (Vector.const Byte.x00 8) [Byte.x00; Byte.x01; Byte.x02; Byte.x03; Byte.x04; Byte.x05; Byte.x06; Byte.x07];
           hdr_Height := height;
           hdr_Time := 4567;
           hdr_LastHeaderHash := h0;
           hdr_LastCommitHash := h1;
           hdr_DataHash := h2;
           hdr_ConsensusHash := h3;
           hdr_AppHash := zero_hash;
           hdr_LastResultsHash := empty;
           hdr_ProposerAddress := [Byte.x04; Byte.x03; Byte.x02; Byte.x01];
           hdr_AggregatorsHash := h6;
           hdr_ChainID := "" |};
         blk_Data := {| data_Txs := []; data_RawRootsList := [[Byte.x01]]; data_Evidence := [] |};
         blk_LastCommit := {| cm_Height := 8; cm_HeaderHash := h7; cm_Signatures := []; cm_TMSignature := zero_CommitSig |} |}.

Definition generateSignature (header : Header) : result bytes :=
  try! abciHeaderBytes := header_marshal (ToABCIHeaderPB header) in
  key_Sign abciHeaderBytes.

Definition signed_by (signature : bytes) (block : Block) : Block :=
  {| blk_Header := blk_Header block; blk_Data := blk_Data block;
     blk_LastCommit := {| cm_Height := cm_Height (blk_LastCommit block); cm_HeaderHash := cm_HeaderHash (blk_LastCommit block);
                          cm_Signatures := [signature]; cm_TMSignature := cm_TMSignature (blk_LastCommit block) |} |}.

(** The transactions and roots of [n] entries, in the order they are drawn. *)
Fixpoint random_txs (n : nat) : M rng (list (Tx * bytes)) :=
  match n with
  | O => ret []
  | S n =>
      let! tx := GetRandomTx in
      let! root := GetRandomBytes 32 in
      let! rest := random_txs n in ret ((tx, root) :: rest)
  end.

Definition random_data (nTxs : nat) : M rng Data :=
  let! txs := random_txs nTxs in ret {| data_Txs := txs.*1; data_RawRootsList := txs.*2; data_Evidence := [] |}.

(** The loop of the generators over the heights. *)
Fixpoint generate_loop (body : Z -> M rng Block) (start : Z) (n : nat) : M rng (list Block) :=
  match n with
  | O => ret []
  | S n =>
      let! block := body (u64 start) in
      let! signature := lift (generateSignature (blk_Header block)) in
      let! blocks := generate_loop body (start + 1) n in
      ret (signed_by signature block :: blocks)
  end.

(** [make([]T, n)] of a [uint64] that is no [int]. *)
Definition make_slice (n : Z) : result nat := if (n <? 2 ^ 63)%Z then Ok (Z.to_nat n) else Panic "makeslice: len out of range".

Definition GenerateBlocks (startHeight num : Z) : M rng (list Block) :=
  let! n := lift (make_slice num) in generate_loop generateBlock startHeight n.

Definition GenerateBlocksWithTxs (startHeight num : Z) (nTxs : nat) : M rng (list Block) :=
  let! n := lift (make_slice num) in
  generate_loop (fun height =>
    let! block := generateBlock height in
    let! data := random_data nTxs in
    ret {| blk_Header := blk_Header block; blk_Data := data; blk_LastCommit := blk_LastCommit block |}) startHeight n.

Fixpoint GenerateCommits (blocks : list Block) : result (list Commit) :=
  match blocks with
  | [] => Ok []
  | block :: blocks =>
      try! signature := generateSignature (blk_Header block) in
      try! commits := GenerateCommits blocks in
      Ok ({| cm_Height := hdr_Height (blk_Header block); cm_HeaderHash := Header_Hash (blk_Header block);
             cm_Signatures := [signature]; cm_TMSignature := zero_CommitSig |} :: commits)
  end.

Definition GenerateBatch (startHeight endHeight : Z) : M rng Batch :=
  let! blocks := GenerateBlocks startHeight (u64 (endHeight - startHeight + 1)) in
  let! commits := lift (GenerateCommits blocks) in
  ret {| bt_StartHeight := startHeight; bt_EndHeight := endHeight; bt_Blocks := blocks; bt_Commits := commits |}.

(** testutil/block.go. *)
Definition GetRandomBlock (height : Z) (nTxs : nat) : M rng Block :=
  let! data := random_data nTxs in
  ret {| blk_Header := {| hdr_Version := hdr_Version zero_Header; hdr_NamespaceID := hdr_NamespaceID zero_Header; hdr_Height := height;
           hdr_Time := 0; hdr_LastHeaderHash := zero_hash; hdr_LastCommitHash := zero_hash; hdr_DataHash := zero_hash; hdr_ConsensusHash := zero_hash;
           hdr_AppHash := zero_hash; hdr_LastResultsHash := zero_hash; hdr_ProposerAddress := []; hdr_AggregatorsHash := zero_hash; hdr_ChainID := "" |};
         blk_Data := data; blk_LastCommit := zero_Commit |}.

(** ** States and genesis documents *)

Definition GenerateRandomValidatorSet : M rng ValidatorSet := fun r => let '(vs, r) := rand_ValidatorSet r in (Ok vs, r).

Definition GenerateState (initialHeight lastBlockHeight : Z) : M rng State :=
  let! empty := lift getEmptyLastResultsHash in
  let! lastValidators := GenerateRandomValidatorSet in
  let! validators := GenerateRandomValidatorSet in
  let! nextValidators := GenerateRandomValidatorSet in
  ret {| st_Version := {| ver_Block := BlockVersion; ver_App := AppVersion |};
         st_Software := "";
         st_ChainID := "test-chain";
         st_InitialHeight := initialHeight;
         st_LastBlockHeight := lastBlockHeight;
         st_LastBlockID := {| bid_Hash := []; bid_Total := 0; bid_PartHash := [] |};
         st_LastBlockTime := zero_time;
         st_SLStateIndex := 0;
         st_NextValidators := nextValidators;
         st_Validators := validators;
         st_LastValidators := lastValidators;
         st_LastHeightValidatorsChanged := 0;
         st_ConsensusParams := {| cp_Block_MaxBytes := 0; cp_Block_MaxGas := 0; cp_Evidence_MaxAgeNumBlocks := 0; cp_Evidence_MaxAgeDuration := 0;
           cp_Evidence_MaxBytes := 0; cp_Validator_PubKeyTypes := []; cp_Version_AppVersion := 0 |};
         st_LastHeightConsensusParamsChanged := 0;
         st_LastResultsHash := empty;
         st_LastStoreHeight := 0;
         st_BaseHeight := 0;
         st_AppHash := zero_hash |}.

Definition GenerateGenesis (initialHeight : Z) : GenesisDoc := {|
  gd_GenesisTime := zero_time;
  gd_ChainID := "test-chain";
  gd_InitialHeight := initialHeight;
  gd_ConsensusParams := Some {| cp_Block_MaxBytes := 1024; cp_Block_MaxGas := -1; cp_Evidence_MaxAgeNumBlocks := 100;
    cp_Evidence_MaxAgeDuration := 10 ^ 9; cp_Evidence_MaxBytes := 0; cp_Validator_PubKeyTypes := ["ed25519"]; cp_Version_AppVersion := AppVersion |};
  gd_AppHash := [];
  gd_AppState := [];
|}.
End Generators.

(** ** The mock of the application (testutil/mocks.go) *)

(** testify's mocks, outside the program: the methods a mock was told to answer, the calls it
    got, [On] and [Called]. *)
Class Testify := {
  tmock : Type;
  new_mock : tmock;
  ExpectedCalls : tmock -> list string;
  set_ExpectedCalls : list string -> tmock -> tmock;
  Calls : tmock -> list string;
  On : string -> tmock -> tmock;
  Called : string -> M tmock unit;
}.

(** [after ms a a']: the mock got the calls [ms]. *)
Definition after `{Testify} (ms : list string) (a a' : tmock) : Prop := Calls a' = Calls a ++ ms /\ ExpectedCalls a' = ExpectedCalls a.

(** A call is recorded and answered when the method is expected; otherwise it panics. *)
Class TestifyLaws (TF : Testify) := {
  new_expects : ExpectedCalls new_mock = [] /\ Calls new_mock = [];
  set_expects ms a : ExpectedCalls (set_ExpectedCalls ms a) = ms /\ Calls (set_ExpectedCalls ms a) = Calls a;
  On_expects m a : ExpectedCalls (On m a) = ExpectedCalls a ++ [m] /\ Calls (On m a) = Calls a;
  Called_expected m a : m ∈ ExpectedCalls a -> exists a', Called m a = (Ok tt, a') /\ after [m] a a';
  Called_unexpected m a : m ∉ ExpectedCalls a -> exists msg a', Called m a = (Panic msg, a');
}.

Section Mocks.
Context {TF : Testify}.

Definition UnsetMockFn (method : string) (app : tmock) : tmock :=
  set_ExpectedCalls (filter (fun c => c <> method) (ExpectedCalls app)) app.

Definition ABCIMethods : list string := ["InitChain"; "CheckTx"; "BeginBlock"; "DeliverTx"; "EndBlock"; "Commit"; "Info"].

Definition GetAppMock (excludeMethods : list string) : tmock :=
  foldl (fun app method => UnsetMockFn method (On method app))
    (foldl (fun app method => On method app) new_mock ABCIMethods) excludeMethods.

Definition CountMockCalls (totalCalls : list string) (methodName : string) : nat :=
  length (filter (fun c => c = methodName) totalCalls).

Definition mocked {B} (method : string) (response : B) : M tmock B := do! Called method in ret response.

(** The responses that [GetAppMock] sets. *)
Definition MockApplication : App := {|
  app := tmock;
  app_InitChain _ := mocked "InitChain" {| ri_ConsensusParams := None; ri_AppHash := [] |};
  app_Info a := (mocked "Info" {| inf_LastBlockHeight := 0; inf_LastBlockAppHash := [Byte.x00] |} a).1;
  app_BeginBlock _ := mocked "BeginBlock" {| bb_Events := [] |};
  app_DeliverTx _ := mocked "DeliverTx" (inr {| dtx_Code := 0; dtx_Events := []; dtx_Rest := [] |});
  app_EndBlock _ := mocked "EndBlock" {| eb_Events := []; eb_Rest := [] |};
  app_Commit := mocked "Commit" {| rc_Data := []; rc_RetainHeight := 0 |};
|}.

Context `{!TestifyLaws TF}.

(** The mock answers every method but the excluded ones, and was not called. *)
Lemma GetAppMock_expects ex m : (m ∈ ExpectedCalls (GetAppMock ex) <-> m ∈ ABCIMethods /\ m ∉ ex) /\ Calls (GetAppMock ex) = [].
Proof.
  unfold GetAppMock. destruct new_expects as [E0 C0].
  assert (Hon : forall l a, ExpectedCalls (foldl (fun app method => On method app) a l) = ExpectedCalls a ++ l /\
                            Calls (foldl (fun app method => On method app) a l) = Calls a).
  { intros l. induction l as [|x l IH]; intros a; cbn; [by rewrite app_nil_r|]. destruct (IH (On x a)) as [E1 E2], (On_expects x a) as [E3 E4].
    rewrite E1, E2, E3, E4. by rewrite <- (assoc_L Datatypes.app). }
  destruct (Hon ABCIMethods new_mock) as [E1 C1]. rewrite E0 in E1. rewrite C0 in C1. revert E1 C1. generalize (foldl (fun app method => On method app) new_mock ABCIMethods).
  intros a E1 C1. cbn in E1. rewrite <- E1. clear E1. revert a C1. induction ex as [|x ex IH]; intros a C1; cbn [foldl]; [set_solver|].
  destruct (On_expects x a) as [E3 E4], (set_expects (filter (fun c => c <> x) (ExpectedCalls (On x a))) (On x a)) as [E5 E6].
  destruct (IH (UnsetMockFn x (On x a))) as [Hm Hc]; [unfold UnsetMockFn; congruence|]. split; [|done]. rewrite Hm. unfold UnsetMockFn. rewrite E5, E3.
  rewrite list_elem_of_filter, elem_of_app, list_elem_of_singleton, not_elem_of_cons. naive_solver.
Qed.
End Mocks.

(** ** The empty mempool (mempool/mock/mempool.go) *)

Definition MockMempool : MempoolI := {|
  mempool := unit;
  mp_ReapMaxBytesMaxGas _ _ _ := [];
  mp_FlushAppConn := ret tt;
  mp_Update _ _ _ _ _ := ret tt;
|}.

(** ** The store that fails on demand *)

Section MockStore.
Context {T : Tendermint} {W : Wire} {K : KVStore}.

Record MockStore := {
  ms_ShouldFailSetHeight : bool;
  ms_ShoudFailUpdateState : bool;
  ms_ShouldFailUpdateStateWithBatch : bool;
  ms_DefaultStore : DefaultStore;
  ms_height : Z;
}.

Definition ms_set_store (s : DefaultStore) (m : MockStore) : MockStore :=
  {| ms_ShouldFailSetHeight := ms_ShouldFailSetHeight m; ms_ShoudFailUpdateState := ms_ShoudFailUpdateState m;
     ms_ShouldFailUpdateStateWithBatch := ms_ShouldFailUpdateStateWithBatch m; ms_DefaultStore := s; ms_height := ms_height m |}.

Definition MockStore_SetHeight (height : Z) (m : MockStore) : MockStore :=
  if ms_ShouldFailSetHeight m then m
  else {| ms_ShouldFailSetHeight := ms_ShouldFailSetHeight m; ms_ShoudFailUpdateState := ms_ShoudFailUpdateState m;
          ms_ShouldFailUpdateStateWithBatch := ms_ShouldFailUpdateStateWithBatch m; ms_DefaultStore := ms_DefaultStore m; ms_height := height |}.

Definition MockStore_Height (m : MockStore) : Z := ms_height m.

Definition MockStore_UpdateState (state : State) (obatch : option batch) : M MockStore (option batch) :=
  let! m := get in
  if bool_decide (is_Some obatch) && ms_ShouldFailUpdateStateWithBatch m || ms_ShoudFailUpdateState m && bool_decide (obatch = None)
  then fail (New "failed to update state")
  else zoom ms_DefaultStore ms_set_store (UpdateState state obatch).

Definition NewMockStore (memory : db) : MockStore :=
  {| ms_ShouldFailSetHeight := false; ms_ShoudFailUpdateState := false; ms_ShouldFailUpdateStateWithBatch := false;
     ms_DefaultStore := New_store memory; ms_height := 0 |}.

(** With no failure asked for, and heights that do not decrease, it is the store. *)
Lemma mock_store_faithful h state ob m :
  ms_ShouldFailSetHeight m = false -> ms_ShoudFailUpdateState m = false -> ms_ShouldFailUpdateStateWithBatch m = false ->
  MockStore_Height m = Height (ms_DefaultStore m) -> (Height (ms_DefaultStore m) <= h)%Z ->
  MockStore_Height (MockStore_SetHeight h m) = Height (SetHeight h (ms_DefaultStore m)) /\
  MockStore_UpdateState state ob m = zoom ms_DefaultStore ms_set_store (UpdateState state ob) m.
Proof.
  intros E1 E2 E3 Hh Hle. unfold MockStore_SetHeight, MockStore_UpdateState, SetHeight, MockStore_Height, Height in *. rewrite E1. cbn. split.
  - destruct (Z.ltb_spec (ds_height (ms_DefaultStore m)) h); cbn; lia.
  - unfold bind, get. rewrite E2, E3, andb_false_r. done.
Qed.

(** A failure leaves the store as it was. *)
Lemma mock_store_fails state ob m :
  (if ob is Some _ then ms_ShouldFailUpdateStateWithBatch m else ms_ShoudFailUpdateState m) = true ->
  MockStore_UpdateState state ob m = (Err (New "failed to update state"), m).
Proof.
  intros E. unfold MockStore_UpdateState, bind, get. destruct ob as [b|]; rewrite E.
  - by rewrite bool_decide_true by eauto.
  - by rewrite (bool_decide_true (None = None)), orb_true_r by done.
Qed.
End MockStore.

(** ** Data availability layers that fail *)

Definition connectionRefusedErrorMessage : string := "connection refused".
Definition batchNotFoundErrorMessage : string := "batch not found".

(** The methods that a mock does not override are those of the client it embeds. *)
Definition DALayerClientSubmitBatchError (D : DALayer) : DALayer := {|
  dalc := dalc;
  da_SubmitBatch _ := ret {| dr_Code := StatusError; dr_Message := connectionRefusedErrorMessage; dr_DAHeight := 0 |};
  da_CheckBatchAvailability := da_CheckBatchAvailability;
  da_RetrieveBatches := da_RetrieveBatches;
  da_GetClientType := da_GetClientType;
|}.

Definition DALayerClientRetrieveBatchesError (D : DALayer) : DALayer := {|
  dalc := dalc;
  da_SubmitBatch := da_SubmitBatch;
  da_CheckBatchAvailability := da_CheckBatchAvailability;
  da_RetrieveBatches _ := ret {| drr_Base := {| dr_Code := StatusError; dr_Message := batchNotFoundErrorMessage; dr_DAHeight := 0 |}; drr_Batches := [] |};
  da_GetClientType := da_GetClientType;
|}.

Section FailingDA.
Context {T : Tendermint} {W : Wire} {K : KVStore} {TV : TmValidators} {A : App} {MP : MempoolI}
  {EB : EventBus} {G : GossipWire} {SL : SettlementLayer} {P : P2PClient} {PK : ProposerKey}.
Context (D : DALayer) (cfg : ManagerConf).

(** Over the first one a manager that has a batch to submit panics, and the hub hears of
    nothing; over the second one no block is retrieved. *)
Lemma failing_da_outcomes fuel startHeight endHeight daHeight :
  (let DA := DALayerClientSubmitBatchError D in forall m : Manager (DA := DA),
     match submit_rest cfg fuel startHeight endHeight m with
     | (Ok (Submitted _), _) => False
     | (_, m') => m_settlementClient m' = m_settlementClient m
     end) /\
  (let DA := DALayerClientRetrieveBatchesError D in forall m : Manager (DA := DA),
     exists m', processNextDABatch cfg daHeight m = (Err (New "failed to retrieve batch"), m') /\ m_store m' = m_store m).
Proof.
  split; intros DA m.
  - unfold submit_rest, bind, try, read. destruct (createNextDABatch cfg fuel startHeight endHeight (m_store m)) as [[b|]|err|msg]; cbn; done.
  - eexists. split; [reflexivity|]. done.
Qed.
End FailingDA.

(** ** A generated chain is accepted *)

Section Accepted.
Context {T : Tendermint} {R : Rand} {PK : ProposerKey} {TV : TmValidators} {EB : EventBus} {TF : Testify} `{!TestifyLaws TF}.
#[local] Existing Instance MockApplication.
#[local] Existing Instance MockMempool.

(** The executor's part of applying blocks, one after the other: what [applyBlock] does between
    the writes to the store. *)
Fixpoint follow (e : BlockExecutor) (proposer : option Sequencer) (state : State) (blocks : list Block) (commits : list Commit) : M ExecEnv State :=
  match blocks, commits with
  | block :: blocks, commit :: commits =>
      do! lift (Validate state block commit proposer) in
      let! responses := on_app (Execute e state block) in
      let! newState := lift (UpdateStateFromResponses responses state block) in
      let! (newState, _) := Commit_block newState block responses in
      follow e proposer (with_stored (st_Validators newState) (hdr_Height (blk_Header block)) (st_BaseHeight newState) newState) blocks commits
  | _, _ => ret state
  end.

(** The key signs headers so that its public half verifies them, within the size of a signature, and the
    hash of no results fills an array. *)
Context (pk : PubKey) (e : BlockExecutor).
Hypothesis key_signs : forall hdr msg sg, header_marshal hdr = Ok msg -> key_Sign msg = Ok sg -> VerifySignature pk msg sg = true /\ length sg <= MaxSignatureSize.
Hypothesis results_size : length (results_hash []) = 32.

Definition proposer : option Sequencer := Some {| seq_PublicKey := pk; seq_Status := Proposer |}.

Lemma empty_hash : getEmptyLastResultsHash = Ok (copy_into zero_hash (results_hash [])).
Proof. unfold getEmptyLastResultsHash. by rewrite results_size. Qed.

(** What the generators fix of a block with [k] transactions. *)
Record generated (k : nat) (h : Z) (b : Block) : Prop := {
  ge_height : hdr_Height (blk_Header b) = h;
  ge_version : hdr_Version (blk_Header b) = {| ver_Block := BlockVersion; ver_App := AppVersion |};
  ge_app : hdr_AppHash (blk_Header b) = zero_hash;
  ge_results : hdr_LastResultsHash (blk_Header b) = copy_into zero_hash (results_hash []);
  ge_proposer : hdr_ProposerAddress (blk_Header b) <> [];
  ge_txs : length (data_Txs (blk_Data b)) = k;
}.

Lemma generateBlock_ok h r b r' : generateBlock h r = (Ok b, r') -> generated 0 h b.
Proof.
  intros Hr. unfold generateBlock in Hr. go_inv Hr. rewrite empty_hash in Hr. unfold lift, bind at 1 in Hr.
  repeat go_inv Hr. by split.
Qed.

(** A block with its signature in the last commit. *)
Definition self_signed (b : Block) : Prop :=
  exists sg, generateSignature (blk_Header b) = Ok sg /\ cm_Signatures (blk_LastCommit b) = [sg].

Lemma generate_loop_ok k body start n r bs r' :
  (forall h r b r', body h r = (Ok b, r') -> generated k h b) -> generate_loop body start n r = (Ok bs, r') ->
  length bs = n /\ forall i b, bs !! i = Some b -> generated k (u64 (start + Z.of_nat i)) b /\ self_signed b.
Proof.
  intros Hbody. revert start r bs. induction n as [|n IH]; intros start r bs Hr; cbn [generate_loop] in Hr; [by go_inv Hr|].
  go_inv Hr. rename r0 into b0. go_inv Hr. go_inv Hrun0. rename r0 into sg. go_inv Hr. rename r0 into rest. go_inv Hr.
  destruct (IH _ _ _ Hrun1) as [Hl Hi]. split; [cbn; congruence|]. intros [|i] b Hb; cbn in Hb.
  - injection Hb as <-. destruct (Hbody _ _ _ _ Hrun). rewrite Z.add_0_r. split; [by split|by exists sg].
  - destruct (Hi i b Hb) as [Hg Hs]. split; [|done]. by replace (start + Z.of_nat (S i))%Z with (start + 1 + Z.of_nat i)%Z by lia.
Qed.

Lemma random_txs_length n r txs r' : random_txs n r = (Ok txs, r') -> length txs = n.
Proof.
  revert r txs. induction n as [|n IH]; intros r txs Hr; cbn [random_txs] in Hr; [by go_inv Hr|].
  do 3 go_inv Hr. go_inv Hr. cbn. f_equal. eauto.
Qed.

Lemma generateTxs_ok k h r b r' :
  (let! block := generateBlock h in let! data := random_data k in
   ret {| blk_Header := blk_Header block; blk_Data := data; blk_LastCommit := blk_LastCommit block |}) r = (Ok b, r') -> generated k h b.
Proof.
  intros Hr. go_inv Hr. go_inv Hr. go_inv Hr. apply generateBlock_ok in Hrun as []. unfold random_data in Hrun0. go_inv Hrun0. go_inv Hrun0.
  apply random_txs_length in Hrun. split; try done. cbn. by rewrite length_fmap.
Qed.

(** The commit that is generated for a block. *)
Definition commit_for (b : Block) (c : Commit) : Prop :=
  cm_Height c = hdr_Height (blk_Header b) /\ cm_HeaderHash c = Header_Hash (blk_Header b) /\
  exists sg, generateSignature (blk_Header b) = Ok sg /\ cm_Signatures c = [sg].

Lemma GenerateCommits_ok bs cs : GenerateCommits bs = Ok cs -> Forall2 commit_for bs cs.
Proof.
  revert cs. induction bs as [|b bs IH]; intros cs Hr; cbn [GenerateCommits] in Hr; [by injection Hr as <-|].
  go_inv Hr. go_inv Hr. injection Hr as <-. constructor; [|by apply IH]. split_and!; [done..|]. by exists r.
Qed.

(** ** Validation *)

(** A state that a generated block of height [h] extends. *)
Record extendable (h : Z) (state : State) : Prop := {
  ex_version : st_Version state = {| ver_Block := BlockVersion; ver_App := AppVersion |};
  ex_first : (st_LastBlockHeight state <= 0)%Z -> u64 (st_InitialHeight state) = h;
  ex_next : (0 < st_LastBlockHeight state)%Z -> u64 (st_LastStoreHeight state + 1) = h;
  ex_app : st_AppHash state = zero_hash;
}.

Lemma self_signed_ok b : self_signed b -> Commit_ValidateBasic (blk_LastCommit b) = Ok tt.
Proof.
  intros (sg & Hsg & Hl). unfold generateSignature in Hsg. go_inv Hsg. destruct (key_signs _ _ _ Hres Hsg) as [_ Hlen].
  apply Commit_ValidateBasic_ok. right. eauto.
Qed.

(** All that is left to check is the hash of the results of the block before. *)
Lemma generated_checked k h b state :
  generated k h b -> self_signed b -> extendable h state ->
  validateBlock state b = if decide (vec_to_list (copy_into zero_hash (results_hash [])) <> vec_to_list (st_LastResultsHash state))
                          then Err (New "LastResultsHash mismatch") else Ok tt.
Proof.
  intros [Hh Hv Ha Hr Hp _] Hs [Ev Ef En Ea].
  assert (Hb : Block_ValidateBasic b = Ok tt).
  { unfold Block_ValidateBasic, Header_ValidateBasic. destruct (decide _) as [Hz|_]; [by destruct (hdr_ProposerAddress (blk_Header b))|]. cbn.
    by rewrite (self_signed_ok b Hs). }
  unfold validateBlock. rewrite Hb. cbn [result_bind]. rewrite Hv, Ev. cbn -[zero_hash]. rewrite Hh, Ha, Ea, Hr.
  assert (Hg1 : ((st_LastBlockHeight state <=? 0) && negb (h =? u64 (st_InitialHeight state)))%Z = false).
  { destruct (Z.leb_spec (st_LastBlockHeight state) 0); [|done]. by rewrite Ef, Z.eqb_refl by done. }
  assert (Hg2 : ((0 <? st_LastBlockHeight state) && negb (h =? u64 (st_LastStoreHeight state + 1)))%Z = false).
  { destruct (Z.ltb_spec 0 (st_LastBlockHeight state)); [|done]. by rewrite En, Z.eqb_refl by done. }
  rewrite Hg1, Hg2. by rewrite (decide_False (P := vec_to_list zero_hash <> _)) by (intros Hn; by apply Hn).
Qed.

Lemma generated_valid k h b c state :
  generated k h b -> self_signed b -> commit_for b c -> extendable h state -> st_LastResultsHash state = copy_into zero_hash (results_hash []) ->
  Validate state b c proposer = Ok tt.
Proof.
  intros Hg Hs (_ & _ & sg & Hsg & Hc) He Er. unfold Validate. rewrite (generated_checked k h b state Hg Hs He), Er.
  rewrite decide_False by (intros Hn; by apply Hn). cbn [result_bind]. unfold generateSignature in Hsg. go_inv Hsg.
  destruct (key_signs _ _ _ Hres Hsg) as [Hver Hlen]. unfold validateCommit. rewrite Hres. cbn [result_bind]. unfold Commit_Validate.
  assert (Commit_ValidateBasic c = Ok tt) as -> by (apply Commit_ValidateBasic_ok; right; eauto). cbn. rewrite Hc. cbn. by rewrite Hver.
Qed.

(** ** Execution over the mock *)

Definition default_DeliverTx : ResponseDeliverTx := {| dtx_Code := 0; dtx_Events := []; dtx_Rest := [] |}.

Lemma after_trans ms ms' a a' a'' : after ms a a' -> after ms' a' a'' -> after (ms ++ ms') a a''.
Proof. intros [E1 E2] [E3 E4]. split; [rewrite E3, E1; by rewrite (assoc_L Datatypes.app)|congruence]. Qed.

(** A mock that answers what a block needs. *)
Definition answers (a : tmock) : Prop := forall m, m ∈ ["BeginBlock"; "DeliverTx"; "EndBlock"; "Commit"] -> m ∈ ExpectedCalls a.

Lemma after_answers ms a a' : after ms a a' -> answers a -> answers a'.
Proof. intros [_ E] Ha m. rewrite E. apply Ha. Qed.

Lemma mocked_ok {B} method (resp : B) a : method ∈ ["BeginBlock"; "DeliverTx"; "EndBlock"; "Commit"] -> answers a ->
  exists a', mocked method resp a = (Ok resp, a') /\ after [method] a a' /\ answers a'.
Proof.
  intros Hm Ha. destruct (Called_expected method a (Ha _ Hm)) as (a' & Hr & Hc). exists a'. unfold mocked. rewrite (bind_ok _ _ _ _ _ Hr).
  split; [done|]. split; [done|by eapply after_answers].
Qed.

Lemma deliver_mock txs (a : tmock) : answers a ->
  exists a', deliver_txs txs a = (Ok (replicate (length txs) default_DeliverTx), a') /\ after (replicate (length txs) "DeliverTx") a a' /\ answers a'.
Proof.
  revert a. induction txs as [|tx txs IH]; intros a Ha; cbn [deliver_txs length replicate].
  { exists a. split; [done|]. split; [|done]. split; [by rewrite app_nil_r|done]. }
  destruct (mocked_ok "DeliverTx" (inr default_DeliverTx : string + _) a ltac:(set_solver) Ha) as (a1 & Hr & H1 & Ha1).
  destruct (IH a1 Ha1) as (a2 & Hr2 & H2 & Ha2). exists a2. erewrite bind_ok by exact Hr. cbv beta iota. erewrite bind_ok by exact Hr2.
  split; [done|]. split; [|done]. exact (after_trans _ _ _ _ _ H1 H2).
Qed.

(** The calls for a block of [k] transactions. *)
Definition block_calls (k : nat) : list string := "BeginBlock" :: replicate k "DeliverTx" ++ ["EndBlock"; "Commit"].

Definition one_block (state : State) (block : Block) : M ExecEnv State :=
  let! responses := on_app (Execute e state block) in
  let! newState := lift (UpdateStateFromResponses responses state block) in
  let! (newState, _) := Commit_block newState block responses in
  ret (with_stored (st_Validators newState) (hdr_Height (blk_Header block)) (st_BaseHeight newState) newState).

Lemma updateState_total state block ups : ups = [] -> exists ns, updateState state block ups = Ok ns /\ st_Version ns = st_Version state /\
  st_LastBlockHeight ns = i64 (hdr_Height (blk_Header block)) /\ st_AppHash ns = st_AppHash state /\ st_LastResultsHash ns = st_LastResultsHash state.
Proof. intros ->. unfold updateState. destruct (decide (0 < length (vs_Validators (st_NextValidators state)))); cbn; by eexists. Qed.

Lemma copy_into_nil {B n} (d : vec B n) : copy_into d [] = d.
Proof. by destruct d. Qed.

Lemma Execute_mock k b state (a : tmock) : length (data_Txs (blk_Data b)) = k -> answers a ->
  exists rs a', Execute e state b a = (Ok rs, a') /\ rs_DeliverTxs rs = replicate k default_DeliverTx /\
    after ("BeginBlock" :: replicate k "DeliverTx" ++ ["EndBlock"]) a a' /\ answers a'.
Proof.
  intros Ek Ha. unfold Execute. destruct (mocked_ok "BeginBlock" {| bb_Events := [] |} a ltac:(set_solver) Ha) as (a1 & Hr1 & H1 & Ha1).
  destruct (deliver_mock (data_Txs (blk_Data b)) a1 Ha1) as (a2 & Hr2 & H2 & Ha2). rewrite Ek in Hr2, H2.
  destruct (mocked_ok "EndBlock" {| eb_Events := []; eb_Rest := [] |} a2 ltac:(set_solver) Ha2) as (a3 & Hr3 & H3 & Ha3).
  erewrite bind_ok by exact Hr1. erewrite bind_ok by exact Hr2. erewrite bind_ok by exact Hr3. eexists _, a3. split; [reflexivity|]. split; [done|].
  split; [|done]. exact (after_trans _ _ _ _ _ H1 (after_trans _ _ _ _ _ H2 H3)).
Qed.

(** An environment with the mock and no event bus, after the calls [ms]. *)
Definition env_after (ms : list string) (x x' : ExecEnv) : Prop := after ms (ee_app x) (ee_app x') /\ answers (ee_app x') /\ ee_eventBus x' = None.

Lemma Commit_mock state b rs x : answers (ee_app x) -> ee_eventBus x = None ->
  exists x', Commit_block state b rs x = (Ok (committed_state state [] rs, 0%Z), x') /\ env_after ["Commit"] x x'.
Proof.
  intros Ha Hb. destruct (mocked_ok "Commit" {| rc_Data := []; rc_RetainHeight := 0 |} (ee_app x) ltac:(set_solver) Ha) as (a & Hr & H & Ha').
  unfold Commit_block, commit, on_mempool, on_app, zoom. unfold bind, ret. cbn -[mocked publishEvents committed_state]. rewrite Hr.
  cbn -[publishEvents committed_state]. unfold publishEvents. cbn -[committed_state]. rewrite Hb. eexists. split; [reflexivity|]. by split_and!.
Qed.

Lemma one_block_ok k h b state x :
  generated k h b -> extendable h state -> (0 < h < 2 ^ 63)%Z -> answers (ee_app x) -> ee_eventBus x = None ->
  exists ns x', one_block state b x = (Ok ns, x') /\ env_after (block_calls k) x x' /\
    extendable (u64 (h + 1)) ns /\ st_LastBlockHeight ns = h /\
    st_LastResultsHash ns = copy_into (st_LastResultsHash state) (results_hash (replicate k default_DeliverTx)).
Proof.
  intros Hg [Ev Ef En Ea] Hh Ha Hb. destruct Hg as [Eh _ _ _ _ Ek].
  destruct (updateState_total state b [] eq_refl) as (ns & Hns & Nv & Nh & Na & Nr).
  destruct (Execute_mock k b state (ee_app x) Ek Ha) as (rs & a & Hx & Hrs & H1 & Ha1).
  destruct (Commit_mock ns b rs (with_app a x) Ha1 Hb) as (x' & Hc & H2 & Ha2 & Hb2).
  eexists _, x'. split; [|split; [|split; [|split]]].
  - unfold one_block. erewrite bind_ok by (unfold on_app, zoom; by rewrite Hx). erewrite bind_ok by (unfold lift; by rewrite <- Hns).
    by erewrite bind_ok by exact Hc.
  - split; [|done]. unfold block_calls. change ["EndBlock"; "Commit"] with (["EndBlock"] ++ ["Commit"]). rewrite (assoc_L Datatypes.app).
    exact (after_trans _ _ _ _ _ H1 H2).
  - split; cbn; [congruence| | |by rewrite copy_into_nil, Na].
    + rewrite Nh, Eh, i64_small by (unfold is_i64; lia). lia.
    + intros _. by rewrite Eh.
  - cbn. rewrite Nh, Eh. apply i64_small. unfold is_i64. lia.
  - cbn. by rewrite Nr, Hrs.
Qed.

Lemma follow_cons state b bs c cs x ns x' :
  Validate state b c proposer = Ok tt -> one_block state b x = (Ok ns, x') ->
  follow e proposer state (b :: bs) (c :: cs) x = follow e proposer ns bs cs x'.
Proof.
  intros Hv Ho. cbn [follow]. rewrite (bind_ok _ _ x tt x) by (unfold lift; by rewrite Hv).
  unfold one_block in Ho. go_inv Ho. erewrite bind_ok by exact Hrun. go_inv Ho. erewrite bind_ok by exact Hrun0.
  go_inv Ho. erewrite bind_ok by exact Hrun1. destruct r1 as [ns' z]. by go_inv Ho.
Qed.

(** Blocks without transactions, one after the other. *)
Lemma follow_ok bs cs start state x :
  Forall2 commit_for bs cs -> (forall i b, bs !! i = Some b -> generated 0 (start + Z.of_nat i) b /\ self_signed b) ->
  (0 < start)%Z -> (start + Z.of_nat (length bs) < 2 ^ 63)%Z -> extendable start state ->
  st_LastResultsHash state = copy_into zero_hash (results_hash []) -> answers (ee_app x) -> ee_eventBus x = None ->
  exists ns x', follow e proposer state bs cs x = (Ok ns, x') /\ env_after (concat (replicate (length bs) (block_calls 0))) x x' /\
    (bs <> [] -> st_LastBlockHeight ns = (start + Z.of_nat (length bs) - 1)%Z).
Proof.
  intros Hc. revert start state x. induction Hc as [|b c bs cs Hbc Hc IH]; intros start state x Hg H0 Hlt He Hr Ha Hb.
  { exists state, x. split; [done|]. split; [|done]. split; [|done]. split; [by rewrite app_nil_r|done]. }
  destruct (Hg 0 b eq_refl) as [Hgb Hsb]. rewrite Z.add_0_r in Hgb. cbn [length] in Hlt.
  destruct (one_block_ok 0 start b state x Hgb He ltac:(lia) Ha Hb) as (ns & x1 & Ho & (Hx1 & Ha1 & Hb1) & He' & Hh & Hr').
  rewrite (follow_cons _ _ _ _ _ _ ns _ (generated_valid 0 start b c state Hgb Hsb Hbc He Hr) Ho).
  destruct (IH (start + 1)%Z ns x1) as (ns' & x2 & Hf & (Hx2 & Ha2 & Hb2) & Hlast); [|lia|lia| | |done|done|].
  - intros i b' Hi. replace (start + 1 + Z.of_nat i)%Z with (start + Z.of_nat (S i))%Z by lia. by apply Hg.
  - rewrite u64_small in He' by (unfold is_u64; lia). done.
  - rewrite Hr'. by apply copy_into_full.
  - exists ns', x2. split; [done|]. split; [split; [exact (after_trans _ _ _ _ _ Hx1 Hx2)|done]|].
    intros _. destruct bs as [|b' bs]; [|rewrite Hlast by done; cbn [length]; lia].
    inversion Hc; subst. cbn [follow] in Hf. unfold ret in Hf. injection Hf as -> _. cbn. lia.
Qed.

Lemma GenerateState_ok start last q state q' :
  GenerateState start last q = (Ok state, q') -> is_u64 start -> (last <= 0)%Z ->
  extendable start state /\ st_LastResultsHash state = copy_into zero_hash (results_hash []).
Proof.
  intros Hs Hu Hl. unfold GenerateState in Hs. rewrite empty_hash in Hs. unfold lift, bind at 1 in Hs. do 3 go_inv Hs. go_inv Hs.
  split; [|done]. split; cbn; [done|intros _; by apply u64_small|lia|done].
Qed.

Lemma count_calls n m : CountMockCalls (concat (replicate n (block_calls 0))) m = (n * CountMockCalls (block_calls 0) m)%nat.
Proof. induction n as [|n IH]; [done|]. unfold CountMockCalls in *. cbn [replicate concat]. rewrite filter_app, length_app, IH. lia. Qed.

(** C40: a generated chain is a valid chain: whatever the random bytes and the key, the batch that
    [GenerateBatch] returns for a range of heights has one block and one commit for each of
    them, and from the state that [GenerateState] returns for the first height the executor
    validates, executes and commits every block in turn - the mock of the application is called
    to begin and to commit each block once and to deliver no transaction - and stands at the last
    height. *)
Theorem generated_chain_accepted start stop last r batch r' q state q' x :
  GenerateBatch start stop r = (Ok batch, r') -> GenerateState start last q = (Ok state, q') ->
  (0 < start <= stop)%Z -> (stop + 1 < 2 ^ 63)%Z -> (last <= 0)%Z -> ee_app x = GetAppMock [] -> ee_eventBus x = None ->
  length (bt_Blocks batch) = Z.to_nat (stop - start + 1) /\ length (bt_Commits batch) = length (bt_Blocks batch) /\
  exists ns x', follow e proposer state (bt_Blocks batch) (bt_Commits batch) x = (Ok ns, x') /\ st_LastBlockHeight ns = stop /\
    CountMockCalls (Calls (ee_app x')) "BeginBlock" = length (bt_Blocks batch) /\
    CountMockCalls (Calls (ee_app x')) "Commit" = length (bt_Blocks batch) /\ CountMockCalls (Calls (ee_app x')) "DeliverTx" = 0.
Proof.
  intros Hb Hs Hr1 Hr2 Hlast Hx Hbus. unfold GenerateBatch in Hb. go_inv Hb. rename r0 into bs. go_inv Hb. go_inv Hrun0. rename r0 into cs. go_inv Hb.
  unfold GenerateBlocks in Hrun. go_inv Hrun. unfold make_slice in Hrun1. rewrite u64_small in Hrun1 by (unfold is_u64; lia).
  destruct (Z.ltb_spec (stop - start + 1) (2 ^ 63)); [|lia]. unfold lift in Hrun1. injection Hrun1 as <- <-.
  destruct (generate_loop_ok 0 _ _ _ _ _ _ generateBlock_ok Hrun) as [Hl Hg]. apply GenerateCommits_ok in Hrun0. cbn [bt_Blocks bt_Commits].
  rewrite <- (Forall2_length _ _ _ Hrun0). split; [done|]. split; [done|].
  destruct (GenerateState_ok start last q state q' Hs) as [He Hres]; [unfold is_u64; lia|done|].
  destruct (GetAppMock_expects [] "") as [_ Hnone].
  destruct (follow_ok bs cs start state x) as (ns & x' & Hf & ([Hcalls _] & _) & Hn); [exact Hrun0| |lia|lia|exact He|exact Hres|rewrite Hx|exact Hbus|].
  - intros i b Hi. destruct (Hg i b Hi) as [Hgi ?]. split; [|done]. apply lookup_lt_Some in Hi. rewrite u64_small in Hgi by (unfold is_u64; lia). done.
  - intros m Hm. apply GetAppMock_expects. unfold ABCIMethods. set_solver.
  - exists ns, x'. split; [exact Hf|]. rewrite Hx, Hnone in Hcalls. cbn in Hcalls. rewrite Hcalls, !count_calls.
    split; [rewrite Hn by (intros ->; cbn in Hl; lia); lia|]. split_and!; vm_compute (CountMockCalls (block_calls 0) _); lia.
Qed.

(** Heights the wrong way round: the number of blocks wraps around. *)
Lemma GenerateBatch_reversed start stop r :
  is_u64 start -> is_u64 stop -> (stop + 1 < start)%Z -> (start - stop - 1 <= 2 ^ 63)%Z -> exists msg, GenerateBatch start stop r = (Panic msg, r).
Proof.
  intros Hu1 Hu2 Hlt Hle. unfold GenerateBatch, GenerateBlocks, bind, lift, make_slice.
  assert (E : u64 (stop - start + 1) = (stop - start + 1 + 2 ^ 64)%Z).
  { unfold u64. rewrite <- (Z_mod_plus_full _ 1), Z.mul_1_l. apply Z.mod_small. unfold is_u64 in *. lia. }
  rewrite E. destruct (Z.ltb_spec (stop - start + 1 + 2 ^ 64) (2 ^ 63)); [lia|]. eauto.
Qed.

(** Blocks that are generated with transactions are no chain: the mock answers every
    transaction, and the second header still has the hash of no results. *)
Lemma generated_txs_refused k start r b1 b2 r' c1 c2 state x :
  GenerateBlocksWithTxs start 2 k r = (Ok [b1; b2], r') -> GenerateCommits [b1; b2] = Ok [c1; c2] -> (0 < start)%Z -> (start + 1 < 2 ^ 63)%Z ->
  extendable start state -> st_LastResultsHash state = copy_into zero_hash (results_hash []) -> answers (ee_app x) -> ee_eventBus x = None ->
  copy_into zero_hash (results_hash (replicate k default_DeliverTx)) <> copy_into zero_hash (results_hash []) ->
  length (results_hash (replicate k default_DeliverTx)) = 32 ->
  exists x', follow e proposer state [b1; b2] [c1; c2] x = (Err (New "LastResultsHash mismatch"), x').
Proof.
  intros Hb Hc H0 Hlt He Hr Ha Hbus Hne Hlen. unfold GenerateBlocksWithTxs in Hb. unfold lift, bind at 1, make_slice in Hb. cbn -[generate_loop u64] in Hb.
  destruct (generate_loop_ok k _ _ _ _ _ _ (generateTxs_ok k) Hb) as [_ Hg]. apply GenerateCommits_ok in Hc. inversion Hc as [|? ? ? ? H1]; subst.
  destruct (Hg 0 b1 eq_refl) as [G1 S1], (Hg 1 b2 eq_refl) as [G2 S2]. rewrite Z.add_0_r, u64_small in G1 by (unfold is_u64; lia).
  destruct (one_block_ok k start b1 state x G1 He ltac:(lia) Ha Hbus) as (ns & x1 & Ho & _ & He' & _ & Hr').
  rewrite (follow_cons _ _ _ _ _ _ ns _ (generated_valid k start b1 c1 state G1 S1 H1 He Hr) Ho). cbn [follow].
  eexists. unfold bind at 1, lift, Validate. rewrite (generated_checked k _ b2 ns G2 S2 He'), decide_True; [done|].
  rewrite Hr', (copy_into_full _ zero_hash _ Hlen). intros E. apply Hne. symmetry. by apply vec_to_list_inj2.
Qed.
End Accepted.

(** ** A concrete chain *)

Section TestChain.
Import ToyInstances.

(** A source that counts. *)
Definition toy_rand : @Rand toy := {|
  rng := nat;
  rand_Read n r := (replicate n (byte_of_Z (Z.of_nat r)), None, S r);
  rand_Int max r := ((Z.of_nat r mod max)%Z, S r);
  rand_ValidatorSet r := ([Z.of_nat r] : @ValidatorSet toy, S r);
|}.
#[local] Existing Instance toy_rand.

#[local] Instance toy_rand_laws : RandLaws toy_rand.
Proof. split; [intros n r; apply length_replicate|intros max r Hm; by apply Z.mod_pos_bound]. Qed.

Definition seed : @rng toy toy_rand := 0.
(** A mock that only keeps its lists. *)
Definition toy_testify : Testify := {|
  tmock := list string * list string;
  new_mock := ([], []);
  ExpectedCalls := fst;
  set_ExpectedCalls ms a := (ms, a.2);
  Calls := snd;
  On m a := (a.1 ++ [m], a.2);
  Called m a := if decide (m ∈ a.1) then (Ok tt, (a.1, a.2 ++ [m])) else (Panic "mock: unexpected call", a);
|}.
#[local] Existing Instance toy_testify.

#[local] Instance toy_testify_laws : TestifyLaws toy_testify.
Proof.
  split; try done.
  - intros m a Hm. eexists. unfold Called, toy_testify. rewrite decide_True by done. done.
  - intros m a Hm. do 2 eexists. unfold Called, toy_testify. rewrite decide_False by done. done.
Qed.

Definition test_env := @Build_ExecEnv MockApplication MockMempool toy_events (GetAppMock []) tt None.
Definition test_batch : Batch := get_ok {| bt_StartHeight := 0; bt_EndHeight := 0; bt_Blocks := []; bt_Commits := [] |} (GenerateBatch 3 7 seed).1.
Definition test_state : State := get_ok (toy_state 0 0) (GenerateState 3 0 seed).1.

(** Five blocks from height 3 on. *)
Lemma generated_chain_accepted_witness :
  length (bt_Blocks test_batch) = 5 /\
  exists ns x', follow (mc_executor toy_cfg) (proposer ([Byte.x6b] : @PubKey toy)) test_state (bt_Blocks test_batch) (bt_Commits test_batch) test_env = (Ok ns, x') /\
    st_LastBlockHeight ns = 7%Z.
Proof.
  destruct (generated_chain_accepted (T := toy) (R := toy_rand) ([Byte.x6b] : @PubKey toy) (mc_executor toy_cfg)) with (start := 3%Z) (stop := 7%Z) (last := 0%Z) (r := seed) (batch := test_batch)
    (r' := (GenerateBatch 3 7 seed).2) (q := seed) (state := test_state) (q' := (GenerateState 3 0 seed).2) (x := test_env) as (Hl & _ & ns & x' & Hf & Hh & _).
  - intros hdr msg sg [= <-] [= <-]. split; [reflexivity|cbn; lia].
  - reflexivity.
  - vm_compute. reflexivity.
  - vm_compute. reflexivity.
  - lia.
  - lia.
  - lia.
  - reflexivity.
  - reflexivity.
  - split; [exact Hl|]. exists ns, x'. split; [exact Hf|exact Hh].
Defined.
End TestChain.
