(* ===== verification/ManagerTypes.v ===== *)
(** * ManagerTypes: the integers of the manager stay within their Go types

    Go's integers are modelled as [Z] with the conversions of the source written out; here the
    fields of [Manager] and [types.State] (block/manager.go, types/state.go) are shown to hold
    values of their declared types from [NewManager] on, after any handler. *)
From stdpp Require Import base gmap strings vector sorting numbers list.
From S2P Require Import Prelude KVStore Types Serialization Concrete Store StorePrune StoreSpec Conv Executor Gossip Layers Manager ManagerLoops ManagerInv ConcreteNode ManagerSpec ChainInv.

Lemma is_u64_0 : is_u64 0.
Proof. unfold is_u64. lia. Qed.
Lemma is_i64_0 : is_i64 0.
Proof. unfold is_i64. lia. Qed.
#[export] Hint Resolve u64_range i64_range is_u64_0 is_i64_0 : go_int.

Section StoreTypes.
Context {T : Tendermint} {W : Wire} {K : KVStore}.

(** [uint64] fields of the store. *)
Definition store_typed (s : DefaultStore) : Prop := is_u64 (ds_height s) /\ is_u64 (ds_baseHeight s).

Lemma heights_typed {B} (c : M DefaultStore B) :
  (forall h b, preserves (fun s => ds_height s = h /\ ds_baseHeight s = b) c) -> preserves store_typed c.
Proof. intros Hc s [Hh Hb]. destruct (Hc _ _ s (conj eq_refl eq_refl)) as [E1 E2]. unfold store_typed. by rewrite E1, E2. Qed.

Lemma flush_typed base : is_u64 base -> preserves (fun p => store_typed (ps_store p)) (flush base).
Proof.
  intros Hu p [Hh Hb]. unfold flush. destruct (batch_commit _ _) as [[] d]; [|done..]. simpl. unfold SetBase. simpl. by case_match.
Qed.

Lemma prune_step_typed h : is_u64 h -> preserves (fun p => store_typed (ps_store p)) (prune_step h).
Proof.
  intros Hu p Hp. unfold prune_step. destruct (loadHashFromIndex _ _); [|done..].
  apply (preserves_bind (fun p => store_typed (ps_store p))); [by apply preserves_zoom| |done]. intros _. apply preserves_bind; [by apply preserves_modify|intros].
  apply preserves_bind; [apply preserves_gets|intros]. case_match; [|apply preserves_ret].
  apply preserves_bind; [by apply flush_typed|intros]. by apply preserves_modify.
Qed.

Lemma prune_loop_typed base h : is_u64 base -> is_u64 h -> preserves (fun p => store_typed (ps_store p)) (prune_loop base h).
Proof.
  intros Hb Hh. apply preserves_bind; [|by intros; apply flush_typed].
  apply preserves_for_each. intros x [Hlo Hhi]%elem_of_seqZ. apply prune_step_typed. unfold is_u64 in *. lia.
Qed.

Lemma PruneBlocks_typed n : preserves store_typed (PruneBlocks n).
Proof.
  intros s [Hh Hb]. unfold PruneBlocks. destruct (n <=? 0)%Z; [done|]. destruct (Height s <? u64 n)%Z; [done|].
  destruct (u64 n <? Base s)%Z; [done|].
  pose proof (prune_loop_typed (Base s) (u64 n) Hb (u64_range n) {| ps_store := s; ps_batch := kv_new_batch (ds_db s); ps_pruned := 0 |} (conj Hh Hb)).
  by destruct (prune_loop _ _ _) as [[] p].
Qed.

Lemma SetHeight_typed h s : is_u64 h -> store_typed s -> store_typed (SetHeight h s).
Proof. intros Hu [Hh Hb]. unfold SetHeight. by case_match. Qed.

(** [types.State] with its integers in their types. *)
Record state_typed (st : State) : Prop := {
  sty_InitialHeight : is_i64 (st_InitialHeight st);
  sty_LastBlockHeight : is_i64 (st_LastBlockHeight st);
  sty_LastBlockTime : is_i64 (st_LastBlockTime st);
  sty_SLStateIndex : is_u64 (st_SLStateIndex st);
  sty_LastHeightValidatorsChanged : is_i64 (st_LastHeightValidatorsChanged st);
  sty_LastHeightConsensusParamsChanged : is_i64 (st_LastHeightConsensusParamsChanged st);
  sty_LastStoreHeight : is_u64 (st_LastStoreHeight st);
  sty_BaseHeight : is_u64 (st_BaseHeight st);
}.

Lemma updateState_typed rs st block ns :
  UpdateStateFromResponses rs st block = Ok ns -> state_typed st -> state_typed ns.
Proof.
  unfold UpdateStateFromResponses, updateState. rewrite (decide_False (P:=0 < length [])) by (simpl; lia).
  intros Hr []. go_inv Hr. case_decide; simplify_eq/=; split; simpl; auto with go_int.
Qed.
End StoreTypes.

Section ManagerTypes.
Context {T : Tendermint} {W : Wire} {K : KVStore} `{!KVLaws K} {TV : TmValidators} {A : App} {MP : MempoolI}
  {EB : EventBus} {G : GossipWire} {DA : DALayer} {SL : SettlementLayer} {P : P2PClient} {PK : ProposerKey}.
Context (cfg : ManagerConf).

(** [Manager] with its integers in their types. *)
Record typed (m : Manager) : Prop := {
  ty_store : store_typed (m_store m);
  ty_state : state_typed (m_lastState m);
  ty_syncTarget : is_u64 (m_syncTarget m);
  ty_lastSubmissionTime : is_i64 (m_lastSubmissionTime m);
  ty_diode t : m_syncTargetDiode m = Some t -> is_u64 t;
}.

(** The settlement client returns [uint64] heights and indexes. *)
Definition sl_typed : Prop := forall i l res l',
  sl_RetrieveBatch i l = (Ok res, l') ->
  is_u64 (srb_StateIndex res) /\ forall b, srb_Batch res = Some b -> is_u64 (sb_EndHeight b).

Lemma store_op_typed {B} (c : M DefaultStore B) : preserves store_typed c -> preserves typed (on_store c).
Proof. intros Hc. apply preserves_zoom. intros m s [] ->. split; simpl; auto. Qed.

Lemma heights_op_typed {B} (c : M DefaultStore B) :
  (forall h b, preserves (fun s => ds_height s = h /\ ds_baseHeight s = b) c) -> preserves typed (on_store c).
Proof. intros Hc. by apply store_op_typed, heights_typed. Qed.

Lemma set_lastState_typed st m : state_typed st -> typed m -> typed (set_lastState st m).
Proof. by intros ? []. Qed.

Lemma with_stored_typed vs h b st : is_u64 h -> is_u64 b -> state_typed st -> state_typed (with_stored vs h b st).
Proof. by intros ? ? []. Qed.

Lemma set_height_typed h : is_u64 h -> preserves typed (modify (fun m => set_store (SetHeight h (m_store m)) m)).
Proof. intros Hu. apply preserves_modify. intros m []. split; try done. by apply SetHeight_typed. Qed.

(** Steps that touch none of the typed fields, or only through typed operations. *)
Ltac keep_typed := repeat first
  [ solve [auto with go_inv] | apply heights_op_typed; solve [auto with go_inv] | apply preserves_bind; [|intros] | apply preserves_try
  | apply preserves_wrap | solve [apply preserves_modify; by intros ? []] | solve [apply preserves_zoom; by intros ? ? []] | case_match ].

Lemma executeBlock_typed block commit : preserves typed (executeBlock cfg block commit).
Proof. unfold executeBlock, on_settlement, on_exec. keep_typed. Qed.

Lemma gets_typed {B} (f : Manager -> B) (Q : B -> Prop) m b m' :
  (forall m, typed m -> Q (f m)) -> typed m -> gets f m = (Ok b, m') -> Q b.
Proof. intros Hf Hm [= <- _]. by apply Hf. Qed.

Lemma lift_post {S B} (r : result B) (Q : B -> Prop) (s : S) b s' : (forall b, r = Ok b -> Q b) -> lift r s = (Ok b, s') -> Q b.
Proof. intros HQ [= E _]. by apply HQ. Qed.

Lemma apply_prepare_typed block commit :
  preserves typed (apply_prepare cfg block commit) /\
  forall m ns rs m', typed m -> apply_prepare cfg block commit m = (Ok (ns, rs), m') -> state_typed ns.
Proof.
  split.
  - unfold apply_prepare. apply preserves_bind; [keep_typed|intros _]. apply preserves_bind; [apply executeBlock_typed|intros rs].
    apply (preserves_bind_post _ state_typed); [apply preserves_gets|by intros; eapply gets_typed; [apply ty_state|..]|intros st Hst].
    apply (preserves_bind_post _ state_typed);
      [apply preserves_lift|by intros m ns m' _ Hn; eapply lift_post, Hn; intros; eapply updateState_typed|intros ns Hns].
    apply preserves_bind; [apply preserves_gets|intros b]. apply preserves_bind; [keep_typed|intros b1].
    apply preserves_bind; [by apply preserves_modify; intros; apply set_lastState_typed|intros _]. keep_typed.
  - intros m ns rs m' Hm Hr. apply apply_prepare_ok in Hr as [_ _ Hn _ _ _ _]. by eapply updateState_typed, ty_state.
Qed.

Lemma apply_finish_typed block ns n :
  is_u64 (hdr_Height (blk_Header block)) -> state_typed ns -> preserves typed (apply_finish block ns n).
Proof.
  intros Hu Hns. unfold apply_finish. apply preserves_bind; [|intros _].
  { case_match; [|apply preserves_ret]. apply preserves_bind; [|intros; apply preserves_ret]. apply preserves_try.
    unfold pruneBlocks. apply preserves_bind; [apply preserves_gets|intros]. case_match; [apply preserves_fail|].
    apply preserves_wrap, store_op_typed, PruneBlocks_typed. }
  apply preserves_bind; [apply preserves_gets|intros last].
  apply (preserves_bind_post _ is_u64); [apply preserves_gets|by intros; eapply gets_typed; [apply ty_store|..]|intros base Hb].
  apply preserves_bind; [keep_typed|intros _].
  apply preserves_bind; [by apply preserves_modify; intros; apply set_lastState_typed; [apply with_stored_typed|]|intros _].
  by apply set_height_typed.
Qed.

Lemma align_typed block : is_u64 (hdr_Height (blk_Header block)) -> preserves typed (alignStoreWithApp block).
Proof.
  intros Hu. unfold alignStoreWithApp. apply preserves_bind; [apply preserves_wrap, preserves_read|intros info].
  case_match; [apply preserves_ret|]. apply preserves_bind; [apply preserves_lift|intros h].
  apply preserves_bind; [|intros _].
  { apply preserves_modify. intros m Hm. apply set_lastState_typed; [|done]. by destruct (ty_state _ Hm). }
  apply preserves_bind; [apply preserves_wrap, preserves_read|intros resp]. apply preserves_bind; [|intros _].
  { apply preserves_modify. intros m Hm. apply set_lastState_typed; [|done]. by destruct (ty_state _ Hm). }
  apply preserves_bind; [apply preserves_gets|intros st]. apply preserves_bind; [keep_typed|intros _].
  apply preserves_bind; [by apply set_height_typed|intros _]. apply preserves_ret.
Qed.

Lemma applyBlock_typed block commit : preserves typed (applyBlock cfg block commit).
Proof.
  unfold applyBlock. apply preserves_bind; [apply preserves_gets|intros height].
  destruct (Z.eqb_spec (hdr_Height (blk_Header block)) (u64 (height + 1))) as [E|E]; simpl; [|apply preserves_ret].
  assert (Hu : is_u64 (hdr_Height (blk_Header block))) by (rewrite E; apply u64_range).
  apply preserves_bind; [by apply align_typed|intros [|]; [apply preserves_ret|]].
  destruct (apply_prepare_typed block commit) as [Hp Hq].
  apply (preserves_bind_post _ (fun x => state_typed x.1)); [done|by intros ? [] ? ? ?; eapply Hq|intros [ns rs] Hns].
  apply (preserves_bind_post _ (fun x => state_typed x.1)); [unfold on_exec; keep_typed| |intros [ns' n] Hns'; by apply apply_finish_typed].
  intros m [ns' n] m' Hm Hc. unfold on_exec in Hc. go_inv Hc. apply Commit_block_ok in Hc as (rc & _ & -> & _). by destruct Hns.
Qed.

Lemma produceBlock_typed allowEmpty now vt : preserves typed (produceBlock cfg allowEmpty now vt).
Proof.
  unfold produceBlock, gossipBlock. apply preserves_bind; [keep_typed|intros h]. apply preserves_bind; [keep_typed|intros [lc lh]].
  apply preserves_bind; [keep_typed|intros [b c]]. apply preserves_bind; [unfold on_p2p; keep_typed|intros _]. apply applyBlock_typed.
Qed.

Lemma apply_blocks_typed i blocks commits : preserves typed (apply_blocks cfg i blocks commits).
Proof.
  revert i. induction blocks as [|b blocks IH]; intros i; simpl; [apply preserves_ret|].
  apply preserves_bind; [apply preserves_lift|intros]. apply preserves_bind; [apply applyBlock_typed|intros; apply IH].
Qed.

Lemma processNextDABatch_typed h : preserves typed (processNextDABatch cfg h).
Proof.
  unfold processNextDABatch, fetchBatch, on_dalc. apply preserves_bind; [keep_typed|intros r]. apply preserves_for_each.
  intros b _. apply preserves_bind; [apply preserves_lift|intros]. apply apply_blocks_typed.
Qed.

Lemma updateSyncParams_typed h now : is_u64 h -> is_i64 now -> preserves typed (updateSyncParams h now).
Proof. intros Hh Hn. apply preserves_modify. intros m []. split; try done. by intros t [= <-]. Qed.

Context (Hsl : sl_typed).

Lemma RetrieveBatch_typed i m r m' : try (on_settlement (sl_RetrieveBatch i)) m = (Ok r, m') ->
  match r with inl _ => True | inr res => is_u64 (srb_StateIndex res) /\ forall b, srb_Batch res = Some b -> is_u64 (sb_EndHeight b) end.
Proof.
  unfold try, on_settlement, zoom. destruct (sl_RetrieveBatch i (m_settlementClient m)) as [[res|e|msg] l] eqn:E; intros; simplify_eq; try done.
  by eapply Hsl.
Qed.

Lemma updateStateIndex_typed i : is_u64 i -> preserves typed (updateStateIndex i).
Proof.
  intros Hi. unfold updateStateIndex. apply preserves_bind; [|intros _; keep_typed].
  apply preserves_modify. intros m Hm. apply set_lastState_typed; [|done]. by destruct (ty_state _ Hm).
Qed.

Lemma sync_loop_typed fuel h target : preserves typed (sync_loop cfg fuel h target).
Proof.
  revert h. induction fuel as [|fuel IH]; intros h; simpl; case_match; try apply preserves_ret.
  apply preserves_bind; [apply preserves_gets|intros idx].
  eapply preserves_bind_post; [unfold on_settlement; keep_typed|intros ? ? ? _; apply RetrieveBatch_typed|intros [e|res] Hres]; [apply IH|].
  do 3 (apply preserves_bind; [apply preserves_lift|intros]).
  apply preserves_bind; [apply preserves_try, processNextDABatch_typed|intros [e|[]]]; [apply preserves_ret|].
  apply preserves_bind; [by apply preserves_try, updateStateIndex_typed, Hres|intros [e|[]]]; [apply preserves_ret|].
  apply preserves_bind; [apply preserves_gets|intros]. apply IH.
Qed.

(** The end height of a batch, as the loops use it. *)
Lemma sync_params_typed {B} now res (k : unit -> M Manager B) :
  is_i64 now -> (forall b, srb_Batch res = Some b -> is_u64 (sb_EndHeight b)) -> (forall u, preserves typed (k u)) ->
  preserves typed (let! b := lift (deref (srb_Batch res)) in bind (updateSyncParams (sb_EndHeight b) now) k).
Proof.
  intros Hn Hb Hk. destruct (srb_Batch res) as [b|] eqn:E; [|by intros m]. intros m Hm. rewrite (bind_ok _ _ m b m) by done. revert m Hm.
  apply preserves_bind; [by apply updateSyncParams_typed; [apply Hb|]|done].
Qed.

Lemma submit_rest_typed fuel a b : preserves typed (submit_rest cfg fuel a b).
Proof. unfold submit_rest, on_dalc, on_settlement. keep_typed. Qed.

#[local] Hint Resolve produceBlock_typed submit_rest_typed sync_loop_typed : go_inv.

Lemma manager_step_typed m m' : manager_step cfg m m' -> typed m -> typed m'.
Proof.
  intros Hstep Hm. destruct Hstep as [e m|b m|now m Hn|l ev m|fuel now vt m|fuel a b m|fuel m|now m Hn|h now m Hh Hn]; revert m Hm.
  - unfold applyBlockCallback. apply preserves_bind; [apply preserves_try, applyBlock_typed|intros; apply preserves_ret].
  - unfold healthStatusEventCallback. keep_typed.
  - eapply preserves_bind_post; [unfold getLatestBatchFromSL, on_settlement; keep_typed|intros ? ? ? _; apply RetrieveBatch_typed|].
    intros [e|res] Hres; [|apply sync_params_typed; [done|apply Hres|intros; keep_typed]]. case_decide; [|apply preserves_fail].
    apply preserves_bind; [|intros; apply preserves_ret]. apply preserves_modify. intros m []. split; try done. apply u64_range.
  - unfold ProduceBlockLoop_step. keep_typed.
  - unfold SubmitLoop_tick, submitNextBatch. keep_typed.
  - apply submit_rest_typed.
  - unfold RetriveLoop_step, syncUntilTarget. keep_typed.
  - eapply preserves_bind_post; [unfold getLatestBatchFromSL, on_settlement; keep_typed|intros ? ? ? _; apply RetrieveBatch_typed|].
    intros [e|res] Hres; [apply preserves_ret|]. destruct Hres as [_ Hb]. destruct (srb_Batch res) as [b|]; [|by intros m].
    intros m Hm. rewrite (bind_ok _ _ m b m) by done. revert m Hm. by apply updateSyncParams_typed; [apply Hb|].
  - unfold onNewBatchAccepted. apply preserves_bind; [by apply updateSyncParams_typed|intros]. keep_typed.
Qed.
End ManagerTypes.

Section FromStart.
Context {T : Tendermint} {W : Wire} {K : KVStore} `{!KVLaws K} {TV : TmValidators} {A : App} {MP : MempoolI}
  {EB : EventBus} {G : GossipWire} {DA : DALayer} {SL : SettlementLayer} {P : P2PClient} {PK : ProposerKey}.

(** What a genesis file and a state read back from the database are, by their Go types. *)
Definition genesis_typed (genesis : GenesisDoc) : Prop := forall gd,
  ValidateAndComplete genesis = Ok gd -> is_i64 (gd_InitialHeight gd) /\ is_i64 (gd_GenesisTime gd).
Definition stored_typed (s : DefaultStore) : Prop := forall st s', LoadState s = (Ok st, s') -> state_typed st.

Lemma getInitialState_typed genesis s st s' :
  getInitialState genesis s = (Ok st, s') -> genesis_typed genesis -> stored_typed s -> store_typed s -> state_typed st /\ store_typed s'.
Proof.
  unfold getInitialState. intros Hr Hg Hst Hs. unfold stored_typed in Hst. destruct (LoadState s) as [[st0|e|msg] s1] eqn:E; [|case_decide|]; simplify_eq.
  - specialize (Hst _ _ eq_refl). split; [done|]. unfold LoadState in E. destruct (kv_get _ _); [|done..].
    go_inv E. go_inv Hrun. go_inv E. go_inv Hrun0. go_inv E. unfold ret in E. simplify_eq.
    go_inv Hrun1. by destruct Hst.
  - assert (s' = s) as ->.
    { unfold LoadState in E. destruct (kv_get _ _); [|by simplify_eq..].
      apply bind_inv_err in E as [E|(? & ? & E1 & E)]; [by unfold lift in E; simplify_eq|].
      apply bind_inv_err in E as [E|(? & ? & E2 & E)]; [by unfold lift in E1, E; simplify_eq|].
      apply bind_inv_err in E as [E|(? & ? & E3 & E)]; done. }
    split; [|done]. unfold NewFromGenesisDoc in H. destruct (ValidateAndComplete genesis) as [gd| |] eqn:Eg; simpl in H; [|done..].
    destruct (gd_ConsensusParams gd); simpl in H; [|done]. destruct (Hg _ Eg). injection H as <-. split; simpl; auto with go_int.
Qed.

Lemma init_chain_typed genesis st p st' p' :
  init_chain genesis st p = (Ok st', p') -> state_typed st -> store_typed (pt_store p) -> state_typed st' /\ store_typed (pt_store p').
Proof.
  intros Hr Hst Hs. unfold init_chain in Hr. go_inv Hr. go_inv Hrun. go_inv Hr. go_inv Hrun0. go_inv Hr. go_inv Hrun1.
  go_inv Hr. go_inv Hrun2. go_inv Hr. go_inv Hrun3. unfold ret in Hr. simplify_eq. simpl. split.
  - unfold updateInitChainState in Hrun2. case_decide; [done|]. injection Hrun2 as <-. by destruct Hst.
  - apply (f_equal snd) in Hrun3. simpl in Hrun3. subst t1. by apply (heights_typed (UpdateState st' None)); auto with go_inv.
Qed.

Lemma NewManager_typed hex conf genesis p cfg m p' :
  NewManager hex conf genesis p = (Ok (cfg, m), p') ->
  genesis_typed genesis -> stored_typed (pt_store p) -> store_typed (pt_store p) -> typed m.
Proof.
  intros Hr Hg Hst Hs. unfold NewManager in Hr. go_inv Hr. go_inv Hrun. go_inv Hr. go_inv Hrun0. go_inv Hr. go_inv Hrun1. go_inv Hrun1. subst.
  apply getInitialState_typed in Hrun1 as [Hst0 Hs0]; [|done..]. go_inv Hr.
  assert (Hx : state_typed r2 /\ store_typed (pt_store s)).
  { case_match; [by eapply init_chain_typed in Hrun1|]. unfold ret in Hrun1. by simplify_eq. }
  go_inv Hr. unfold Prelude.get in Hrun2. simplify_eq. unfold ret in Hr. simplify_eq.
  split; simpl; [apply Hx..|auto with go_int|auto with go_int|done].
Qed.

End FromStart.

(** ** A node from genesis *)

Import ToyInstances.

(** The settlement layer of ConcreteNode.v, its heights and indexes converted to [uint64]. *)
Definition uint_sl : @SettlementLayer toy := @Build_SettlementLayer toy (list SLBatch)
  (@sl_SubmitBatch toy toy_sl)
  (fun i l =>
     match @sl_RetrieveBatch toy toy_sl i l with
     | (Ok r, l') =>
         (Ok {| srb_Code := srb_Code r; srb_StateIndex := u64 (srb_StateIndex r);
                srb_Batch := (fun b => {| sb_StartHeight := u64 (sb_StartHeight b); sb_EndHeight := u64 (sb_EndHeight b);
                                          sb_AppHashes := sb_AppHashes b; sb_MetaData := sb_MetaData b |}) <$> srb_Batch r |}, l')
     | r => r
     end)
  (@sl_GetSequencersList toy toy_sl)
  (@sl_GetProposer toy toy_sl).
#[local] Existing Instance uint_sl.

Lemma uint_sl_typed : sl_typed.
Proof.
  intros i l res l'. unfold sl_RetrieveBatch, uint_sl. destruct (@sl_RetrieveBatch toy toy_sl i l) as [[r|e|msg] l1]; intros E; simplify_eq.
  simpl. split; [apply u64_range|]. destruct (srb_Batch r); intros b Hb; simplify_eq/=. apply u64_range.
Qed.

Definition toy_parts : Parts :=
  {| pt_store := empty_store; pt_exec := toy_exec []; pt_dalc := [] : @dalc toy_da; pt_settlement := [] : @slc toy uint_sl;
     pt_p2p := [] : @p2pc toy_p2p |}.
Definition toy_start : result (ManagerConf * Manager) * Parts := NewManager (fun _ => Ok []) toy_conf toy_genesis toy_parts.
Lemma toy_start_ok : exists cfg m, toy_start = (Ok (cfg, m), toy_start.2).
Proof. destruct (is_ok_run toy_start) as [[cfg m] E]; [vm_compute; reflexivity|eauto]. Qed.

