(* ===== verification/LoopSpec.v ===== *)
(** * LoopSpec: what the loops of the manager promise

    The theorems about batches (block/submit.go), synchronisation from the data
    availability layer (block/retriever.go) and the production and submission
    loops (block/produce.go, block/submit.go), the situations in which a loop can
    no longer make progress included. *)
From stdpp Require Import base gmap strings vector sorting numbers list.
From S2P Require Import Prelude KVStore Types Serialization Concrete Store StorePrune StoreSpec Conv Executor Gossip Layers Manager ManagerLoops ManagerInv ConcreteNode.

Section Batches.
Context {T : Tendermint} {W : Wire} {K : KVStore} `{!KVLaws K} {A : App} {MP : MempoolI} {EB : EventBus}
  {DA : DALayer} {SL : SettlementLayer} {P : P2PClient}.
Context (cfg : ManagerConf).
Implicit Types (s : DefaultStore).

(** The size [createNextDABatch] compares with the limit. *)
Definition tentative_size (startHeight endHeight : Z) (blocks : list Block) (commits : list Commit) : Z :=
  batch_size (Batch_ToProto {| bt_StartHeight := startHeight; bt_EndHeight := endHeight;
                               bt_Blocks := blocks; bt_Commits := commits |}).

Definition max_size : Z := i64 (bc_BlockBatchMaxSizeBytes (mc_conf cfg)).

(** The blocks and commits are those stored from [start] on, and they fit. *)
Record batch_inv s (startHeight endHeight height : Z) (blocks : list Block) (commits : list Commit) : Prop := {
  bi_blocks : Z.of_nat (length blocks) = (height - startHeight)%Z;
  bi_commits : length commits = length blocks;
  bi_chain i b c : blocks !! i = Some b -> commits !! i = Some c -> chain s (startHeight + Z.of_nat i) = Some (b, c);
  bi_size : blocks = [] \/ (tentative_size startHeight endHeight blocks commits <= max_size)%Z;
}.

Lemma chain_load s h b c : LoadBlock s h = Ok b -> LoadCommit s h = Ok c -> chain s h = Some (b, c).
Proof. unfold chain. by intros -> ->. Qed.

Lemma batch_inv_snoc s startHeight endHeight height blocks commits b c :
  batch_inv s startHeight endHeight height blocks commits ->
  chain s height = Some (b, c) ->
  (tentative_size startHeight endHeight (blocks ++ [b]) (commits ++ [c]) <= max_size)%Z ->
  batch_inv s startHeight endHeight (height + 1) (blocks ++ [b]) (commits ++ [c]).
Proof.
  intros [Hb Hc Hch Hs] Hl Hsz. split; [rewrite length_app; simpl; lia|rewrite !length_app; simpl; lia| |by right].
  intros i b' c' Hi1 Hi2. destruct (decide (i < length blocks)) as [Hlt|Hge].
  - rewrite lookup_app_l in Hi1 by lia. rewrite lookup_app_l in Hi2 by lia. by apply Hch.
  - apply lookup_lt_Some in Hi1 as Hlt. rewrite length_app in Hlt. simpl in Hlt.
    assert (i = length blocks) as -> by lia. rewrite list_lookup_middle in Hi1 by done.
    rewrite list_lookup_middle in Hi2 by done. simplify_eq. rewrite Hb. by replace (startHeight + (height - startHeight))%Z with height by lia.
Qed.

(** Why the loop stopped at [height]. *)
Definition batch_stop s (startHeight endHeight height : Z) (blocks : list Block) (commits : list Commit) : Prop :=
  height = (endHeight + 1)%Z \/
  ((height <= endHeight)%Z /\ exists b c, chain s height = Some (b, c) /\
     (max_size < tentative_size startHeight endHeight (blocks ++ [b]) (commits ++ [c]))%Z).

Lemma batch_loop_spec s startHeight endHeight fuel height blocks commits :
  (0 <= startHeight <= height)%Z -> (height <= endHeight + 1)%Z -> (endHeight + 1 < 2 ^ 64)%Z ->
  batch_inv s startHeight endHeight height blocks commits ->
  match batch_loop cfg fuel startHeight endHeight height blocks commits s with
  | Ok (Some (h', bs, cs)) =>
      (height <= h' <= endHeight + 1)%Z /\ batch_inv s startHeight endHeight h' bs cs /\
      batch_stop s startHeight endHeight h' bs cs
  | Ok None => (Z.of_nat fuel < endHeight + 1 - height)%Z
  | _ => True
  end.
Proof.
  revert height blocks commits. induction fuel as [|fuel IH]; intros height blocks commits Hst Hh Hend Hinv; simpl;
    destruct (Z.leb_spec height endHeight); try (split; [lia|]; split; [done|]; left; lia); [lia|].
  destruct (LoadBlock s height) as [b|e|msg] eqn:Eb; simpl; [|done..].
  destruct (LoadCommit s height) as [c|e|msg] eqn:Ec; simpl; [|done..].
  pose proof (chain_load _ _ _ _ Eb Ec) as Hch. fold max_size. fold (tentative_size startHeight endHeight (blocks ++ [b]) (commits ++ [c])).
  destruct (Z.ltb_spec max_size (tentative_size startHeight endHeight (blocks ++ [b]) (commits ++ [c]))).
  { split; [lia|]. split; [done|]. right. eauto 10. }
  rewrite u64_small by (unfold is_u64; lia).
  specialize (IH (height + 1)%Z (blocks ++ [b]) (commits ++ [c]) ltac:(lia) ltac:(lia) Hend (batch_inv_snoc _ _ _ _ _ _ _ _ Hinv Hch ltac:(lia))).
  destruct (batch_loop cfg fuel startHeight endHeight (height + 1) (blocks ++ [b]) (commits ++ [c]) s)
    as [[[[h' bs] cs]|]|e|msg]; [|lia|done..].
  destruct IH as (? & ? & ?). split; [lia|done].
Qed.

(** What a batch consists of. *)
Lemma createNextDABatch_spec s startHeight endHeight fuel r :
  createNextDABatch cfg fuel startHeight endHeight s = Ok r ->
  (0 < startHeight <= endHeight)%Z -> (endHeight + 1 < 2 ^ 64)%Z ->
  (endHeight - startHeight + 1 <= Z.of_nat fuel)%Z ->
  exists b, r = Some b /\ bt_StartHeight b = startHeight /\
    bt_EndHeight b = (startHeight + Z.of_nat (length (bt_Blocks b)) - 1)%Z /\ (bt_EndHeight b <= endHeight)%Z /\
    length (bt_Commits b) = length (bt_Blocks b) /\
    (forall i blk c, bt_Blocks b !! i = Some blk -> bt_Commits b !! i = Some c ->
       chain s (startHeight + Z.of_nat i) = Some (blk, c)) /\
    (bt_Blocks b = [] \/ (tentative_size startHeight endHeight (bt_Blocks b) (bt_Commits b) <= max_size)%Z) /\
    (bt_EndHeight b = endHeight \/ exists blk c, chain s (bt_EndHeight b + 1) = Some (blk, c) /\
       (max_size < tentative_size startHeight endHeight (bt_Blocks b ++ [blk]) (bt_Commits b ++ [c]))%Z).
Proof.
  intros Hr Hst Hend Hfuel. unfold createNextDABatch in Hr. destruct (maxSliceCap <? _)%Z; [done|].
  pose proof (batch_loop_spec s startHeight endHeight fuel startHeight [] [] ltac:(lia) ltac:(lia) Hend
    ltac:(split; [simpl; lia|done|done|by left])) as Hl.
  destruct (batch_loop cfg fuel startHeight endHeight startHeight [] [] s) as [[[[h bs] cs]|]|e|msg]; [|lia|done..].
  simpl in Hr. simplify_eq. destruct Hl as (Hh & [Hb Hc Hch Hs] & Hstop).
  rewrite u64_small by (unfold is_u64; lia). eexists. split; [done|]. simpl.
  split_and!; try done; try lia. destruct Hstop as [->|(Hle & b & c & Hcb & Hsz)]; [left; lia|].
  right. exists b, c. by replace (h - 1 + 1)%Z with h by lia.
Qed.

(** C21: [createNextDABatch] makes a contiguous, maximal batch within the size limit: with
    fuel for the range it never runs out, and a batch it returns starts at the start
    height, holds the stored block and commit of every height from there up to its end
    height and nothing else, stays within the configured size, and stops before the
    end of the range only if the next stored block would not fit. *)
Theorem next_batch_contiguous s startHeight endHeight fuel r :
  createNextDABatch cfg fuel startHeight endHeight s = Ok r ->
  (0 < startHeight <= endHeight)%Z -> (endHeight + 1 < 2 ^ 64)%Z ->
  (endHeight - startHeight + 1 <= Z.of_nat fuel)%Z ->
  exists b, r = Some b /\ bt_StartHeight b = startHeight /\
    bt_EndHeight b = (startHeight + Z.of_nat (length (bt_Blocks b)) - 1)%Z /\ (bt_EndHeight b <= endHeight)%Z /\
    length (bt_Commits b) = length (bt_Blocks b) /\
    (forall i blk c, bt_Blocks b !! i = Some blk -> bt_Commits b !! i = Some c ->
       chain s (startHeight + Z.of_nat i) = Some (blk, c)) /\
    (bt_Blocks b = [] \/ (tentative_size startHeight endHeight (bt_Blocks b) (bt_Commits b) <= max_size)%Z) /\
    (bt_EndHeight b = endHeight \/ exists blk c, chain s (bt_EndHeight b + 1) = Some (blk, c) /\
       (max_size < tentative_size startHeight endHeight (bt_Blocks b ++ [blk]) (bt_Commits b ++ [c]))%Z).
Proof. apply createNextDABatch_spec. Qed.

(** A first block larger than the batch size limit gives a batch with no blocks whose
    end height is below its start height. *)
Theorem oversized_block_gives_empty_batch s startHeight endHeight fuel blk c :
  (0 < startHeight <= endHeight)%Z -> (endHeight < 2 ^ 64)%Z -> (endHeight - startHeight + 1 <= maxSliceCap)%Z ->
  LoadBlock s startHeight = Ok blk -> LoadCommit s startHeight = Ok c ->
  (max_size < tentative_size startHeight endHeight [blk] [c])%Z ->
  createNextDABatch cfg (S fuel) startHeight endHeight s
  = Ok (Some {| bt_StartHeight := startHeight; bt_EndHeight := startHeight - 1; bt_Blocks := []; bt_Commits := [] |}).
Proof.
  intros Hst Hend Hcap Hb Hc Hsz. unfold createNextDABatch.
  assert (maxSliceCap < 2 ^ 64)%Z by (vm_compute; done).
  rewrite (u64_small (endHeight - startHeight + 1)) by (unfold is_u64; lia).
  replace (maxSliceCap <? endHeight - startHeight + 1)%Z with false by lia. simpl.
  replace (startHeight <=? endHeight)%Z with true by lia. rewrite Hb. simpl. rewrite Hc. simpl.
  fold max_size. fold (tentative_size startHeight endHeight [blk] [c]).
  replace (max_size <? tentative_size startHeight endHeight [blk] [c])%Z with true by lia. simpl.
  rewrite u64_small; [done|]. unfold is_u64. lia.
Qed.
End Batches.

Section Loops.
Context {T : Tendermint} {W : Wire} {K : KVStore} `{!KVLaws K} {TV : TmValidators} {A : App} {MP : MempoolI}
  {EB : EventBus} {G : GossipWire} {DA : DALayer} {SL : SettlementLayer} {P : P2PClient} {PK : ProposerKey}.
Context (cfg : ManagerConf).
Implicit Types (m : Manager).

(** ** Synchronisation *)

(** A block of the next height that is applied without an error raises the height. *)
Lemma applyBlock_next block commit m m' :
  applyBlock cfg block commit m = (Ok tt, m') -> (0 <= m_height m)%Z -> (m_height m + 1 < 2 ^ 64)%Z ->
  hdr_Height (blk_Header block) = (m_height m + 1)%Z -> m_height m' = (m_height m + 1)%Z.
Proof.
  intros Hr H0 Hlt Hh. unfold applyBlock in Hr. rewrite (bind_ok _ _ m (m_height m) m) in Hr by done.
  rewrite u64_small in Hr by (unfold is_u64; lia). rewrite Hh, Z.eqb_refl in Hr. simpl in Hr. go_inv Hr.
  pose proof (align_height (m_height m) block m eq_refl) as Ha. rewrite Hrun in Ha.
  destruct r; [unfold ret in Hr; simplify_eq; lia|]. go_inv Hr. destruct r as [ns rs]. go_inv Hr. destruct r as [ns' n].
  pose proof (apply_prepare_height cfg (m_height m) block commit s Ha) as Hp. rewrite Hrun0 in Hp. simpl in Hp.
  pose proof (Commit_block_height (m_height m) ns block rs s0 Hp) as Hc. rewrite Hrun1 in Hc. simpl in Hc.
  pose proof (apply_finish_height (m_height m) block ns' n s1 Hc) as Hf. rewrite Hr in Hf. lia.
Qed.

(** A block of any other height is skipped. *)
Lemma applyBlock_skip block commit m :
  hdr_Height (blk_Header block) <> u64 (m_height m + 1) -> applyBlock cfg block commit m = (Ok tt, m).
Proof.
  intros Hh. unfold applyBlock. rewrite (bind_ok _ _ m (m_height m) m) by done.
  by replace (hdr_Height (blk_Header block) =? u64 (m_height m + 1))%Z with false by lia.
Qed.

(** Blocks of consecutive heights from [h] on. *)
Fixpoint consecutive (h : Z) (blocks : list Block) : Prop :=
  match blocks with
  | [] => True
  | b :: blocks => hdr_Height (blk_Header b) = h /\ consecutive (h + 1) blocks
  end.

Lemma apply_blocks_height i h blocks commits m m' :
  apply_blocks cfg i blocks commits m = (Ok tt, m') -> consecutive h blocks ->
  (0 <= m_height m)%Z -> (0 <= h <= m_height m + 1)%Z ->
  (Z.max (m_height m) (h + Z.of_nat (length blocks)) < 2 ^ 64 - 1)%Z ->
  m_height m' = Z.max (m_height m) (h + Z.of_nat (length blocks) - 1).
Proof.
  revert i h m. induction blocks as [|b blocks IH]; intros i h m Hr Hcons H0 Hh Hlt; simpl in *.
  { unfold ret in Hr. simplify_eq. lia. }
  destruct Hcons as [Hb Hcons]. go_inv Hr. go_inv Hrun. go_inv Hr. destruct r0.
  assert (Hs : m_height s = Z.max (m_height m) h).
  { destruct (decide (h = m_height m + 1)%Z) as [->|Hne].
    - rewrite (applyBlock_next _ _ _ _ Hrun0); lia.
    - rewrite applyBlock_skip in Hrun0 by (rewrite u64_small by (unfold is_u64; lia); lia). simplify_eq. lia. }
  rewrite (IH _ _ _ Hr Hcons) by lia. lia.
Qed.

(** The blocks of the one batch that was retrieved are applied. *)
Lemma processNextDABatch_one daHeight m m' d' base batch :
  processNextDABatch cfg daHeight m = (Ok tt, m') ->
  da_RetrieveBatches daHeight (m_dalc m) = (Ok {| drr_Base := base; drr_Batches := [Some batch] |}, d') ->
  exists t, apply_blocks cfg 0 (bt_Blocks batch) (bt_Commits batch) (set_dalc t m) = (Ok tt, m').
Proof.
  intros Hr Hda. unfold processNextDABatch in Hr. go_inv Hr.
  unfold fetchBatch in Hrun. go_inv Hrun. unfold on_dalc in Hrun0. go_inv Hrun0. rewrite Hda in Hrun0. simplify_eq.
  assert (r = {| drr_Base := base; drr_Batches := [Some batch] |} /\ s = set_dalc t m) as [-> ->].
  { simpl in Hrun. destruct (dr_Code base); unfold ret, fail in Hrun; by simplify_eq. }
  simpl in Hr. go_inv Hr. unfold ret in Hr. simplify_eq. unfold lift, bind in Hrun0. simpl in Hrun0. destruct r. by exists t.
Qed.

(** A batch retrieved from the data availability layer brings the node to the
    batch's end: when [processNextDABatch] returns without an error for a batch of
    consecutive heights that starts no later than the next height, the store height is
    the batch's last height (or was already past it). *)
Theorem da_batch_advances daHeight m m' d' base batch h :
  processNextDABatch cfg daHeight m = (Ok tt, m') ->
  da_RetrieveBatches daHeight (m_dalc m) = (Ok {| drr_Base := base; drr_Batches := [Some batch] |}, d') ->
  consecutive h (bt_Blocks batch) -> (0 <= m_height m)%Z -> (0 <= h <= m_height m + 1)%Z ->
  (Z.max (m_height m) (h + Z.of_nat (length (bt_Blocks batch))) < 2 ^ 64 - 1)%Z ->
  m_height m' = Z.max (m_height m) (h + Z.of_nat (length (bt_Blocks batch)) - 1).
Proof.
  intros Hr Hda Hcons H0 Hh Hlt. destruct (processNextDABatch_one _ _ _ _ _ _ Hr Hda) as [t Hrun].
  exact (apply_blocks_height 0 h _ _ (set_dalc t m) m' Hrun Hcons H0 Hh Hlt).
Qed.

(** A nil batch in the answer of the data availability layer makes
    [processNextDABatch] panic. *)
Theorem da_nil_batch_panics daHeight m d' base batches :
  da_RetrieveBatches daHeight (m_dalc m) = (Ok {| drr_Base := base; drr_Batches := None :: batches |}, d') ->
  dr_Code base = StatusSuccess ->
  exists msg, processNextDABatch cfg daHeight m = (Panic msg, set_dalc d' m).
Proof.
  intros Hda Hc. unfold processNextDABatch, fetchBatch, on_dalc, zoom, bind. rewrite Hda. cbn. rewrite Hc. cbn. eauto.
Qed.

(** ** What the handlers of blocks leave alone *)

(** The fields of the loops. *)
Definition loop_fields m : Z * Z * bool * option Z * option bool * option bool :=
  (m_syncTarget m, m_lastSubmissionTime m, m_batchInProcess m, m_syncTargetDiode m,
   m_shouldProduceBlocksCh m, m_produceEmptyBlockCh m).

Ltac keep_fields :=
  repeat first
    [ apply preserves_bind; [|intros]
    | apply preserves_ret | apply preserves_fail | apply preserves_panic | apply preserves_gets
    | apply preserves_lift | apply preserves_read | apply preserves_wrap | apply preserves_try
    | by apply preserves_modify | by apply preserves_zoom
    | case_match ].

Lemma alignStoreWithApp_fields x block : preserves (fun m => loop_fields m = x) (alignStoreWithApp block).
Proof. unfold alignStoreWithApp. keep_fields. Qed.

Lemma applyBlock_fields x block commit : preserves (fun m => loop_fields m = x) (applyBlock cfg block commit).
Proof.
  unfold applyBlock. apply preserves_bind; [apply preserves_gets|intros h]. case_match; [apply preserves_ret|].
  apply preserves_bind; [apply alignStoreWithApp_fields|intros al]. case_match; [apply preserves_ret|].
  apply preserves_bind; [unfold apply_prepare, executeBlock; keep_fields|intros [ns rs]].
  apply preserves_bind; [by apply preserves_zoom|intros [ns' n]]. unfold apply_finish, pruneBlocks. keep_fields.
Qed.

Lemma produceBlock_fields x allowEmpty now vt :
  preserves (fun m => loop_fields m = x) (produceBlock cfg allowEmpty now vt).
Proof.
  unfold produceBlock. apply preserves_bind; [apply preserves_gets|intros h].
  apply preserves_bind; [apply preserves_read|intros [lc lh]].
  apply preserves_bind; [apply preserves_read|intros [b c]].
  apply preserves_bind; [unfold gossipBlock; keep_fields|intros _]. apply applyBlock_fields.
Qed.

(** ** Loops that stop making progress *)

Lemma SubmitLoop_in_process fuel now vt m :
  m_batchInProcess m = true -> SubmitLoop_tick cfg fuel now vt m = (Ok SubmitSkipped, m).
Proof. intros Hb. unfold SubmitLoop_tick, gets, bind. case_match; [done|]. by rewrite Hb. Qed.

(** A submission that fails before it reaches the data availability layer is never
    retried: after a tick of the submit loop that returned early with an error, every
    later tick is skipped, whatever the store then holds, until a batch-accepted event. *)
Theorem failed_submission_wedges fuel now vt m m' :
  SubmitLoop_tick cfg fuel now vt m = (Ok SubmitFailed, m') ->
  m_batchInProcess m' = true /\
  forall fuel' now' vt', SubmitLoop_tick cfg fuel' now' vt' m' = (Ok SubmitSkipped, m').
Proof.
  intros Hr. assert (Hb : m_batchInProcess m' = true).
  2:{ split; [done|]. intros. by apply SubmitLoop_in_process. }
  unfold SubmitLoop_tick in Hr. go_inv Hr. go_inv Hrun. go_inv Hr. go_inv Hrun. case_match; [by unfold ret in Hr|].
  go_inv Hr. go_inv Hrun. case_match; [by unfold ret in Hr|]. go_inv Hr. go_inv Hrun. go_inv Hr.
  assert (Hs : m_batchInProcess s = true).
  { pose proof (preserves_try _ _ (produceBlock_fields (loop_fields (set_batchInProcess true m)) true now vt) (set_batchInProcess true m) eq_refl) as Hp. rewrite Hrun in Hp.
    by injection Hp. }
  assert (Hk : preserves (fun m => m_batchInProcess m = true) (submitNextBatch cfg fuel)).
  { unfold submitNextBatch, submit_rest. keep_fields. }
  specialize (Hk s Hs). by rewrite Hr in Hk.
Qed.

(** The production loop can block on its own channel: when a block fails while a
    health status is still unread, the loop waits to send on the full channel that only
    it reads, and no later event changes it or the node. *)
Theorem produce_loop_self_deadlock l b now vt m e m' :
  pl_status l = LoopRunning -> m_shouldProduceBlocksCh m = Some b ->
  produceBlock cfg (pl_produceEmptyBlock l) now vt m = (Err e, m') -> e <> ErrSkippedEmptyBlock ->
  exists l', ProduceBlockLoop_step cfg l (EvTicker now vt) m = (Ok l', m') /\
    forall ev, ProduceBlockLoop_step cfg l' ev m' = (Ok l', m').
Proof.
  intros Hl Hch Hp He.
  pose proof (produceBlock_fields (loop_fields m) (pl_produceEmptyBlock l) now vt m eq_refl) as Hf.
  rewrite Hp in Hf. simpl in Hf. assert (Hch' : m_shouldProduceBlocksCh m' = Some b) by (injection Hf; congruence).
  exists {| pl_produceEmptyBlock := pl_produceEmptyBlock l; pl_status := LoopBlocked |}. split; [|done].
  unfold ProduceBlockLoop_step. rewrite Hl. unfold bind at 1, try. rewrite Hp. cbn.
  rewrite decide_False by done. unfold bind, gets. by rewrite Hch'.
Qed.

(** A chain whose initial height is not 1 cannot produce its first block: on a store
    that holds nothing, [produceBlock] fails to load the commit of height 0 and leaves
    the node as it was. *)
Theorem initial_height_above_one_stuck allowEmpty now vt m d :
  m_store m = New_store d -> kv_view d !! getIndexKey 0 = None ->
  u64 (gd_InitialHeight (mc_genesis cfg)) <> 1%Z ->
  exists e, produceBlock cfg allowEmpty now vt m = (Err e, m).
Proof.
  intros Hs Hk Hi.
  assert (Hlc : exists e, last_commit cfg (u64 (0 + 1)) 0 (m_store m) = Err e).
  { unfold last_commit. change (u64 (0 + 1)) with 1%Z.
    replace (1 =? u64 (gd_InitialHeight (mc_genesis cfg)))%Z with false by lia.
    unfold LoadCommit, loadHashFromIndex. rewrite Hs. simpl ds_db. rewrite kv_get_view, Hk. cbn. eauto. }
  destruct Hlc as [e Hlc]. exists e. unfold produceBlock. rewrite (bind_ok _ _ m 0%Z m) by (unfold gets; by rewrite Hs).
  apply bind_err. unfold read. by rewrite Hlc.
Qed.

(** Submitting does not wait for synchronisation: on a node whose last block is below
    the sync target, [submitNextBatch] computes a negative batch size and panics. *)
Theorem submit_before_sync_panics fuel m blk :
  LoadBlock (m_store m) (st_LastBlockHeight (m_lastState m)) = Ok blk -> data_Txs (blk_Data blk) = [] ->
  (0 <= st_LastBlockHeight (m_lastState m) < m_syncTarget m)%Z -> (m_syncTarget m < 2 ^ 63)%Z ->
  exists msg, submitNextBatch cfg fuel m = (Panic msg, m).
Proof.
  intros Hb Ht Hl Hs. unfold submitNextBatch, gets, bind, try, read, validateLastBlockInBatchIsEmpty.
  rewrite (u64_small (m_syncTarget m + 1)), (u64_small (st_LastBlockHeight (m_lastState m)))
    by (unfold is_u64; lia).
  rewrite Hb. cbn. rewrite Ht. cbn. unfold submit_rest, bind, try, read, createNextDABatch.
  set (n := (st_LastBlockHeight (m_lastState m) - (m_syncTarget m + 1) + 1)%Z).
  assert (Hn : (- 2 ^ 63 < n < 0)%Z) by lia.
  assert (Hu : u64 n = (n + 2 ^ 64)%Z).
  { unfold u64. rewrite <- (Z_mod_plus_full n 1 (2 ^ 64)). apply Z.mod_small. lia. }
  rewrite Hu. replace (maxSliceCap <? n + 2 ^ 64)%Z with true by (unfold maxSliceCap; lia). cbn. eauto.
Qed.
End Loops.

(** ** Witnesses *)

Import ToyInstances.

Abbreviation batch1 := (createNextDABatch toy_cfg 5 1 1 (m_store run1.2)).

Lemma next_batch_contiguous_witness :
  exists b, get_ok None batch1 = Some b /\ bt_StartHeight b = 1%Z /\ length (bt_Commits b) = length (bt_Blocks b).
Proof.
  destruct (next_batch_contiguous toy_cfg (m_store run1.2) 1 1 5 (get_ok None batch1))
    as (b & Hb & Hs & _ & _ & Hc & _).
  - apply get_ok_result. vm_compute. reflexivity.
  - lia.
  - lia.
  - lia.
  - exists b. exact (conj Hb (conj Hs Hc)).
Defined.

(** The configuration of a node that accepts batches of one byte. *)
Definition tiny_cfg : ManagerConf :=
  {| mc_conf := {| bc_BlockTime := 1; bc_EmptyBlocksMaxTime := 3; bc_BatchSubmitMaxTime := 10; bc_NamespaceID := "";
                   bc_BlockBatchSize := 5; bc_BlockBatchMaxSizeBytes := 1 |};
     mc_genesis := toy_genesis; mc_executor := mc_executor toy_cfg |}.

Lemma oversized_block_gives_empty_batch_witness :
  createNextDABatch tiny_cfg 1 5 6 store5
  = Ok (Some {| bt_StartHeight := 5; bt_EndHeight := 4; bt_Blocks := []; bt_Commits := [] |}).
Proof.
  refine (oversized_block_gives_empty_batch tiny_cfg store5 5 6 0 (toy_block 5 [[Byte.x01]]) (toy_commit 5) _ _ _ _ _ _).
  - lia.
  - lia.
  - vm_compute. congruence.
  - vm_compute. reflexivity.
  - vm_compute. reflexivity.
  - vm_compute. reflexivity.
Defined.

(** A node with other parts than [toy_node]'s. *)
Definition node_with (st : State) (s : DefaultStore) (d : list Batch) (target : Z) (ch : option bool) : Manager :=
  {| m_lastState := st; m_store := s; m_exec := toy_exec [];
     m_dalc := d : @dalc toy_da; m_settlementClient := [] : @slc toy toy_sl; m_p2pClient := [] : @p2pc toy_p2p;
     m_syncTarget := target; m_lastSubmissionTime := 0; m_batchInProcess := false; m_syncTargetDiode := None;
     m_shouldProduceBlocksCh := ch; m_produceEmptyBlockCh := None |}.

Definition da_batch : Batch :=
  {| bt_StartHeight := 1; bt_EndHeight := 1; bt_Blocks := [block1]; bt_Commits := [toy_commit 1] |}.
Definition da_node : Manager := node_with (toy_state 0 0) empty_store [da_batch] 0 None.
Abbreviation da_run := (processNextDABatch toy_cfg 1 da_node).

Lemma da_run_ok : da_run = (Ok tt, da_run.2).
Proof. destruct (is_ok_run da_run) as [[] E]; [vm_compute; reflexivity|exact E]. Qed.

Lemma da_batch_advances_witness : m_height da_run.2 = Z.max (m_height da_node) 1.
Proof.
  refine (da_batch_advances toy_cfg 1 da_node da_run.2 [da_batch] _ da_batch 1 da_run_ok _ _ _ _ _).
  - reflexivity.
  - split; [reflexivity|exact I].
  - vm_compute. congruence.
  - vm_compute. split; congruence.
  - vm_compute. reflexivity.
Defined.

(** A node at height 4 whose blocks cannot be loaded. *)
Definition broken_node : Manager := node_with (toy_state 4 4) (SetHeight 4 empty_store) [] 0 (Some true).
Abbreviation broken_tick := (SubmitLoop_tick toy_cfg 5 0 0 broken_node).

Lemma broken_tick_failed : broken_tick = (Ok SubmitFailed, broken_tick.2).
Proof.
  rewrite (get_ok_run SubmitSkipped broken_tick) at 1; [|vm_compute; reflexivity].
  assert (E : get_ok SubmitSkipped broken_tick.1 = SubmitFailed) by (vm_compute; reflexivity). by rewrite E.
Qed.

Lemma failed_submission_wedges_witness :
  SubmitLoop_tick toy_cfg 100 1 1 broken_tick.2 = (Ok SubmitSkipped, broken_tick.2).
Proof. exact (proj2 (failed_submission_wedges toy_cfg 5 0 0 broken_node broken_tick.2 broken_tick_failed) 100 1%Z 1%Z). Defined.

Abbreviation broken_produce := (produceBlock toy_cfg true 0 0 broken_node).
Definition broken_error : error :=
  Wrap "error while loading last commit"
    (Wrap "failed to load hash from index" (Wrap "failed to load block hash for height" ErrKeyNotFound)).

Lemma broken_produce_err : broken_produce = (Err broken_error, broken_produce.2).
Proof.
  assert (E : broken_produce.1 = Err broken_error) by (vm_compute; reflexivity).
  revert E. destruct broken_produce as [r m']. simpl. by intros ->.
Qed.

Lemma produce_loop_self_deadlock_witness :
  exists l', forall ev, ProduceBlockLoop_step toy_cfg l' ev broken_produce.2 = (Ok l', broken_produce.2).
Proof.
  destruct (produce_loop_self_deadlock toy_cfg {| pl_produceEmptyBlock := true; pl_status := LoopRunning |} true 0 0
    broken_node broken_error broken_produce.2 eq_refl eq_refl broken_produce_err ltac:(discriminate)) as (l' & _ & Hl).
  exists l'. exact Hl.
Defined.

Definition late_cfg : ManagerConf :=
  {| mc_conf := toy_conf;
     mc_genesis := {| gd_GenesisTime := 0; gd_ChainID := "toy"; gd_InitialHeight := 5;
                      gd_ConsensusParams := Some toy_params; gd_AppHash := []; gd_AppState := [] |};
     mc_executor := mc_executor toy_cfg |}.

Lemma initial_height_above_one_stuck_witness :
  exists e, produceBlock late_cfg true 0 0 (toy_node []) = (Err e, toy_node []).
Proof.
  refine (initial_height_above_one_stuck late_cfg true 0 0 (toy_node []) (∅ : gmap bytes bytes) _ _ _).
  - reflexivity.
  - reflexivity.
  - vm_compute. congruence.
Defined.

Definition behind_store : DefaultStore := snd (SaveBlock (toy_block 5 []) (toy_commit 5) None empty_store).
Definition behind_node : Manager := node_with (toy_state 5 5) behind_store [] 9 None.

Lemma submit_before_sync_panics_witness : exists msg, submitNextBatch toy_cfg 5 behind_node = (Panic msg, behind_node).
Proof.
  refine (submit_before_sync_panics toy_cfg 5 behind_node (toy_block 5 []) _ _ _ _).
  - vm_compute. reflexivity.
  - reflexivity.
  - vm_compute. split; congruence.
  - vm_compute. reflexivity.
Defined.
