(* ===== verification/FullNode.v ===== *)
(** * FullNode: a full node follows the sequencer

    The sequencer makes a batch of the blocks in its store ([createNextDABatch] of
    block/submit.go), the data availability layer hands it out, and a full node applies it
    ([processNextDABatch] of block/retriever.go).  Theorem: the full node then holds, at every
    height it gained, the block and the commit of the sequencer. *)
From stdpp Require Import base gmap strings vector sorting numbers list.
From S2P Require Import Prelude KVStore Types Serialization Concrete Store StorePrune StoreSpec Conv Executor Gossip Layers Manager ManagerLoops ManagerInv ConcreteNode ManagerSpec ChainInv Authentic LoopSpec.

Section FullNode.
Context {T : Tendermint} {W : Wire} `{!WireLaws W} {K : KVStore} `{!KVLaws K} {TV : TmValidators} {A : App} `{!AppLaws A} {MP : MempoolI}
  {EB : EventBus} {G : GossipWire} {DA : DALayer} {SL : SettlementLayer} {P : P2PClient} {PK : ProposerKey}.
Context (cfg : ManagerConf) (R : Z) (Hsep : hash_separates) (Hret : retains_from R).
Implicit Types (m : Manager).

(** A node whose store is in order, and whose application is not ahead of it. *)
Record following m : Prop := {
  fo_wf : store_wf (m_store m);
  fo_index : index_ok (m_store m);
  fo_base : (0 <= Base (m_store m))%Z;
  fo_height : is_u64 (m_height m);
  fo_app info : GetAppInfo (m_exec m) = Ok info -> (u64 (inf_LastBlockHeight info) <= m_height m)%Z;
}.

Lemma following_fresh m block : following m -> is_u64 (hdr_Height (blk_Header block)) -> hash_fresh (m_store m) block.
Proof.
  intros Hf Hu h Huh Hne Hl. apply loadHashFromIndex_ok in Hl. destruct (fo_index _ Hf h (Header_Hash (blk_Header block)) Huh) as (hdr & Eh & Ehash).
  - unfold index_hash. rewrite Hl. apply to_vec_vec.
  - apply Hsep in Ehash; [congruence|by rewrite Eh|done].
Qed.

(** ** One block *)

Lemma apply_next block commit m m' :
  following m -> applyBlock cfg block commit m = (Ok tt, m') -> (m_height m + 1 < 2 ^ 63)%Z ->
  hdr_Height (blk_Header block) = (m_height m + 1)%Z -> data_Evidence (blk_Data block) = [] ->
  following m' /\ m_height m' = (m_height m + 1)%Z /\ chain (m_store m') (m_height m + 1) = Some (block, commit).
Proof.
  intros Hf Hr Hlt Hh Hev. pose proof (fo_height _ Hf) as Hu. assert (Hub : is_u64 (hdr_Height (blk_Header block))) by (rewrite Hh; unfold is_u64 in *; lia).
  assert (Hahead : forall info, GetAppInfo (m_exec m) = Ok info -> u64 (inf_LastBlockHeight info) <> hdr_Height (blk_Header block)).
  { intros info Hi E. apply (fo_app _ Hf) in Hi. lia. }
  destruct (applyBlock_stored cfg block commit m m') as (Eh & Ec & Hwf); [done|unfold is_u64 in Hu; lia|done|done|done|done|by apply following_fresh|apply Hf|apply Hf|].
  pose proof (applyBlock_settled cfg (m_store m) (m_height m) R Hsep Hret ltac:(unfold m_height; lia) block commit m) as Hs. rewrite Hr in Hs.
  destruct Hs as [Hi Hb Hu' _ _ _]; [destruct Hf; by apply settled_refl|]. rewrite Hh in Eh, Ec. split; [|done]. split; [done..|].
  intros info Hinfo. destruct (applyBlock_info cfg block commit m m' Hr) as (info' & Hi' & Hl); [rewrite Hh; symmetry; apply u64_small; unfold is_u64 in *; lia|done|].
  rewrite Hinfo in Hi'. injection Hi' as <-. rewrite Hl, u64_i64, u64_small by done. unfold m_height in *. lia.
Qed.

(** ** The blocks of a batch *)

Lemma apply_blocks_settled s0 N i blocks commits :
  (N <= Height s0)%Z -> preserves (m_settled s0 N R) (apply_blocks cfg i blocks commits).
Proof.
  intros HN. apply apply_blocks_inv. intros block commit. by apply applyBlock_settled.
Qed.

(** What the node gained. *)
Definition gained (i : nat) (h : Z) (blocks : list Block) (commits : list Commit) m m' : Prop :=
  forall j b c, blocks !! j = Some b -> commits !! (i + j) = Some c -> (m_height m < h + Z.of_nat j)%Z ->
    ((R <= h + Z.of_nat j)%Z -> chain (m_store m') (h + Z.of_nat j) = Some (b, c)) /\
    (forall x, chain (m_store m') (h + Z.of_nat j) = Some x -> x = (b, c)).

Lemma apply_blocks_gained i h blocks commits m m' :
  following m -> apply_blocks cfg i blocks commits m = (Ok tt, m') -> consecutive h blocks ->
  Forall (fun b => data_Evidence (blk_Data b) = []) blocks -> (0 < h <= m_height m + 1)%Z ->
  (Z.max (m_height m) (h + Z.of_nat (length blocks)) < 2 ^ 63 - 1)%Z ->
  following m' /\ gained i h blocks commits m m'.
Proof.
  revert i h m. induction blocks as [|b blocks IH]; intros i h m Hf Hr Hcons Hev Hh Hlt; cbn [apply_blocks] in Hr.
  { go_inv Hr. split; [done|]. intros j b c Hj. by rewrite lookup_nil in Hj. }
  destruct Hcons as [Hb Hcons]. apply Forall_cons in Hev as [Hev1 Hev]. go_inv Hr. rename r into c0. go_inv Hrun.
  assert (Hc0 : commits !! i = Some c0) by (unfold index in Hrun; by destruct (commits !! i); simplify_eq).
  go_inv Hr. destruct r. cbn [length] in Hlt. destruct (decide (h = m_height m + 1)%Z) as [->|Hne].
  - destruct (apply_next b c0 m s Hf Hrun0 ltac:(lia) Hb Hev1) as (Hf1 & Hm1 & Hc1).
    destruct (IH (S i) (m_height m + 1 + 1)%Z s Hf1 Hr Hcons Hev ltac:(lia) ltac:(lia)) as [Hf2 Hg]. split; [done|].
    intros [|j] b' c Hj Hcj Hlt'; cbn in Hj.
    + injection Hj as <-. rewrite Nat.add_0_r, Hc0 in Hcj. injection Hcj as <-. rewrite Z.add_0_r.
      pose proof (apply_blocks_settled (m_store s) (m_height s) (S i) blocks commits ltac:(unfold m_height; lia) s) as Hs. rewrite Hr in Hs.
      assert (Hu : is_u64 (m_height m + 1)) by (pose proof (fo_height _ Hf); unfold is_u64 in *; lia).
      destruct Hs as [_ _ _ _ Hk Hsame]; [destruct Hf1; by apply settled_refl|]. split.
      * intros HR. rewrite <- Hc1. apply Hk; [done|lia|done].
      * intros x Hx. apply Hsame in Hx; [|done|lia]. congruence.
    + replace (m_height m + 1 + Z.of_nat (S j))%Z with (m_height m + 1 + 1 + Z.of_nat j)%Z in * by lia.
      apply Hg; [done|by rewrite Nat.add_succ_comm|lia].
  - rewrite applyBlock_skip in Hrun0 by (rewrite u64_small by (pose proof (fo_height _ Hf); unfold is_u64 in *; lia); lia). simplify_eq.
    destruct (IH (S i) (hdr_Height (blk_Header b) + 1)%Z s Hf Hr Hcons Hev ltac:(lia) ltac:(lia)) as [Hf2 Hg]. split; [done|].
    intros [|j] b' c Hj Hcj Hlt'; [lia|]. cbn in Hj.
    replace (hdr_Height (blk_Header b) + Z.of_nat (S j))%Z with (hdr_Height (blk_Header b) + 1 + Z.of_nat j)%Z in * by lia.
    apply Hg; [done|by rewrite Nat.add_succ_comm|done].
Qed.

Lemma consecutive_lookup h blocks :
  (forall i b, blocks !! i = Some b -> hdr_Height (blk_Header b) = (h + Z.of_nat i)%Z) -> consecutive h blocks.
Proof.
  revert h. induction blocks as [|b blocks IH]; intros h Hi; cbn; [done|]. split; [rewrite (Hi 0 b eq_refl); lia|].
  apply IH. intros i b' Hb. rewrite (Hi (S i) b' Hb). lia.
Qed.

Lemma chain_height s h b c : store_wf s -> is_u64 h -> chain s h = Some (b, c) -> hdr_Height (blk_Header b) = h.
Proof.
  intros Hwf Hu Hc. unfold chain in Hc. destruct (LoadBlock s h) as [b'| |] eqn:E; [|done..]. destruct (LoadCommit s h); [|done..].
  simplify_eq. by apply (Hwf h b Hu E).
Qed.

(** C5: a full node follows the sequencer: when the sequencer made a batch of its store and
    the data availability layer hands it to a full node that has the blocks before it, and
    [processNextDABatch] returns without an error, the node is at the end of the batch (or was
    past it), and at every height it gained it holds the sequencer's block, with its
    transactions, and the sequencer's commit - or, below what the application asks to retain,
    possibly nothing.  Its store is in order again, so that the next batch can follow. *)
Theorem full_node_follows_sequencer cfgS sS startHeight endHeight fuel batch daHeight base d' m m' :
  createNextDABatch cfgS fuel startHeight endHeight sS = Ok (Some batch) ->
  (0 < startHeight <= endHeight)%Z -> (endHeight + 2 < 2 ^ 63)%Z -> (endHeight - startHeight + 1 <= Z.of_nat fuel)%Z ->
  store_wf sS -> (forall h b c, is_u64 h -> chain sS h = Some (b, c) -> data_Evidence (blk_Data b) = []) ->
  following m -> (startHeight <= m_height m + 1)%Z -> (m_height m + 1 < 2 ^ 63)%Z ->
  da_RetrieveBatches daHeight (m_dalc m) = (Ok {| drr_Base := base; drr_Batches := [Some batch] |}, d') ->
  processNextDABatch cfg daHeight m = (Ok tt, m') ->
  following m' /\ m_height m' = Z.max (m_height m) (bt_EndHeight batch) /\
  forall k, (m_height m < k <= bt_EndHeight batch)%Z -> is_Some (chain sS k) /\
    ((R <= k)%Z -> chain (m_store m') k = chain sS k) /\ (forall x, chain (m_store m') k = Some x -> chain sS k = Some x).
Proof.
  intros Hb Hst Hend Hfuel Hwf Hev Hf Hle Hlt Hda Hr.
  destruct (createNextDABatch_spec cfgS sS startHeight endHeight fuel (Some batch) Hb Hst ltac:(lia) Hfuel) as (b0 & [= <-] & _ & Heb & Hee & Hlen & Hin & _).
  assert (Hpair : forall i b, bt_Blocks batch !! i = Some b -> exists c, bt_Commits batch !! i = Some c /\ chain sS (startHeight + Z.of_nat i) = Some (b, c)).
  { intros i b Hi. destruct (lookup_lt_is_Some_2 (bt_Commits batch) i) as [c Hc]; [rewrite Hlen; by eapply lookup_lt_Some|]. eauto. }
  assert (Hcons : consecutive startHeight (bt_Blocks batch)).
  { apply consecutive_lookup. intros i b Hi. destruct (Hpair i b Hi) as (c & _ & Hc). apply (chain_height sS _ b c); [done| |done].
    apply lookup_lt_Some in Hi. unfold is_u64. lia. }
  assert (Hevs : Forall (fun b => data_Evidence (blk_Data b) = []) (bt_Blocks batch)).
  { apply Forall_lookup. intros i b Hi. destruct (Hpair i b Hi) as (c & _ & Hc). apply (Hev (startHeight + Z.of_nat i)%Z b c); [|done].
    apply lookup_lt_Some in Hi. unfold is_u64. lia. }
  destruct (processNextDABatch_one _ _ _ _ _ _ _ Hr Hda) as [t Hrun].
  pose proof (fo_height _ Hf) as Hu. unfold is_u64 in Hu.
  assert (Hft : following (set_dalc t m)) by (by destruct Hf; split).
  destruct (apply_blocks_gained 0 startHeight _ _ (set_dalc t m) m' Hft Hrun Hcons Hevs) as [Hf' Hg]; [change (m_height (set_dalc t m)) with (m_height m); lia..|].
  split; [done|]. split.
  - rewrite (apply_blocks_height cfg 0 startHeight _ _ (set_dalc t m) m' Hrun Hcons); change (m_height (set_dalc t m)) with (m_height m); lia.
  - intros k Hk. destruct (lookup_lt_is_Some_2 (bt_Blocks batch) (Z.to_nat (k - startHeight))) as [b Hi]; [lia|]. destruct (Hpair _ b Hi) as (c & Hc & Hch).
    destruct (Hg _ b c Hi Hc) as [H1 H2]; [change (m_height (set_dalc t m)) with (m_height m); lia|].
    replace (startHeight + Z.of_nat (Z.to_nat (k - startHeight)))%Z with k in * by lia. rewrite Hch. split_and!; [done|done|]. intros x Hx. by rewrite (H2 x Hx).
Qed.
End FullNode.

(** ** A concrete pair of nodes *)

Section FollowRun.
Import ToyInstances.

(** The sequencer holds block 1; the full node is new. *)
Definition sequencer_store : DefaultStore := (SaveBlock block1 (toy_commit 1) None empty_store).2.
Definition sequenced : Batch := default da_batch (get_ok None (createNextDABatch toy_cfg 5 1 1 sequencer_store)).
Definition follower : Manager := node_with (toy_state 0 0) empty_store [sequenced] 0 None.
Definition followed : Manager := (processNextDABatch toy_cfg 1 follower).2.

Lemma sequencer_chain : (forall h, is_u64 h -> chain sequencer_store h = if decide (h = 1)%Z then Some (block1, toy_commit 1) else chain empty_store h) /\
  store_wf sequencer_store.
Proof.
  destruct (is_ok_run (SaveBlock block1 (toy_commit 1) None empty_store)) as [ob E]; [vm_compute; reflexivity|].
  destruct (SaveBlock_chain block1 (toy_commit 1) empty_store ob sequencer_store E) as (Hc & Hw & _);
    [cbn; unfold is_u64; lia|reflexivity|apply empty_store_fresh|apply empty_store_wf|]. split; [exact Hc|exact Hw].
Qed.

Lemma follower_following : following follower.
Proof.
  split; [apply empty_store_wf|apply empty_index_ok|done|done|]. intros info [= <-]. vm_compute. congruence.
Qed.

Lemma followed_ok : processNextDABatch toy_cfg 1 follower = (Ok tt, followed).
Proof. destruct (is_ok_run (processNextDABatch toy_cfg 1 follower)) as [[] E]; [vm_compute; reflexivity|exact E]. Qed.

Lemma full_node_follows_sequencer_witness :
  m_height followed = 1%Z /\ chain (m_store followed) 1 = chain sequencer_store 1 /\ is_Some (chain sequencer_store 1).
Proof.
  destruct (full_node_follows_sequencer toy_cfg 0 toy_hash_separates toy_retains toy_cfg sequencer_store 1 1 5 sequenced 1
    {| dr_Code := StatusSuccess; dr_Message := ""; dr_DAHeight := 1 |} ([sequenced] : @dalc toy_da) follower followed) as (_ & Hh & Hk).
  - vm_compute. reflexivity.
  - lia.
  - lia.
  - lia.
  - apply sequencer_chain.
  - intros h b c Hu. rewrite (proj1 sequencer_chain h Hu). destruct (decide (h = 1)%Z); [by intros [= <- _]|].
    unfold chain. destruct (LoadBlock empty_store h) as [b'| |] eqn:E; [|done..]. apply LoadBlock_index in E as (hash & Hi & _).
    unfold index_hash in Hi. vm_compute in Hi. done.
  - apply follower_following.
  - vm_compute. congruence.
  - vm_compute. reflexivity.
  - vm_compute. reflexivity.
  - apply followed_ok.
  - split; [rewrite Hh; vm_compute; reflexivity|]. destruct (Hk 1%Z) as (Hs & He & _); [vm_compute; split; congruence|]. split; [apply He; lia|exact Hs].
Defined.
End FollowRun.
