(* ===== verification/TxCache.v ===== *)
(** * TxCache: the cache of seen transactions

    Models mempool/cache.go: the interface [TxCache], the [LRUTxCache] with its map
    into a linked list (Go's container/list), and [NopTxCache].  The list's elements
    are identified by numbers, the map holds the element of a key, and the two are
    shown to implement a list of keys in order of use. *)
From stdpp Require Import base gmap strings vector sorting numbers list.
From S2P Require Import Prelude Types.

(** [types.TxKey] and [Tx.Key], and the size of a transaction in a block. *)
Class TmTx := {
  tx_key : Tx -> hash32;
  tx_proto_size : Tx -> Z;
}.

#[global] Instance hash32_countable : Countable hash32 := inj_countable vec_to_list (to_vec 32) to_vec_vec.

(** [TxCache]. *)
Class TxCache `{TmTx} := {
  cache : Type;
  cache_Reset : cache -> cache;
  cache_Push : Tx -> cache -> bool * cache;
  cache_Remove : Tx -> cache -> cache;
  cache_Has : Tx -> cache -> bool;
}.

(** ** container/list

    An element is an identity and a value; the list keeps the elements in order. *)
Section GoList.
Context {V : Type}.
Abbreviation glist := (list (nat * V)).

Definition gl_Front (l : glist) : option (nat * V) := head l.
Definition gl_Remove (e : nat) (l : glist) : glist := filter (fun x => x.1 <> e) l.
Definition gl_PushBack (e : nat) (v : V) (l : glist) : glist := l ++ [(e, v)].
Definition gl_MoveToBack (e : nat) (l : glist) : glist :=
  filter (fun x => x.1 <> e) l ++ filter (fun x => x.1 = e) l.
End GoList.

Section Cache.
Context `{TmTx}.

(** ** LRUTxCache *)

Record LRUTxCache := {
  lru_size : Z;
  lru_cacheMap : gmap hash32 nat;
  lru_list : list (nat * hash32);
  lru_next : nat;  (* identity of the next element made *)
}.

Definition NewLRUTxCache (cacheSize : Z) : LRUTxCache :=
  {| lru_size := cacheSize; lru_cacheMap := ∅; lru_list := []; lru_next := 0 |}.

Definition lru_Reset (c : LRUTxCache) : LRUTxCache :=
  {| lru_size := lru_size c; lru_cacheMap := ∅; lru_list := []; lru_next := lru_next c |}.

Definition lru_Push (tx : Tx) (c : LRUTxCache) : bool * LRUTxCache :=
  let key := tx_key tx in
  match lru_cacheMap c !! key with
  | Some moved =>
      (false, {| lru_size := lru_size c; lru_cacheMap := lru_cacheMap c;
                 lru_list := gl_MoveToBack moved (lru_list c); lru_next := lru_next c |})
  | None =>
      let '(cm, l) :=
        if (lru_size c <=? Z.of_nat (length (lru_list c)))%Z then
          match gl_Front (lru_list c) with
          | Some (front, frontKey) => (delete frontKey (lru_cacheMap c), gl_Remove front (lru_list c))
          | None => (lru_cacheMap c, lru_list c)
          end
        else (lru_cacheMap c, lru_list c) in
      let e := lru_next c in
      (true, {| lru_size := lru_size c; lru_cacheMap := <[key := e]> cm;
                lru_list := gl_PushBack e key l; lru_next := S (lru_next c) |})
  end.

Definition lru_Remove (tx : Tx) (c : LRUTxCache) : LRUTxCache :=
  let key := tx_key tx in
  {| lru_size := lru_size c; lru_cacheMap := delete key (lru_cacheMap c);
     lru_list := match lru_cacheMap c !! key with
                 | Some e => gl_Remove e (lru_list c)
                 | None => lru_list c end;
     lru_next := lru_next c |}.

Definition lru_Has (tx : Tx) (c : LRUTxCache) : bool := bool_decide (is_Some (lru_cacheMap c !! tx_key tx)).

Definition LRUCache : TxCache :=
  {| cache := LRUTxCache; cache_Reset := lru_Reset; cache_Push := lru_Push;
     cache_Remove := lru_Remove; cache_Has := lru_Has |}.

(** ** NopTxCache *)

Definition NopTxCache : TxCache :=
  {| cache := unit; cache_Reset c := c; cache_Push _ c := (true, c);
     cache_Remove _ c := c; cache_Has _ _ := false |}.

(** ** The abstract cache: keys, the least recently used first *)

Definition abs_push (size : Z) (k : hash32) (l : list hash32) : bool * list hash32 :=
  if decide (k ∈ l) then (false, filter (fun x => x <> k) l ++ [k])
  else (true, (if (size <=? Z.of_nat (length l))%Z then tail l else l) ++ [k]).

Definition abs_remove (k : hash32) (l : list hash32) : list hash32 := filter (fun x => x <> k) l.

(** The keys a cache holds, in order of use. *)
Definition lru_keys (c : LRUTxCache) : list hash32 := (lru_list c).*2.

(** The map and the list agree: identities and keys are unique, the map gives the
    element of every key of the list and of no other. *)
Record lru_inv (c : LRUTxCache) : Prop := {
  li_ids : NoDup (lru_list c).*1;
  li_keys : NoDup (lru_keys c);
  li_map k e : lru_cacheMap c !! k = Some e <-> (e, k) ∈ lru_list c;
  li_next e k : (e, k) ∈ lru_list c -> e < lru_next c;
}.

Lemma lru_inv_empty size n : lru_inv {| lru_size := size; lru_cacheMap := ∅; lru_list := []; lru_next := n |}.
Proof.
  split; simpl; [constructor|constructor| |].
  - intros. rewrite lookup_empty, elem_of_nil. done.
  - intros e k. by rewrite elem_of_nil.
Qed.

Lemma lru_inv_unique c e e' k k' :
  lru_inv c -> (e, k) ∈ lru_list c -> (e', k') ∈ lru_list c -> e = e' <-> k = k'.
Proof.
  intros [Hids Hkeys Hmap _] H1 H2. split; intros ->.
  - apply list_elem_of_lookup in H1 as [i Hi], H2 as [j Hj].
    assert (i = j) as ->; [|congruence].
    eapply (NoDup_lookup (lru_list c).*1 i j e'); [done|rewrite list_lookup_fmap, Hi; done|rewrite list_lookup_fmap, Hj; done].
  - apply Hmap in H1, H2. congruence.
Qed.

Lemma filter_ids_keys c e k :
  lru_inv c -> (e, k) ∈ lru_list c ->
  (filter (fun x : nat * hash32 => x.1 <> e) (lru_list c)).*2 = filter (fun x => x <> k) (lru_keys c).
Proof.
  intros Hinv Hin. unfold lru_keys.
  assert (Hall : forall x, x ∈ lru_list c -> x.1 <> e <-> x.2 <> k).
  { intros [e' k'] Hx. simpl. pose proof (lru_inv_unique _ _ _ _ _ Hinv Hin Hx) as Hu.
    split; intros Hne Heq; apply Hne; symmetry; apply Hu; by symmetry. }
  clear Hinv Hin. induction (lru_list c) as [|[e' k'] l IH]; [done|].
  rewrite filter_cons. csimpl. rewrite filter_cons.
  pose proof (Hall (e', k') ltac:(by left)) as Hx. simpl in Hx.
  repeat case_decide; try tauto; csimpl; rewrite IH; auto; intros x ?; apply Hall; by right.
Qed.

Lemma filter_id_single c e k :
  lru_inv c -> (e, k) ∈ lru_list c -> filter (fun x : nat * hash32 => x.1 = e) (lru_list c) = [(e, k)].
Proof.
  intros [Hids _ _ _] Hin. apply list_elem_of_split in Hin as (l1 & l2 & E).
  rewrite E, fmap_app, fmap_cons in Hids. rewrite E. apply NoDup_app in Hids as (_ & Hd & [Hn _]%NoDup_cons).
  rewrite filter_app, filter_cons_True by done.
  assert (Hnil : forall l : list (nat * hash32), e ∉ l.*1 -> filter (fun x => x.1 = e) l = []).
  { intros l Hl. induction l as [|[e' k'] l IH]; [done|]. csimpl in Hl. apply not_elem_of_cons in Hl as [? ?].
    rewrite filter_cons_False by (simpl; congruence). auto. }
  rewrite !Hnil; [done|done|]. intros Hx. apply (Hd e Hx). by left.
Qed.

Lemma lru_has_keys c tx : lru_inv c -> lru_Has tx c = bool_decide (tx_key tx ∈ lru_keys c).
Proof.
  intros [_ _ Hmap _]. unfold lru_Has. apply bool_decide_ext. unfold lru_keys. split.
  - intros [e He]. apply Hmap in He. apply list_elem_of_fmap. by exists (e, tx_key tx).
  - intros ([e k] & -> & He)%list_elem_of_fmap. exists e. by apply Hmap.
Qed.

Lemma elem_of_lru_keys c k : lru_inv c -> k ∈ lru_keys c <-> is_Some (lru_cacheMap c !! k).
Proof.
  intros [_ _ Hmap _]. unfold lru_keys. split.
  - intros ([e k'] & -> & He)%list_elem_of_fmap. exists e. by apply Hmap.
  - intros [e He]. apply Hmap in He. apply list_elem_of_fmap. by exists (e, k).
Qed.

(** Removing an element of the list with its entry of the map keeps the invariant. *)
Lemma lru_inv_remove c e k :
  lru_inv c -> (e, k) ∈ lru_list c ->
  lru_inv {| lru_size := lru_size c; lru_cacheMap := delete k (lru_cacheMap c);
             lru_list := gl_Remove e (lru_list c); lru_next := lru_next c |}.
Proof.
  intros Hinv Hin. pose proof Hinv as [Hids Hkeys Hmap Hnext]. split; simpl; unfold lru_keys in *; simpl.
  - eapply sublist_NoDup; [exact Hids|]. apply fmap_sublist, sublist_filter.
  - eapply sublist_NoDup; [exact Hkeys|]. apply fmap_sublist, sublist_filter.
  - intros k' e'. rewrite lookup_delete. unfold gl_Remove. rewrite list_elem_of_filter. simpl. case_decide as E.
    + subst. split; [done|]. intros [Hne Hin']. destruct Hne. by apply (lru_inv_unique c e' e k' k' Hinv Hin' Hin).
    + rewrite Hmap. split; [|by intros [_ ?]]. intros Hin'. split; [|done]. intros ->. apply E. symmetry.
      by apply (lru_inv_unique c e e k' k Hinv Hin' Hin).
  - intros e' k' Hin'. unfold gl_Remove in Hin'. apply list_elem_of_filter in Hin' as [_ ?]. eauto.
Qed.

(** Adding a new element with its entry of the map keeps the invariant. *)
Lemma lru_inv_push c k :
  lru_inv c -> lru_cacheMap c !! k = None ->
  lru_inv {| lru_size := lru_size c; lru_cacheMap := <[k := lru_next c]> (lru_cacheMap c);
             lru_list := gl_PushBack (lru_next c) k (lru_list c); lru_next := S (lru_next c) |}.
Proof.
  intros Hinv Hk. pose proof Hinv as [Hids Hkeys Hmap Hnext].
  assert (Hfresh : forall e', (lru_next c, e') ∉ lru_list c) by (intros e' Hin; apply Hnext in Hin; lia).
  assert (Hkf : forall e', (e', k) ∉ lru_list c) by (intros e' Hin; apply Hmap in Hin; congruence).
  split; simpl; unfold lru_keys, gl_PushBack in *; simpl.
  - rewrite fmap_app. apply NoDup_app. split; [done|]. split; [|apply NoDup_singleton].
    intros x Hx ->%list_elem_of_singleton. apply list_elem_of_fmap in Hx as ([e' k'] & ? & Hin). simpl in *; subst. by eapply Hfresh.
  - rewrite fmap_app. apply NoDup_app. split; [done|]. split; [|apply NoDup_singleton].
    intros x Hx ->%list_elem_of_singleton. apply list_elem_of_fmap in Hx as ([e' k'] & ? & Hin). simpl in *; subst. by eapply Hkf.
  - intros k' e'. rewrite elem_of_app, list_elem_of_singleton, lookup_insert. case_decide; [|rewrite Hmap]; subst.
    + split; [intros [= <-]; by right|]. intros [Hin|?]; [by apply Hkf in Hin|congruence].
    + split; [by left|]. intros [?|?]; [done|congruence].
  - intros e' k' [Hin|?%list_elem_of_singleton]%elem_of_app; [apply Hnext in Hin; lia|simplify_eq; lia].
Qed.

(** Moving an element to the back keeps the invariant. *)
Lemma lru_inv_move c e k :
  lru_inv c -> (e, k) ∈ lru_list c ->
  lru_inv {| lru_size := lru_size c; lru_cacheMap := lru_cacheMap c;
             lru_list := gl_MoveToBack e (lru_list c); lru_next := lru_next c |}.
Proof.
  intros Hinv Hin. pose proof Hinv as [Hids Hkeys Hmap Hnext].
  assert (Hp : gl_MoveToBack e (lru_list c) ≡ₚ lru_list c).
  { unfold gl_MoveToBack. rewrite Permutation_app_comm.
    apply (filter_app_complement (fun x : nat * hash32 => x.1 = e)). }
  split; simpl; unfold lru_keys in *; simpl.
  - by rewrite Hp.
  - by rewrite Hp.
  - intros. by rewrite Hp.
  - intros e' k'. rewrite Hp. apply Hnext.
Qed.

Lemma lru_Remove_spec tx c :
  lru_inv c -> lru_inv (lru_Remove tx c) /\ lru_keys (lru_Remove tx c) = abs_remove (tx_key tx) (lru_keys c).
Proof.
  intros Hinv. unfold lru_Remove. destruct (lru_cacheMap c !! tx_key tx) as [e|] eqn:E.
  - apply (li_map c Hinv) in E as Hin. split; [by apply lru_inv_remove|]. by apply filter_ids_keys.
  - rewrite delete_id by done. split; [by destruct c|]. unfold abs_remove, lru_keys. simpl.
    symmetry. apply list_filter_all. intros k Hk ->. apply (elem_of_lru_keys c _ Hinv) in Hk as [? ?]. congruence.
Qed.

Lemma lru_Push_spec tx c :
  lru_inv c -> lru_inv (lru_Push tx c).2 /\
  (lru_Push tx c).1 = (abs_push (lru_size c) (tx_key tx) (lru_keys c)).1 /\
  lru_keys (lru_Push tx c).2 = (abs_push (lru_size c) (tx_key tx) (lru_keys c)).2.
Proof.
  intros Hinv. unfold lru_Push, abs_push. destruct (lru_cacheMap c !! tx_key tx) as [e|] eqn:E.
  { rewrite decide_True by (apply elem_of_lru_keys; [done|by exists e]).
    apply (li_map c Hinv) in E as Hin. simpl. split; [by eapply lru_inv_move|]. split; [done|].
    unfold lru_keys at 1, gl_MoveToBack. simpl. rewrite fmap_app, (filter_ids_keys c e (tx_key tx)) by done.
    by rewrite (filter_id_single c e (tx_key tx)). }
  rewrite decide_False by (rewrite elem_of_lru_keys by done; rewrite E; by intros []).
  assert (Hlen : length (lru_keys c) = length (lru_list c)) by apply length_fmap. rewrite Hlen.
  destruct (lru_size c <=? Z.of_nat (length (lru_list c)))%Z eqn:Hsz.
  - destruct (lru_list c) as [|[f fk] l] eqn:El; simpl.
    + split; [|split; [done|]].
      * pose proof (lru_inv_push c (tx_key tx) Hinv E) as Hp. by rewrite El in Hp.
      * unfold lru_keys. by rewrite El.
    + assert (Hin : (f, fk) ∈ lru_list c) by (rewrite El; by left).
      pose proof (lru_inv_remove c f fk Hinv Hin) as Hr. rewrite El in Hr. split; [|split; [done|]].
      * apply (lru_inv_push _ (tx_key tx)) in Hr; [done|]. simpl. rewrite lookup_delete. by case_decide.
      * unfold lru_keys, gl_PushBack. simpl. rewrite fmap_app, El. csimpl. f_equal.
        unfold gl_Remove. rewrite filter_cons_False by (simpl; tauto).
        pose proof (li_ids c Hinv) as Hids. rewrite El in Hids. csimpl in Hids. apply NoDup_cons in Hids as [Hn _].
        f_equal. apply list_filter_all. intros [e' k'] Hx ?. simpl in *. subst.
        apply Hn. apply list_elem_of_fmap. by exists (f, k').
  - split; [by apply lru_inv_push|]. split; [done|]. unfold lru_keys, gl_PushBack. simpl. by rewrite fmap_app.
Qed.

(** Operations of a cache in a row. *)
Inductive cacheop := CPush (tx : Tx) | CRemove (tx : Tx) | CReset.

Definition lru_step (c : LRUTxCache) (o : cacheop) : LRUTxCache :=
  match o with CPush tx => (lru_Push tx c).2 | CRemove tx => lru_Remove tx c | CReset => lru_Reset c end.

Definition abs_step (size : Z) (l : list hash32) (o : cacheop) : list hash32 :=
  match o with
  | CPush tx => (abs_push size (tx_key tx) l).2
  | CRemove tx => abs_remove (tx_key tx) l
  | CReset => [] end.

Lemma lru_step_size c o : lru_size (lru_step c o) = lru_size c.
Proof.
  destruct o as [tx| |]; simpl; [|done..]. unfold lru_Push.
  destruct (lru_cacheMap c !! tx_key tx); [done|]. by case_match.
Qed.

Lemma abs_step_length size l o :
  (0 < size)%Z -> NoDup l -> (Z.of_nat (length l) <= size)%Z -> (Z.of_nat (length (abs_step size l o)) <= size)%Z.
Proof.
  intros Hs Hnd Hl. destruct o as [tx|tx|]; simpl; [| |lia].
  - unfold abs_push. case_decide as Hin; simpl; rewrite length_app; simpl.
    + assert (length (filter (fun x => x <> tx_key tx) l) < length l); [|lia].
      apply list_elem_of_split in Hin as (l1 & l2 & ->). rewrite filter_app, filter_cons_False by tauto.
      rewrite !length_app. simpl. pose proof (length_filter (fun x => x <> tx_key tx) l1).
      pose proof (length_filter (fun x => x <> tx_key tx) l2). lia.
    + destruct (Z.leb_spec size (Z.of_nat (length l))); [destruct l; simpl in *; lia|lia].
  - unfold abs_remove. pose proof (length_filter (fun x => x <> tx_key tx) l). lia.
Qed.

(** The LRU cache implements a bounded list of keys in order of use: after any
    sequence of pushes, removals and resets, the map and the linked list describe
    exactly the keys of the abstract cache, [Push] and [Has] answer from it, and a cache
    of positive size never holds more keys than its size. *)
Theorem lru_cache_refines size ops tx :
  let c := foldl lru_step (NewLRUTxCache size) ops in
  let l := foldl (abs_step size) [] ops in
  lru_keys c = l /\ NoDup l /\
  (lru_Push tx c).1 = bool_decide (tx_key tx ∉ l) /\ lru_Has tx c = bool_decide (tx_key tx ∈ l) /\
  ((0 < size)%Z -> (Z.of_nat (length l) <= size)%Z).
Proof.
  simpl. assert (Hgen : forall ops', lru_inv (foldl lru_step (NewLRUTxCache size) ops') /\
    lru_size (foldl lru_step (NewLRUTxCache size) ops') = size /\
    lru_keys (foldl lru_step (NewLRUTxCache size) ops') = foldl (abs_step size) [] ops' /\
    ((0 < size)%Z -> (Z.of_nat (length (foldl (abs_step size) [] ops')) <= size)%Z)).
  { induction ops' as [|o ops' IH] using rev_ind.
    { split; [apply lru_inv_empty|]. simpl. repeat split; lia. }
    rewrite !foldl_app. simpl. destruct IH as (Hinv & Hsz & Hk & Hlen).
    set (c := foldl lru_step (NewLRUTxCache size) ops') in *. split; [|split; [by rewrite lru_step_size|split]].
    - destruct o; simpl; [by apply lru_Push_spec|by apply lru_Remove_spec|apply lru_inv_empty].
    - rewrite <- Hk, <- Hsz. destruct o; simpl; [by apply lru_Push_spec|by apply lru_Remove_spec|done].
    - intros Hs. apply abs_step_length; [done| |auto]. rewrite <- Hk. by apply li_keys. }
  destruct (Hgen ops) as (Hinv & Hsz & Hk & Hlen). split; [done|]. split; [rewrite <- Hk; by apply li_keys|].
  rewrite <- Hk. split; [|split; [by apply lru_has_keys|rewrite Hk; done]].
  destruct (lru_Push_spec tx _ Hinv) as (_ & -> & _). unfold abs_push.
  case_decide; simpl; [by rewrite bool_decide_eq_false_2 by tauto|by rewrite bool_decide_eq_true_2].
Qed.
End Cache.
