(* ===== verification/CList.v ===== *)
(** * CList: the concurrent linked list, pointer by pointer

    Models mempool/clist/clist.go: elements live in a heap and are linked by
    [prev] and [next]; a wait group with its channel is a flag that tells whether
    it has fired, and firing it twice panics as Go's [close] and [WaitGroup.Done]
    do.  The locks make each operation atomic, so operations are run one after
    the other. *)
From stdpp Require Import base gmap strings vector sorting numbers list.
From S2P Require Import Prelude.

Section CList.
Context {V : Type}.

Record CElement := {
  ce_prev : option nat;
  ce_prevDone : bool;   (* prevWg and prevWaitCh *)
  ce_next : option nat;
  ce_nextDone : bool;   (* nextWg and nextWaitCh *)
  ce_removed : bool;
  ce_Value : V;
}.

Record CList := {
  cl_heap : gmap nat CElement;
  cl_fresh : nat;
  cl_done : bool;       (* wg and waitCh *)
  cl_head : option nat;
  cl_tail : option nat;
  cl_len : Z;
  cl_maxLen : Z;
}.

Definition MaxLength : Z := 2 ^ 63 - 1.

Definition newWithMax (maxLength : Z) : CList :=
  {| cl_heap := ∅; cl_fresh := 0; cl_done := false; cl_head := None; cl_tail := None;
     cl_len := 0; cl_maxLen := maxLength |}.
Definition New_clist : CList := newWithMax MaxLength.

Definition set_heap (h : gmap nat CElement) (l : CList) : CList :=
  {| cl_heap := h; cl_fresh := cl_fresh l; cl_done := cl_done l; cl_head := cl_head l;
     cl_tail := cl_tail l; cl_len := cl_len l; cl_maxLen := cl_maxLen l |}.
Definition set_ends (hd tl : option nat) (l : CList) : CList :=
  {| cl_heap := cl_heap l; cl_fresh := cl_fresh l; cl_done := cl_done l; cl_head := hd;
     cl_tail := tl; cl_len := cl_len l; cl_maxLen := cl_maxLen l |}.
Definition set_len (done : bool) (n : Z) (l : CList) : CList :=
  {| cl_heap := cl_heap l; cl_fresh := cl_fresh l; cl_done := done; cl_head := cl_head l;
     cl_tail := cl_tail l; cl_len := n; cl_maxLen := cl_maxLen l |}.

(** ** Elements *)

Definition read_elt (e : nat) : M CList CElement := read (fun l => deref (cl_heap l !! e)).
Definition write_elt (e : nat) (x : CElement) : M CList unit := modify (fun l => set_heap (<[e := x]> (cl_heap l)) l).

Definition Next (e : nat) : M CList (option nat) := let! x := read_elt e in ret (ce_next x).
Definition Prev (e : nat) : M CList (option nat) := let! x := read_elt e in ret (ce_prev x).
Definition Removed (e : nat) : M CList bool := let! x := read_elt e in ret (ce_removed x).

(** Firing a wait group and its channel. *)
Definition fire (fired : bool) : M CList bool :=
  if fired then panic "sync: negative WaitGroup counter" else ret true.

Definition SetNext (e : nat) (newNext : option nat) : M CList unit :=
  let! x := read_elt e in
  let oldNext := ce_next x in
  let done := if bool_decide (is_Some oldNext) && bool_decide (newNext = None) then false else ce_nextDone x in
  let! done := if bool_decide (oldNext = None) && bool_decide (is_Some newNext) then fire done else ret done in
  write_elt e {| ce_prev := ce_prev x; ce_prevDone := ce_prevDone x; ce_next := newNext; ce_nextDone := done;
                 ce_removed := ce_removed x; ce_Value := ce_Value x |}.

Definition SetPrev (e : nat) (newPrev : option nat) : M CList unit :=
  let! x := read_elt e in
  let oldPrev := ce_prev x in
  let done := if bool_decide (is_Some oldPrev) && bool_decide (newPrev = None) then false else ce_prevDone x in
  let! done := if bool_decide (oldPrev = None) && bool_decide (is_Some newPrev) then fire done else ret done in
  write_elt e {| ce_prev := newPrev; ce_prevDone := done; ce_next := ce_next x; ce_nextDone := ce_nextDone x;
                 ce_removed := ce_removed x; ce_Value := ce_Value x |}.

Definition SetRemoved (e : nat) : M CList unit :=
  let! x := read_elt e in
  let! pd := if bool_decide (ce_prev x = None) then fire (ce_prevDone x) else ret (ce_prevDone x) in
  let! nd := if bool_decide (ce_next x = None) then fire (ce_nextDone x) else ret (ce_nextDone x) in
  write_elt e {| ce_prev := ce_prev x; ce_prevDone := pd; ce_next := ce_next x; ce_nextDone := nd;
                 ce_removed := true; ce_Value := ce_Value x |}.

Definition DetachNext (e : nat) : M CList unit :=
  let! x := read_elt e in
  if ce_removed x : bool then
    write_elt e {| ce_prev := ce_prev x; ce_prevDone := ce_prevDone x; ce_next := None; ce_nextDone := ce_nextDone x;
                   ce_removed := ce_removed x; ce_Value := ce_Value x |}
  else panic "DetachNext() must be called after Remove(e)".

Definition DetachPrev (e : nat) : M CList unit :=
  let! x := read_elt e in
  if ce_removed x : bool then
    write_elt e {| ce_prev := None; ce_prevDone := ce_prevDone x; ce_next := ce_next x; ce_nextDone := ce_nextDone x;
                   ce_removed := ce_removed x; ce_Value := ce_Value x |}
  else panic "DetachPrev() must be called after Remove(e)".

(** ** The list *)

Definition Len (l : CList) : Z := cl_len l.
Definition Front (l : CList) : option nat := cl_head l.
Definition Back (l : CList) : option nat := cl_tail l.

Definition PushBack (v : V) : M CList nat :=
  let! l := get in
  let e := cl_fresh l in
  do! put {| cl_heap := <[e := {| ce_prev := None; ce_prevDone := false; ce_next := None; ce_nextDone := false;
                                  ce_removed := false; ce_Value := v |}]> (cl_heap l);
             cl_fresh := S e; cl_done := cl_done l; cl_head := cl_head l; cl_tail := cl_tail l;
             cl_len := cl_len l; cl_maxLen := cl_maxLen l |} in
  let! done := if (cl_len l =? 0)%Z then fire (cl_done l) else ret (cl_done l) in
  if (cl_maxLen l <=? cl_len l)%Z then panic "clist: maximum length list reached"
  else
    do! modify (set_len done (cl_len l + 1)) in
    do! match cl_tail l with
        | None => modify (set_ends (Some e) (Some e))
        | Some t =>
            do! SetPrev e (Some t) in
            do! SetNext t (Some e) in
            modify (fun l => set_ends (cl_head l) (Some e) l)
        end in
    ret e.

Definition Remove (e : nat) : M CList V :=
  let! prev := Prev e in
  let! next := Next e in
  let! l := get in
  if bool_decide (cl_head l = None) || bool_decide (cl_tail l = None) then panic "Remove(e) on empty CList"
  else if bool_decide (prev = None) && negb (bool_decide (cl_head l = Some e))
  then panic "Remove(e) with false head"
  else if bool_decide (next = None) && negb (bool_decide (cl_tail l = Some e))
  then panic "Remove(e) with false tail"
  else
    do! modify (set_len (if (cl_len l =? 1)%Z then false else cl_done l) (cl_len l - 1)) in
    do! match prev with
        | None => modify (fun l => set_ends next (cl_tail l) l)
        | Some p => SetNext p next
        end in
    do! match next with
        | None => modify (fun l => set_ends (cl_head l) prev l)
        | Some n => SetPrev n prev
        end in
    do! SetRemoved e in
    let! x := read_elt e in
    ret (ce_Value x).

(** Removing an element and detaching it, as the mempool does. *)
Definition RemoveDetach (e : nat) : M CList V :=
  let! v := Remove e in
  do! DetachPrev e in
  do! DetachNext e in
  ret v.

(** [for e := l.Front(); e != nil; e = e.Next()], collecting the values; [None] when
    the fuel runs out. *)
Fixpoint walk (fuel : nat) (cur : option nat) (l : CList) : option (list (nat * V)) :=
  match cur with
  | None => Some []
  | Some e =>
      match fuel with
      | O => None
      | S fuel =>
          match cl_heap l !! e with
          | None => None
          | Some x => cons (e, ce_Value x) <$> walk fuel (ce_next x) l
          end
      end
  end.

(** ** What the pointers represent *)

Definition live (p n : option nat) (v : V) : CElement :=
  {| ce_prev := p; ce_prevDone := bool_decide (is_Some p); ce_next := n; ce_nextDone := bool_decide (is_Some n);
     ce_removed := false; ce_Value := v |}.

Definition first_of (xs : list (nat * V)) (n : option nat) : option nat :=
  match xs with (e, _) :: _ => Some e | [] => n end.
Definition last_of (p : option nat) (xs : list (nat * V)) : option nat :=
  match last xs with Some (e, _) => Some e | None => p end.

(** A doubly linked segment: [p] before it and [n] after it. *)
Fixpoint dseg (h : gmap nat CElement) (p : option nat) (xs : list (nat * V)) (n : option nat) : Prop :=
  match xs with
  | [] => True
  | (e, v) :: xs => h !! e = Some (live p (first_of xs n) v) /\ dseg h (Some e) xs n
  end.

Record repr (l : CList) (xs : list (nat * V)) : Prop := {
  re_seg : dseg (cl_heap l) None xs None;
  re_nodup : NoDup xs.*1;
  re_head : cl_head l = first_of xs None;
  re_tail : cl_tail l = last_of None xs;
  re_len : cl_len l = Z.of_nat (length xs);
  re_done : cl_done l = bool_decide (xs <> []);
  re_fresh e : e ∈ xs.*1 -> e < cl_fresh l;
}.

Lemma repr_new n : repr (newWithMax n) [].
Proof. split; simpl; try done; [constructor|]. intros e. by rewrite elem_of_nil. Qed.

Lemma first_of_app xs ys n : first_of (xs ++ ys) n = first_of xs (first_of ys n).
Proof. by destruct xs as [|[]]. Qed.

Lemma last_of_snoc p xs e v : last_of p (xs ++ [(e, v)]) = Some e.
Proof. unfold last_of. by rewrite last_snoc. Qed.

Lemma last_of_cons p e v xs : last_of p ((e, v) :: xs) = last_of (Some e) xs.
Proof. unfold last_of. rewrite last_cons. by destruct (last xs) as [[]|]. Qed.

Lemma dseg_app h p xs ys n :
  dseg h p (xs ++ ys) n <-> dseg h p xs (first_of ys n) /\ dseg h (last_of p xs) ys n.
Proof.
  revert p. induction xs as [|[e v] xs IH]; intros p; [naive_solver|].
  cbn [app dseg]. rewrite IH, first_of_app, last_of_cons. tauto.
Qed.

(** A segment does not see changes of other elements. *)
Lemma dseg_insert h p xs n e x : e ∉ xs.*1 -> dseg (<[e := x]> h) p xs n <-> dseg h p xs n.
Proof.
  revert p. induction xs as [|[e' v] xs IH]; intros p Hn; [done|]. csimpl in Hn.
  apply not_elem_of_cons in Hn as [Hne Hn]. cbn [dseg]. by rewrite lookup_insert_ne, IH.
Qed.

Lemma walk_dseg l p xs fuel :
  dseg (cl_heap l) p xs None -> length xs <= fuel -> walk fuel (first_of xs None) l = Some xs.
Proof.
  revert p xs. induction fuel as [|fuel IH]; intros p [|[e v] xs] Hs Hf; simpl in *; [done|lia|done|].
  destruct Hs as [He Hs]. rewrite He. simpl. rewrite (IH (Some e) xs Hs) by lia. done.
Qed.

(** ** What each operation does to the represented list *)

Lemma SetNext_live e p n n' v l :
  cl_heap l !! e = Some (live p n v) ->
  SetNext e n' l = (Ok tt, set_heap (<[e := live p n' v]> (cl_heap l)) l).
Proof.
  intros He. unfold SetNext, read_elt, write_elt, read, bind, modify. rewrite He. simpl.
  by destruct n, n'.
Qed.

Lemma SetPrev_live e p p' n v l :
  cl_heap l !! e = Some (live p n v) ->
  SetPrev e p' l = (Ok tt, set_heap (<[e := live p' n v]> (cl_heap l)) l).
Proof.
  intros He. unfold SetPrev, read_elt, write_elt, read, bind, modify. rewrite He. simpl.
  by destruct p, p'.
Qed.

(** An element that was taken out and cut off its neighbours. *)
Definition detached (v : V) : CElement :=
  {| ce_prev := None; ce_prevDone := true; ce_next := None; ce_nextDone := true; ce_removed := true; ce_Value := v |}.

Lemma SetRemoved_live e p n v l :
  cl_heap l !! e = Some (live p n v) ->
  SetRemoved e l = (Ok tt, set_heap (<[e := {| ce_prev := p; ce_prevDone := true; ce_next := n; ce_nextDone := true;
                                               ce_removed := true; ce_Value := v |}]> (cl_heap l)) l).
Proof.
  intros He. unfold SetRemoved, read_elt, write_elt, read, bind, modify. rewrite He. simpl.
  by destruct p, n.
Qed.

Lemma repr_elt l xs1 e v xs2 :
  repr l (xs1 ++ (e, v) :: xs2) -> cl_heap l !! e = Some (live (last_of None xs1) (first_of xs2 None) v).
Proof. intros [Hs]. apply dseg_app in Hs as [_ [He _]]. done. Qed.

Lemma repr_lookup l xs e v : repr l xs -> (e, v) ∈ xs -> exists x, cl_heap l !! e = Some x /\ ce_Value x = v.
Proof. intros Hr (xs1 & xs2 & ->)%list_elem_of_split. apply repr_elt in Hr. by eexists. Qed.

(** Relinking the ends of a segment. *)
Lemma dseg_relink_last h p xs t w n n' :
  t ∉ xs.*1 -> dseg h p (xs ++ [(t, w)]) n ->
  dseg (<[t := live (last_of p xs) n' w]> h) p (xs ++ [(t, w)]) n'.
Proof.
  intros Hn [H1 [H2 _]]%dseg_app. apply dseg_app. split; [by apply dseg_insert|].
  simpl. by rewrite lookup_insert_eq.
Qed.

Lemma dseg_relink_first h p p' t w xs n :
  t ∉ xs.*1 -> dseg h p ((t, w) :: xs) n -> dseg (<[t := live p' (first_of xs n) w]> h) p' ((t, w) :: xs) n.
Proof. intros Hn [H1 H2]. split; [by rewrite lookup_insert_eq|by apply dseg_insert]. Qed.

Lemma PushBack_repr v l xs :
  repr l xs -> (Z.of_nat (length xs) < cl_maxLen l)%Z ->
  exists l', PushBack v l = (Ok (cl_fresh l), l') /\ repr l' (xs ++ [(cl_fresh l, v)]) /\
             cl_maxLen l' = cl_maxLen l /\ cl_fresh l' = S (cl_fresh l).
Proof.
  intros [Hs Hnd Hh Ht Hl Hd Hf] Hm. set (e := cl_fresh l) in *.
  assert (Hnin : e ∉ xs.*1) by (intros Hin; specialize (Hf e Hin); lia).
  assert (Hndapp : NoDup (xs ++ [(e, v)]).*1).
  { rewrite fmap_app. apply NoDup_app. split; [done|]. split; [|apply NoDup_singleton].
    by intros x Hx ->%list_elem_of_singleton. }
  assert (Hlt : forall x, x ∈ (xs ++ [(e, v)]).*1 -> x < S e).
  { intros x. rewrite fmap_app, elem_of_app. intros [Hx | ->%list_elem_of_singleton]; [apply Hf in Hx|]; simpl; lia. }
  unfold PushBack, bind, get, put. fold e. rewrite Hl, Hd, Ht.
  rewrite (proj2 (Z.leb_gt (cl_maxLen l) (Z.of_nat (length xs))) Hm).
  destruct xs as [|[t w] ys _] using rev_ind.
  - simpl. eexists. split; [reflexivity|]. split; [|done]. split; simpl; [|done..].
    by rewrite lookup_insert_eq.
  - rewrite last_of_snoc.
    rewrite (proj2 (Z.eqb_neq (Z.of_nat (length (ys ++ [(t, w)]))) 0)) by (rewrite length_app; simpl; lia).
    assert (Hte : t <> e).
    { intros ->. apply Hnin. rewrite fmap_app. apply elem_of_app. right. by left. }
    pose proof (proj1 (dseg_app _ _ _ _ _) Hs) as [_ [Het _]].
    cbn [ret modify set_len]. erewrite (SetPrev_live e None (Some t) None v) by (simpl; by rewrite lookup_insert_eq).
    unfold set_len, set_heap. cbn [cl_heap cl_fresh cl_done cl_head cl_tail cl_len cl_maxLen]. rewrite insert_insert_eq.
    erewrite (SetNext_live t _ None (Some e) w) by (simpl; by rewrite lookup_insert_ne).
    eexists. split; [reflexivity|]. split; [|done].
    split; simpl; [|done| | | | |done].
    + apply dseg_app. split.
      * apply dseg_relink_last with (n := None); [|by apply dseg_insert].
        rewrite fmap_app in Hnd. apply NoDup_app in Hnd as (_ & Hx & _). intros Hin. apply (Hx t Hin). by left.
      * simpl. rewrite lookup_insert_ne, lookup_insert_eq by done. by rewrite last_of_snoc.
    + by rewrite Hh, !first_of_app.
    + by rewrite last_of_snoc.
    + rewrite !length_app. simpl. lia.
    + by destruct ys.
Qed.

(** The heap after the neighbours of a removed element were linked to each other. *)
Definition relink (xs1 xs2 : list (nat * V)) (h : gmap nat CElement) : gmap nat CElement :=
  let h1 := match last xs1 with
            | Some (p, w) => <[p := live (last_of None (take (length xs1 - 1) xs1)) (first_of xs2 None) w]> h
            | None => h end in
  match xs2 with
  | (n, w) :: xs2' => <[n := live (last_of None xs1) (first_of xs2' None) w]> h1
  | [] => h1
  end.

Lemma relink_snoc xs p w xs2 h :
  relink (xs ++ [(p, w)]) xs2 h =
  match xs2 with
  | (n, w') :: xs2' => <[n := live (Some p) (first_of xs2' None) w']> (<[p := live (last_of None xs) (first_of xs2 None) w]> h)
  | [] => <[p := live (last_of None xs) None w]> h
  end.
Proof.
  unfold relink. rewrite last_snoc, last_of_snoc, length_app. simpl.
  rewrite Nat.add_sub, take_app_length. by destruct xs2 as [|[]].
Qed.

Lemma relink_dseg h xs1 e v xs2 :
  NoDup (xs1 ++ (e, v) :: xs2).*1 -> dseg h None (xs1 ++ (e, v) :: xs2) None ->
  dseg (relink xs1 xs2 h) None (xs1 ++ xs2) None.
Proof.
  rewrite fmap_app, fmap_cons. intros (Hn1 & Hd & [_ Hn2]%NoDup_cons)%NoDup_app [H1 [_ H2]]%dseg_app.
  apply dseg_app. destruct xs1 as [|[p w] ys _] using rev_ind.
  - split; [done|]. destruct xs2 as [|[n w'] zs]; [done|]. csimpl in Hn2. apply NoDup_cons in Hn2 as [? _].
    by apply dseg_relink_first with (p := Some e).
  - rewrite relink_snoc, last_of_snoc. rewrite fmap_app in Hn1, Hd. csimpl in Hn1. csimpl in Hd.
    apply NoDup_app in Hn1 as (Hn1 & Hp & _).
    assert (Hpy : p ∉ ys.*1) by (intros Hin; apply (Hp p Hin); by left).
    apply dseg_relink_last with (n' := first_of xs2 None) in H1; [|done].
    destruct xs2 as [|[n w'] zs]; [done|]. csimpl in Hn2. apply NoDup_cons in Hn2 as [Hnz _]. csimpl in Hd.
    assert (Hnot : forall x, x ∈ (n :: zs.*1) -> x ∉ ys.*1 ++ [p]) by (intros x Hx Hin; apply (Hd x Hin); by right).
    split.
    + apply dseg_insert; [|done]. rewrite fmap_app. csimpl. apply Hnot. by left.
    + apply dseg_relink_first with (p := Some e); [done|]. apply dseg_insert; [|done]. csimpl. intros Hin.
      apply (Hnot p Hin), elem_of_app. right. by left.
Qed.

Lemma relink_other h xs1 xs2 e : e ∉ xs1.*1 -> e ∉ xs2.*1 -> relink xs1 xs2 h !! e = h !! e.
Proof.
  intros H1 H2. destruct xs1 as [|[p w] ys _] using rev_ind; [simpl|rewrite relink_snoc].
  - destruct xs2 as [|[n w'] zs]; [done|]. csimpl in H2. apply not_elem_of_cons in H2 as [? _].
    unfold relink. simpl. by rewrite lookup_insert_ne.
  - rewrite fmap_app in H1. csimpl in H1. apply not_elem_of_app in H1 as [_ H1].
    apply not_elem_of_cons in H1 as [? _].
    destruct xs2 as [|[n w'] zs]; [by rewrite lookup_insert_ne|]. csimpl in H2.
    apply not_elem_of_cons in H2 as [? _]. by rewrite !lookup_insert_ne.
Qed.

(** The two pointer updates of [Remove] relink the neighbours. *)
Lemma Remove_links l d k xs1 e v xs2 :
  repr l (xs1 ++ (e, v) :: xs2) ->
  (do! match last_of None xs1 with
       | None => modify (fun l => set_ends (first_of xs2 None) (cl_tail l) l)
       | Some p => SetNext p (first_of xs2 None)
       end in
   match first_of xs2 None with
   | None => modify (fun l => set_ends (cl_head l) (last_of None xs1) l)
   | Some n => SetPrev n (last_of None xs1)
   end) (set_len d k l)
  = (Ok tt, {| cl_heap := relink xs1 xs2 (cl_heap l); cl_fresh := cl_fresh l; cl_done := d;
               cl_head := first_of (xs1 ++ xs2) None; cl_tail := last_of None (xs1 ++ xs2);
               cl_len := k; cl_maxLen := cl_maxLen l |}).
Proof.
  intros [Hs Hnd Hh Ht _ _ _]. rewrite fmap_app, fmap_cons in Hnd. apply NoDup_app in Hnd as (_ & Hd & _).
  pose proof (proj1 (dseg_app _ _ _ _ _) Hs) as [H1 [_ H2]].
  assert (Htl : last_of None (xs1 ++ xs2) = match xs2 with [] => last_of None xs1 | _ => cl_tail l end).
  { rewrite Ht. destruct xs2; [by rewrite app_nil_r|]. unfold last_of. by rewrite !last_app. }
  assert (Hhd : first_of (xs1 ++ xs2) None = match xs1 with [] => first_of xs2 None | _ => cl_head l end).
  { rewrite Hh. by destruct xs1 as [|[]]. }
  rewrite Htl, Hhd. clear Htl Hhd. unfold bind.
  destruct xs1 as [|[p w] ys _] using rev_ind.
  - destruct xs2 as [|[n w'] zs]; simpl; [reflexivity|]. destruct H2 as [Hn _].
    erewrite SetPrev_live by (cbn; exact Hn). reflexivity.
  - rewrite last_of_snoc. apply dseg_app in H1 as [_ [Hp _]].
    erewrite SetNext_live by exact Hp. rewrite relink_snoc.
    replace (match ys ++ [(p, w)] with [] => first_of xs2 None | _ => cl_head l end) with (cl_head l) by (by destruct ys).
    destruct xs2 as [|[n w'] zs]; simpl; [reflexivity|].
    destruct H2 as [Hn _]. erewrite SetPrev_live; [|cbn; rewrite lookup_insert_ne; [exact Hn|]]; [reflexivity|].
    intros ->. apply (Hd n); [|right; by left]. rewrite fmap_app. apply elem_of_app. right. by left.
Qed.

Lemma Remove_run l xs1 e v xs2 :
  repr l (xs1 ++ (e, v) :: xs2) -> cl_head l <> None -> cl_tail l <> None -> e ∉ xs1.*1 -> e ∉ xs2.*1 ->
  Remove e l =
  (Ok v, {| cl_heap := <[e := {| ce_prev := last_of None xs1; ce_prevDone := true; ce_next := first_of xs2 None;
                                 ce_nextDone := true; ce_removed := true; ce_Value := v |}]> (relink xs1 xs2 (cl_heap l));
            cl_fresh := cl_fresh l; cl_done := if (cl_len l =? 1)%Z then false else cl_done l;
            cl_head := first_of (xs1 ++ xs2) None; cl_tail := last_of None (xs1 ++ xs2);
            cl_len := cl_len l - 1; cl_maxLen := cl_maxLen l |}).
Proof.
  intros Hr Hhd Htl He1 He2. pose proof (repr_elt _ _ _ _ _ Hr) as He.
  assert (Hh : bool_decide (last_of None xs1 = None) && negb (bool_decide (cl_head l = Some e)) = false).
  { rewrite (re_head _ _ Hr). destruct xs1 as [|[p w] ys _] using rev_ind; [|by rewrite last_of_snoc].
    simpl. by rewrite (bool_decide_eq_true_2 (Some e = Some e)). }
  assert (Ht : bool_decide (first_of xs2 None = None) && negb (bool_decide (cl_tail l = Some e)) = false).
  { rewrite (re_tail _ _ Hr). destruct xs2 as [|[]]; [|done]. rewrite last_of_snoc. by rewrite (bool_decide_eq_true_2 (Some e = Some e)). }
  unfold Remove, Prev, Next, read_elt.
  unfold bind at 1 2, read at 1. rewrite He. cbn [deref ret live ce_prev].
  unfold bind at 1 2, read at 1. rewrite He. cbn [deref ret live ce_next].
  unfold bind at 1, get. rewrite !(bool_decide_eq_false_2 (_ = None)) by done. cbn [orb].
  rewrite Hh, Ht. unfold bind at 1, modify at 1.
  erewrite bind_seq_ok by (by apply (Remove_links l _ _ xs1 e v xs2)).
  unfold bind. erewrite SetRemoved_live by (simpl; rewrite relink_other by done; exact He).
  unfold read, set_heap. simpl. by rewrite lookup_insert_eq.
Qed.

(** The list once an element is taken out; [x] is what the element has become. *)
Definition unlinked (l : CList) (xs1 : list (nat * V)) (e : nat) (x : CElement) (xs2 : list (nat * V)) : CList :=
  {| cl_heap := <[e := x]> (relink xs1 xs2 (cl_heap l)); cl_fresh := cl_fresh l;
     cl_done := if (cl_len l =? 1)%Z then false else cl_done l;
     cl_head := first_of (xs1 ++ xs2) None; cl_tail := last_of None (xs1 ++ xs2);
     cl_len := cl_len l - 1; cl_maxLen := cl_maxLen l |}.

(** An element that was taken out and still points to its neighbours. *)
Definition removed (p n : option nat) (v : V) : CElement :=
  {| ce_prev := p; ce_prevDone := true; ce_next := n; ce_nextDone := true; ce_removed := true; ce_Value := v |}.

Lemma repr_once l xs1 e v xs2 : repr l (xs1 ++ (e, v) :: xs2) -> e ∉ xs1.*1 /\ e ∉ xs2.*1.
Proof.
  intros Hr. pose proof (re_nodup _ _ Hr) as Hnd. rewrite fmap_app, fmap_cons in Hnd.
  apply NoDup_app in Hnd as (_ & Hx & [? _]%NoDup_cons). split; [|done]. intros Hin. apply (Hx e Hin). by left.
Qed.

Lemma Remove_unlinks l xs1 e v xs2 :
  repr l (xs1 ++ (e, v) :: xs2) -> Remove e l = (Ok v, unlinked l xs1 e (removed (last_of None xs1) (first_of xs2 None) v) xs2).
Proof.
  intros Hr. destruct (repr_once _ _ _ _ _ Hr) as [He1 He2]. apply (Remove_run l xs1 e v xs2 Hr); [..|done|done].
  - rewrite (re_head _ _ Hr). by destruct xs1 as [|[]].
  - rewrite (re_tail _ _ Hr). unfold last_of. rewrite last_app. simpl.
    by destruct (last ((e, v) :: xs2)) as [[]|] eqn:E; [|apply last_None in E].
Qed.

Lemma unlinked_repr l xs1 e v x xs2 : repr l (xs1 ++ (e, v) :: xs2) -> repr (unlinked l xs1 e x xs2) (xs1 ++ xs2).
Proof.
  intros Hr. destruct (repr_once _ _ _ _ _ Hr) as [He1 He2]. destruct Hr as [Hs Hnd Hh Ht Hl Hd Hf].
  rewrite !length_app in *. simpl in *. split; simpl; [|  |done|done| | |].
  - apply dseg_insert; [rewrite fmap_app, not_elem_of_app; done|]. by eapply relink_dseg.
  - rewrite fmap_app, fmap_cons in Hnd. rewrite fmap_app.
    eapply sublist_NoDup; [exact Hnd|]. apply sublist_app; [done|]. by apply sublist_cons.
  - rewrite length_app. lia.
  - rewrite Hl, Hd. destruct (Z.eqb_spec (Z.of_nat (length xs1 + S (length xs2))) 1) as [E|E].
    + assert (xs1 = [] /\ xs2 = []) as [-> ->] by (split; apply length_zero_iff_nil; lia). done.
    + rewrite !bool_decide_eq_true_2; [done|..]; intros [-> E']%app_eq_nil; [by subst; simpl in E|done].
  - intros y Hx. apply Hf. rewrite fmap_app, elem_of_app in *. rewrite fmap_cons. destruct Hx; [by left|right; by right].
Qed.

Lemma RemoveDetach_repr l xs1 e v xs2 :
  repr l (xs1 ++ (e, v) :: xs2) ->
  exists l', RemoveDetach e l = (Ok v, l') /\ repr l' (xs1 ++ xs2) /\ cl_heap l' !! e = Some (detached v) /\
             cl_maxLen l' = cl_maxLen l /\ cl_fresh l' = cl_fresh l.
Proof.
  intros Hr. exists (unlinked l xs1 e (detached v) xs2). split_and!; [|by eapply unlinked_repr|simpl; by rewrite lookup_insert_eq|done..].
  unfold RemoveDetach. rewrite (bind_ok _ _ _ _ _ (Remove_unlinks _ _ _ _ _ Hr)).
  unfold DetachPrev, DetachNext, read_elt, write_elt, read, bind, modify. simpl.
  rewrite lookup_insert_eq. simpl. rewrite lookup_insert_eq. simpl. unfold set_heap. simpl. by rewrite !insert_insert_eq.
Qed.

(** Writing through the value of an element, which the list shares. *)
Definition SetValue (e : nat) (f : V -> V) : M CList unit :=
  let! x := read_elt e in
  write_elt e {| ce_prev := ce_prev x; ce_prevDone := ce_prevDone x; ce_next := ce_next x;
                 ce_nextDone := ce_nextDone x; ce_removed := ce_removed x; ce_Value := f (ce_Value x) |}.

Lemma SetValue_repr l xs1 e v xs2 f :
  repr l (xs1 ++ (e, v) :: xs2) ->
  exists l', SetValue e f l = (Ok tt, l') /\ repr l' (xs1 ++ (e, f v) :: xs2) /\
             cl_maxLen l' = cl_maxLen l /\ cl_fresh l' = cl_fresh l.
Proof.
  intros Hr. pose proof (repr_elt _ _ _ _ _ Hr) as He. destruct Hr as [Hs Hnd Hh Ht Hl Hd Hf].
  unfold SetValue, read_elt, write_elt, read, bind, modify. rewrite He. eexists. split; [reflexivity|].
  split; [|done].
  assert (Hfst : (xs1 ++ (e, f v) :: xs2).*1 = (xs1 ++ (e, v) :: xs2).*1) by (by rewrite !fmap_app).
  split; simpl; rewrite ?Hfst; [|done| | | | |done].
  - rewrite fmap_app, fmap_cons in Hnd. apply NoDup_app in Hnd as (_ & Hx & [? _]%NoDup_cons).
    apply dseg_app in Hs as [H1 [_ H2]]. apply dseg_app. split.
    + apply dseg_insert; [|done]. intros Hin. apply (Hx e Hin). by left.
    + split; [by rewrite lookup_insert_eq|by apply dseg_insert].
  - by rewrite Hh, !first_of_app.
  - rewrite Ht. unfold last_of. rewrite !last_app, !last_cons. by destruct (last xs2) as [[]|].
  - rewrite Hl, !length_app. done.
  - rewrite Hd. apply bool_decide_ext. by destruct xs1.
Qed.

(** Operations in a row. *)
Inductive clop := LPush (v : V) | LRemove (e : nat).

Definition clist_step (o : clop) : M CList unit :=
  match o with
  | LPush v => do! PushBack v in ret tt
  | LRemove e => do! RemoveDetach e in ret tt
  end.

(** The abstract list: values with the number of the push that made each one, and the
    number of pushes. *)
Definition alist_step (a : nat * list (nat * V)) (o : clop) : nat * list (nat * V) :=
  match o with
  | LPush v => (S a.1, a.2 ++ [(a.1, v)])
  | LRemove e => (a.1, filter (fun x => x.1 <> e) a.2)
  end.

(** Only elements of the list are removed. *)
Fixpoint removes_members (a : nat * list (nat * V)) (ops : list clop) : bool :=
  match ops with
  | [] => true
  | o :: ops =>
      match o with LRemove e => bool_decide (e ∈ a.2.*1) | LPush _ => true end && removes_members (alist_step a o) ops
  end.

Lemma filter_member (xs1 : list (nat * V)) e v xs2 :
  NoDup (xs1 ++ (e, v) :: xs2).*1 -> filter (fun x => x.1 <> e) (xs1 ++ (e, v) :: xs2) = xs1 ++ xs2.
Proof.
  rewrite fmap_app, fmap_cons. intros (_ & Hx & [Hn _]%NoDup_cons)%NoDup_app.
  rewrite filter_app, filter_cons_False by (simpl; tauto).
  rewrite (list_filter_all _ xs1), (list_filter_all _ xs2); [done|..]; intros y Hy <-; simpl in *.
  - apply Hn. by apply (list_elem_of_fmap_2 fst).
  - apply (Hx y.1); [by apply (list_elem_of_fmap_2 fst)|by left].
Qed.

Lemma elem_of_fst (e : nat) (xs : list (nat * V)) : e ∈ xs.*1 -> exists v xs1 xs2, xs = xs1 ++ (e, v) :: xs2.
Proof. intros ([? v] & -> & (xs1 & xs2 & ->)%list_elem_of_split)%list_elem_of_fmap. eauto. Qed.

Lemma clist_run ops n xs l :
  repr l xs -> cl_fresh l = n -> cl_maxLen l = MaxLength -> (Z.of_nat (n + length ops) < MaxLength)%Z -> length xs <= n ->
  removes_members (n, xs) ops = true ->
  exists l', for_each clist_step ops l = (Ok tt, l') /\ repr l' (foldl alist_step (n, xs) ops).2.
Proof.
  revert n xs l. induction ops as [|o ops IH]; intros n xs l Hr Hn Hm Hb Hlen Hrm; simpl in *; [by exists l|].
  apply andb_prop in Hrm as [Ho Hrm]. unfold bind. destruct o as [v|e]; simpl in *.
  - destruct (PushBack_repr v l xs Hr ltac:(lia)) as (l' & Hp & Hr' & Hm' & Hn'). unfold bind. rewrite Hp.
    cbn [ret]. rewrite Hn in *. eapply IH; [done|done|congruence|lia|rewrite length_app; simpl; lia|done].
  - apply bool_decide_eq_true_1, elem_of_fst in Ho as (v & xs1 & xs2 & ->).
    destruct (RemoveDetach_repr l xs1 e v xs2 Hr) as (l' & Hp & Hr' & _ & Hm' & Hn'). unfold bind. rewrite Hp.
    cbn [ret]. rewrite (filter_member _ _ _ _ (re_nodup _ _ Hr)) in *. rewrite length_app in *. simpl in Hlen.
    eapply IH; [done|congruence|congruence|lia|rewrite length_app; lia|done].
Qed.

(** C31: the linked list implements a plain list: after any sequence of pushes and
    removals of elements that are in the list, fewer than the maximum length in number, no
    operation has panicked - no wait group or channel is fired twice, no guard of [Remove]
    fails - the length is right, the traversal by [Next] gives exactly the values in order
    of arrival, and the waiting channel is closed exactly when the list is not empty. *)
Theorem clist_refines ops :
  (Z.of_nat (length ops) < MaxLength)%Z -> removes_members (0, []) ops = true ->
  exists l, for_each clist_step ops New_clist = (Ok tt, l) /\
            let xs := (foldl alist_step (0, []) ops).2 in
            walk (Z.to_nat (Len l)) (Front l) l = Some xs /\ Len l = Z.of_nat (length xs) /\
            cl_done l = bool_decide (xs <> []) /\ Back l = last_of None xs.
Proof.
  intros Hb Hrm. destruct (clist_run ops 0 [] New_clist) as (l & Hl & Hr); [apply repr_new|done..|simpl; lia|simpl; lia|done|].
  exists l. split; [done|]. simpl. destruct Hr as [Hs _ Hh Ht Hlen Hd _]. unfold Len, Front, Back.
  rewrite Hh, Hlen, Nat2Z.id. split_and!; [by eapply walk_dseg|done..].
Qed.
End CList.
Arguments CElement : clear implicits.
Arguments CList : clear implicits.

(** Three values are pushed and the middle one and the last one removed. *)
Lemma clist_refines_witness :
  let ops := [LPush 7; LPush 8; LPush 9; LRemove 1; LRemove 2; LPush 5] in
  exists l, for_each clist_step ops New_clist = (Ok tt, l) /\
            let xs := [(0, 7); (3, 5)] in
            walk (Z.to_nat (Len l)) (Front l) l = Some xs /\ Len l = 2%Z /\ cl_done l = true /\ Back l = Some 3.
Proof. simpl. apply (clist_refines [LPush 7; LPush 8; LPush 9; LRemove 1; LRemove 2; LPush 5]); reflexivity. Defined.
