(* ===== verification/CListWait.v ===== *)
(** * CListWait: goroutines that wait on the linked list

    Models [NextWait], [PrevWait], [FrontWait] and [BackWait] of mempool/clist/clist.go among
    a writer and any number of waiting goroutines.  A waiter reads under a read lock, and
    either returns or blocks on the wait group that it read; a wait group releases the
    goroutines that block on it when it fires, also when the element has replaced it since.
    The writer holds the lock of the list during an operation, so [FrontWait] and [BackWait]
    see it as a whole; the elements it changes have locks of their own, and become visible
    to the other waiters one by one, here in any order. *)
From stdpp Require Import base gmap strings vector sorting numbers list.
From S2P Require Import Prelude CList.

Section Wait.
Context {V : Type}.
Implicit Types (l : @CList V) (x : @CElement V).

(** Where a goroutine is: before the read of an iteration, blocked (the flag: the wait
    group it holds has fired), or back with the result. *)
Inductive phase := PRead | PWait (released : bool) | PReturned (r : option nat).

(** ** One iteration of the four loops *)

Definition NextWait x : phase :=
  if bool_decide (is_Some (ce_next x)) || ce_removed x then PReturned (ce_next x) else PWait (ce_nextDone x).
Definition PrevWait x : phase :=
  if bool_decide (is_Some (ce_prev x)) || ce_removed x then PReturned (ce_prev x) else PWait (ce_prevDone x).
Definition FrontWait l : phase :=
  match cl_head l with Some head => PReturned (Some head) | None => PWait (cl_done l) end.
Definition BackWait l : phase :=
  match cl_tail l with Some tail => PReturned (Some tail) | None => PWait (cl_done l) end.

(** The channels that close when the wait groups fire: whether they are closed. *)
Definition NextWaitChan x : bool := ce_nextDone x.
Definition PrevWaitChan x : bool := ce_prevDone x.
Definition WaitChan l : bool := cl_done l.

(** ** The system *)

Inductive wait_call := WNext (e : nat) | WPrev (e : nat) | WFront | WBack.
Record waiter := { w_call : wait_call; w_phase : phase }.

(** The list before the operation under way, and after it; the elements as they are seen. *)
Record system := {
  sy_list : @CList V;
  sy_op : option (@CList V);
  sy_heap : gmap nat (@CElement V);
  sy_waiters : list waiter;
}.

Definition system0 : system := {| sy_list := New_clist; sy_op := None; sy_heap := ∅; sy_waiters := [] |}.

Definition set_waiters (ws : list waiter) (c : system) : system :=
  {| sy_list := sy_list c; sy_op := sy_op c; sy_heap := sy_heap c; sy_waiters := ws |}.

(** What the writer does; an element is removed once. *)
Inductive writer_op l : @CList V -> Prop :=
| op_push v e l' : PushBack v l = (Ok e, l') -> writer_op l l'
| op_remove e x v l' : cl_heap l !! e = Some x -> ce_removed x = false -> Remove e l = (Ok v, l') -> writer_op l l'
| op_detachPrev e l' : DetachPrev e l = (Ok tt, l') -> writer_op l l'
| op_detachNext e l' : DetachNext e l = (Ok tt, l') -> writer_op l l'.

(** What a call reads now: nothing while the lock is held. *)
Definition read_call (c : system) (k : wait_call) : option phase :=
  match k with
  | WNext e => NextWait <$> sy_heap c !! e
  | WPrev e => PrevWait <$> sy_heap c !! e
  | WFront => match sy_op c with None => Some (FrontWait (sy_list c)) | Some _ => None end
  | WBack => match sy_op c with None => Some (BackWait (sy_list c)) | Some _ => None end
  end.

(** A wait group has fired: the goroutines blocked on it are released. *)
Definition wake (fired : bool) (w : waiter) : waiter :=
  match w_phase w with PWait b => {| w_call := w_call w; w_phase := PWait (b || fired) |} | _ => w end.
Definition wake_elt (e : nat) x (w : waiter) : waiter :=
  match w_call w with
  | WNext e' => if decide (e' = e) then wake (ce_nextDone x) w else w
  | WPrev e' => if decide (e' = e) then wake (ce_prevDone x) w else w
  | _ => w
  end.
Definition wake_list l (w : waiter) : waiter :=
  match w_call w with WFront | WBack => wake (cl_done l) w | _ => w end.

Inductive sys_step (c : system) : system -> Prop :=
| sys_call k : (forall e, k = WNext e \/ k = WPrev e -> is_Some (sy_heap c !! e)) ->
    sys_step c (set_waiters (sy_waiters c ++ [{| w_call := k; w_phase := PRead |}]) c)
| sys_read i k p : sy_waiters c !! i = Some {| w_call := k; w_phase := PRead |} -> read_call c k = Some p ->
    sys_step c (set_waiters (<[i := {| w_call := k; w_phase := p |}]> (sy_waiters c)) c)
| sys_wake i k : sy_waiters c !! i = Some {| w_call := k; w_phase := PWait true |} ->
    sys_step c (set_waiters (<[i := {| w_call := k; w_phase := PRead |}]> (sy_waiters c)) c)
| sys_begin l' : sy_op c = None -> writer_op (sy_list c) l' ->
    sys_step c {| sy_list := sy_list c; sy_op := Some l'; sy_heap := sy_heap c; sy_waiters := sy_waiters c |}
| sys_publish l' e x : sy_op c = Some l' -> cl_heap l' !! e = Some x ->
    sys_step c {| sy_list := sy_list c; sy_op := Some l'; sy_heap := <[e := x]> (sy_heap c);
                  sy_waiters := wake_elt e x <$> sy_waiters c |}
| sys_end l' : sy_op c = Some l' -> sy_heap c = cl_heap l' ->
    sys_step c {| sy_list := l'; sy_op := None; sy_heap := sy_heap c; sy_waiters := wake_list l' <$> sy_waiters c |}.

(** ** The flags of the elements *)

(** A wait group has fired exactly when there is nothing to wait for. *)
Definition flags_ok x : Prop :=
  ce_nextDone x = bool_decide (is_Some (ce_next x)) || ce_removed x /\
  ce_prevDone x = bool_decide (is_Some (ce_prev x)) || ce_removed x.

Lemma live_flags p n v : flags_ok (@live V p n v).
Proof. split; cbn; by rewrite orb_false_r. Qed.

(** A list between operations: an element is in it or was removed. *)
Record good l (xs : list (nat * V)) : Prop := {
  go_repr : repr l xs;
  go_member : forall e x, cl_heap l !! e = Some x -> ce_removed x = false -> e ∈ xs.*1;
  go_flags : forall e x, cl_heap l !! e = Some x -> flags_ok x;
  go_fresh : forall e, is_Some (cl_heap l !! e) -> e < cl_fresh l;
}.

(** Elements stay, and removed ones stay removed. *)
Definition evolves l l' : Prop := forall e x, cl_heap l !! e = Some x ->
  exists x', cl_heap l' !! e = Some x' /\ (ce_removed x = true -> ce_removed x' = true).

Lemma new_good : good New_clist [].
Proof.
  split; [apply repr_new|..]; intros e; cbn; rewrite lookup_empty; [done..|]. by intros [].
Qed.

Lemma repr_live l xs e x : repr l xs -> cl_heap l !! e = Some x -> e ∈ xs.*1 -> ce_removed x = false /\ flags_ok x.
Proof.
  intros Hr Hx (v & xs1 & xs2 & ->)%elem_of_fst. apply repr_elt in Hr. rewrite Hx in Hr. simplify_eq.
  split; [done|apply live_flags].
Qed.

Lemma repr_is_Some l xs e : repr l xs -> e ∈ xs.*1 -> is_Some (cl_heap l !! e).
Proof. intros Hr (v & xs1 & xs2 & ->)%elem_of_fst. apply repr_elt in Hr. by eexists. Qed.

(** The list afterwards, from what it represents and from what became of the elements that
    are not in it. *)
Lemma good_after l l' xs xs' :
  good l xs -> repr l' xs' ->
  (forall e x, cl_heap l' !! e = Some x -> e ∉ xs'.*1 -> ce_removed x = true /\ flags_ok x) ->
  (forall e x, cl_heap l !! e = Some x -> ce_removed x = true -> exists x', cl_heap l' !! e = Some x' /\ ce_removed x' = true) ->
  (forall e, e ∈ xs.*1 -> is_Some (cl_heap l' !! e)) ->
  (forall e, is_Some (cl_heap l' !! e) -> e < cl_fresh l') ->
  good l' xs' /\ evolves l l'.
Proof.
  intros [Hr Hin _ _] Hr' H1 H2 H3 H4. split; [split; [done|..|done]|].
  - intros e x Hx Hf. destruct (decide (e ∈ xs'.*1)) as [|Hn]; [done|]. destruct (H1 e x Hx Hn). congruence.
  - intros e x Hx. destruct (decide (e ∈ xs'.*1)) as [Hm|Hn]; [by eapply repr_live|by eapply H1].
  - intros e x Hx. destruct (ce_removed x) eqn:E; [destruct (H2 e x Hx E) as (x' & ? & ?); by exists x'|].
    destruct (H3 e (Hin e x Hx E)) as [x' Hx']. by exists x'.
Qed.

(** An element outside of the list was removed. *)
Lemma good_outside l xs e x : good l xs -> cl_heap l !! e = Some x -> e ∉ xs.*1 -> ce_removed x = true /\ flags_ok x.
Proof.
  intros [_ Hin Hf _] Hx Hn. split; [|by eapply Hf]. destruct (ce_removed x) eqn:E; [done|]. by eapply Hin in E.
Qed.

Lemma good_removed l xs e x : good l xs -> cl_heap l !! e = Some x -> ce_removed x = true -> e ∉ xs.*1.
Proof. intros [Hr _ _ _] Hx Hrm Hm. eapply repr_live in Hx as [? _]; [|done..]. congruence. Qed.

(** ** The operations *)

Lemma SetNext_frame e n l r l' :
  SetNext e n l = (r, l') -> cl_fresh l' = cl_fresh l /\ forall e', e' <> e -> cl_heap l' !! e' = cl_heap l !! e'.
Proof.
  unfold SetNext, read_elt, write_elt, read, bind, modify, fire. destruct (cl_heap l !! e); cbn; [|by intros; simplify_eq].
  repeat case_match; unfold panic, ret in *; intros; simplify_eq; (split; [done|]); intros; cbn; by rewrite ?lookup_insert_ne.
Qed.

Lemma SetPrev_frame e n l r l' :
  SetPrev e n l = (r, l') -> cl_fresh l' = cl_fresh l /\ forall e', e' <> e -> cl_heap l' !! e' = cl_heap l !! e'.
Proof.
  unfold SetPrev, read_elt, write_elt, read, bind, modify, fire. destruct (cl_heap l !! e); cbn; [|by intros; simplify_eq].
  repeat case_match; unfold panic, ret in *; intros; simplify_eq; (split; [done|]); intros; cbn; by rewrite ?lookup_insert_ne.
Qed.

Lemma PushBack_frame v l r l' e' :
  PushBack v l = (r, l') -> e' <> cl_fresh l -> cl_tail l <> Some e' -> cl_heap l' !! e' = cl_heap l !! e'.
Proof.
  unfold PushBack. unfold bind at 1, get at 1. unfold bind at 1, put at 1. set (l1 := {| cl_heap := <[cl_fresh l := _]> _ |}).
  intros Hp He Ht. assert (H1 : cl_heap l1 !! e' = cl_heap l !! e') by (cbn; by rewrite lookup_insert_ne).
  revert Hp. match goal with |- ?c l1 = _ -> _ => assert (Hc : preserves (fun l2 => cl_heap l2 !! e' = cl_heap l !! e') c) end.
  - apply preserves_bind; [unfold fire; repeat case_match; auto with go_inv|intros d]. case_match; [auto with go_inv|].
    apply preserves_bind; [by apply preserves_modify|intros _].
    apply preserves_bind; [|intros _; auto with go_inv]. destruct (cl_tail l) as [t|]; [|by apply preserves_modify].
    apply preserves_bind; [|intros _; apply preserves_bind; [|intros _; by apply preserves_modify]]; intros l2 H2.
    + destruct (SetPrev _ _ l2) eqn:E. apply SetPrev_frame in E as [_ E]. cbn. by rewrite E.
    + destruct (SetNext _ _ l2) eqn:E. apply SetNext_frame in E as [_ E]. cbn. rewrite E; [done|]. congruence.
  - intros E. specialize (Hc l1 H1). by rewrite E in Hc.
Qed.

Lemma PushBack_length v l xs e l' : repr l xs -> PushBack v l = (Ok e, l') -> (Z.of_nat (length xs) < cl_maxLen l)%Z.
Proof.
  intros Hr Hp. rewrite <- (re_len _ _ Hr). unfold PushBack, bind, get, put in Hp.
  destruct (if (cl_len l =? 0)%Z then _ else _) as [[]]; [|done..].
  destruct (Z.leb_spec (cl_maxLen l) (cl_len l)); [done|lia].
Qed.

Lemma push_good v l xs e l' : good l xs -> PushBack v l = (Ok e, l') -> exists xs', good l' xs' /\ evolves l l'.
Proof.
  intros Hg Hp. pose proof (go_repr _ _ Hg) as Hr. pose proof (PushBack_length _ _ _ _ _ Hr Hp) as Hl.
  destruct (PushBack_repr v l xs Hr Hl) as (l1 & Hp1 & Hr' & _ & Hf). rewrite Hp in Hp1. simplify_eq.
  set (xs' := xs ++ [(cl_fresh l, v)]) in *. exists xs'.
  assert (Hfr : forall e, e ∉ xs'.*1 -> cl_heap l1 !! e = cl_heap l !! e).
  { intros e. unfold xs'. rewrite fmap_app, not_elem_of_app. cbn. rewrite not_elem_of_cons. intros (Hn & He & _).
    apply (PushBack_frame _ _ _ _ _ Hp He). rewrite (re_tail _ _ Hr). unfold last_of.
    destruct (last xs) as [[t w]|] eqn:E; [|done]. intros [= ->]. apply Hn. apply last_Some_elem_of in E. by apply (list_elem_of_fmap_2 fst) in E. }
  apply (good_after l l1 xs xs'); [done..| | | |].
  - intros e x Hx Hn. rewrite Hfr in Hx by done. eapply good_outside; [done..|]. intros Hin. apply Hn. unfold xs'. rewrite fmap_app. apply elem_of_app. by left.
  - intros e x Hx Hrm. exists x. rewrite Hfr; [done|]. unfold xs'. rewrite fmap_app, not_elem_of_app. split; [by eapply good_removed|].
    cbn. intros ->%list_elem_of_singleton. assert (cl_fresh l < cl_fresh l); [|lia]. apply (go_fresh _ _ Hg). by eexists.
  - intros e Hin. apply (repr_is_Some _ xs'); [done|]. unfold xs'. rewrite fmap_app. apply elem_of_app. by left.
  - intros e [x Hx]. rewrite Hf. destruct (decide (e ∈ xs'.*1)) as [Hin|Hn]; [apply (re_fresh _ _ Hr') in Hin; lia|].
    rewrite Hfr in Hx by done. assert (e < cl_fresh l); [|lia]. apply (go_fresh _ _ Hg). by eexists.
Qed.

Lemma remove_good e x v l xs l' :
  good l xs -> cl_heap l !! e = Some x -> ce_removed x = false -> Remove e l = (Ok v, l') -> exists xs', good l' xs' /\ evolves l l'.
Proof.
  intros Hg Hx Hrm Hp. pose proof (go_repr _ _ Hg) as Hr.
  destruct (elem_of_fst e xs (go_member _ _ Hg e x Hx Hrm)) as (w & xs1 & xs2 & ->). exists (xs1 ++ xs2).
  rewrite (Remove_unlinks _ _ _ _ _ Hr) in Hp. simplify_eq. set (y := removed _ _ _) in *.
  pose proof (unlinked_repr _ _ _ _ y _ Hr) as Hr'.
  assert (Hfr : forall e', e' <> e -> e' ∉ (xs1 ++ xs2).*1 -> cl_heap (unlinked l xs1 e y xs2) !! e' = cl_heap l !! e').
  { intros e' He. rewrite fmap_app, not_elem_of_app. intros [? ?]. cbn. by rewrite lookup_insert_ne, relink_other. }
  assert (Hin : forall e', e' ∈ (xs1 ++ (e, v) :: xs2).*1 <-> e' = e \/ e' ∈ (xs1 ++ xs2).*1).
  { intros e'. rewrite !fmap_app, fmap_cons, !elem_of_app, elem_of_cons. cbn. tauto. }
  apply (good_after l _ (xs1 ++ (e, v) :: xs2) (xs1 ++ xs2)); [done..| | | |].
  - intros e' z Hz Hn. destruct (decide (e' = e)) as [->|He].
    { assert (z = y) as -> by (cbn in Hz; rewrite lookup_insert_eq in Hz; congruence). split; [done|]. split; cbn; by rewrite orb_true_r. }
    rewrite Hfr in Hz by done. eapply good_outside; [done..|]. rewrite Hin. tauto.
  - intros e' z Hz Hrz. pose proof (good_removed _ _ _ _ Hg Hz Hrz) as Hn. rewrite Hin in Hn. exists z. rewrite Hfr; [done|tauto..].
  - intros e' [->|Hm]%Hin; [cbn; rewrite lookup_insert_eq; by eexists|]. by eapply repr_is_Some.
  - intros e' [z Hz]. apply (go_fresh _ _ Hg). destruct (decide (e' = e)) as [->|He]; [by eexists|].
    destruct (decide (e' ∈ (xs1 ++ xs2).*1)) as [Hm|Hn]; [apply (repr_is_Some _ _ _ Hr), Hin; by right|].
    rewrite Hfr in Hz by done. by eexists.
Qed.

Lemma detach_good e x x' l xs :
  good l xs -> cl_heap l !! e = Some x -> ce_removed x = true -> ce_removed x' = true -> flags_ok x' ->
  good (set_heap (<[e := x']> (cl_heap l)) l) xs /\ evolves l (set_heap (<[e := x']> (cl_heap l)) l).
Proof.
  intros Hg Hx Hrm Hrm' Hf. pose proof (good_removed _ _ _ _ Hg Hx Hrm) as Hn. pose proof (go_repr _ _ Hg) as Hr.
  apply (good_after l _ xs); [done|..].
  - destruct Hr as [H1 H2 H3 H4 H5 H6 H7]. split; [by apply dseg_insert|done..].
  - cbn. intros e' y Hy Hn'. destruct (decide (e' = e)) as [->|He]; [rewrite lookup_insert_eq in Hy; by simplify_eq|].
    rewrite lookup_insert_ne in Hy by done. by eapply good_outside.
  - cbn. intros e' y Hy Hry. destruct (decide (e' = e)) as [->|He]; [exists x'; by rewrite lookup_insert_eq|].
    exists y. by rewrite lookup_insert_ne.
  - cbn. intros e' Hin. rewrite lookup_insert_ne by congruence. by eapply repr_is_Some.
  - cbn. intros e' [y Hy]. apply (go_fresh _ _ Hg). destruct (decide (e' = e)) as [->|He]; [by eexists|].
    rewrite lookup_insert_ne in Hy by done. by eexists.
Qed.

Lemma writer_op_good l xs l' : good l xs -> writer_op l l' -> exists xs', good l' xs' /\ evolves l l'.
Proof.
  intros Hg [v e l1 Hp|e x v l1 Hx Hrm Hp|e l1 Hp|e l1 Hp]; [by eapply push_good|by eapply remove_good|..]; exists xs.
  all: unfold DetachPrev, DetachNext, read_elt, write_elt, read, bind, modify in Hp;
    destruct (cl_heap l !! e) as [x|] eqn:Hx; cbn in Hp; [|done]; destruct (ce_removed x) eqn:Hrm; [|done]; simplify_eq;
    apply (detach_good e x); [done..|]; destruct (go_flags _ _ Hg e x Hx) as [H1 H2]; rewrite Hrm in H1, H2; rewrite orb_true_r in H1, H2;
    split; cbn; rewrite ?orb_true_r; done.
Qed.

(** ** No wake-up is lost *)

(** What a blocked call waits for has come: as far as can be seen now. *)
Definition ready (c : system) (k : wait_call) : Prop := exists r, read_call c k = Some (PReturned r).

Definition waiter_ok (c : system) (w : waiter) : Prop :=
  (forall e, w_call w = WNext e \/ w_call w = WPrev e -> is_Some (sy_heap c !! e)) /\
  match w_phase w with
  | PRead => True
  | PWait b => ready c (w_call w) -> b = true
  | PReturned None => exists e x, (w_call w = WNext e \/ w_call w = WPrev e) /\ sy_heap c !! e = Some x /\ ce_removed x = true
  | PReturned (Some _) => True
  end.

Record sys_inv (c : system) : Prop := {
  si_list : exists xs, good (sy_list c) xs;
  si_op : match sy_op c with
          | None => sy_heap c = cl_heap (sy_list c)
          | Some l' => (exists xs, good l' xs) /\ evolves (sy_list c) l' /\
              forall e x, sy_heap c !! e = Some x -> cl_heap (sy_list c) !! e = Some x \/ cl_heap l' !! e = Some x
          end;
  si_waiters : Forall (waiter_ok c) (sy_waiters c);
}.

(** An element that is ready has fired. *)
Lemma NextWait_ready x r : flags_ok x -> NextWait x = PReturned r -> ce_nextDone x = true.
Proof. intros [-> _]. unfold NextWait. by destruct (bool_decide _ || _). Qed.
Lemma PrevWait_ready x r : flags_ok x -> PrevWait x = PReturned r -> ce_prevDone x = true.
Proof. intros [_ ->]. unfold PrevWait. by destruct (bool_decide _ || _). Qed.

Lemma list_ready l xs r : repr l xs -> FrontWait l = PReturned r \/ BackWait l = PReturned r -> cl_done l = true.
Proof.
  intros Hr. unfold FrontWait, BackWait. rewrite (re_head _ _ Hr), (re_tail _ _ Hr), (re_done _ _ Hr). destruct xs as [|y xs]; [by intros []|].
  intros _. by apply bool_decide_eq_true_2.
Qed.

Lemma seen_flags c e x : sys_inv c -> sy_heap c !! e = Some x -> flags_ok x.
Proof.
  intros [[xs Hg] Ho _] Hx. destruct (sy_op c) as [l'|]; [|rewrite Ho in Hx; by eapply go_flags].
  destruct Ho as ([xs' Hg'] & _ & Hs). destruct (Hs e x Hx) as [H1|H1]; [exact (go_flags _ _ Hg e x H1)|exact (go_flags _ _ Hg' e x H1)].
Qed.

(** Blocking on the wait group just read. *)
Lemma read_call_ok c k p : sys_inv c -> read_call c k = Some p ->
  match p with
  | PRead => False
  | PWait b => ~ ready c k
  | PReturned None => exists e x, (k = WNext e \/ k = WPrev e) /\ sy_heap c !! e = Some x /\ ce_removed x = true
  | PReturned (Some _) => True
  end.
Proof.
  intros Hi Hp.
  assert (Hr : forall b, p = PWait b -> ~ ready c k) by (intros b -> [r E]; congruence).
  destruct p as [|b|[n|]]; [|by eapply Hr|done|]; clear Hr; destruct k as [e|e| |]; cbn in Hp;
    try (destruct (sy_op c); [done|]; unfold FrontWait, BackWait in Hp; by case_match);
    destruct (sy_heap c !! e) as [x|] eqn:Hx; cbn in Hp; [|done| |done|..|done| |done]; injection Hp as Hp; unfold NextWait, PrevWait in Hp.
  - by destruct (_ || _).
  - by destruct (_ || _).
  - exists e, x. split_and!; [by left|done|]. destruct (ce_removed x); [done|]. rewrite orb_false_r in Hp.
    case_bool_decide as E; [|done]. destruct E as [? E]. congruence.
  - exists e, x. split_and!; [by right|done|]. destruct (ce_removed x); [done|]. rewrite orb_false_r in Hp.
    case_bool_decide as E; [|done]. destruct E as [? E]. congruence.
Qed.

(** What the step of another party leaves of a waiter. *)
Lemma waiter_ok_change c c' w w' :
  waiter_ok c w -> w_call w' = w_call w ->
  (forall e x, sy_heap c !! e = Some x -> exists x', sy_heap c' !! e = Some x' /\ (ce_removed x = true -> ce_removed x' = true)) ->
  match w_phase w with
  | PWait b => exists b', w_phase w' = PWait b' /\ ((ready c (w_call w) -> b = true) -> ready c' (w_call w) -> b' = true)
  | p => w_phase w' = p
  end -> waiter_ok c' w'.
Proof.
  intros [H1 H2] Hc Hh Hp. split; rewrite Hc.
  - intros e He. destruct (H1 e He) as [x Hx]. destruct (Hh e x Hx) as (x' & ? & _). by eexists.
  - destruct (w_phase w) as [|b|[n|]]; [by rewrite Hp| |by rewrite Hp|].
    + destruct Hp as (b' & -> & Hb). auto.
    + rewrite Hp. destruct H2 as (e & x & He & Hx & Hr). destruct (Hh e x Hx) as (x' & Hx' & Hr'). exists e, x'. auto.
Qed.

Lemma wake_elt_ok c l' e x w :
  sys_inv c -> sy_op c = Some l' -> cl_heap l' !! e = Some x -> flags_ok x ->
  waiter_ok c w ->
  waiter_ok {| sy_list := sy_list c; sy_op := Some l'; sy_heap := <[e := x]> (sy_heap c); sy_waiters := wake_elt e x <$> sy_waiters c |} (wake_elt e x w).
Proof.
  intros Hi Hop Hx Hf Hw. apply (waiter_ok_change c _ w); [done|..].
  - unfold wake_elt, wake. destruct w as [[e'|e'| |] [| |]]; cbn; repeat case_decide; done.
  - cbn. intros e' y Hy. destruct (decide (e' = e)) as [->|He]; [|exists y; by rewrite lookup_insert_ne].
    exists x. rewrite lookup_insert_eq. split; [done|]. destruct Hi as [_ Ho _]. rewrite Hop in Ho. destruct Ho as (_ & Hev & Hs).
    destruct (Hs e y Hy) as [H1|H1]; [|by simplify_eq]. destruct (Hev e y H1) as (x' & H2 & H3). by simplify_eq.
  - destruct w as [k [|b|r]]; cbn; unfold wake_elt, wake; cbn; [destruct k; cbn; repeat case_decide; done| |destruct k; cbn; repeat case_decide; done].
    destruct k as [e'|e'| |]; cbn; [destruct (decide (e' = e)) as [->|He]..| |]; (eexists; split; [reflexivity|]); intros Hb [r Hr]; cbn in Hr.
    + rewrite lookup_insert_eq in Hr. cbn in Hr. simplify_eq. rewrite (NextWait_ready x r) by (done || congruence). by rewrite orb_true_r.
    + rewrite lookup_insert_ne in Hr by done. apply Hb. by exists r.
    + rewrite lookup_insert_eq in Hr. cbn in Hr. simplify_eq. rewrite (PrevWait_ready x r) by (done || congruence). by rewrite orb_true_r.
    + rewrite lookup_insert_ne in Hr by done. apply Hb. by exists r.
    + done.
    + done.
Qed.

Lemma wake_list_ok c l' xs w :
  good l' xs -> sy_heap c = cl_heap l' -> waiter_ok c w ->
  waiter_ok {| sy_list := l'; sy_op := None; sy_heap := sy_heap c; sy_waiters := wake_list l' <$> sy_waiters c |} (wake_list l' w).
Proof.
  intros Hg Hh Hw. apply (waiter_ok_change c _ w); [done|..].
  - unfold wake_list, wake. by destruct w as [[e'|e'| |] [| |]].
  - cbn. intros e y Hy. by exists y.
  - destruct w as [k [|b|r]]; cbn; unfold wake_list, wake; cbn; [by destruct k| |by destruct k].
    destruct k as [e'|e'| |]; cbn; (eexists; split; [reflexivity|]); intros Hb [r Hr]; cbn in Hr; [apply Hb; by exists r..| |];
      (rewrite (list_ready l' xs r); [by rewrite orb_true_r|by apply go_repr|]); simplify_eq; [left|right]; congruence.
Qed.

(** Only the list of waiters changes: what is seen does not. *)
Lemma set_waiters_inv c ws : sys_inv c -> Forall (waiter_ok c) ws -> sys_inv (set_waiters ws c).
Proof. intros [Hl Ho _] Hw. split; [done..|]. eapply Forall_impl; [exact Hw|]. done. Qed.

Lemma sys_step_inv c c' : sys_step c c' -> sys_inv c -> sys_inv c'.
Proof.
  intros Hs Hi. pose proof Hi as [[xs Hg] Ho Hw]. destruct Hs as [k Hk|i k p Hk Hp|i k Hk|l' Hop Hwr|l' e x Hop Hx|l' Hop Hh].
  - apply set_waiters_inv; [done|]. apply Forall_app. split; [done|]. by constructor; [split|].
  - apply set_waiters_inv; [done|]. apply Forall_insert; [done|]. eapply Forall_lookup_1 in Hw as [H1 _]; [|exact Hk].
    split; [exact H1|]. pose proof (read_call_ok c k p Hi Hp) as Hr. cbn. destruct p as [|b|[n|]]; done.
  - apply set_waiters_inv; [done|]. apply Forall_insert; [done|]. eapply Forall_lookup_1 in Hw as [H1 _]; [|exact Hk]. by split.
  - destruct (writer_op_good _ _ _ Hg Hwr) as (xs' & Hg' & Hev). rewrite Hop in Ho.
    split; cbn; [by exists xs|split_and!; [by exists xs'|done|intros e x Hx; left; by rewrite <- Ho]|].
    eapply Forall_impl; [exact Hw|]. intros w Hwk. apply (waiter_ok_change c _ w); [done..| |].
    + cbn. intros e x Hx. by exists x.
    + destruct (w_phase w) as [|b|r]; [done| |done]. exists b. split; [done|]. intros Hb [r Hr]. apply Hb. exists r.
      unfold read_call in *. cbn in Hr. rewrite Hop. by destruct (w_call w).
  - rewrite Hop in Ho. destruct Ho as ([xs' Hg'] & Hev & Hsee).
    split; cbn; [by exists xs|split_and!; [by exists xs'|done|]|].
    + intros e' y Hy. destruct (decide (e' = e)) as [->|He]; [rewrite lookup_insert_eq in Hy; right; congruence|].
      rewrite lookup_insert_ne in Hy by done. by apply Hsee.
    + apply Forall_fmap. eapply Forall_impl; [exact Hw|]. intros w Hwk. apply wake_elt_ok; [done..| |done]. by eapply go_flags.
  - rewrite Hop in Ho. destruct Ho as ([xs' Hg'] & _ & _). split; cbn; [by exists xs'|done|].
    apply Forall_fmap. eapply Forall_impl; [exact Hw|]. intros w Hwk. by eapply wake_list_ok.
Qed.

Lemma reachable_inv c : rtc sys_step system0 c -> sys_inv c.
Proof.
  intros Hr. assert (H0 : sys_inv system0) by (split; [exists []; apply new_good|done|constructor]).
  revert H0. induction Hr as [|? ? ? Hs _ IH]; [done|]. intros H0. by eapply IH, sys_step_inv.
Qed.

(** C32: no goroutine that waits on the linked list is forgotten: however calls, pushes,
    removals and detachments are interleaved, element by element, a call that blocks although
    what it waits for has come holds a wait group that has fired, and by steps of its own it
    returns what is there; a call returns nil only for an element that was removed, never
    for the front or the back of the list. *)
Theorem clist_no_lost_wakeup c i k p :
  rtc sys_step system0 c -> sy_waiters c !! i = Some {| w_call := k; w_phase := p |} ->
  match p with
  | PRead => True
  | PWait b => forall r, read_call c k = Some (PReturned r) ->
      b = true /\
      exists c', rtc sys_step c c' /\ sy_list c' = sy_list c /\ sy_heap c' = sy_heap c /\
        sy_waiters c' !! i = Some {| w_call := k; w_phase := PReturned r |}
  | PReturned None => exists e x, (k = WNext e \/ k = WPrev e) /\ sy_heap c !! e = Some x /\ ce_removed x = true
  | PReturned (Some _) => True
  end.
Proof.
  intros Hr Hw. pose proof (si_waiters c (reachable_inv c Hr)) as Hf. eapply Forall_lookup_1 in Hf as [_ Hk]; [|exact Hw].
  cbn in Hk. destruct p as [|b|r]; [done| |done]. intros r Hrd.
  assert (b = true) as -> by (apply Hk; by exists r). split; [done|].
  pose proof (lookup_lt_Some _ _ _ Hw) as Hlt. set (c1 := set_waiters (<[i := {| w_call := k; w_phase := PRead |}]> (sy_waiters c)) c).
  exists (set_waiters (<[i := {| w_call := k; w_phase := PReturned r |}]> (sy_waiters c1)) c1). split_and!; [|done..|].
  - apply (rtc_l _ _ c1); [by eapply sys_wake|]. apply rtc_once, (sys_read c1); [|done]. cbn. by apply list_lookup_insert_eq.
  - cbn. apply list_lookup_insert_eq. by rewrite length_insert.
Qed.
End Wait.

(** ** Concrete waiters *)

Definition pushed (v : nat) (l : @CList nat) : @CList nat := (PushBack v l).2.
Definition l7 : @CList nat := pushed 7 New_clist.

(** A goroutine in [FrontWait] on the empty list, blocked while the writer pushes. *)
Definition blocked_front : @system nat :=
  {| sy_list := l7; sy_op := None; sy_heap := cl_heap l7; sy_waiters := [{| w_call := WFront; w_phase := PWait true |}] |}.

Lemma blocked_front_reachable : rtc sys_step system0 blocked_front.
Proof.
  set (w p := {| w_call := WFront; w_phase := p |}).
  set (sys l op h ws := {| sy_list := l; sy_op := op; sy_heap := h; sy_waiters := ws |} : @system nat).
  apply (rtc_l _ _ (sys New_clist None ∅ [w PRead])); [apply (sys_call system0 WFront); by intros e []|].
  apply (rtc_l _ _ (sys New_clist None ∅ [w (PWait false)])); [by apply (sys_read (sys New_clist None ∅ [w PRead]) 0 WFront (PWait false))|].
  apply (rtc_l _ _ (sys New_clist (Some l7) ∅ [w (PWait false)]));
    [apply (sys_begin (sys New_clist None ∅ [w (PWait false)])); [done|]; apply (op_push _ 7 0 l7); vm_compute; reflexivity|].
  apply (rtc_l _ _ (sys New_clist (Some l7) (<[0 := live None None 7]> ∅) [w (PWait false)]));
    [apply (sys_publish (sys New_clist (Some l7) ∅ [w (PWait false)]) l7 0 (live None None 7)); [done|vm_compute; reflexivity]|].
  apply rtc_once. apply (sys_end (sys New_clist (Some l7) (<[0 := live None None 7]> ∅) [w (PWait false)]) l7); [done|vm_compute; reflexivity].
Qed.

Lemma clist_no_lost_wakeup_witness :
  exists c', rtc sys_step blocked_front c' /\ sy_waiters c' !! 0 = Some {| w_call := WFront; w_phase := PReturned (Some 0) |}.
Proof.
  destruct (clist_no_lost_wakeup blocked_front 0 WFront (PWait true) blocked_front_reachable eq_refl (Some 0) eq_refl)
    as (_ & c' & Hr & _ & _ & Hw).
  exists c'. split; [exact Hr|exact Hw].
Defined.

(** The element in the middle of three, removed and detached: a late [NextWait] on it gives
    nil although it never was the tail. *)
Definition middle_gone : @CList nat := (RemoveDetach 1 (pushed 9 (pushed 8 l7))).2.
Example next_wait_nil_in_the_middle :
  NextWait <$> cl_heap middle_gone !! 1 = Some (PReturned None) /\ walk 2 (Front middle_gone) middle_gone = Some [(0, 7); (2, 9)].
Proof. vm_compute. split; reflexivity. Qed.
