(* ===== verification/Mempool.v ===== *)
(** * Mempool: the priority mempool

    Models mempool/v1/mempool.go with mempool/v1/tx.go and the hooks of
    mempool/mempool.go.  The list of transactions is the linked list of CList.v, whose
    elements own their [WrappedTx]; [txByKey] and [txBySender] point to elements.  The
    connection to the application is that of an in-process client: [CheckTxAsync] runs
    the application and the response callback [recheckTxCallback] at once, and a callback
    set on its result runs at once.  The lock makes each operation atomic; the recheck
    and [CheckTx] release it around calls of the application, which is modelled for one
    caller at a time.  The clock is a field that every reading of the time looks at. *)
From stdpp Require Import base gmap strings vector sorting numbers list.
From S2P Require Import Prelude Types TxCache CList.

(** ** What the mempool uses of Go and of the application *)

(** [abci.ResponseCheckTx]. *)
Record ResponseCheckTx := {
  rct_Code : Z;
  rct_Data : bytes;
  rct_Log : string;
  rct_Codespace : string;
  rct_GasWanted : Z;
  rct_Priority : Z;
  rct_Sender : string;
  rct_MempoolError : string;
}.

(** [proxy.AppConnMempool]. *)
Class AppConnMempool := {
  mconn : Type;
  conn_CheckTx : Tx -> bool -> mconn -> ResponseCheckTx * mconn;  (* the flag: a recheck *)
  conn_FlushSync : mconn -> option error * mconn;
  conn_Error : mconn -> option error;
}.

(** [sort.Slice], and the order in which [range] visits a map. *)
Class GoOrder := {
  sort_Slice : forall {A : Type}, (A -> A -> bool) -> list A -> list A;
  range_order : forall {A : Type}, list A -> list A;
}.

(** A strict weak order, as [sort.Slice] asks of its argument. *)
Record weak_order {A} (less : A -> A -> bool) : Prop := {
  wo_irrefl x : less x x = false;
  wo_trans x y z : less x y = true -> less y z = true -> less x z = true;
  wo_negtrans x y z : less x y = false -> less y z = false -> less x z = false;
}.

Class GoOrderLaws (G : GoOrder) := {
  sort_perm {A} (less : A -> A -> bool) l : sort_Slice less l ≡ₚ l;
  sort_sorted {A} (less : A -> A -> bool) l :
    weak_order less -> StronglySorted (fun x y => less y x = false) (sort_Slice less l);
  range_perm {A} (l : list A) : range_order l ≡ₚ l;
}.

(** ** Hooks (mempool/mempool.go) *)

Definition PreCheckFunc := Tx -> option error.
Definition PostCheckFunc := Tx -> ResponseCheckTx -> option error.

Section Hooks.
Context `{TmTx}.

Definition PreCheckMaxBytes (maxBytes : Z) : PreCheckFunc := fun tx =>
  if (maxBytes <? tx_proto_size tx)%Z then Some (New "tx size is too big") else None.

Definition PostCheckMaxGas (maxGas : Z) : PostCheckFunc := fun _ res =>
  if (maxGas =? -1)%Z then None
  else if (rct_GasWanted res <? 0)%Z then Some (New "gas wanted is negative")
  else if (maxGas <? rct_GasWanted res)%Z then Some (New "gas wanted is greater than max gas")
  else None.
End Hooks.

(** The errors [CheckTx] returns. *)
Inductive CheckTxError :=
| ErrTxTooLarge (Max Actual : Z)
| ErrPreCheck (Reason : option error)
| ErrTxInCache
| ErrMempoolIsFull (NumTxs MaxTxs TxsBytes MaxTxsBytes : Z)
| ErrConn (e : error).

#[global] Instance CheckTxError_eq_dec : EqDecision CheckTxError.
Proof. solve_decision. Defined.

(** ** WrappedTx (mempool/v1/tx.go) *)

Record WrappedTx := {
  w_tx : Tx;
  w_hash : hash32;
  w_height : Z;
  w_timestamp : Z;
  w_gasWanted : Z;
  w_priority : Z;
  w_sender : string;
  w_peers : gset Z;
}.

Definition Size_wtx (w : WrappedTx) : Z := Z.of_nat (length (w_tx w)).
Definition SetPeer (id : Z) (w : WrappedTx) : WrappedTx :=
  {| w_tx := w_tx w; w_hash := w_hash w; w_height := w_height w; w_timestamp := w_timestamp w;
     w_gasWanted := w_gasWanted w; w_priority := w_priority w; w_sender := w_sender w; w_peers := {[id]} ∪ w_peers w |}.
Definition HasPeer (id : Z) (w : WrappedTx) : bool := bool_decide (id ∈ w_peers w).
Definition SetGasWanted (gas : Z) (w : WrappedTx) : WrappedTx :=
  {| w_tx := w_tx w; w_hash := w_hash w; w_height := w_height w; w_timestamp := w_timestamp w;
     w_gasWanted := gas; w_priority := w_priority w; w_sender := w_sender w; w_peers := w_peers w |}.
Definition SetPriority (p : Z) (w : WrappedTx) : WrappedTx :=
  {| w_tx := w_tx w; w_hash := w_hash w; w_height := w_height w; w_timestamp := w_timestamp w;
     w_gasWanted := w_gasWanted w; w_priority := p; w_sender := w_sender w; w_peers := w_peers w |}.
Definition SetSender (s : string) (w : WrappedTx) : WrappedTx :=
  {| w_tx := w_tx w; w_hash := w_hash w; w_height := w_height w; w_timestamp := w_timestamp w;
     w_gasWanted := w_gasWanted w; w_priority := w_priority w; w_sender := s; w_peers := w_peers w |}.

(** [config.MempoolConfig]: the fields the mempool reads. *)
Record MempoolConfig := {
  cfg_Size : Z;
  cfg_MaxTxsBytes : Z;
  cfg_MaxTxBytes : Z;
  cfg_KeepInvalidTxsInCache : bool;
  cfg_Recheck : bool;
  cfg_TTLNumBlocks : Z;
  cfg_TTLDuration : Z;
  cfg_CacheSize : Z;
}.

Section Mempool.
Context {TT : TmTx} {TC : TxCache} {AC : AppConnMempool} {GO : GoOrder}.

(** ** State *)

Record TxMempool := {
  tm_config : MempoolConfig;
  tm_conn : mconn;
  tm_cache : cache;
  tm_txsBytes : Z;
  tm_txRecheck : Z;
  tm_notifiedTxsAvailable : bool;
  tm_txsAvailable : option bool;  (* None: the nil channel; otherwise whether its one slot is full *)
  tm_preCheck : option PreCheckFunc;
  tm_postCheck : option PostCheckFunc;
  tm_height : Z;
  tm_txs : CList WrappedTx;
  tm_txByKey : gmap hash32 nat;
  tm_txBySender : gmap string nat;
  tm_now : Z;  (* the wall clock *)
}.

Definition set_conn (x : mconn) (t : TxMempool) : TxMempool :=
  {| tm_config := tm_config t; tm_conn := x; tm_cache := tm_cache t; tm_txsBytes := tm_txsBytes t;
     tm_txRecheck := tm_txRecheck t; tm_notifiedTxsAvailable := tm_notifiedTxsAvailable t; tm_txsAvailable
     := tm_txsAvailable t; tm_preCheck := tm_preCheck t; tm_postCheck := tm_postCheck t; tm_height :=
     tm_height t; tm_txs := tm_txs t; tm_txByKey := tm_txByKey t; tm_txBySender := tm_txBySender t; tm_now
     := tm_now t |}.
Definition set_cache (x : cache) (t : TxMempool) : TxMempool :=
  {| tm_config := tm_config t; tm_conn := tm_conn t; tm_cache := x; tm_txsBytes := tm_txsBytes t;
     tm_txRecheck := tm_txRecheck t; tm_notifiedTxsAvailable := tm_notifiedTxsAvailable t; tm_txsAvailable
     := tm_txsAvailable t; tm_preCheck := tm_preCheck t; tm_postCheck := tm_postCheck t; tm_height :=
     tm_height t; tm_txs := tm_txs t; tm_txByKey := tm_txByKey t; tm_txBySender := tm_txBySender t; tm_now
     := tm_now t |}.
Definition set_txsBytes (x : Z) (t : TxMempool) : TxMempool :=
  {| tm_config := tm_config t; tm_conn := tm_conn t; tm_cache := tm_cache t; tm_txsBytes := x; tm_txRecheck
     := tm_txRecheck t; tm_notifiedTxsAvailable := tm_notifiedTxsAvailable t; tm_txsAvailable :=
     tm_txsAvailable t; tm_preCheck := tm_preCheck t; tm_postCheck := tm_postCheck t; tm_height := tm_height
     t; tm_txs := tm_txs t; tm_txByKey := tm_txByKey t; tm_txBySender := tm_txBySender t; tm_now := tm_now t |}.
Definition set_txRecheck (x : Z) (t : TxMempool) : TxMempool :=
  {| tm_config := tm_config t; tm_conn := tm_conn t; tm_cache := tm_cache t; tm_txsBytes := tm_txsBytes t;
     tm_txRecheck := x; tm_notifiedTxsAvailable := tm_notifiedTxsAvailable t; tm_txsAvailable :=
     tm_txsAvailable t; tm_preCheck := tm_preCheck t; tm_postCheck := tm_postCheck t; tm_height := tm_height
     t; tm_txs := tm_txs t; tm_txByKey := tm_txByKey t; tm_txBySender := tm_txBySender t; tm_now := tm_now t |}.
Definition set_notifiedTxsAvailable (x : bool) (t : TxMempool) : TxMempool :=
  {| tm_config := tm_config t; tm_conn := tm_conn t; tm_cache := tm_cache t; tm_txsBytes := tm_txsBytes t;
     tm_txRecheck := tm_txRecheck t; tm_notifiedTxsAvailable := x; tm_txsAvailable := tm_txsAvailable t;
     tm_preCheck := tm_preCheck t; tm_postCheck := tm_postCheck t; tm_height := tm_height t; tm_txs :=
     tm_txs t; tm_txByKey := tm_txByKey t; tm_txBySender := tm_txBySender t; tm_now := tm_now t |}.
Definition set_txsAvailable (x : option bool) (t : TxMempool) : TxMempool :=
  {| tm_config := tm_config t; tm_conn := tm_conn t; tm_cache := tm_cache t; tm_txsBytes := tm_txsBytes t;
     tm_txRecheck := tm_txRecheck t; tm_notifiedTxsAvailable := tm_notifiedTxsAvailable t; tm_txsAvailable
     := x; tm_preCheck := tm_preCheck t; tm_postCheck := tm_postCheck t; tm_height := tm_height t; tm_txs :=
     tm_txs t; tm_txByKey := tm_txByKey t; tm_txBySender := tm_txBySender t; tm_now := tm_now t |}.
Definition set_height (x : Z) (t : TxMempool) : TxMempool :=
  {| tm_config := tm_config t; tm_conn := tm_conn t; tm_cache := tm_cache t; tm_txsBytes := tm_txsBytes t;
     tm_txRecheck := tm_txRecheck t; tm_notifiedTxsAvailable := tm_notifiedTxsAvailable t; tm_txsAvailable
     := tm_txsAvailable t; tm_preCheck := tm_preCheck t; tm_postCheck := tm_postCheck t; tm_height := x;
     tm_txs := tm_txs t; tm_txByKey := tm_txByKey t; tm_txBySender := tm_txBySender t; tm_now := tm_now t |}.
Definition set_txs (x : CList WrappedTx) (t : TxMempool) : TxMempool :=
  {| tm_config := tm_config t; tm_conn := tm_conn t; tm_cache := tm_cache t; tm_txsBytes := tm_txsBytes t;
     tm_txRecheck := tm_txRecheck t; tm_notifiedTxsAvailable := tm_notifiedTxsAvailable t; tm_txsAvailable
     := tm_txsAvailable t; tm_preCheck := tm_preCheck t; tm_postCheck := tm_postCheck t; tm_height :=
     tm_height t; tm_txs := x; tm_txByKey := tm_txByKey t; tm_txBySender := tm_txBySender t; tm_now :=
     tm_now t |}.
Definition set_txByKey (x : gmap hash32 nat) (t : TxMempool) : TxMempool :=
  {| tm_config := tm_config t; tm_conn := tm_conn t; tm_cache := tm_cache t; tm_txsBytes := tm_txsBytes t;
     tm_txRecheck := tm_txRecheck t; tm_notifiedTxsAvailable := tm_notifiedTxsAvailable t; tm_txsAvailable
     := tm_txsAvailable t; tm_preCheck := tm_preCheck t; tm_postCheck := tm_postCheck t; tm_height :=
     tm_height t; tm_txs := tm_txs t; tm_txByKey := x; tm_txBySender := tm_txBySender t; tm_now := tm_now t |}.
Definition set_txBySender (x : gmap string nat) (t : TxMempool) : TxMempool :=
  {| tm_config := tm_config t; tm_conn := tm_conn t; tm_cache := tm_cache t; tm_txsBytes := tm_txsBytes t;
     tm_txRecheck := tm_txRecheck t; tm_notifiedTxsAvailable := tm_notifiedTxsAvailable t; tm_txsAvailable
     := tm_txsAvailable t; tm_preCheck := tm_preCheck t; tm_postCheck := tm_postCheck t; tm_height :=
     tm_height t; tm_txs := tm_txs t; tm_txByKey := tm_txByKey t; tm_txBySender := x; tm_now := tm_now t |}.
Definition set_now (x : Z) (t : TxMempool) : TxMempool :=
  {| tm_config := tm_config t; tm_conn := tm_conn t; tm_cache := tm_cache t; tm_txsBytes := tm_txsBytes t;
     tm_txRecheck := tm_txRecheck t; tm_notifiedTxsAvailable := tm_notifiedTxsAvailable t; tm_txsAvailable
     := tm_txsAvailable t; tm_preCheck := tm_preCheck t; tm_postCheck := tm_postCheck t; tm_height :=
     tm_height t; tm_txs := tm_txs t; tm_txByKey := tm_txByKey t; tm_txBySender := tm_txBySender t; tm_now
     := x |}.
Definition set_hooks (pre : option PreCheckFunc) (post : option PostCheckFunc) (t : TxMempool) : TxMempool :=
  {| tm_config := tm_config t; tm_conn := tm_conn t; tm_cache := tm_cache t; tm_txsBytes := tm_txsBytes t;
     tm_txRecheck := tm_txRecheck t; tm_notifiedTxsAvailable := tm_notifiedTxsAvailable t; tm_txsAvailable
     := tm_txsAvailable t; tm_preCheck := pre; tm_postCheck := post; tm_height := tm_height t; tm_txs :=
     tm_txs t; tm_txByKey := tm_txByKey t; tm_txBySender := tm_txBySender t; tm_now := tm_now t |}.

Abbreviation MP := (M TxMempool).

Definition on_txs {A} (c : M (CList WrappedTx) A) : MP A := zoom tm_txs set_txs c.
Definition on_cache (f : cache -> cache) : MP unit := modify (fun t => set_cache (f (tm_cache t)) t).

(** [elt.Value.( *WrappedTx)]. *)
Definition elt_wtx (e : nat) : MP WrappedTx := read (fun t => deref (ce_Value <$> cl_heap (tm_txs t) !! e)).

Definition Size (t : TxMempool) : Z := Len (tm_txs t).
Definition SizeBytes (t : TxMempool) : Z := tm_txsBytes t.
Definition TxsFront (t : TxMempool) : option nat := Front (tm_txs t).
Definition EnableTxsAvailable (t : TxMempool) : TxMempool := set_txsAvailable (Some false) t.
Definition WithPreCheck (f : PreCheckFunc) (t : TxMempool) : TxMempool := set_hooks (Some f) (tm_postCheck t) t.
Definition WithPostCheck (f : PostCheckFunc) (t : TxMempool) : TxMempool := set_hooks (tm_preCheck t) (Some f) t.

(** ** Notification *)

Definition notifyTxsAvailable (t : TxMempool) : TxMempool :=
  if (Size t =? 0)%Z then t
  else match tm_txsAvailable t with
       | Some _ =>
           if tm_notifiedTxsAvailable t then t
           else set_txsAvailable (Some true) (set_notifiedTxsAvailable true t)
       | None => t
       end.

(** ** Removal *)

(** What the two removals share: the element leaves the list and its size the total. *)
Definition unlink (e : nat) (w : WrappedTx) : MP unit :=
  do! modify (fun t => set_txBySender (delete (w_sender w) (tm_txBySender t)) t) in
  do! on_txs (RemoveDetach e) in
  modify (fun t => set_txsBytes (i64 (tm_txsBytes t - Size_wtx w)) t).

Definition removeTxByKey (key : hash32) : MP unit :=
  let! t := get in
  match tm_txByKey t !! key with
  | Some elt =>
      let! w := elt_wtx elt in
      do! modify (fun t => set_txByKey (delete key (tm_txByKey t)) t) in
      unlink elt w
  | None => fail (New "transaction not found")
  end.

Definition RemoveTxByKey (txKey : hash32) : MP unit := removeTxByKey txKey.

Definition removeTxByElement (elt : nat) : MP unit :=
  let! w := elt_wtx elt in
  do! modify (fun t => set_txByKey (delete (tx_key (w_tx w)) (tm_txByKey t)) t) in
  unlink elt w.

(** [for cur != nil { next := cur.Next(); body; cur = next }]; the bound is the length
    of the list, which a loop that removes at most the current element never exceeds. *)
Fixpoint list_loop (fuel : nat) (body : nat -> MP unit) (cur : option nat) : MP unit :=
  match cur with
  | None => ret tt
  | Some e =>
      match fuel with
      | O => panic "loop bound"
      | S fuel =>
          let! next := on_txs (Next e) in
          do! body e in
          list_loop fuel body next
      end
  end.

Definition for_txs (body : nat -> MP unit) : MP unit :=
  let! t := get in list_loop (Z.to_nat (Size t)) body (TxsFront t).

Definition Flush : MP unit :=
  do! for_txs removeTxByElement in
  do! on_cache cache_Reset in
  modify (set_txRecheck 0).

(** ** Reaping *)

(** The entries of the index, in the order of a map traversal. *)
Definition allEntries (t : TxMempool) : list WrappedTx :=
  range_order (omap (fun ke : hash32 * nat => ce_Value <$> cl_heap (tm_txs t) !! ke.2) (map_to_list (tm_txByKey t))).

Definition reap_less (w1 w2 : WrappedTx) : bool :=
  if (w_priority w1 =? w_priority w2)%Z then (w_timestamp w1 <? w_timestamp w2)%Z
  else (w_priority w2 <? w_priority w1)%Z.

Definition allEntriesSorted (t : TxMempool) : list WrappedTx := sort_Slice reap_less (allEntries t).

Fixpoint reap_loop (maxBytes maxGas totalBytes totalGas : Z) (ws : list WrappedTx) : list Tx :=
  match ws with
  | [] => []
  | w :: ws =>
      let totalGas := i64 (totalGas + w_gasWanted w) in
      let totalBytes := i64 (totalBytes + tx_proto_size (w_tx w)) in
      if ((0 <=? maxGas) && (maxGas <? totalGas) || (0 <=? maxBytes) && (maxBytes <? totalBytes))%Z then []
      else w_tx w :: reap_loop maxBytes maxGas totalBytes totalGas ws
  end.

Definition ReapMaxBytesMaxGas (maxBytes maxGas : Z) (t : TxMempool) : list Tx :=
  reap_loop maxBytes maxGas 0 0 (allEntriesSorted t).

Fixpoint reapn_loop (max : Z) (kept : Z) (ws : list WrappedTx) : list Tx :=
  match ws with
  | [] => []
  | w :: ws => if ((0 <=? max) && (max <=? kept))%Z then [] else w_tx w :: reapn_loop max (kept + 1) ws
  end.

Definition ReapMaxTxs (max : Z) (t : TxMempool) : list Tx := reapn_loop max 0 (allEntriesSorted t).

(** ** Insertion *)

Definition canAddTx (wtx : WrappedTx) (t : TxMempool) : option CheckTxError :=
  let numTxs := Size t in
  let txBytes := SizeBytes t in
  if ((cfg_Size (tm_config t) <=? numTxs) || (cfg_MaxTxsBytes (tm_config t) <? i64 (Size_wtx wtx + txBytes)))%Z
  then Some (ErrMempoolIsFull numTxs (cfg_Size (tm_config t)) txBytes (cfg_MaxTxsBytes (tm_config t)))
  else None.

Definition insertTx (wtx : WrappedTx) : MP unit :=
  let! elt := on_txs (PushBack wtx) in
  do! modify (fun t => set_txByKey (<[tx_key (w_tx wtx) := elt]> (tm_txByKey t)) t) in
  do! modify (fun t => if String.eqb (w_sender wtx) "" then t
                       else set_txBySender (<[w_sender wtx := elt]> (tm_txBySender t)) t) in
  modify (fun t => set_txsBytes (i64 (tm_txsBytes t + Size_wtx wtx)) t).

(** The lowest priorities first, the newer first among equals. *)
Definition evict_less (v1 v2 : nat * WrappedTx) : bool :=
  if (w_priority v1.2 =? w_priority v2.2)%Z then (w_timestamp v2.2 <? w_timestamp v1.2)%Z
  else (w_priority v1.2 <? w_priority v2.2)%Z.

Fixpoint evict_loop (need evictedBytes : Z) (victims : list (nat * WrappedTx)) : MP unit :=
  match victims with
  | [] => ret tt
  | (vic, w) :: victims =>
      do! removeTxByElement vic in
      do! on_cache (cache_Remove (w_tx w)) in
      let evictedBytes := i64 (evictedBytes + Size_wtx w) in
      if (need <=? evictedBytes)%Z then ret tt else evict_loop need evictedBytes victims
  end.

Definition with_MempoolError (msg : string) (r : ResponseCheckTx) : ResponseCheckTx :=
  {| rct_Code := rct_Code r; rct_Data := rct_Data r; rct_Log := rct_Log r; rct_Codespace := rct_Codespace r;
     rct_GasWanted := rct_GasWanted r; rct_Priority := rct_Priority r; rct_Sender := rct_Sender r; rct_MempoolError := msg |}.

(** Evicts transactions of lower priority to make room; reports whether the new
    transaction may be inserted. *)
Definition make_room (wtx : WrappedTx) (priority : Z) : MP bool :=
  let! t := get in
  match canAddTx wtx t with
  | None => ret true
  | Some _ =>
      let! all := lift (deref (walk (Z.to_nat (Size t)) (TxsFront t) (tm_txs t))) in
      let victims := filter (fun v : nat * WrappedTx => (w_priority v.2 < priority)%Z) all in
      let victimBytes := foldl (fun b v => i64 (b + Size_wtx v.2)) 0%Z victims in
      if (length victims =? 0)%nat || (victimBytes <? Size_wtx wtx)%Z then
        do! on_cache (cache_Remove (w_tx wtx)) in ret false
      else
        do! evict_loop (Size_wtx wtx) 0 (sort_Slice evict_less victims) in ret true
  end.

(** The response is the one the callbacks see, with its [MempoolError]. *)
Definition initialTxCallback (wtx : WrappedTx) (res : ResponseCheckTx) : MP ResponseCheckTx :=
  let! t := get in
  let err := match tm_postCheck t with Some f => f (w_tx wtx) res | None => None end in
  if bool_decide (is_Some err) || negb (rct_Code res =? 0)%Z then
    do! (if cfg_KeepInvalidTxsInCache (tm_config t) then ret tt else on_cache (cache_Remove (w_tx wtx))) in
    ret (match err with Some _ => with_MempoolError "post-check" res | None => res end)
  else
    let priority := rct_Priority res in
    let sender := rct_Sender res in
    if negb (String.eqb sender "") && bool_decide (is_Some (tm_txBySender t !! sender))
    then ret (with_MempoolError "rejected valid incoming transaction; tx already exists for sender" res)
    else
      let! room := make_room wtx priority in
      if negb room then ret (with_MempoolError "rejected valid incoming transaction; mempool is full" res)
      else
        do! insertTx (SetSender sender (SetPriority priority (SetGasWanted (rct_GasWanted res) wtx))) in
        do! modify notifyTxsAvailable in
        ret res.

(** ** Rechecks *)

(** The element of the transaction, if it is still there, gets its new priority or
    is removed. *)
Definition recheck_result (tx : Tx) (res : ResponseCheckTx) : MP unit :=
  let! t := get in
  match tm_txByKey t !! tx_key tx with
  | None => ret tt
  | Some elt =>
      let! wtx := elt_wtx elt in
      let err := match tm_postCheck t with Some f => f tx res | None => None end in
      if (rct_Code res =? 0)%Z && bool_decide (err = None)
      then on_txs (SetValue elt (SetPriority (rct_Priority res)))
      else
        do! removeTxByElement elt in
        if cfg_KeepInvalidTxsInCache (tm_config t) then ret tt else on_cache (cache_Remove (w_tx wtx))
  end.

Definition recheckTxCallback (tx : Tx) (res : ResponseCheckTx) : MP unit :=
  let! t := get in
  let numLeft := i64 (tm_txRecheck t - 1) in
  do! modify (set_txRecheck numLeft) in
  if (numLeft =? 0)%Z then
    do! recheck_result tx res in modify notifyTxsAvailable
  else if (numLeft <? 0)%Z then ret tt
  else recheck_result tx res.

(** [proxyAppConn.CheckTxAsync]: the application, then the response callback. *)
Definition CheckTxAsync (tx : Tx) (recheck : bool) : MP ResponseCheckTx :=
  let! t := get in
  let '(res, conn) := conn_CheckTx tx recheck (tm_conn t) in
  do! modify (set_conn conn) in
  do! recheckTxCallback tx res in
  ret res.

Definition FlushSync : MP (option error) :=
  let! t := get in
  let '(err, conn) := conn_FlushSync (tm_conn t) in
  do! modify (set_conn conn) in
  ret err.

(** [for e := Front(); e != nil; e = e.Next()]: the next element is read after the
    check of the current one. *)
Fixpoint recheck_loop (fuel : nat) (cur : option nat) : MP unit :=
  match cur with
  | None => ret tt
  | Some e =>
      match fuel with
      | O => panic "loop bound"
      | S fuel =>
          let! wtx := elt_wtx e in
          do! CheckTxAsync (w_tx wtx) true in
          let! err := FlushSync in
          do! match err with
              | Some _ => modify (fun t => set_txRecheck (i64 (tm_txRecheck t - 1)) t)
              | None => ret tt end in
          let! next := on_txs (Next e) in
          recheck_loop fuel next
      end
  end.

Definition recheckTransactions : MP unit :=
  let! t := get in
  if (Size t =? 0)%Z then panic "mempool: cannot run recheck on an empty mempool"
  else
    do! modify (set_txRecheck (Size t)) in
    recheck_loop (Z.to_nat (Size t)) (TxsFront t).

(** ** Update *)

Definition expired (blockHeight now : Z) (cfg : MempoolConfig) (w : WrappedTx) : bool :=
  ((0 <? cfg_TTLNumBlocks cfg) && (cfg_TTLNumBlocks cfg <? i64 (blockHeight - w_height w)) ||
   (0 <? cfg_TTLDuration cfg) && (cfg_TTLDuration cfg <? now - w_timestamp w))%Z.

Definition purgeExpiredTxs (blockHeight : Z) : MP unit :=
  let! t := get in
  if ((cfg_TTLNumBlocks (tm_config t) =? 0) && (cfg_TTLDuration (tm_config t) =? 0))%Z then ret tt
  else
    for_txs (fun cur =>
      let! w := elt_wtx cur in
      if expired blockHeight (tm_now t) (tm_config t) w then
        do! removeTxByElement cur in on_cache (cache_Remove (w_tx w))
      else ret tt).

Definition update_tx (txres : Tx * ResponseDeliverTx) : MP unit :=
  let! t := get in
  do! (if (dtx_Code txres.2 =? 0)%Z then on_cache (fun c => (cache_Push txres.1 c).2)
       else if cfg_KeepInvalidTxsInCache (tm_config t) then ret tt
       else on_cache (cache_Remove txres.1)) in
  do! try (removeTxByKey (tx_key txres.1)) in
  ret tt.

Definition Update (blockHeight : Z) (blockTxs : list Tx) (deliverTxResponses : list ResponseDeliverTx)
    (newPreFn : option PreCheckFunc) (newPostFn : option PostCheckFunc) : MP unit :=
  if negb (length blockTxs =? length deliverTxResponses)%nat
  then panic "mempool: transactions and DeliverTx responses differ in number"
  else
    do! modify (fun t => set_notifiedTxsAvailable false (set_height blockHeight t)) in
    do! modify (fun t => set_hooks (match newPreFn with Some f => Some f | None => tm_preCheck t end)
                                   (match newPostFn with Some f => Some f | None => tm_postCheck t end) t) in
    do! for_each update_tx (zip blockTxs deliverTxResponses) in
    do! purgeExpiredTxs blockHeight in
    let! t := get in
    if (0 <? Size t)%Z then
      if cfg_Recheck (tm_config t) then recheckTransactions else modify notifyTxsAvailable
    else ret tt.

(** ** CheckTx *)

(** The part under the lock: the error, or the mempool's height. *)
Definition checkTx_admit (tx : Tx) (senderID : Z) : MP (CheckTxError + Z) :=
  let! t := get in
  if (cfg_MaxTxBytes (tm_config t) <? Z.of_nat (length tx))%Z
  then ret (inl (ErrTxTooLarge (cfg_MaxTxBytes (tm_config t)) (Z.of_nat (length tx))))
  else
    match match tm_preCheck t with Some f => f tx | None => None end with
    | Some e => ret (inl (ErrPreCheck (Some e)))
    | None =>
        match conn_Error (tm_conn t) with
        | Some e => ret (inl (ErrConn e))
        | None =>
            let '(pushed, c) := cache_Push tx (tm_cache t) in
            do! modify (set_cache c) in
            if negb pushed then
              do! match tm_txByKey t !! tx_key tx with
                  | Some elt => on_txs (SetValue elt (SetPeer senderID))
                  | None => ret tt end in
              ret (inl ErrTxInCache)
            else ret (inr (tm_height t))
        end
    end.

(** [CheckTx]: the error, or the response that the caller's callback is given. *)
Definition CheckTx (tx : Tx) (senderID : Z) : MP (CheckTxError + ResponseCheckTx) :=
  let! admitted := checkTx_admit tx senderID in
  match admitted with
  | inl e => ret (inl e)
  | inr height =>
      let! res := CheckTxAsync tx false in
      let! err := FlushSync in
      match err with
      | Some e => ret (inl (ErrConn e))
      | None =>
          let! t := get in
          let wtx := {| w_tx := tx; w_hash := tx_key tx; w_height := height; w_timestamp := tm_now t;
                        w_gasWanted := 0; w_priority := 0; w_sender := ""; w_peers := {[senderID]} |} in
          let! res := initialTxCallback wtx res in
          ret (inr res)
      end
  end.

Definition FlushAppConn : MP unit :=
  let! err := FlushSync in
  match err with Some e => fail e | None => ret tt end.

(** ** Construction *)

Definition mk_mempool (cfg : MempoolConfig) (conn : mconn) (c : cache) (height now : Z) : TxMempool :=
  {| tm_config := cfg; tm_conn := conn; tm_cache := c; tm_txsBytes := 0; tm_txRecheck := 0;
     tm_notifiedTxsAvailable := false; tm_txsAvailable := None; tm_preCheck := None; tm_postCheck := None;
     tm_height := height; tm_txs := New_clist; tm_txByKey := ∅; tm_txBySender := ∅; tm_now := now |}.
End Mempool.

(** ** The cache the configuration asks for *)

Inductive AnyTxCache := CacheLRU (c : LRUTxCache) | CacheNop.

Definition AnyCache {TT : TmTx} : TxCache := {|
  cache := AnyTxCache;
  cache_Reset c := match c with CacheLRU c => CacheLRU (cache_Reset (TxCache := LRUCache) c) | CacheNop => CacheNop end;
  cache_Push tx c :=
    match c with
    | CacheLRU c => let '(b, c) := cache_Push (TxCache := LRUCache) tx c in (b, CacheLRU c)
    | CacheNop => ((cache_Push (TxCache := NopTxCache) tx tt).1, CacheNop)
    end;
  cache_Remove tx c := match c with CacheLRU c => CacheLRU (cache_Remove (TxCache := LRUCache) tx c) | CacheNop => CacheNop end;
  cache_Has tx c :=
    match c with
    | CacheLRU c => cache_Has (TxCache := LRUCache) tx c
    | CacheNop => cache_Has (TxCache := NopTxCache) tx tt
    end;
|}.

Definition NewTxMempool {TT : TmTx} {AC : AppConnMempool} (cfg : MempoolConfig) (conn : mconn) (height now : Z)
    : TxMempool (TC := AnyCache) :=
  mk_mempool (TC := AnyCache) cfg conn
    (if (0 <? cfg_CacheSize cfg)%Z then CacheLRU (NewLRUTxCache (cfg_CacheSize cfg)) else CacheNop) height now.
