(* ===== verification/MempoolInv.v ===== *)
(** * MempoolInv: what every operation of the mempool keeps

    The list of transactions represents a list of elements with their transactions; the
    two indexes point into it, and the byte count is the size of what is in it.  Each
    operation is run on the represented list. *)
From stdpp Require Import base gmap strings vector sorting numbers list.
From S2P Require Import Prelude Types TxCache CList Mempool.

Abbreviation entries := (list (nat * WrappedTx)).

(** The bytes of the transactions of a list. *)
Definition total (xs : entries) : Z := foldr (fun x b => Size_wtx x.2 + b)%Z 0%Z xs.

Lemma total_app xs ys : total (xs ++ ys) = (total xs + total ys)%Z.
Proof. induction xs as [|x xs IH]; [done|]. cbn [total app foldr]. fold (total (xs ++ ys)) (total xs). lia. Qed.

Lemma total_nonneg xs : (0 <= total xs)%Z.
Proof. induction xs as [|x xs IH]; [done|]. cbn [total foldr]. fold (total xs). unfold Size_wtx. lia. Qed.

#[global] Instance total_perm : Proper ((≡ₚ) ==> (=)) total.
Proof.
  intros xs ys H. induction H; [done| | |congruence]; cbn [total foldr]; fold total; [|lia].
  unfold total in *. lia.
Qed.

Section Inv.
Context {TT : TmTx} {TC : TxCache} {AC : AppConnMempool} {GO : GoOrder}.

Record mempool_inv (t : TxMempool) (xs : entries) : Prop := {
  mi_repr : repr (tm_txs t) xs;
  mi_max : cl_maxLen (tm_txs t) = MaxLength;
  mi_key k e : tm_txByKey t !! k = Some e -> exists w, (e, w) ∈ xs /\ tx_key (w_tx w) = k;
  mi_sender s e : tm_txBySender t !! s = Some e -> exists w, (e, w) ∈ xs /\ w_sender w = s;
  mi_bytes : tm_txsBytes t = i64 (total xs);
}.

(** Every transaction of the list is found by its key. *)
Definition indexed (t : TxMempool) (xs : entries) : Prop :=
  forall e w, (e, w) ∈ xs -> tm_txByKey t !! tx_key (w_tx w) = Some e.

(** The parts of the state that the list operations leave alone. *)
Record same_env (t t' : TxMempool) : Prop := {
  se_config : tm_config t' = tm_config t;
  se_hooks : tm_preCheck t' = tm_preCheck t /\ tm_postCheck t' = tm_postCheck t;
  se_height : tm_height t' = tm_height t;
  se_now : tm_now t' = tm_now t;
}.

#[global] Instance same_env_refl : Reflexive same_env.
Proof. by intros t. Qed.
#[global] Instance same_env_trans : Transitive same_env.
Proof. intros t1 t2 t3 [? [] ? ?] [? [] ? ?]. split; [congruence|split; congruence|congruence..]. Qed.

(** The invariant looks at four fields only. *)
Lemma mempool_inv_frame t t' xs :
  mempool_inv t xs -> tm_txs t' = tm_txs t -> tm_txByKey t' = tm_txByKey t -> tm_txBySender t' = tm_txBySender t ->
  tm_txsBytes t' = tm_txsBytes t -> mempool_inv t' xs.
Proof. intros [] E1 E2 E3 E4. split; rewrite ?E1, ?E2, ?E3, ?E4; done. Qed.

Lemma Size_inv t xs : mempool_inv t xs -> Size t = Z.of_nat (length xs).
Proof. intros [[]]. done. Qed.

Lemma TxsFront_inv t xs : mempool_inv t xs -> TxsFront t = first_of xs None.
Proof. intros [[]]. done. Qed.

Lemma walk_inv t xs : mempool_inv t xs -> walk (Z.to_nat (Size t)) (TxsFront t) (tm_txs t) = Some xs.
Proof.
  intros H. rewrite (Size_inv t xs H), Nat2Z.id, (TxsFront_inv t xs H). destruct H as [[]]. by eapply walk_dseg.
Qed.

Lemma elt_wtx_inv t xs e w : mempool_inv t xs -> (e, w) ∈ xs -> elt_wtx e t = (Ok w, t).
Proof.
  intros [Hr] Hin. destruct (repr_lookup _ _ _ _ Hr Hin) as (x & Hx & <-). unfold elt_wtx, read. by rewrite Hx.
Qed.

Lemma mempool_inv_nodup t xs : mempool_inv t xs -> NoDup xs.*1.
Proof. intros [[]]. done. Qed.

Lemma entry_unique (xs : entries) e w w' : NoDup xs.*1 -> (e, w) ∈ xs -> (e, w') ∈ xs -> w = w'.
Proof.
  intros Hnd [i Hi]%list_elem_of_lookup [j Hj]%list_elem_of_lookup.
  assert (i = j) as ->; [|congruence].
  eapply (NoDup_lookup xs.*1 i j e); [done|rewrite list_lookup_fmap, Hi; done|rewrite list_lookup_fmap, Hj; done].
Qed.

(** ** Removal *)

(** What removing the element [e] of [w] does. *)
Record removed (e : nat) (w : WrappedTx) (t t' : TxMempool) : Prop := {
  rm_env : same_env t t';
  rm_cache : tm_cache t' = tm_cache t;
  rm_conn : tm_conn t' = tm_conn t;
  rm_recheck : tm_txRecheck t' = tm_txRecheck t;
  rm_keys : tm_txByKey t' = delete (tx_key (w_tx w)) (tm_txByKey t);
  rm_elt : cl_heap (tm_txs t') !! e = Some (detached w);
}.

Lemma removeTxByElement_ok t xs1 e w xs2 :
  mempool_inv t (xs1 ++ (e, w) :: xs2) ->
  exists t', removeTxByElement e t = (Ok tt, t') /\ mempool_inv t' (xs1 ++ xs2) /\ removed e w t t'.
Proof.
  intros Hinv. assert (Hin : (e, w) ∈ xs1 ++ (e, w) :: xs2) by (apply elem_of_app; right; by left).
  pose proof (mempool_inv_nodup _ _ Hinv) as Hnd.
  unfold removeTxByElement. erewrite bind_ok by (by eapply elt_wtx_inv). destruct Hinv as [Hr Hm Hk Hs Hb].
  destruct (RemoveDetach_repr _ _ _ _ _ Hr) as (l' & Hrun & Hr' & He & Hm' & _).
  unfold unlink, on_txs, bind, modify, zoom. simpl. rewrite Hrun. eexists. split; [reflexivity|].
  assert (Hstay : forall e' w' (P : Prop), (e', w') ∈ xs1 ++ (e, w) :: xs2 -> (e' = e -> w' = w -> P) ->
                                           P \/ (e', w') ∈ xs1 ++ xs2).
  { intros e' w' P. rewrite !elem_of_app, elem_of_cons. intros [?|[[= -> ->]|?]] HP; auto. }
  split; [|by split]. split; simpl; [done|congruence| | |].
  - intros k e'. rewrite lookup_delete. case_decide as Hd; [done|]. intros (w' & Hin' & <-)%Hk.
    exists w'. split; [|done]. destruct (Hstay e' w' False Hin') as [[]|]; [|done]. intros -> ->. by apply Hd.
  - intros s e'. rewrite lookup_delete. case_decide as Hd; [done|]. intros (w' & Hin' & <-)%Hs.
    exists w'. split; [|done]. destruct (Hstay e' w' False Hin') as [[]|]; [|done]. intros -> ->. by apply Hd.
  - rewrite Hb, !total_app. cbn [total foldr snd]. fold (total xs2).
    rewrite <- Z.add_opp_r, i64_add_l. f_equal. lia.
Qed.

(** Removing by key is removing the element the index gives. *)
Lemma removeTxByKey_found t xs key e :
  mempool_inv t xs -> tm_txByKey t !! key = Some e -> removeTxByKey key t = removeTxByElement e t.
Proof.
  intros Hinv Hk. destruct (mi_key _ _ Hinv _ _ Hk) as (w & Hin & <-).
  unfold removeTxByKey, removeTxByElement. unfold bind at 1, get. rewrite Hk.
  rewrite !(bind_ok _ _ _ _ _ (elt_wtx_inv _ _ _ _ Hinv Hin)). done.
Qed.

Lemma removeTxByKey_missing t key : tm_txByKey t !! key = None ->
  removeTxByKey key t = (Err (New "transaction not found"), t).
Proof. intros Hk. unfold removeTxByKey, bind, get. by rewrite Hk. Qed.

(** ** Loops over the list *)

(** A loop that removes the elements [p] selects. *)
Lemma list_loop_ok (p : WrappedTx -> bool) (R : TxMempool -> Prop) body :
  (forall t xs1 e w xs2, mempool_inv t (xs1 ++ (e, w) :: xs2) -> R t ->
     exists t', body e t = (Ok tt, t') /\ R t' /\ mempool_inv t' (xs1 ++ (if p w then [] else [(e, w)]) ++ xs2)) ->
  forall fuel xs2 xs1 t, mempool_inv t (xs1 ++ xs2) -> R t -> length xs2 <= fuel ->
     exists t', list_loop fuel body (first_of xs2 None) t = (Ok tt, t') /\ R t' /\
                mempool_inv t' (xs1 ++ filter (fun x => p x.2 = false) xs2).
Proof.
  intros Hbody fuel. induction fuel as [|fuel IH]; intros [|[e w] xs2] xs1 t Hinv HR Hf; simpl in *; [eauto|lia|eauto|].
  assert (Hn : on_txs (Next e) t = (Ok (first_of xs2 None), t)).
  { unfold on_txs, zoom, Next, read_elt, read, bind. rewrite (repr_elt _ _ _ _ _ (mi_repr _ _ Hinv)). by destruct t. }
  erewrite bind_ok by exact Hn. destruct (Hbody t xs1 e w xs2 Hinv HR) as (t1 & Hrun & HR1 & Hinv1).
  erewrite bind_ok by exact Hrun. rewrite filter_cons. simpl. rewrite app_assoc in Hinv1.
  destruct (IH xs2 _ t1 Hinv1 HR1 ltac:(lia)) as (t2 & Hrun2 & HR2 & Hinv2). exists t2. split; [done|]. split; [done|].
  rewrite <- app_assoc in Hinv2. by destruct (p w).
Qed.

Lemma for_txs_ok (p : WrappedTx -> bool) (R : TxMempool -> Prop) body :
  (forall t xs1 e w xs2, mempool_inv t (xs1 ++ (e, w) :: xs2) -> R t ->
     exists t', body e t = (Ok tt, t') /\ R t' /\ mempool_inv t' (xs1 ++ (if p w then [] else [(e, w)]) ++ xs2)) ->
  forall xs t, mempool_inv t xs -> R t ->
     exists t', for_txs body t = (Ok tt, t') /\ R t' /\ mempool_inv t' (filter (fun x => p x.2 = false) xs).
Proof.
  intros Hbody xs t Hinv HR. unfold for_txs, bind, get.
  rewrite (TxsFront_inv _ _ Hinv), (Size_inv _ _ Hinv), Nat2Z.id.
  by apply (list_loop_ok p R body Hbody _ xs []).
Qed.

(** The index only loses entries. *)
Definition shrinks (t t' : TxMempool) : Prop := same_env t t' /\ tm_txByKey t' ⊆ tm_txByKey t.

#[global] Instance shrinks_refl : Reflexive shrinks.
Proof. by intros t. Qed.
#[global] Instance shrinks_trans : Transitive shrinks.
Proof. intros t1 t2 t3 [] []. split; etrans; eauto. Qed.

Lemma removed_shrinks e w t t' : removed e w t t' -> shrinks t t'.
Proof. intros []. split; [done|]. rewrite rm_keys0. apply delete_subseteq. Qed.

Lemma on_cache_ok f t xs :
  mempool_inv t xs -> exists t', on_cache f t = (Ok tt, t') /\ mempool_inv t' xs /\ shrinks t t'.
Proof. intros Hinv. eexists. split; [reflexivity|]. split; [by eapply mempool_inv_frame|]. by split. Qed.

Lemma Flush_ok t xs :
  mempool_inv t xs ->
  exists t', Flush t = (Ok tt, t') /\ mempool_inv t' [] /\ shrinks t t' /\
             tm_cache t' = cache_Reset (tm_cache t) /\ tm_txRecheck t' = 0%Z.
Proof.
  intros Hinv. unfold Flush.
  destruct (for_txs_ok (fun _ => true) (fun t' => shrinks t t' /\ tm_cache t' = tm_cache t) removeTxByElement)
    with (xs := xs) (t := t) as (t1 & Hrun & [Hsh Hc] & Hinv1); [|done|by split|].
  { intros t1 xs1 e w xs2 H1 [Hs Hc]. destruct (removeTxByElement_ok _ _ _ _ _ H1) as (t2 & Hrun & Hinv2 & Hrm).
    exists t2. split; [done|]. split; [|done]. split; [etrans; [done|by eapply removed_shrinks]|].
    destruct Hrm. congruence. }
  erewrite bind_ok by exact Hrun. unfold on_cache, bind, modify. eexists. split; [reflexivity|].
  assert (Hnil : filter (fun x : nat * WrappedTx => true = false) xs = []).
  { clear. induction xs as [|x xs IH]; [done|]. by rewrite filter_cons_False. }
  rewrite Hnil in Hinv1. split; [by eapply mempool_inv_frame|]. simpl. rewrite Hc.
  split; [|done]. etrans; [exact Hsh|by split].
Qed.

Lemma purgeExpiredTxs_ok h t xs :
  mempool_inv t xs ->
  exists t', purgeExpiredTxs h t = (Ok tt, t') /\ shrinks t t' /\
             mempool_inv t' (filter (fun x => expired h (tm_now t) (tm_config t) x.2 = false) xs).
Proof.
  intros Hinv. unfold purgeExpiredTxs. unfold bind at 1, get.
  destruct ((cfg_TTLNumBlocks (tm_config t) =? 0) && (cfg_TTLDuration (tm_config t) =? 0))%Z eqn:E.
  - exists t. split; [done|]. split; [done|]. rewrite list_filter_all; [done|].
    intros x _. unfold expired. apply andb_prop in E as [E1%Z.eqb_eq E2%Z.eqb_eq]. by rewrite E1, E2.
  - apply for_txs_ok; [|done|done]. intros t1 xs1 e w xs2 H1 Hs.
    erewrite bind_ok by (eapply elt_wtx_inv; [exact H1|]; apply elem_of_app; right; by left).
    destruct (expired h (tm_now t) (tm_config t) w); [|by exists t1].
    destruct (removeTxByElement_ok _ _ _ _ _ H1) as (t2 & Hrun & Hinv2 & Hrm).
    erewrite bind_ok by exact Hrun. destruct (on_cache_ok (cache_Remove (w_tx w)) t2 _ Hinv2) as (t3 & Hc & Hinv3 & Hs3).
    exists t3. split; [done|]. split; [|done]. etrans; [done|]. etrans; [by eapply removed_shrinks|done].
Qed.

(** ** Insertion and eviction *)

Lemma insertTx_ok w t xs :
  mempool_inv t xs -> (Z.of_nat (length xs) < MaxLength)%Z ->
  exists t' e, insertTx w t = (Ok tt, t') /\ mempool_inv t' (xs ++ [(e, w)]) /\ same_env t t' /\ e ∉ xs.*1 /\
               tm_txByKey t' = <[tx_key (w_tx w) := e]> (tm_txByKey t).
Proof.
  intros [Hr Hm Hk Hs Hb] Hl. destruct (PushBack_repr w _ _ Hr ltac:(rewrite Hm; lia)) as (l' & Hrun & Hr' & Hm' & _).
  set (e := cl_fresh (tm_txs t)) in *. unfold insertTx, on_txs, bind, modify, zoom. rewrite Hrun.
  eexists _, e. split; [reflexivity|].
  assert (Hfresh : e ∉ xs.*1) by (intros Hin; apply (re_fresh _ _ Hr) in Hin; unfold e in *; lia).
  set (t1 := if String.eqb (w_sender w) "" then _ else _).
  assert (H1 : tm_txs t1 = l' /\ tm_txByKey t1 = <[tx_key (w_tx w) := e]> (tm_txByKey t) /\ tm_txsBytes t1 = tm_txsBytes t /\
               same_env t t1 /\
               (tm_txBySender t1 = tm_txBySender t \/ tm_txBySender t1 = <[w_sender w := e]> (tm_txBySender t))).
  { unfold t1. destruct (String.eqb (w_sender w) ""); simpl; split_and!; auto; by split. }
  clearbody t1. destruct H1 as (E1 & E2 & E3 & He & Es).
  split; [|split; [etrans; [exact He|by split]|by split]].
  split; simpl; rewrite ?E1, ?E2; [done|congruence| | |].
  - intros k e'. rewrite lookup_insert. case_decide as Hd.
    + intros [= <-]. exists w. split; [apply elem_of_app; right; by left|done].
    + intros (w' & Hin & ?)%Hk. exists w'. split; [apply elem_of_app; by left|done].
  - intros s e'. assert (Hold : tm_txBySender t !! s = Some e' -> exists w', (e', w') ∈ xs ++ [(e, w)] /\ w_sender w' = s).
    { intros (w' & Hin & ?)%Hs. exists w'. split; [apply elem_of_app; by left|done]. }
    destruct Es as [-> | ->]; [done|]. rewrite lookup_insert. case_decide as Hd; [|done].
    intros [= <-]. exists w. split; [apply elem_of_app; right; by left|done].
  - rewrite E3, Hb, i64_add_l, total_app. cbn. f_equal. lia.
Qed.

(** Evicting goes through the victims until enough bytes were freed. *)
Lemma evict_loop_ok need vs acc t xs :
  mempool_inv t xs -> (forall v, v ∈ vs -> v ∈ xs) -> NoDup vs.*1 ->
  (0 <= acc)%Z -> (acc + total vs < 2 ^ 63)%Z -> (need <= acc + total vs)%Z -> vs <> [] ->
  exists t' evicted rest xs', evict_loop need acc vs t = (Ok tt, t') /\ shrinks t t' /\ mempool_inv t' xs' /\
    vs = evicted ++ rest /\ evicted <> [] /\ xs ≡ₚ evicted ++ xs' /\ sublist xs' xs /\ (need <= acc + total evicted)%Z.
Proof.
  revert acc t xs. induction vs as [|[e w] vs IH]; intros acc t xs Hinv Hsub Hnd Hacc Hov Hneed Hne; [done|].
  destruct (list_elem_of_split xs (e, w)) as (xs1 & xs2 & ->); [apply Hsub; by left|].
  destruct (removeTxByElement_ok _ _ _ _ _ Hinv) as (t1 & Hrun & Hinv1 & Hrm).
  destruct (on_cache_ok (cache_Remove (w_tx w)) t1 _ Hinv1) as (t2 & Hc & Hinv2 & Hs2).
  assert (Hsh : shrinks t t2) by (etrans; [by eapply removed_shrinks|done]).
  assert (Hperm : xs1 ++ (e, w) :: xs2 ≡ₚ (e, w) :: xs1 ++ xs2) by (by rewrite Permutation_middle).
  assert (Hsubl : sublist (xs1 ++ xs2) (xs1 ++ (e, w) :: xs2)) by (apply sublist_app; [done|by apply sublist_cons]).
  cbn [total foldr snd] in Hov, Hneed. fold (total vs) in Hov, Hneed.
  pose proof (total_nonneg vs). assert (0 <= Size_wtx w)%Z by (unfold Size_wtx; lia).
  cbn [evict_loop]. erewrite bind_ok by exact Hrun. erewrite bind_ok by exact Hc.
  rewrite i64_small by (unfold is_i64; lia).
  destruct (Z.leb_spec need (acc + Size_wtx w)) as [Hle|Hgt].
  - exists t2, [(e, w)], vs, (xs1 ++ xs2). split_and!; try done. cbn. lia.
  - csimpl in Hnd. apply NoDup_cons in Hnd as [Hn Hnd].
    destruct (IH (acc + Size_wtx w)%Z t2 (xs1 ++ xs2)) as (t3 & ev & rest & xs' & Hr3 & Hs3 & Hi3 & -> & Hev & Hp3 & Hsl3 & Hn3);
      [done| |done|lia|lia|lia| |].
    + intros v Hv. pose proof (Hsub v ltac:(by right)) as Hin. rewrite Hperm in Hin. apply elem_of_cons in Hin as [->|]; [|done].
      exfalso. apply Hn. by apply (list_elem_of_fmap_2 fst vs (e, w)).
    + intros ->. cbn in Hneed. lia.
    + exists t3, ((e, w) :: ev), rest, xs'. split_and!; try done.
      * by etrans.
      * rewrite Hperm. cbn. by rewrite Hp3.
      * by etrans.
      * cbn [total foldr snd]. fold (total ev). lia.
Qed.

(** ** Capacity *)

(** A configuration whose limits fit in 64 bits together. *)
Record cfg_ok (c : MempoolConfig) : Prop := {
  co_size : (0 <= cfg_Size c <= MaxLength)%Z;
  co_txs : (0 <= cfg_MaxTxsBytes c)%Z;
  co_sum : (cfg_MaxTxBytes c + cfg_MaxTxsBytes c < 2 ^ 63)%Z;
  co_bytes : (cfg_MaxTxsBytes c < 2 ^ 63)%Z;
}.

Record fits (c : MempoolConfig) (xs : entries) : Prop := {
  fi_size : (Z.of_nat (length xs) <= cfg_Size c)%Z;
  fi_bytes : (total xs <= cfg_MaxTxsBytes c)%Z;
}.

Lemma fits_sublist c xs xs' : sublist xs' xs -> fits c xs -> fits c xs'.
Proof.
  intros Hs [H1 H2]. apply sublist_submseteq, submseteq_Permutation in Hs as [k Hp]. rewrite Hp in H2. rewrite total_app in H2.
  apply Permutation_length in Hp. rewrite length_app in Hp. pose proof (total_nonneg k). split; lia.
Qed.

Lemma foldl_total vs acc :
  (0 <= acc)%Z -> (acc + total vs < 2 ^ 63)%Z ->
  foldl (fun b (v : nat * WrappedTx) => i64 (b + Size_wtx v.2)) acc vs = (acc + total vs)%Z.
Proof.
  revert acc. induction vs as [|v vs IH]; intros acc H1 H2; [cbn; lia|]. cbn [total foldr] in H2. fold (total vs) in H2.
  pose proof (total_nonneg vs). assert (0 <= Size_wtx v.2)%Z by (unfold Size_wtx; lia).
  cbn [foldl total foldr]. fold (total vs). rewrite i64_small by (unfold is_i64; lia). rewrite IH; lia.
Qed.

Lemma evict_less_order : weak_order evict_less.
Proof.
  split; unfold evict_less; intros.
  - rewrite Z.eqb_refl. apply Z.ltb_irrefl.
  - repeat case_match; lia.
  - repeat case_match; lia.
Qed.

Context `{!GoOrderLaws GO}.

(** The victims of an insertion: the transactions evicted are of lower priority than the
    new one and than every transaction that could have been evicted and was not. *)
Definition fair_eviction (priority : Z) (evicted kept : entries) : Prop :=
  (forall v, v ∈ evicted -> (w_priority v.2 < priority)%Z) /\
  (forall v u, v ∈ evicted -> u ∈ kept -> (w_priority u.2 < priority)%Z -> (w_priority v.2 <= w_priority u.2)%Z).

Lemma fair_eviction_nil p xs : fair_eviction p [] xs.
Proof. split; [intros v|intros v u]; by rewrite elem_of_nil. Qed.

Lemma make_room_ok w prio t xs :
  cfg_ok (tm_config t) -> mempool_inv t xs -> fits (tm_config t) xs -> (Size_wtx w <= cfg_MaxTxBytes (tm_config t))%Z ->
  exists t' b xs' evicted, make_room w prio t = (Ok b, t') /\ shrinks t t' /\ mempool_inv t' xs' /\
    xs ≡ₚ evicted ++ xs' /\ sublist xs' xs /\ fair_eviction prio evicted xs' /\
    (canAddTx w t = None -> evicted = [] /\ b = true) /\ (b = false -> xs' = xs) /\
    (b = true -> (Z.of_nat (length xs') < cfg_Size (tm_config t))%Z /\ (total xs' + Size_wtx w <= cfg_MaxTxsBytes (tm_config t))%Z).
Proof.
  intros Hc Hinv [Hf1 Hf2] Hw. assert (Hw0 : (0 <= Size_wtx w)%Z) by (unfold Size_wtx; lia). pose proof (total_nonneg xs) as Hx0.
  unfold make_room. unfold bind at 1, get. destruct (canAddTx w t) as [err|] eqn:Eadd.
  2:{ exists t, true, xs, []. split_and!; try done; [apply fair_eviction_nil|]. intros _. unfold canAddTx, SizeBytes in Eadd.
      rewrite (Size_inv _ _ Hinv), (mi_bytes _ _ Hinv) in Eadd. destruct Hc.
      rewrite (i64_small (total xs)), i64_small in Eadd by (unfold is_i64; lia). case_match; [done|]. lia. }
  rewrite (walk_inv _ _ Hinv). unfold bind at 1. cbn [deref lift].
  set (vs := filter (fun v : nat * WrappedTx => (w_priority v.2 < prio)%Z) xs).
  assert (Hvs : sublist vs xs) by apply sublist_filter.
  assert (Hvt : (total vs <= total xs)%Z).
  { apply sublist_submseteq, submseteq_Permutation in Hvs as [k Hp]. rewrite Hp, total_app. pose proof (total_nonneg k). lia. }
  destruct Hc. rewrite foldl_total by lia.
  destruct ((length vs =? 0)%nat || (0 + total vs <? Size_wtx w)%Z) eqn:Ev.
  { destruct (on_cache_ok (cache_Remove (w_tx w)) t xs Hinv) as (t1 & Hr & Hi & Hs).
    erewrite bind_ok by exact Hr. exists t1, false, xs, []. split_and!; try done. apply fair_eviction_nil. }
  apply orb_false_iff in Ev as [Ev1%Nat.eqb_neq Ev2%Z.ltb_ge].
  pose proof (sort_perm evict_less vs) as Hsp.
  destruct (evict_loop_ok (Size_wtx w) (sort_Slice evict_less vs) 0 t xs) as
    (t1 & ev & rest & xs' & Hr & Hs & Hi & Hsplit & Hne & Hp & Hsl & Hneed); [done| | |lia| | | |].
  { intros v. rewrite Hsp. intros Hv. by apply list_elem_of_filter in Hv as [_ ?]. }
  { rewrite Hsp. eapply sublist_NoDup; [by eapply mempool_inv_nodup|]. by apply fmap_sublist. }
  { rewrite Hsp. lia. }
  { rewrite Hsp. lia. }
  { intros E. rewrite E in Hsp. apply Permutation_nil in Hsp. by rewrite Hsp in Ev1. }
  erewrite bind_ok by exact Hr. exists t1, true, xs', ev. split_and!; try done.
  - split.
    + intros v Hv. assert (Hin : v ∈ vs) by (rewrite <- Hsp, Hsplit; apply elem_of_app; by left).
      by apply list_elem_of_filter in Hin as [? _].
    + intros v u Hv Hu Hpu. assert (Hin : u ∈ rest).
      { assert (Hiv : u ∈ vs) by (apply list_elem_of_filter; split; [done|]; rewrite Hp; apply elem_of_app; by right).
        rewrite <- Hsp, Hsplit in Hiv. apply elem_of_app in Hiv as [Hiv|]; [|done].
        pose proof (mempool_inv_nodup _ _ Hinv) as Hnd. rewrite Hp, fmap_app in Hnd. apply NoDup_app in Hnd as (_ & Hd & _).
        exfalso. apply (Hd u.1); by apply (list_elem_of_fmap_2 fst). }
      pose proof (sort_sorted evict_less vs evict_less_order) as Hss. rewrite Hsplit in Hss.
      pose proof (StronglySorted_app_1_elem_of _ _ _ _ _ Hss Hv Hin) as Hle. unfold evict_less in Hle.
      case_match; lia.
  - intros _. pose proof Hp as Hlen. apply Permutation_length in Hlen. rewrite length_app in Hlen.
    destruct ev as [|v ev]; [done|]. rewrite Hp, total_app in Hf2. simpl length in Hlen. lia.
Qed.

Lemma notify_frame t : same_env t (notifyTxsAvailable t) /\ tm_txByKey (notifyTxsAvailable t) = tm_txByKey t /\
  tm_txs (notifyTxsAvailable t) = tm_txs t /\ (forall xs, mempool_inv t xs -> mempool_inv (notifyTxsAvailable t) xs).
Proof.
  assert (H : forall t', t' = notifyTxsAvailable t -> same_env t t' /\ tm_txByKey t' = tm_txByKey t /\ tm_txs t' = tm_txs t /\
                         tm_txBySender t' = tm_txBySender t /\ tm_txsBytes t' = tm_txsBytes t).
  { intros t' ->. unfold notifyTxsAvailable. repeat case_match; by split_and!. }
  destruct (H _ eq_refl) as (? & ? & ? & ? & ?). split_and!; try done.
  intros xs Hinv. by eapply mempool_inv_frame.
Qed.

(** The outcome of an insertion. *)
Definition inserted (w : WrappedTx) (xs xs' : entries) (evicted : entries) : Prop :=
  exists kept e, xs' = kept ++ [(e, w)] /\ e ∉ kept.*1 /\ xs ≡ₚ evicted ++ kept /\ sublist kept xs /\
                 fair_eviction (w_priority w) evicted kept.

Definition accepted_tx (w : WrappedTx) (res : ResponseCheckTx) : WrappedTx :=
  SetSender (rct_Sender res) (SetPriority (rct_Priority res) (SetGasWanted (rct_GasWanted res) w)).

Lemma initialTxCallback_ok w res t xs :
  cfg_ok (tm_config t) -> mempool_inv t xs -> fits (tm_config t) xs -> (Size_wtx w <= cfg_MaxTxBytes (tm_config t))%Z ->
  exists t' res' xs', initialTxCallback w res t = (Ok res', t') /\ same_env t t' /\ mempool_inv t' xs' /\
    fits (tm_config t) xs' /\
    (xs' = xs \/ rct_Code res = 0%Z /\ exists evicted, inserted (accepted_tx w res) xs xs' evicted /\
                 (canAddTx w t = None -> evicted = [])).
Proof.
  intros Hc Hinv Hf Hw. unfold initialTxCallback. unfold bind at 1, get.
  set (err := match tm_postCheck t with Some f => _ | None => _ end).
  destruct (bool_decide (is_Some err) || negb (rct_Code res =? 0)%Z) eqn:Ebad.
  { assert (exists t1, (if cfg_KeepInvalidTxsInCache (tm_config t) then ret tt else on_cache (cache_Remove (w_tx w))) t
                       = (Ok tt, t1) /\ mempool_inv t1 xs /\ shrinks t t1) as (t1 & Hr & Hi & Hs).
    { destruct (cfg_KeepInvalidTxsInCache (tm_config t)); [by exists t|by apply on_cache_ok]. }
    erewrite bind_ok by exact Hr. eexists t1, _, xs. split_and!; [done|by destruct Hs|done|done|by left]. }
  apply orb_false_iff in Ebad as [_ Hcode%negb_false_iff%Z.eqb_eq].
  case_match; [by eexists t, _, xs; split_and!; [done|done|done|done|left]|].
  destruct (make_room_ok w (rct_Priority res) t xs Hc Hinv Hf Hw) as
    (t1 & b & xs1 & ev & Hr & Hs & Hi & Hp & Hsl & Hfair & Hadd & Hbf & Hbt).
  erewrite bind_ok by exact Hr. destruct b; simpl.
  2:{ rewrite Hbf in * by done. eexists t1, _, xs. split_and!; [done|by destruct Hs|done|done|by left]. }
  destruct (Hbt eq_refl) as [Hlen Htot]. destruct Hc.
  destruct (insertTx_ok (accepted_tx w res) t1 xs1 Hi ltac:(lia)) as (t2 & e & Hr2 & Hi2 & He2 & Hfr & Hk2).
  erewrite bind_ok by exact Hr2. destruct (notify_frame t2) as (He3 & _ & _ & Hi3).
  unfold bind, modify. eexists _, res, _. split; [reflexivity|]. split; [|split; [by apply Hi3|split]].
  - destruct Hs as [Hs _]. etrans; [exact Hs|]. by etrans.
  - split; [rewrite length_app; simpl; lia|]. rewrite total_app. cbn.
    change (Size_wtx (accepted_tx w res)) with (Size_wtx w). lia.
  - right. split; [done|]. exists ev. split; [|by intros [-> _]%Hadd]. by exists xs1, e.
Qed.

(** ** Values written through the list *)

Lemma SetValue_ok t xs1 e w xs2 f :
  mempool_inv t (xs1 ++ (e, w) :: xs2) -> w_tx (f w) = w_tx w -> w_sender (f w) = w_sender w ->
  exists t', on_txs (SetValue e f) t = (Ok tt, t') /\ mempool_inv t' (xs1 ++ (e, f w) :: xs2) /\ shrinks t t' /\
             tm_txByKey t' = tm_txByKey t.
Proof.
  intros [Hr Hm Hk Hs Hb] Htx Hsd. destruct (SetValue_repr _ _ _ _ _ f Hr) as (l' & Hrun & Hr' & Hm' & _).
  unfold on_txs, zoom. rewrite Hrun. eexists. split; [reflexivity|].
  assert (Hin : forall e' w', (e', w') ∈ xs1 ++ (e, w) :: xs2 ->
                exists w'', (e', w'') ∈ xs1 ++ (e, f w) :: xs2 /\ w_tx w'' = w_tx w' /\ w_sender w'' = w_sender w').
  { intros e' w'. setoid_rewrite elem_of_app. setoid_rewrite elem_of_cons.
    intros [?|[[= -> ->]|?]]; [by exists w'; auto|by exists (f w); auto|by exists w'; auto]. }
  split; [|by split]. split; simpl; [done|congruence| | |].
  - intros k e' (w' & (w'' & ? & ? & ?)%Hin & <-)%Hk. exists w''. split; [done|congruence].
  - intros k e' (w' & (w'' & ? & ? & ?)%Hin & <-)%Hs. exists w''. split; [done|congruence].
  - rewrite Hb, !total_app. cbn [total foldr snd].
    replace (Size_wtx (f w)) with (Size_wtx w) by (unfold Size_wtx; by rewrite Htx). done.
Qed.

(** An entry without what a recheck may change. *)
Definition raw (x : nat * WrappedTx) : nat * Tx := (x.1, w_tx x.2).

Lemma total_raw xs : total xs = foldr (fun y b => Z.of_nat (length y.2) + b)%Z 0%Z (raw <$> xs).
Proof. induction xs as [|x xs IH]; [done|]. cbn. unfold total in IH. by rewrite IH. Qed.

Lemma foldr_raw_perm (l l' : list (nat * Tx)) :
  l ≡ₚ l' -> foldr (fun y b => Z.of_nat (length y.2) + b)%Z 0%Z l = foldr (fun y b => Z.of_nat (length y.2) + b)%Z 0%Z l'.
Proof. intros H. induction H; [done|simpl; lia|simpl; lia|congruence]. Qed.

Lemma fits_raw c xs xs' : sublist (raw <$> xs') (raw <$> xs) -> fits c xs -> fits c xs'.
Proof.
  intros Hs [H1 H2]. apply sublist_submseteq, submseteq_Permutation in Hs as [k Hp].
  pose proof Hp as Hl. apply Permutation_length in Hl. rewrite length_app, !length_fmap in Hl.
  apply foldr_raw_perm in Hp. rewrite <- total_raw, foldr_app in Hp.
  set (tk := foldr _ 0%Z k) in Hp.
  assert (0 <= tk)%Z by (unfold tk; clear; induction k; simpl; lia).
  assert (Hadd : forall l z, foldr (fun (y : nat * Tx) b => Z.of_nat (length y.2) + b)%Z z l =
                        (foldr (fun y b => Z.of_nat (length y.2) + b) 0 l + z)%Z).
  { clear. intros l z. induction l as [|y l IH]; simpl; lia. }
  rewrite Hadd, <- total_raw in Hp. split; lia.
Qed.

(** ** Rechecks *)

(** What one recheck does to the entries: nothing, a new priority, or a removal of the
    element the index gives for the transaction. *)
Inductive rechecked (t : TxMempool) (key : hash32) (t' : TxMempool) : entries -> entries -> Prop :=
| rechecked_same xs : tm_txByKey t' = tm_txByKey t -> rechecked t key t' xs xs
| rechecked_priority xs1 e w xs2 p :
    tm_txByKey t' = tm_txByKey t -> rechecked t key t' (xs1 ++ (e, w) :: xs2) (xs1 ++ (e, SetPriority p w) :: xs2)
| rechecked_removed xs1 e w xs2 :
    tm_txByKey t !! key = Some e -> cl_heap (tm_txs t') !! e = Some (detached w) ->
    rechecked t key t' (xs1 ++ (e, w) :: xs2) (xs1 ++ xs2).

Lemma rechecked_frame t t0 key t1 t' xs xs' :
  rechecked t0 key t1 xs xs' -> tm_txByKey t0 = tm_txByKey t -> tm_txs t' = tm_txs t1 ->
  tm_txByKey t' = tm_txByKey t1 -> rechecked t key t' xs xs'.
Proof.
  intros [] E1 E2 E3; [constructor 1; congruence|constructor 2; congruence|constructor 3; congruence].
Qed.

Lemma recheck_result_ok tx res t xs :
  mempool_inv t xs ->
  exists t' xs', recheck_result tx res t = (Ok tt, t') /\ mempool_inv t' xs' /\ shrinks t t' /\
                 rechecked t (tx_key tx) t' xs xs'.
Proof.
  intros Hinv. unfold recheck_result. unfold bind at 1, get.
  destruct (tm_txByKey t !! tx_key tx) as [e|] eqn:Ek; [|exists t, xs; split_and!; try done; by constructor].
  destruct (mi_key _ _ Hinv _ _ Ek) as (w & Hin & Hkey).
  erewrite bind_ok by (by eapply elt_wtx_inv). apply list_elem_of_split in Hin as (xs1 & xs2 & ->).
  case_match.
  - destruct (SetValue_ok t xs1 e w xs2 (SetPriority (rct_Priority res))) as (t1 & Hr & Hi & Hs & Hk); [done..|].
    exists t1, (xs1 ++ (e, SetPriority (rct_Priority res) w) :: xs2). split_and!; try done. by constructor.
  - destruct (removeTxByElement_ok _ _ _ _ _ Hinv) as (t1 & Hr & Hi & Hrm). erewrite bind_ok by exact Hr.
    pose proof (removed_shrinks _ _ _ _ Hrm) as Hs. destruct Hrm.
    destruct (cfg_KeepInvalidTxsInCache (tm_config t)); eexists _, (xs1 ++ xs2); (split; [reflexivity|]).
    + split_and!; [done|done|]. by constructor.
    + split_and!; [by eapply mempool_inv_frame|etrans; [exact Hs|by split]|]. by constructor.
Qed.

Lemma recheckTxCallback_ok tx res t xs :
  mempool_inv t xs ->
  exists t' xs', recheckTxCallback tx res t = (Ok tt, t') /\ mempool_inv t' xs' /\ shrinks t t' /\
                 rechecked t (tx_key tx) t' xs xs'.
Proof.
  intros Hinv. unfold recheckTxCallback. unfold bind at 1, get. unfold bind at 1, modify.
  set (n := i64 (tm_txRecheck t - 1)). set (t0 := set_txRecheck n t).
  assert (Hi0 : mempool_inv t0 xs) by (by eapply mempool_inv_frame).
  assert (Hs0 : shrinks t t0) by (by split).
  destruct (recheck_result_ok tx res t0 xs Hi0) as (t1 & xs1 & Hr & Hi & Hs & Hrc).
  assert (Hs1 : shrinks t t1) by (by etrans).
  repeat case_match.
  - erewrite bind_ok by exact Hr. destruct (notify_frame t1) as (He & Hk & Htxs & Hi').
    eexists _, xs1. split; [reflexivity|]. split_and!; [by apply Hi'| |by eapply rechecked_frame].
    etrans; [done|]. split; [done|by rewrite Hk].
  - exists t0, xs. split_and!; try done. by constructor.
  - exists t1, xs1. split_and!; try done. by eapply rechecked_frame.
Qed.

Lemma CheckTxAsync_ok tx b t xs :
  mempool_inv t xs ->
  exists t' res xs', CheckTxAsync tx b t = (Ok res, t') /\ mempool_inv t' xs' /\ shrinks t t' /\
                 rechecked t (tx_key tx) t' xs xs' /\ res = (conn_CheckTx tx b (tm_conn t)).1.
Proof.
  intros Hinv. unfold CheckTxAsync. unfold bind at 1, get.
  destruct (conn_CheckTx tx b (tm_conn t)) as [res conn]. unfold bind at 1, modify.
  destruct (recheckTxCallback_ok tx res (set_conn conn t) xs) as (t1 & xs1 & Hr & Hi & Hs & Hrc);
    [by eapply mempool_inv_frame|].
  erewrite bind_ok by exact Hr. exists t1, res, xs1. split_and!; try done; [|by eapply rechecked_frame].
  etrans; [|exact Hs]. by split.
Qed.

Lemma FlushSync_ok t : exists t' err, FlushSync t = (Ok err, t') /\ tm_txs t' = tm_txs t /\ same_env t t' /\
  tm_txByKey t' = tm_txByKey t /\ (forall xs, mempool_inv t xs -> mempool_inv t' xs).
Proof.
  unfold FlushSync, bind, get, modify. destruct (conn_FlushSync (tm_conn t)) as [err conn].
  eexists _, err. split; [reflexivity|]. split_and!; try done. intros xs Hinv. by eapply mempool_inv_frame.
Qed.

Lemma locate {A} (xs1 : list A) x xs2 ys1 y ys2 :
  xs1 ++ x :: xs2 = ys1 ++ y :: ys2 ->
  (xs1 = ys1 /\ x = y /\ xs2 = ys2) \/ (exists m, xs1 = ys1 ++ y :: m /\ ys2 = m ++ x :: xs2) \/
  (exists m, ys1 = xs1 ++ x :: m /\ xs2 = m ++ y :: ys2).
Proof.
  intros [(k & E1 & E2)|(k & E1 & E2)]%app_eq_inv.
  - destruct k as [|z k]; simpl in *; simplify_eq; [left; by rewrite app_nil_r|]. right; left. eauto.
  - destruct k as [|z k]; simpl in *; simplify_eq; [left; by rewrite app_nil_r|]. right; right. eauto.
Qed.

(** After a recheck, the element being visited is gone from the list or still followed
    by no more elements than before. *)
Lemma rechecked_visit t key t' xs1 e w xs2 xs' :
  mempool_inv t (xs1 ++ (e, w) :: xs2) -> rechecked t key t' (xs1 ++ (e, w) :: xs2) xs' ->
  (cl_heap (tm_txs t') !! e = Some (detached w) /\ xs' = xs1 ++ xs2) \/
  (exists xs1' w' xs2', xs' = xs1' ++ (e, w') :: xs2' /\ length xs2' <= length xs2).
Proof.
  intros Hinv Hrc. inversion Hrc as [? Hk E E'|ys1 f v ys2 p Hk E E'|ys1 f v ys2 Hk Hd E E']; subst xs'; clear Hrc.
  - right. by exists xs1, w, xs2.
  - symmetry in E. apply locate in E as [(-> & [= -> ->] & ->)|[(m & -> & ->)|(m & -> & ->)]]; right.
    + by exists ys1, (SetPriority p v), ys2.
    + exists (ys1 ++ (f, SetPriority p v) :: m), w, xs2. by rewrite <- app_assoc.
    + exists xs1, w, (m ++ (f, SetPriority p v) :: ys2). rewrite <- app_assoc. split; [done|]. by rewrite !length_app.
  - symmetry in E. apply locate in E as [(-> & [= -> ->] & ->)|[(m & -> & ->)|(m & -> & ->)]].
    + by left.
    + right. exists (ys1 ++ m), w, xs2. by rewrite <- app_assoc.
    + right. exists xs1, w, (m ++ ys2). rewrite <- app_assoc. split; [done|]. rewrite !length_app. simpl. lia.
Qed.

Lemma rechecked_raw t key t' xs xs' : rechecked t key t' xs xs' -> sublist (raw <$> xs') (raw <$> xs).
Proof.
  intros [| |]; [done| |].
  - by rewrite !fmap_app, !fmap_cons.
  - rewrite !fmap_app, fmap_cons. apply sublist_app; [done|]. by apply sublist_cons.
Qed.

Lemma Next_ok t xs1 e w xs2 :
  mempool_inv t (xs1 ++ (e, w) :: xs2) -> on_txs (Next e) t = (Ok (first_of xs2 None), t).
Proof.
  intros Hinv. unfold on_txs, zoom, Next, read_elt, read, bind. rewrite (repr_elt _ _ _ _ _ (mi_repr _ _ Hinv)).
  by destruct t.
Qed.

(** What the index knows of every entry survives a recheck; only a recheck of the entry
    itself removes it. *)
Lemma rechecked_indexed t key t' xs xs' e w :
  NoDup xs.*1 -> indexed t xs -> (e, w) ∈ xs -> key = tx_key (w_tx w) -> rechecked t key t' xs xs' ->
  (indexed t' xs' /\ length xs' = length xs) \/
  (cl_heap (tm_txs t') !! e = Some (detached w) /\ length xs = S (length xs')).
Proof.
  intros Hnd Hix Hin -> Hrc. pose proof (Hix _ _ Hin) as Hek. destruct Hrc as [xs Hk|xs1 f v xs2 p Hk|xs1 f v xs2 Hk Hd].
  - left. split; [|done]. intros e' w' Hin'. rewrite Hk. by apply Hix.
  - left. split; [|by rewrite !length_app]. intros e' w' Hin'. rewrite Hk.
    apply elem_of_app in Hin' as [Hin'|[[= -> ->]|Hin']%elem_of_cons].
    + apply Hix, elem_of_app. by left.
    + apply (Hix f v), elem_of_app. right. by left.
    + apply Hix, elem_of_app. right. by right.
  - rewrite Hek in Hk. injection Hk as ->.
    assert (w = v) as ->.
    { eapply entry_unique; [exact Hnd|exact Hin|]. apply elem_of_app. right. by left. }
    right. split; [done|]. rewrite !length_app. simpl. lia.
Qed.

Lemma recheck_loop_ok fuel xs2 xs1 t :
  mempool_inv t (xs1 ++ xs2) -> length xs2 <= fuel ->
  exists t' xs', recheck_loop fuel (first_of xs2 None) t = (Ok tt, t') /\ mempool_inv t' xs' /\ shrinks t t' /\
    sublist (raw <$> xs') (raw <$> (xs1 ++ xs2)) /\
    (indexed t (xs1 ++ xs2) -> length (xs1 ++ xs2) <= S (length xs')).
Proof.
  revert xs2 xs1 t. induction fuel as [|fuel IH]; intros [|[e w] xs2] xs1 t Hinv Hf; simpl in Hf; try lia;
    [by exists t, (xs1 ++ []); split_and!; try done; lia..|].
  assert (Hin : (e, w) ∈ xs1 ++ (e, w) :: xs2) by (apply elem_of_app; right; by left).
  cbn [recheck_loop first_of]. erewrite bind_ok by (by eapply elt_wtx_inv).
  destruct (CheckTxAsync_ok (w_tx w) true t _ Hinv) as (t1 & res & ys & Hr1 & Hi1 & Hs1 & Hrc & _).
  erewrite bind_ok by exact Hr1.
  destruct (FlushSync_ok t1) as (t2 & err & Hr2 & Htxs & He2 & Hk2 & Hi2). erewrite bind_ok by exact Hr2.
  set (step := match err with Some _ => _ | None => _ end).
  assert (exists t3, step t2 = (Ok tt, t3) /\ tm_txs t3 = tm_txs t1 /\ mempool_inv t3 ys /\ shrinks t t3 /\
                     tm_txByKey t3 = tm_txByKey t1) as (t3 & Hr3 & Htxs3 & Hi3 & Hs3 & Hk3).
  { assert (shrinks t t2) by (etrans; [exact Hs1|]; split; [done|by rewrite Hk2]).
    unfold step. destruct err; (eexists; split; [reflexivity|]); [|by split_and!; auto].
    split_and!; [done|by eapply mempool_inv_frame; [apply Hi2|..]|etrans; [done|by split]|done]. }
  erewrite bind_ok by exact Hr3. pose proof (rechecked_raw _ _ _ _ _ Hrc) as Hraw.
  pose proof (mempool_inv_nodup _ _ Hinv) as Hnd.
  assert (Hrc3 : rechecked t (tx_key (w_tx w)) t3 (xs1 ++ (e, w) :: xs2) ys) by (by eapply rechecked_frame).
  destruct (rechecked_visit _ _ _ _ _ _ _ _ Hinv Hrc3) as [[Hd ->]|(ys1 & w' & ys2 & -> & Hlen)].
  - exists t3, (xs1 ++ xs2). split_and!; try done; [|intros _; rewrite !length_app; simpl; lia].
    unfold on_txs, zoom, Next, read_elt, read, bind. rewrite Hd. destruct t3, fuel; reflexivity.
  - erewrite bind_ok by (by eapply Next_ok).
    destruct (IH ys2 (ys1 ++ [(e, w')]) t3) as (t4 & zs & Hr4 & Hi4 & Hs4 & Hraw4 & Hix4);
      [by rewrite <- app_assoc|lia|]. rewrite <- app_assoc in Hraw4, Hix4. simpl in Hraw4, Hix4.
    exists t4, zs. split_and!; [done|done|by etrans|by etrans|]. intros Hix.
    destruct (rechecked_indexed _ _ _ _ _ _ _ Hnd Hix Hin eq_refl Hrc3) as [[Hix3 Hl]|[Hd Hl]].
    + specialize (Hix4 Hix3). lia.
    + rewrite (repr_elt _ _ _ _ _ (mi_repr _ _ Hi3)) in Hd. by unfold detached, live in Hd.
Qed.

Lemma recheckTransactions_ok t xs :
  mempool_inv t xs -> xs <> [] ->
  exists t' xs', recheckTransactions t = (Ok tt, t') /\ mempool_inv t' xs' /\ shrinks t t' /\
    sublist (raw <$> xs') (raw <$> xs) /\ (indexed t xs -> length xs <= S (length xs')).
Proof.
  intros Hinv Hne. unfold recheckTransactions. unfold bind at 1, get.
  rewrite (Size_inv _ _ Hinv), (TxsFront_inv _ _ Hinv), Nat2Z.id.
  destruct (Z.eqb_spec (Z.of_nat (length xs)) 0) as [E|_]; [by destruct xs|].
  unfold bind, modify. set (t0 := set_txRecheck _ t).
  destruct (recheck_loop_ok (length xs) xs [] t0) as (t1 & xs1 & Hr & Hi & Hs & Hraw & Hix);
    [by eapply mempool_inv_frame|lia|]. exists t1, xs1. split_and!; try done. etrans; [|exact Hs]. by split.
Qed.

(** ** Update *)

Lemma update_tx_ok tx res t xs :
  mempool_inv t xs ->
  exists t' xs', update_tx (tx, res) t = (Ok tt, t') /\ mempool_inv t' xs' /\ shrinks t t' /\ sublist xs' xs /\
    tm_txByKey t' !! tx_key tx = None /\
    (indexed t xs -> indexed t' xs' /\ xs' = filter (fun x => tx_key (w_tx x.2) <> tx_key tx) xs).
Proof.
  intros Hinv. unfold update_tx. unfold bind at 1, get. cbn [fst snd].
  set (step := if (dtx_Code res =? 0)%Z then _ else _).
  assert (exists t1, step t = (Ok tt, t1) /\ mempool_inv t1 xs /\ shrinks t t1 /\ tm_txByKey t1 = tm_txByKey t)
    as (t1 & Hr1 & Hi1 & Hs1 & Hk1).
  { assert (Hc : forall f, exists t1, on_cache f t = (Ok tt, t1) /\ mempool_inv t1 xs /\ shrinks t t1 /\ tm_txByKey t1 = tm_txByKey t).
    { intros f. eexists. split; [reflexivity|]. split_and!; [by eapply mempool_inv_frame|by split|done]. }
    unfold step. repeat case_match; [apply Hc|by exists t|apply Hc]. }
  erewrite bind_ok by exact Hr1. unfold bind, try.
  destruct (tm_txByKey t1 !! tx_key tx) as [e|] eqn:Ek.
  - rewrite (removeTxByKey_found _ _ _ _ Hi1 Ek). destruct (mi_key _ _ Hi1 _ _ Ek) as (w & Hin & Hkey).
    apply list_elem_of_split in Hin as (xs1 & xs2 & ->).
    destruct (removeTxByElement_ok _ _ _ _ _ Hi1) as (t2 & Hr2 & Hi2 & Hrm). rewrite Hr2.
    exists t2, (xs1 ++ xs2). pose proof (removed_shrinks _ _ _ _ Hrm). destruct Hrm. rewrite Hkey in rm_keys0.
    assert (Hsub : sublist (xs1 ++ xs2) (xs1 ++ (e, w) :: xs2)) by (apply sublist_app; [done|by apply sublist_cons]).
    split_and!; try done; [by etrans|rewrite rm_keys0; by rewrite lookup_delete_eq|].
    intros Hix.
    assert (Hother : forall e' w', (e', w') ∈ xs1 ++ xs2 -> tx_key (w_tx w') <> tx_key tx).
    { intros e' w' Hin' Heq. pose proof (mempool_inv_nodup _ _ Hi1) as Hnd.
      assert (Hin2 : (e', w') ∈ xs1 ++ (e, w) :: xs2) by (revert Hin'; rewrite !elem_of_app, elem_of_cons; tauto).
      pose proof (Hix e' w' Hin2) as E'. rewrite Heq, <- Hk1, Ek in E'. injection E' as <-.
      rewrite fmap_app, fmap_cons in Hnd. apply NoDup_app in Hnd as (_ & Hd & [Hn _]%NoDup_cons).
      apply elem_of_app in Hin' as [Hin'|Hin']; apply (list_elem_of_fmap_2 fst) in Hin'; [|by apply Hn].
      apply (Hd _ Hin'). by left. }
    split.
    + intros e' w' Hin'. rewrite rm_keys0, lookup_delete_ne by (intros E; by apply (Hother e' w')).
      rewrite Hk1. apply Hix. revert Hin'. rewrite !elem_of_app, elem_of_cons. tauto.
    + rewrite filter_app, filter_cons_False by (simpl; tauto). rewrite <- filter_app.
      symmetry. apply list_filter_all. intros [e' w'] Hin'. by apply (Hother e' w').
  - rewrite (removeTxByKey_missing _ _ Ek). exists t1, xs. split_and!; try done. intros Hix. split.
    + intros e' w' Hin'. rewrite Hk1. by apply Hix.
    + symmetry. apply list_filter_all. intros [e' w'] Hin' Heq. simpl in Heq.
      rewrite Hk1, <- Heq, (Hix _ _ Hin') in Ek. done.
Qed.

Lemma update_txs_ok l t xs :
  mempool_inv t xs ->
  exists t' xs', for_each update_tx l t = (Ok tt, t') /\ mempool_inv t' xs' /\ shrinks t t' /\ sublist xs' xs /\
    (forall tx, tx ∈ l.*1 -> tm_txByKey t' !! tx_key tx = None) /\
    (indexed t xs -> indexed t' xs' /\ xs' = filter (fun x => tx_key (w_tx x.2) ∉ (tx_key <$> l.*1)) xs).
Proof.
  revert t xs. induction l as [|[tx res] l IH]; intros t xs Hinv.
  { exists t, xs. split_and!; try done; [intros tx; csimpl; by rewrite elem_of_nil|].
    intros Hix. split; [done|]. symmetry. apply list_filter_all. intros x _. apply not_elem_of_nil. }
  cbn [for_each]. destruct (update_tx_ok tx res t xs Hinv) as (t1 & xs1 & Hr1 & Hi1 & Hs1 & Hsub1 & Hn1 & Hix1).
  erewrite bind_ok by exact Hr1. destruct (IH t1 xs1 Hi1) as (t2 & xs2 & Hr2 & Hi2 & Hs2 & Hsub2 & Hn2 & Hix2).
  exists t2, xs2. split_and!; [done|done|by etrans|by etrans| |].
  - intros tx' Hin. csimpl in Hin. apply elem_of_cons in Hin as [->|Hin]; [|by apply Hn2].
    destruct (tm_txByKey t2 !! tx_key tx) eqn:E; [|done]. destruct Hs2 as [_ Hk].
    eapply lookup_weaken in E; [|exact Hk]. congruence.
  - intros Hix. destruct (Hix1 Hix) as [Hix' ->]. destruct (Hix2 Hix') as [? ->]. split; [done|].
    rewrite list_filter_filter. apply list_filter_iff. intros x. csimpl. rewrite not_elem_of_cons. tauto.
Qed.

Lemma Update_ok h txs ress pre post t xs :
  mempool_inv t xs -> length txs = length ress ->
  exists t' xs', Update h txs ress pre post t = (Ok tt, t') /\ mempool_inv t' xs' /\
    sublist (raw <$> xs') (raw <$> xs) /\ tm_config t' = tm_config t /\ tm_height t' = h /\ tm_now t' = tm_now t /\
    tm_postCheck t' = (match post with Some f => Some f | None => tm_postCheck t end) /\
    (forall tx, tx ∈ txs -> tm_txByKey t' !! tx_key tx = None) /\
    (indexed t xs -> cfg_Recheck (tm_config t) = false ->
     xs' = filter (fun x => expired h (tm_now t) (tm_config t) x.2 = false)
                  (filter (fun x => tx_key (w_tx x.2) ∉ (tx_key <$> txs)) xs)).
Proof.
  intros Hinv Hlen. unfold Update. rewrite (proj2 (Nat.eqb_eq _ _) Hlen). cbn [negb].
  unfold bind at 1 2, modify. set (t0 := set_hooks _ _ _).
  assert (Hi0 : mempool_inv t0 xs) by (by eapply mempool_inv_frame).
  destruct (update_txs_ok (zip txs ress) t0 xs Hi0) as (t1 & xs1 & Hr1 & Hi1 & Hs1 & Hsub1 & Hn1 & Hix1).
  rewrite fst_zip in Hn1, Hix1 by lia. erewrite bind_ok by exact Hr1.
  destruct (purgeExpiredTxs_ok h t1 xs1 Hi1) as (t2 & Hr2 & Hs2 & Hi2). erewrite bind_ok by exact Hr2.
  set (xs2 := filter _ xs1) in Hi2.
  assert (Hraw2 : sublist (raw <$> xs2) (raw <$> xs)).
  { apply fmap_sublist. etrans; [apply sublist_filter|done]. }
  assert (Hs12 : shrinks t0 t2) by (by etrans).
  assert (Hcfg : tm_config t2 = tm_config t) by (by destruct Hs12 as [[] _]).
  assert (Hfin : forall t' xs', mempool_inv t' xs' -> shrinks t2 t' -> sublist (raw <$> xs') (raw <$> xs2) ->
    mempool_inv t' xs' /\ sublist (raw <$> xs') (raw <$> xs) /\ tm_config t' = tm_config t /\ tm_height t' = h /\
    tm_now t' = tm_now t /\ tm_postCheck t' = (match post with Some f => Some f | None => tm_postCheck t end) /\
    (forall tx, tx ∈ txs -> tm_txByKey t' !! tx_key tx = None)).
  { intros t' xs' Hi' Hs' Hraw'. assert (Hs : shrinks t0 t') by (by etrans). destruct Hs as [[? [_ ?] ? ?] _].
    split_and!; try done; [by etrans|]. intros tx Htx.
    destruct (tm_txByKey t' !! tx_key tx) eqn:E; [|done]. assert (Hs'' : shrinks t1 t') by (by etrans).
    destruct Hs'' as [_ Hk]. eapply lookup_weaken in E; [|exact Hk]. rewrite Hn1 in E by done. done. }
  assert (Hexact : indexed t xs -> xs2 = filter (fun x => expired h (tm_now t) (tm_config t) x.2 = false)
                  (filter (fun x => tx_key (w_tx x.2) ∉ (tx_key <$> txs)) xs)).
  { intros Hix. destruct (Hix1 Hix) as [_ <-]. destruct Hs1 as [[Ec _ _ En] _]. unfold xs2. by rewrite Ec, En. }
  unfold bind at 1, get. rewrite (Size_inv _ _ Hi2), Hcfg.
  destruct (Z.ltb_spec 0 (Z.of_nat (length xs2))) as [Hpos|Hz].
  - destruct (cfg_Recheck (tm_config t)) eqn:Erc.
    + destruct (recheckTransactions_ok t2 xs2 Hi2) as (t3 & xs3 & Hr3 & Hi3 & Hs3 & Hraw3 & _); [by destruct xs2|].
      exists t3, xs3. destruct (Hfin t3 xs3) as (?&?&?&?&?&?&?); [done..|]. by split_and!.
    + destruct (notify_frame t2) as (He & Hk & _ & Hi'). exists (notifyTxsAvailable t2), xs2.
      destruct (Hfin (notifyTxsAvailable t2) xs2) as (?&?&?&?&?&?&?); [by apply Hi'|split; [done|by rewrite Hk]|done|].
      split_and!; try done. auto.
  - exists t2, xs2. destruct (Hfin t2 xs2) as (?&?&?&?&?&?&?); [done..|]. split_and!; try done. auto.
Qed.

(** ** CheckTx *)

Lemma checkTx_admit_ok tx id t xs :
  mempool_inv t xs ->
  exists t' r xs', checkTx_admit tx id t = (Ok r, t') /\ mempool_inv t' xs' /\ same_env t t' /\ raw <$> xs' = raw <$> xs /\
    (forall h, r = inr h -> (Z.of_nat (length tx) <= cfg_MaxTxBytes (tm_config t))%Z /\ h = tm_height t).
Proof.
  intros Hinv. unfold checkTx_admit. unfold bind at 1, get.
  case_match; [by eexists t, _, xs; split_and!|].
  case_match; [by eexists t, _, xs; split_and!|].
  destruct (conn_Error (tm_conn t)); [by eexists t, _, xs; split_and!|].
  destruct (cache_Push tx (tm_cache t)) as [pushed c]. unfold bind at 1, modify. set (t0 := set_cache c t).
  assert (Hi0 : mempool_inv t0 xs) by (by eapply mempool_inv_frame).
  destruct pushed; simpl.
  - eexists t0, _, xs. split_and!; [reflexivity|done|by split|done|]. intros h' [= <-]. split; [lia|done].
  - destruct (tm_txByKey t !! tx_key tx) as [e|] eqn:Ek; [|by eexists t0, _, xs; split_and!].
    destruct (mi_key _ _ Hinv _ _ Ek) as (w & (xs1 & xs2 & ->)%list_elem_of_split & _).
    destruct (SetValue_ok t0 xs1 e w xs2 (SetPeer id)) as (t1 & Hr & Hi & [Hs _] & _); [done..|].
    erewrite bind_ok by exact Hr. eexists t1, _, _. split_and!; [reflexivity|exact Hi|etrans; [|exact Hs]; by split| |done].
    by rewrite !fmap_app.
Qed.

(** The outcome of [CheckTx] on the entries: what was there, less what a pending recheck
    removed, and, when the transaction was accepted, the transaction in place of what was
    evicted for it. *)
Lemma CheckTx_ok tx id t xs :
  cfg_ok (tm_config t) -> mempool_inv t xs -> fits (tm_config t) xs ->
  exists t' r xs', CheckTx tx id t = (Ok r, t') /\ mempool_inv t' xs' /\ fits (tm_config t) xs' /\ same_env t t' /\
    exists xs0, sublist (raw <$> xs0) (raw <$> xs) /\
      (xs' = xs0 \/ exists w evicted, w_tx w = tx /\ inserted w xs0 xs' evicted).
Proof.
  intros Hc Hinv Hf. unfold CheckTx.
  destruct (checkTx_admit_ok tx id t xs Hinv) as (t1 & r & xs1 & Hr1 & Hi1 & He1 & Hraw1 & Hh).
  erewrite bind_ok by exact Hr1.
  assert (Hf1 : fits (tm_config t) xs1) by (eapply fits_raw; [|exact Hf]; by rewrite Hraw1).
  destruct r as [e|h].
  { eexists t1, _, xs1. split_and!; [reflexivity|done..|]. exists xs1. rewrite Hraw1. auto. }
  destruct (Hh h eq_refl) as [Hlen ->].
  destruct (CheckTxAsync_ok tx false t1 xs1 Hi1) as (t2 & res & xs2 & Hr2 & Hi2 & Hs2 & Hrc & _).
  erewrite bind_ok by exact Hr2. destruct (FlushSync_ok t2) as (t3 & err & Hr3 & _ & He3 & _ & Hi3).
  erewrite bind_ok by exact Hr3. specialize (Hi3 _ Hi2).
  assert (He : same_env t t3) by (destruct Hs2; etrans; [exact He1|]; by etrans).
  pose proof (rechecked_raw _ _ _ _ _ Hrc) as Hraw2. rewrite Hraw1 in Hraw2.
  assert (Hf2 : fits (tm_config t) xs2) by (by eapply fits_raw).
  destruct err as [e|].
  { eexists t3, _, xs2. split_and!; [reflexivity|done..|]. exists xs2. auto. }
  unfold bind at 1, get. set (w := {| w_tx := tx |}).
  pose proof (se_config _ _ He) as Ecfg.
  destruct (initialTxCallback_ok w res t3 xs2) as (t4 & res' & xs4 & Hr4 & He4 & Hi4 & Hf4 & Hcase); rewrite ?Ecfg; try done.
  erewrite bind_ok by exact Hr4. rewrite Ecfg in Hf4. eexists t4, _, xs4.
  split_and!; [reflexivity|done|done|by etrans|]. exists xs2. split; [done|].
  destruct Hcase as [->|(_ & ev & Hins & _)]; [by left|]. right. by exists (accepted_tx w res), ev.
Qed.
End Inv.
