(* ===== verification/MempoolSpec.v ===== *)
(** * MempoolSpec: what the mempool promises

    Safety of every sequence of operations, capacity, fair eviction, reaping within
    limits and in order of priority, the update after a block, and the mempool as the
    executor's mempool; also a behaviour found while modelling: a recheck that stops at
    the first transaction it removes. *)
From stdpp Require Import base gmap strings vector sorting numbers list.
From S2P Require Import Prelude Types TxCache CList Mempool MempoolInv Conv Executor.

(** ** A sort and an application for concrete runs *)

Fixpoint insert_by {A} (less : A -> A -> bool) (x : A) (l : list A) : list A :=
  match l with
  | [] => [x]
  | y :: l => if less y x then y :: insert_by less x l else x :: y :: l
  end.

Definition insertion_order : GoOrder :=
  {| sort_Slice A less l := foldr (insert_by less) [] l; range_order A l := l |}.

Lemma insert_by_perm {A} (less : A -> A -> bool) x l : insert_by less x l ≡ₚ x :: l.
Proof. induction l as [|y l IH]; [done|]. simpl. destruct (less y x); [|done]. rewrite IH. constructor. Qed.

Lemma insert_by_sorted {A} (less : A -> A -> bool) x l :
  weak_order less -> StronglySorted (fun x y => less y x = false) l ->
  StronglySorted (fun x y => less y x = false) (insert_by less x l).
Proof.
  intros Hwo Hs. induction Hs as [|y l Hs IH Hall]; simpl; [by repeat constructor|].
  destruct (less y x) eqn:E.
  - constructor; [done|]. rewrite insert_by_perm. constructor; [|done].
    destruct (less x y) eqn:E'; [|done]. pose proof (wo_trans _ Hwo _ _ _ E E') as Ht.
    by rewrite (wo_irrefl _ Hwo) in Ht.
  - constructor; [by constructor|]. constructor; [done|]. eapply Forall_impl; [exact Hall|].
    intros z Hz. by eapply (wo_negtrans _ Hwo z y x).
Qed.

#[global] Instance insertion_laws : GoOrderLaws insertion_order.
Proof.
  split; simpl; [| |done].
  - intros A less l. induction l as [|x l IH]; [done|]. simpl. by rewrite insert_by_perm, IH.
  - intros A less l Hwo. induction l as [|x l IH]; simpl; [constructor|]. by apply insert_by_sorted.
Qed.

Section Spec.
Context {TT : TmTx} {TC : TxCache} {AC : AppConnMempool} {GO : GoOrder} `{!GoOrderLaws GO}.

(** ** Runs of the mempool *)

Inductive mempoolop :=
| OpCheckTx (tx : Tx) (sender : Z)
| OpUpdate (h : Z) (txs : list Tx) (ress : list ResponseDeliverTx) (pre : option PreCheckFunc) (post : option PostCheckFunc)
| OpRemove (key : hash32)
| OpFlush
| OpEnableTxsAvailable
| OpTime (now : Z).

Definition mempool_step (o : mempoolop) : M TxMempool unit :=
  match o with
  | OpCheckTx tx id => do! CheckTx tx id in ret tt
  | OpUpdate h txs ress pre post => Update h txs ress pre post
  | OpRemove key => do! try (RemoveTxByKey key) in ret tt
  | OpFlush => Flush
  | OpEnableTxsAvailable => modify EnableTxsAvailable
  | OpTime now => modify (set_now now)
  end.

(** An update has one response per transaction. *)
Definition op_ok (o : mempoolop) : Prop :=
  match o with OpUpdate _ txs ress _ _ => length txs = length ress | _ => True end.

(** The states a mempool goes through. *)
Inductive mempool_reach (t0 : TxMempool) : TxMempool -> Prop :=
| reach_init : mempool_reach t0 t0
| reach_step t o r t' : mempool_reach t0 t -> op_ok o -> mempool_step o t = (r, t') -> mempool_reach t0 t'.

Lemma mk_mempool_inv cfg conn c h now : mempool_inv (mk_mempool cfg conn c h now) [].
Proof.
  split; simpl; [apply repr_new|done| | |done].
  - intros k e. by rewrite lookup_empty.
  - intros k e. by rewrite lookup_empty.
Qed.

Lemma mempool_step_ok o t xs :
  cfg_ok (tm_config t) -> op_ok o -> mempool_inv t xs -> fits (tm_config t) xs ->
  exists t' xs', mempool_step o t = (Ok tt, t') /\ mempool_inv t' xs' /\ fits (tm_config t') xs' /\ tm_config t' = tm_config t.
Proof.
  intros Hc Ho Hinv Hf. destruct o as [tx id|h txs ress pre post|key| | |now]; simpl in *.
  - destruct (CheckTx_ok tx id t xs Hc Hinv Hf) as (t' & r & xs' & Hr & Hi & Hf' & He & _).
    erewrite bind_ok by exact Hr. destruct He as [E _ _ _]. exists t', xs'. rewrite E. by split_and!.
  - destruct (Update_ok h txs ress pre post t xs Hinv Ho) as (t' & xs' & Hr & Hi & Hraw & E & _).
    exists t', xs'. rewrite E. split_and!; try done. by eapply fits_raw.
  - unfold RemoveTxByKey, bind, try. destruct (tm_txByKey t !! key) as [e|] eqn:Ek.
    + rewrite (removeTxByKey_found _ _ _ _ Hinv Ek).
      destruct (mi_key _ _ Hinv _ _ Ek) as (w & (xs1 & xs2 & ->)%list_elem_of_split & _).
      destruct (removeTxByElement_ok _ _ _ _ _ Hinv) as (t' & Hr & Hi & [[E _ _ _]]). rewrite Hr.
      exists t', (xs1 ++ xs2). rewrite E. split_and!; try done. eapply fits_sublist; [|exact Hf].
      apply sublist_app; [done|by apply sublist_cons].
    + rewrite (removeTxByKey_missing _ _ Ek). by exists t, xs.
  - destruct (Flush_ok t xs Hinv) as (t' & Hr & Hi & [[E _ _ _] _] & _). exists t', []. rewrite E.
    split_and!; try done. destruct Hc. split; cbn; lia.
  - eexists _, xs. split; [reflexivity|]. split_and!; try done. by eapply mempool_inv_frame.
  - eexists _, xs. split; [reflexivity|]. split_and!; try done. by eapply mempool_inv_frame.
Qed.

Lemma mempool_reach_inv cfg conn c h now t :
  cfg_ok cfg -> mempool_reach (mk_mempool cfg conn c h now) t ->
  exists xs, mempool_inv t xs /\ fits (tm_config t) xs /\ tm_config t = cfg.
Proof.
  intros Hc Hr. induction Hr as [|t o r t' Hr IH Ho Hstep].
  - exists []. split_and!; [apply mk_mempool_inv| |done]. destruct Hc. split; cbn; lia.
  - destruct IH as (xs & Hi & Hf & E). destruct (mempool_step_ok o t xs) as (t1 & xs1 & Hs & Hi1 & Hf1 & E1); rewrite ?E; try done.
    + by rewrite <- E.
    + rewrite Hs in Hstep. injection Hstep as <- <-. exists xs1. split_and!; try done. congruence.
Qed.

(** The counters and the limits. *)
Lemma mempool_within cfg t xs :
  cfg_ok cfg -> mempool_inv t xs -> fits cfg xs ->
  walk (Z.to_nat (Size t)) (TxsFront t) (tm_txs t) = Some xs /\ Size t = Z.of_nat (length xs) /\ (Size t <= cfg_Size cfg)%Z /\
  SizeBytes t = total xs /\ (SizeBytes t <= cfg_MaxTxsBytes cfg)%Z.
Proof.
  intros Hc Hi [Hf1 Hf2]. pose proof (Size_inv _ _ Hi) as Hs. assert (Hb : SizeBytes t = total xs).
  { unfold SizeBytes. rewrite (mi_bytes _ _ Hi). apply i64_small. destruct Hc. pose proof (total_nonneg xs). unfold is_i64. lia. }
  split_and!; [by apply walk_inv|done|lia|done|lia].
Qed.

(** Whatever sequence of [CheckTx], [Update], [RemoveTxByKey], [Flush] and passing of
    time a new mempool goes through, with any answers of the application, it never holds
    more transactions or bytes than it is configured for, its counters are the number and
    the total size of the transactions in its list, the two indexes only point to
    transactions of the list with that key or sender, and no further operation panics. *)
Theorem mempool_safe cfg conn c h now t :
  cfg_ok cfg -> mempool_reach (mk_mempool cfg conn c h now) t ->
  exists xs, walk (Z.to_nat (Size t)) (TxsFront t) (tm_txs t) = Some xs /\
    Size t = Z.of_nat (length xs) /\ (Size t <= cfg_Size cfg)%Z /\
    SizeBytes t = total xs /\ (SizeBytes t <= cfg_MaxTxsBytes cfg)%Z /\
    (forall k e, tm_txByKey t !! k = Some e -> exists w, (e, w) ∈ xs /\ tx_key (w_tx w) = k) /\
    (forall s e, tm_txBySender t !! s = Some e -> exists w, (e, w) ∈ xs /\ w_sender w = s) /\
    (forall o, op_ok o -> exists t', mempool_step o t = (Ok tt, t')).
Proof.
  intros Hc Hr. destruct (mempool_reach_inv _ _ _ _ _ _ Hc Hr) as (xs & Hi & Hf & E). exists xs.
  rewrite <- E in Hc. destruct (mempool_within _ t xs Hc Hi Hf) as (Hw & Hs & Hs' & Hb & Hb'). rewrite E in Hs', Hb'.
  split_and!; [done..|apply (mi_key _ _ Hi)|apply (mi_sender _ _ Hi)|].
  intros o Ho. destruct (mempool_step_ok o t xs) as (t' & _ & Hst & _); [done..|]. eauto.
Qed.


(** ** Reaping *)

Definition gas_of (ws : list WrappedTx) : Z := foldr (fun w b => w_gasWanted w + b)%Z 0%Z ws.
Definition proto_bytes (txs : list Tx) : Z := foldr (fun tx b => tx_proto_size tx + b)%Z 0%Z txs.

Lemma reap_loop_spec mb mg ws tb tg :
  (forall w, w ∈ ws -> 0 <= w_gasWanted w /\ 0 <= tx_proto_size (w_tx w))%Z ->
  (0 <= tb)%Z -> (0 <= tg)%Z -> (tb + proto_bytes (w_tx <$> ws) < 2 ^ 63)%Z -> (tg + gas_of ws < 2 ^ 63)%Z ->
  (0 <= mb -> tb <= mb)%Z -> (0 <= mg -> tg <= mg)%Z ->
  exists ws1 ws2, ws = ws1 ++ ws2 /\ reap_loop mb mg tb tg ws = w_tx <$> ws1 /\
    (0 <= mb -> tb + proto_bytes (w_tx <$> ws1) <= mb)%Z /\ (0 <= mg -> tg + gas_of ws1 <= mg)%Z /\
    match ws2 with
    | [] => True
    | w :: _ => (0 <= mg < tg + gas_of ws1 + w_gasWanted w)%Z \/
                (0 <= mb < tb + proto_bytes (w_tx <$> ws1) + tx_proto_size (w_tx w))%Z
    end.
Proof.
  revert tb tg. induction ws as [|w ws IH]; intros tb tg Hpos Htb Htg Hb Hg Hmb Hmg.
  { exists [], []. cbn. split_and!; try done; lia. }
  destruct (Hpos w ltac:(by left)) as [Hw1 Hw2].
  assert (Hnn : (0 <= proto_bytes (w_tx <$> ws) /\ 0 <= gas_of ws)%Z).
  { assert (Hp : forall w, w ∈ ws -> (0 <= w_gasWanted w /\ 0 <= tx_proto_size (w_tx w))%Z) by (intros; apply Hpos; by right).
    clear -Hp. induction ws as [|w ws IH]; cbn; [lia|]. destruct (Hp w ltac:(by left)).
    destruct IH; [intros; apply Hp; by right|]. unfold proto_bytes, gas_of in *. lia. }
  cbn [fmap list_fmap proto_bytes gas_of foldr] in Hb, Hg. fold (proto_bytes (w_tx <$> ws)) in Hb. fold (gas_of ws) in Hg.
  cbn [reap_loop]. rewrite !i64_small by (unfold is_i64; lia).
  destruct (((0 <=? mg) && (mg <? tg + w_gasWanted w) || (0 <=? mb) && (mb <? tb + tx_proto_size (w_tx w)))%Z) eqn:E.
  - exists [], (w :: ws). cbn. split_and!; try done; lia.
  - destruct (IH (tb + tx_proto_size (w_tx w))%Z (tg + w_gasWanted w)%Z) as (ws1 & ws2 & -> & Hr & H1 & H2 & H3);
      try lia; [intros; apply Hpos; by right|].
    exists (w :: ws1), ws2. cbn [fmap list_fmap app proto_bytes gas_of foldr].
    fold (proto_bytes (w_tx <$> ws1)) (gas_of ws1). split; [done|]. split; [by rewrite Hr|].
    split; [lia|]. split; [lia|]. destruct ws2; [done|]. lia.
Qed.

Lemma reap_less_order : weak_order reap_less.
Proof.
  split; unfold reap_less; intros.
  - rewrite Z.eqb_refl. apply Z.ltb_irrefl.
  - repeat case_match; lia.
  - repeat case_match; lia.
Qed.

Lemma allEntries_perm t xs : mempool_inv t xs -> indexed t xs -> allEntries t ≡ₚ xs.*2.
Proof.
  intros Hi Hix. unfold allEntries. rewrite range_perm.
  assert (Hnd : NoDup xs.*1) by (by eapply mempool_inv_nodup).
  rewrite (NoDup_Permutation (map_to_list (tm_txByKey t)) ((fun x => (tx_key (w_tx x.2), x.1)) <$> xs)).
  - assert (Hall : forall e w, (e, w) ∈ xs -> exists x, cl_heap (tm_txs t) !! e = Some x /\ ce_Value x = w).
    { intros e w. by apply repr_lookup, (mi_repr _ _ Hi). }
    clear -Hall. induction xs as [|[e w] xs IH]; [done|]. csimpl. destruct (Hall e w ltac:(by left)) as (x & Hx & Hv).
    rewrite Hx. simpl. rewrite Hv, IH; [done|]. intros e' w' Hin. apply Hall. by right.
  - apply NoDup_map_to_list.
  - apply (NoDup_fmap_1 snd). rewrite <- list_fmap_compose. exact Hnd.
  - intros [k e]. rewrite elem_of_map_to_list, list_elem_of_fmap. split.
    + intros (w & Hin & <-)%(mi_key _ _ Hi). by exists (e, w).
    + intros ([e' w] & [= -> ->] & Hin). by apply Hix.
Qed.

(** The order of reaping: higher priority first, the earlier first among equals. *)
Definition reap_before (w w' : WrappedTx) : Prop :=
  (w_priority w' <= w_priority w)%Z /\ (w_priority w' = w_priority w -> (w_timestamp w <= w_timestamp w')%Z).

(** The entries' gas and encoded sizes are not negative, and their sums fit in 64 bits. *)
Record reapable (ws : list WrappedTx) : Prop := {
  ra_pos w : w ∈ ws -> (0 <= w_gasWanted w /\ 0 <= tx_proto_size (w_tx w))%Z;
  ra_bytes : (proto_bytes (w_tx <$> ws) < 2 ^ 63)%Z;
  ra_gas : (gas_of ws < 2 ^ 63)%Z;
}.

#[global] Instance proto_bytes_perm : Proper ((≡ₚ) ==> (=)) proto_bytes.
Proof. intros l l' H. induction H; cbn; [done|unfold proto_bytes in *; lia|unfold proto_bytes in *; lia|congruence]. Qed.
#[global] Instance gas_of_perm : Proper ((≡ₚ) ==> (=)) gas_of.
Proof. intros l l' H. induction H; cbn; [done|unfold gas_of in *; lia|unfold gas_of in *; lia|congruence]. Qed.

Lemma reap_spec mb mg t xs :
  mempool_inv t xs -> indexed t xs -> reapable xs.*2 ->
  exists ws1 ws2, ReapMaxBytesMaxGas mb mg t = w_tx <$> ws1 /\ ws1 ++ ws2 ≡ₚ xs.*2 /\
    StronglySorted reap_before (ws1 ++ ws2) /\
    (0 <= mb -> proto_bytes (w_tx <$> ws1) <= mb)%Z /\ (0 <= mg -> gas_of ws1 <= mg)%Z /\
    match ws2 with
    | [] => True
    | w :: _ => (0 <= mg < gas_of ws1 + w_gasWanted w)%Z \/
                (0 <= mb < proto_bytes (w_tx <$> ws1) + tx_proto_size (w_tx w))%Z
    end.
Proof.
  intros Hi Hix [Hpos Hb Hg].
  assert (Hp : allEntriesSorted t ≡ₚ xs.*2) by (unfold allEntriesSorted; rewrite sort_perm; by apply allEntries_perm).
  destruct (reap_loop_spec mb mg (allEntriesSorted t) 0 0) as (ws1 & ws2 & E & Hr & H1 & H2 & H3); try done.
  { intros w Hw. rewrite Hp in Hw. by apply Hpos. }
  { by rewrite Hp. }
  { by rewrite Hp. }
  exists ws1, ws2. split; [done|]. rewrite <- E. split; [done|]. split; [|split_and!; try done].
  eapply StronglySorted_mono; [|apply (sort_sorted reap_less), reap_less_order].
  intros w w'. unfold reap_less, reap_before. destruct (w_priority w' =? w_priority w)%Z eqn:Ep; intros Hl; split; lia.
Qed.

(** C25: reaping returns the transactions of highest priority, the earlier first among
    equals, as long as their encoded sizes and their gas stay within the limits that are
    not negative, and stops only at a transaction that would exceed one. *)
Theorem reap_within_limits mb mg t xs :
  mempool_inv t xs -> indexed t xs -> reapable xs.*2 ->
  exists ws1 ws2, ReapMaxBytesMaxGas mb mg t = w_tx <$> ws1 /\ ws1 ++ ws2 ≡ₚ xs.*2 /\
    StronglySorted reap_before (ws1 ++ ws2) /\
    (0 <= mb -> proto_bytes (w_tx <$> ws1) <= mb)%Z /\ (0 <= mg -> gas_of ws1 <= mg)%Z /\
    match ws2 with
    | [] => True
    | w :: _ => (0 <= mg < gas_of ws1 + w_gasWanted w)%Z \/
                (0 <= mb < proto_bytes (w_tx <$> ws1) + tx_proto_size (w_tx w))%Z
    end.
Proof. apply reap_spec. Qed.

Lemma reap_loop_elem mb mg tb tg ws tx : tx ∈ reap_loop mb mg tb tg ws -> exists w, w ∈ ws /\ w_tx w = tx.
Proof.
  revert tb tg. induction ws as [|w ws IH]; intros tb tg; cbn [reap_loop]; [by rewrite elem_of_nil|].
  case_match; [by rewrite elem_of_nil|]. rewrite elem_of_cons. intros [->|Hin].
  - exists w. split; [by left|done].
  - apply IH in Hin as (w' & ? & ?). exists w'. split; [by right|done].
Qed.

(** A reaped transaction is found by its key. *)
Lemma reap_indexed mb mg t xs tx :
  mempool_inv t xs -> tx ∈ ReapMaxBytesMaxGas mb mg t -> is_Some (tm_txByKey t !! tx_key tx).
Proof.
  intros Hi (w & Hw & <-)%reap_loop_elem. unfold allEntriesSorted, allEntries in Hw. rewrite sort_perm, range_perm in Hw.
  apply list_elem_of_omap in Hw as ([k e] & Hke & Hv). apply elem_of_map_to_list in Hke. simpl in Hv.
  destruct (mi_key _ _ Hi _ _ Hke) as (w' & Hin & Hk). destruct (repr_lookup _ _ _ _ (mi_repr _ _ Hi) Hin) as (x & Hx & <-).
  rewrite Hx in Hv. simpl in Hv. injection Hv as <-. rewrite Hk. eauto.
Qed.

(** An update with one response per transaction removes the block's transactions,
    whether they succeeded or not, and sets the height; without rechecks, what remains is
    exactly the other transactions that have not expired, in the order they had. *)
Theorem update_removes_block_txs h txs ress pre post t xs :
  mempool_inv t xs -> indexed t xs -> cfg_Recheck (tm_config t) = false -> length txs = length ress ->
  exists t' xs', Update h txs ress pre post t = (Ok tt, t') /\ mempool_inv t' xs' /\ tm_height t' = h /\
    (forall tx, tx ∈ txs -> tm_txByKey t' !! tx_key tx = None) /\
    xs' = filter (fun x => expired h (tm_now t) (tm_config t) x.2 = false)
                 (filter (fun x => tx_key (w_tx x.2) ∉ (tx_key <$> txs)) xs).
Proof.
  intros Hi Hix Hrc Hl.
  destruct (Update_ok h txs ress pre post t xs Hi Hl) as (t' & xs' & Hr & Hi' & _ & _ & Hh & _ & _ & Hn & Hex).
  exists t', xs'. split_and!; try done. by apply Hex.
Qed.

(** A recheck of all transactions removes at most one of them, however many the
    application now rejects: removing the transaction it is at ends the traversal. *)
Theorem recheck_removes_at_most_one t xs :
  mempool_inv t xs -> indexed t xs -> xs <> [] ->
  exists t' xs', recheckTransactions t = (Ok tt, t') /\ mempool_inv t' xs' /\ length xs <= S (length xs').
Proof.
  intros Hi Hix Hne. destruct (recheckTransactions_ok t xs Hi Hne) as (t' & xs' & Hr & Hi' & _ & _ & Hl).
  exists t', xs'. split_and!; try done. auto.
Qed.

(** ** The executor's mempool *)

Definition NodeMempool : MempoolI := {|
  mempool := TxMempool;
  mp_ReapMaxBytesMaxGas := ReapMaxBytesMaxGas;
  mp_FlushAppConn := FlushAppConn;
  mp_Update h txs ress maxBytes maxGas :=
    Update h txs ress (Some (PreCheckMaxBytes maxBytes)) (Some (PostCheckMaxGas maxGas));
|}.
End Spec.

Section Node.
Context {T : Tendermint} {TV : TmValidators} {A : App} {EB : EventBus}.
Context {TT : TmTx} {TC : TxCache} {AC : AppConnMempool} {GO : GoOrder} `{!GoOrderLaws GO}.
#[local] Existing Instance NodeMempool.

(** The transactions of a block the node creates from its mempool take no more
    encoded bytes than the consensus parameters allow. *)
Theorem created_block_within_limits e height lastCommit lastHash (state : State) now (t : TxMempool) xs :
  mempool_inv t xs -> indexed t xs -> reapable xs.*2 -> (0 <= cp_Block_MaxBytes (st_ConsensusParams state))%Z ->
  (proto_bytes (data_Txs (blk_Data (CreateBlock e height lastCommit lastHash state now t)))
   <= cp_Block_MaxBytes (st_ConsensusParams state))%Z.
Proof.
  intros Hi Hix Hra Hmb. simpl. unfold toDymintTxs.
  destruct (reap_spec (cp_Block_MaxBytes (st_ConsensusParams state)) (cp_Block_MaxGas (st_ConsensusParams state)) t xs Hi Hix Hra)
    as (ws1 & ws2 & -> & _ & _ & H & _). by apply H.
Qed.

End Node.
