(* ===== verification/PeerIDs.v ===== *)
(** * PeerIDs: short identifiers of peers, and the validation of gossiped transactions

    Models node/mempool/mempool.go ([MempoolIDs]) and the transaction validator of
    p2p/validator.go, which passes a gossiped transaction to the mempool under the
    identifier of its sender. *)
From stdpp Require Import base gmap strings vector sorting numbers list.
From S2P Require Import Prelude Types TxCache CList Mempool MempoolInv Gossip.

(** ** MempoolIDs *)

Record MempoolIDs := {
  ids_peerMap : gmap bytes Z;
  ids_nextID : Z;           (* uint16 *)
  ids_activeIDs : gset Z;
}.

Definition maxActiveIDs : nat := Z.to_nat 65535.

Definition NewMempoolIDs : MempoolIDs := {| ids_peerMap := ∅; ids_nextID := 1; ids_activeIDs := {[0%Z]} |}.

(** The loop that skips active identifiers; it visits at most one more identifier than
    there are active ones. *)
Fixpoint skip_active (fuel : nat) (nextID : Z) (active : gset Z) : option Z :=
  if bool_decide (nextID ∈ active) then
    match fuel with
    | O => None
    | S fuel => skip_active fuel (u16 (nextID + 1)) active
    end
  else Some nextID.

Definition nextPeerID : M MempoolIDs Z :=
  let! ids := get in
  if (size (ids_activeIDs ids) =? maxActiveIDs)%nat
  then panic "node has maximum active IDs and wanted to get one more"
  else
    let! curID := lift (deref (skip_active (size (ids_activeIDs ids)) (ids_nextID ids) (ids_activeIDs ids))) in
    do! put {| ids_peerMap := ids_peerMap ids; ids_nextID := u16 (curID + 1); ids_activeIDs := ids_activeIDs ids |} in
    ret curID.

Definition assign (peer : bytes) (curID : Z) (ids : MempoolIDs) : MempoolIDs :=
  {| ids_peerMap := <[peer := curID]> (ids_peerMap ids); ids_nextID := ids_nextID ids;
     ids_activeIDs := {[curID]} ∪ ids_activeIDs ids |}.

Definition ReserveForPeer (peer : bytes) : M MempoolIDs unit :=
  let! curID := nextPeerID in
  modify (assign peer curID).

Definition Reclaim (peer : bytes) : M MempoolIDs unit :=
  modify (fun ids =>
    match ids_peerMap ids !! peer with
    | Some removedID =>
        {| ids_peerMap := delete peer (ids_peerMap ids); ids_nextID := ids_nextID ids;
           ids_activeIDs := ids_activeIDs ids ∖ {[removedID]} |}
    | None => ids end).

Definition GetForPeer (peer : bytes) : M MempoolIDs Z :=
  let! ids := get in
  match ids_peerMap ids !! peer with
  | Some id => ret id
  | None =>
      let! id := nextPeerID in
      do! modify (assign peer id) in
      ret id
  end.

(** ** The transaction validator *)

(** A verdict on a message, or no verdict: the validator waits for a response that
    nobody will send. *)
Inductive Verdict := Accepted | Rejected | Blocked.

(** [errors.Is] on the values [CheckTx] returns: none of them wraps another. *)
Definition errors_Is (err target : CheckTxError) : bool := bool_decide (err = target).

Section TxValidator.
Context {TT : TmTx} {TC : TxCache} {AC : AppConnMempool} {GO : GoOrder}.

Definition TxValidator (txMessage : GossipMessage) : M (MempoolIDs * TxMempool) Verdict :=
  let! id := zoom fst (fun i s => (i, s.2)) (GetForPeer (gm_From txMessage)) in
  let! r := zoom snd (fun t s => (s.1, t)) (CheckTx (gm_Data txMessage) id) in
  match r with
  | inl err =>
      if errors_Is err ErrTxInCache then ret Accepted
      else if errors_Is err (ErrMempoolIsFull 0 0 0 0) then ret Accepted
      else if errors_Is err (ErrTxTooLarge 0 0) then ret Rejected
      else if errors_Is err (ErrPreCheck None) then ret Rejected
      else ret Blocked
  | inr checkTxResp => ret (if (rct_Code checkTxResp =? 0)%Z then Accepted else Rejected)
  end.

(** A gossiped transaction that is larger than the mempool's limit, or that the
    pre-check refuses, is never rejected: the validator compares the error with an error
    of zero fields, which it never equals, and then waits for a response of the
    application, which was not asked. *)
Theorem refused_tx_blocks_validator (msg : GossipMessage) (ids ids' : MempoolIDs) (t : TxMempool) id :
  GetForPeer (gm_From msg) ids = (Ok id, ids') ->
  (0 <= cfg_MaxTxBytes (tm_config t))%Z ->
  (cfg_MaxTxBytes (tm_config t) < Z.of_nat (length (gm_Data msg)))%Z \/
  (exists f e, tm_preCheck t = Some f /\ f (gm_Data msg) = Some e) ->
  TxValidator msg (ids, t) = (Ok Blocked, (ids', t)).
Proof.
  intros Hget Hmax Hbad. unfold TxValidator. unfold zoom at 1, bind at 1. cbn [fst]. rewrite Hget. cbn [snd].
  assert (exists err, CheckTx (gm_Data msg) id t = (Ok (inl err), t) /\
                      ((exists a b, err = ErrTxTooLarge a b /\ (a < b)%Z) \/ exists e, err = ErrPreCheck (Some e)))
    as (err & Hc & He).
  { unfold CheckTx, checkTx_admit. unfold bind at 1 2, get.
    destruct (Z.ltb_spec (cfg_MaxTxBytes (tm_config t)) (Z.of_nat (length (gm_Data msg)))) as [Hlt|Hge].
    - eexists. split; [reflexivity|]. left. by eexists _, _.
    - destruct Hbad as [|(f & e & Hf & Hfe)]; [lia|]. rewrite Hf, Hfe. eexists. split; [reflexivity|]. right. by exists e. }
  unfold zoom, bind. cbn [snd fst]. rewrite Hc. unfold errors_Is.
  destruct He as [(a & b & -> & Hab)|(e & ->)]; rewrite !bool_decide_eq_false_2; try done. intros [= -> ->]. lia.
Qed.
End TxValidator.

(** ** Identifiers stay unique *)

Record ids_inv (ids : MempoolIDs) : Prop := {
  ii_next : (0 <= ids_nextID ids < 2 ^ 16)%Z;
  ii_zero : 0%Z ∈ ids_activeIDs ids;
  ii_range i : i ∈ ids_activeIDs ids -> (0 <= i < 2 ^ 16)%Z;
  ii_active p i : ids_peerMap ids !! p = Some i -> i ∈ ids_activeIDs ids /\ i <> 0%Z;
  ii_unique p q i : ids_peerMap ids !! p = Some i -> ids_peerMap ids !! q = Some i -> p = q;
}.

Lemma NewMempoolIDs_inv : ids_inv NewMempoolIDs.
Proof. split; simpl; [lia|set_solver|set_solver by lia|intros p i; by rewrite lookup_empty|intros p q i; by rewrite lookup_empty]. Qed.

(** The identifiers the loop goes through. *)
Definition visited (n : Z) (k : nat) : list Z := (fun j => u16 (n + Z.of_nat j)) <$> seq 0 k.

Lemma visited_NoDup n k : (Z.of_nat k <= 2 ^ 16)%Z -> NoDup (visited n k).
Proof.
  intros Hk. apply NoDup_fmap_2_strong; [|apply NoDup_seq].
  intros x y Hx%elem_of_seq Hy%elem_of_seq E. unfold u16 in E.
  apply (f_equal (fun z => (z - n) mod 2 ^ 16)%Z) in E. rewrite !Zminus_mod_idemp_l in E.
  replace (n + Z.of_nat x - n)%Z with (Z.of_nat x) in E by lia.
  replace (n + Z.of_nat y - n)%Z with (Z.of_nat y) in E by lia.
  rewrite !Z.mod_small in E by lia. lia.
Qed.

Lemma skip_active_spec fuel n active r :
  (0 <= n < 2 ^ 16)%Z -> skip_active fuel n active = Some r -> (0 <= r < 2 ^ 16)%Z /\ r ∉ active.
Proof.
  revert n. induction fuel as [|fuel IH]; intros n Hn; simpl; case_bool_decide as Ha; intros E; simplify_eq; try done.
  eapply IH; [|exact E]. unfold u16. apply Z.mod_pos_bound. lia.
Qed.

Lemma skip_active_none fuel n active :
  (0 <= n < 2 ^ 16)%Z -> skip_active fuel n active = None -> forall i, i ∈ visited n (S fuel) -> i ∈ active.
Proof.
  revert n. induction fuel as [|fuel IH]; intros n Hn; simpl skip_active; case_bool_decide as Ha; try done; intros E i Hi.
  - unfold visited in Hi. csimpl in Hi. apply list_elem_of_singleton in Hi as ->. rewrite Z.add_0_r. unfold u16. by rewrite Z.mod_small.
  - unfold visited in Hi. apply list_elem_of_fmap in Hi as (j & -> & Hj%elem_of_seq). destruct j as [|j].
    { rewrite Z.add_0_r. unfold u16. by rewrite Z.mod_small. }
    apply (IH (u16 (n + 1))); [unfold u16; apply Z.mod_pos_bound; lia|done|].
    apply list_elem_of_fmap. exists j. split; [|apply elem_of_seq; lia].
    unfold u16. rewrite Zplus_mod_idemp_l. f_equal. lia.
Qed.

Lemma skip_active_total n active :
  (0 <= n < 2 ^ 16)%Z -> (Z.of_nat (size active) < 2 ^ 16)%Z -> is_Some (skip_active (size active) n active).
Proof.
  intros Hn Hs. destruct (skip_active (size active) n active) eqn:E; [eauto|].
  pose proof (skip_active_none _ _ _ Hn E) as Hall. exfalso.
  assert (Hle : size (list_to_set (visited n (S (size active))) : gset Z) <= size active).
  { apply subseteq_size. intros i Hi%elem_of_list_to_set. by apply Hall. }
  rewrite size_list_to_set in Hle by (apply visited_NoDup; lia).
  unfold visited in Hle. rewrite length_fmap, length_seq in Hle. lia.
Qed.

(** A fresh identifier given to a peer. *)
Lemma assign_inv ids p i n :
  ids_inv ids -> i ∉ ids_activeIDs ids -> (0 <= i < 2 ^ 16)%Z -> (0 <= n < 2 ^ 16)%Z ->
  ids_inv (assign p i {| ids_peerMap := ids_peerMap ids; ids_nextID := n; ids_activeIDs := ids_activeIDs ids |}).
Proof.
  intros [Hn Hz Hr Ha Hu] Hi Hir Hn'. split; simpl; [done|set_solver|set_solver| |].
  - intros q j. rewrite lookup_insert. case_decide as Hq; [|naive_solver set_solver].
    intros [= <-]. split; [set_solver|]. intros ->. by apply Hi.
  - intros q q' j. rewrite !lookup_insert. repeat case_decide; subst; try done.
    + intros [= <-] Hj%Ha. by destruct Hj.
    + intros Hj%Ha [= <-]. by destruct Hj.
    + apply Hu.
Qed.

Lemma nextPeerID_ok ids :
  ids_inv ids -> size (ids_activeIDs ids) < maxActiveIDs ->
  exists i n, nextPeerID ids = (Ok i, {| ids_peerMap := ids_peerMap ids; ids_nextID := n; ids_activeIDs := ids_activeIDs ids |}) /\
              i ∉ ids_activeIDs ids /\ (0 <= i < 2 ^ 16)%Z /\ (0 <= n < 2 ^ 16)%Z.
Proof.
  intros Hi Hs. unfold nextPeerID, bind, get. rewrite (proj2 (Nat.eqb_neq _ _)) by lia.
  destruct (skip_active_total (ids_nextID ids) (ids_activeIDs ids)) as [i E]; [apply Hi|unfold maxActiveIDs in Hs; lia|].
  rewrite E. cbn [deref lift]. destruct (skip_active_spec _ _ _ _ (ii_next _ Hi) E) as [Hr Hn].
  eexists i, _. split; [reflexivity|]. split_and!; try done; try lia; unfold u16; apply Z.mod_pos_bound; lia.
Qed.

(** Below the maximum a new peer gets an identifier that no other peer has. *)
Lemma GetForPeer_ok p ids :
  ids_inv ids -> size (ids_activeIDs ids) < maxActiveIDs \/ is_Some (ids_peerMap ids !! p) ->
  exists i ids', GetForPeer p ids = (Ok i, ids') /\ ids_inv ids' /\ ids_peerMap ids' !! p = Some i /\
                 (forall q j, ids_peerMap ids !! q = Some j -> ids_peerMap ids' !! q = Some j).
Proof.
  intros Hinv Hs. unfold GetForPeer. unfold bind at 1, get. destruct (ids_peerMap ids !! p) as [i|] eqn:E.
  { exists i, ids. by split_and!. }
  destruct Hs as [Hs|[? ?]]; [|done]. destruct (nextPeerID_ok ids Hinv Hs) as (i & n & Hr & Hi & Hir & Hn).
  erewrite bind_ok by exact Hr. eexists i, _. split; [reflexivity|]. split_and!.
  - by apply assign_inv.
  - simpl. by rewrite lookup_insert_eq.
  - intros q j Hq. simpl. rewrite lookup_insert_ne; [done|congruence].
Qed.

Inductive idop := IReserve (p : bytes) | IReclaim (p : bytes) | IGet (p : bytes).

Definition ids_step (o : idop) : M MempoolIDs unit :=
  match o with
  | IReserve p => ReserveForPeer p
  | IReclaim p => Reclaim p
  | IGet p => do! GetForPeer p in ret tt
  end.

(** Never more identifiers than the maximum. *)
Definition ids_bounded (ids : MempoolIDs) : Prop := ids_inv ids /\ size (ids_activeIDs ids) <= maxActiveIDs.

Lemma assign_bounded p i ids n :
  ids_bounded ids -> size (ids_activeIDs ids) < maxActiveIDs -> i ∉ ids_activeIDs ids -> (0 <= i < 2 ^ 16)%Z -> (0 <= n < 2 ^ 16)%Z ->
  ids_bounded (assign p i {| ids_peerMap := ids_peerMap ids; ids_nextID := n; ids_activeIDs := ids_activeIDs ids |}).
Proof.
  intros [Hi _] Hs Hin Hir Hn. split; [by apply assign_inv|]. simpl. rewrite size_union by set_solver. rewrite size_singleton. lia.
Qed.

Lemma nextPeerID_full ids : size (ids_activeIDs ids) = maxActiveIDs ->
  nextPeerID ids = (Panic "node has maximum active IDs and wanted to get one more", ids).
Proof. intros E. unfold nextPeerID, bind, get. by rewrite (proj2 (Nat.eqb_eq _ _) E). Qed.

Lemma ids_step_preserves o : preserves ids_bounded (ids_step o).
Proof.
  assert (Hnext : forall p ids, ids_bounded ids -> ids_bounded (snd ((let! i := nextPeerID in modify (assign p i)) ids))).
  { intros p ids [Hi Hs]. unfold bind. destruct (decide (size (ids_activeIDs ids) = maxActiveIDs)) as [E|E].
    - rewrite (nextPeerID_full _ E). by split.
    - destruct (nextPeerID_ok ids Hi ltac:(lia)) as (i & n & -> & ? & ? & ?). simpl. apply assign_bounded; [by split|lia|done..]. }
  intros ids Hb. destruct o as [p|p|p]; simpl; [by apply Hnext| |].
  - unfold modify. simpl. destruct (ids_peerMap ids !! p) as [i|] eqn:E; [|done].
    destruct Hb as [[Hn Hz Hr Ha Hu] Hs]. split; [|simpl; etrans; [|exact Hs]; apply subseteq_size; set_solver].
    destruct (Ha _ _ E) as [Hia Hi0]. split; simpl; [done|set_solver|set_solver| |].
    + intros q j. rewrite lookup_delete. case_decide as Hq; [done|]. intros Hj. destruct (Ha _ _ Hj) as [? ?].
      split; [|done]. apply elem_of_difference. split; [done|]. intros ->%elem_of_singleton. apply Hq. by eapply Hu.
    + intros q q' j. rewrite !lookup_delete. repeat case_decide; try done. apply Hu.
  - unfold GetForPeer. unfold bind at 1 2, get. destruct (ids_peerMap ids !! p) as [i|] eqn:E; [done|].
    specialize (Hnext p ids Hb). revert Hnext. unfold bind. by destruct (nextPeerID ids) as [[] ?].
Qed.

(** Whatever peers come and go, two peers never have the same identifier, none has the
    identifier 0 of unknown peers, and there are never more identifiers than the maximum;
    below the maximum every peer gets an identifier, the search for a free one ends, and
    no other peer's identifier changes. *)
Theorem peer_ids_unique ops :
  let ids := snd (for_each ids_step ops NewMempoolIDs) in
  (forall p q i, ids_peerMap ids !! p = Some i -> ids_peerMap ids !! q = Some i -> p = q) /\
  (forall p i, ids_peerMap ids !! p = Some i -> (0 < i < 2 ^ 16)%Z) /\
  size (ids_activeIDs ids) <= maxActiveIDs /\
  (size (ids_activeIDs ids) < maxActiveIDs -> forall p,
     exists i ids', GetForPeer p ids = (Ok i, ids') /\ ids_peerMap ids' !! p = Some i /\
                    forall q j, ids_peerMap ids !! q = Some j -> ids_peerMap ids' !! q = Some j).
Proof.
  simpl. assert (Hb : ids_bounded (snd (for_each ids_step ops NewMempoolIDs))).
  { apply preserves_for_each; [intros o _; apply ids_step_preserves|]. split; [apply NewMempoolIDs_inv|].
    change (size ({[0%Z]} : gset Z) <= maxActiveIDs). rewrite size_singleton. unfold maxActiveIDs. lia. }
  destruct Hb as [Hi Hs]. split_and!; [apply Hi| |done|].
  - intros p i Hp. destruct (ii_active _ Hi _ _ Hp) as [Ha H0]. pose proof (ii_range _ Hi _ Ha). lia.
  - intros Hlt p. destruct (GetForPeer_ok p _ Hi (or_introl Hlt)) as (i & ids' & Hr & _ & Hp & Hq). by exists i, ids'.
Qed.

(** At the maximum of active identifiers, a transaction gossiped by a peer that is
    not known yet makes the validator panic. *)
Theorem unknown_peer_panics_at_maximum {TT : TmTx} {TC : TxCache} {AC : AppConnMempool} {GO : GoOrder}
    (msg : GossipMessage) (ids : MempoolIDs) (t : TxMempool) :
  size (ids_activeIDs ids) = maxActiveIDs -> ids_peerMap ids !! gm_From msg = None ->
  TxValidator msg (ids, t) = (Panic "node has maximum active IDs and wanted to get one more", (ids, t)).
Proof.
  intros Hs Hp. unfold TxValidator, GetForPeer, zoom, bind, get. simpl. rewrite Hp. by rewrite (nextPeerID_full _ Hs).
Qed.
