(* ===== verification/MempoolRuns.v ===== *)
(** * MempoolRuns: the mempool on concrete inputs

    A key function, an application that can be told to reject rechecks, and runs that
    show that the hypotheses of the mempool's theorems hold of states the mempool
    reaches; and a run that leaves a transaction outside of the index. *)
From stdpp Require Import base gmap strings vector sorting numbers list.
From S2P Require Import Prelude Types TxCache CList Mempool MempoolInv MempoolSpec PeerIDs Conv Executor Gossip Concrete Manager ManagerLoops ConcreteNode.

Definition toy_tx : TmTx :=
  {| tx_key tx := copy_into zero_hash tx; tx_proto_size tx := (Z.of_nat (length tx) + 2)%Z |}.

(** The connection tells whether the application rejects rechecks; the priority of a
    transaction is its first byte. *)
Definition toy_conn : AppConnMempool := {|
  mconn := bool;
  conn_CheckTx tx recheck c :=
    ({| rct_Code := if recheck && c then 1 else 0; rct_Data := []; rct_Log := ""; rct_Codespace := ""; rct_GasWanted := 1;
        rct_Priority := match tx with b :: _ => Z_of_byte b | [] => 0 end; rct_Sender := ""; rct_MempoolError := "" |}, c);
  conn_FlushSync c := (None, c);
  conn_Error _ := None;
|}.

#[export] Existing Instance toy_tx.
#[export] Existing Instance toy_conn.
#[export] Existing Instance AnyCache.
#[export] Existing Instance insertion_order.

Definition small_cfg (recheck : bool) (cacheSize : Z) : MempoolConfig :=
  {| cfg_Size := 2; cfg_MaxTxsBytes := 100; cfg_MaxTxBytes := 10; cfg_KeepInvalidTxsInCache := false;
     cfg_Recheck := recheck; cfg_TTLNumBlocks := 0; cfg_TTLDuration := 0; cfg_CacheSize := cacheSize |}.

Lemma small_cfg_ok b n : cfg_ok (small_cfg b n).
Proof. split; simpl; unfold MaxLength; lia. Qed.

Definition ops2 : list mempoolop := [OpCheckTx [x01] 0; OpTime 5; OpCheckTx [x02] 3].

(** A new mempool after some operations. *)
Abbreviation run_ops b n conn ops :=
  (for_each mempool_step ops (NewTxMempool (small_cfg b n) (conn : @mconn toy_conn) 1 0)).

Lemma run_ops_reach ops (t0 t : TxMempool) t' :
  Forall op_ok ops -> mempool_reach t0 t -> for_each mempool_step ops t = (Ok tt, t') -> mempool_reach t0 t'.
Proof.
  intros Hok. revert t. induction Hok as [|o ops Ho Hok IH]; intros t Hr Hrun; simpl in Hrun.
  - unfold ret in Hrun. by simplify_eq.
  - go_inv Hrun. eapply IH; [|exact Hrun]. by eapply reach_step.
Qed.

(** A reached state whose traversal is known has the invariant for it. *)
Lemma reached_inv cfg conn c h now (t : TxMempool) ys :
  cfg_ok cfg -> mempool_reach (mk_mempool cfg conn c h now) t ->
  walk (Z.to_nat (Size t)) (TxsFront t) (tm_txs t) = Some ys ->
  mempool_inv t ys /\ fits (tm_config t) ys /\ tm_config t = cfg.
Proof.
  intros Hc Hr Hw. destruct (mempool_reach_inv _ _ _ _ _ _ Hc Hr) as (xs & Hi & Hf & E).
  rewrite (walk_inv _ _ Hi) in Hw. by injection Hw as <-.
Qed.

Lemma indexed_Forall (t : TxMempool) xs :
  Forall (fun x : nat * WrappedTx => tm_txByKey t !! tx_key (w_tx x.2) = Some x.1) xs -> indexed t xs.
Proof. intros Hall e w Hin. rewrite Forall_forall in Hall. by apply (Hall (e, w)). Qed.

Definition wtx (id : nat) (tx : Tx) (prio time : Z) (peer : Z) : nat * WrappedTx :=
  (id, {| w_tx := tx; w_hash := tx_key tx; w_height := 1; w_timestamp := time; w_gasWanted := 1;
          w_priority := prio; w_sender := ""; w_peers := {[peer]} |}).

Definition entries2 : entries := [wtx 0 [x01] 1 0 0; wtx 1 [x02] 2 5 3].

Abbreviation run2 b conn := (run_ops b 10 conn ops2).

Lemma run2_ok b conn : run2 b conn = (Ok tt, (run2 b conn).2).
Proof. destruct (is_ok_run (run2 b conn)) as [[] E]; [destruct b, conn; vm_compute; reflexivity|exact E]. Qed.

Lemma run2_reach b conn :
  mempool_reach (NewTxMempool (small_cfg b 10) (conn : @mconn toy_conn) 1 0) (run2 b conn).2.
Proof.
  apply (run_ops_reach ops2 _ (NewTxMempool (small_cfg b 10) (conn : @mconn toy_conn) 1 0)); [by repeat constructor|constructor|].
  apply run2_ok.
Qed.

Lemma run2_inv b conn :
  mempool_inv (run2 b conn).2 entries2 /\ fits (tm_config (run2 b conn).2) entries2 /\
  tm_config (run2 b conn).2 = small_cfg b 10.
Proof.
  eapply reached_inv; [apply small_cfg_ok|apply run2_reach|]. destruct b, conn; vm_compute; reflexivity.
Qed.

Lemma run2_indexed b conn : indexed (run2 b conn).2 entries2.
Proof. apply indexed_Forall. repeat constructor; destruct b, conn; vm_compute; reflexivity. Qed.

(** A mempool that holds two transactions: its list is traversed, and it can be flushed. *)
Lemma mempool_safe_witness :
  exists xs, walk (Z.to_nat (Size (run2 true false).2)) (TxsFront (run2 true false).2) (tm_txs (run2 true false).2) = Some xs /\
             Size (run2 true false).2 = Z.of_nat (length xs) /\ (Size (run2 true false).2 <= 2)%Z /\
             exists t', mempool_step OpFlush (run2 true false).2 = (Ok tt, t').
Proof.
  destruct (mempool_safe (small_cfg true 10) (false : @mconn toy_conn) (CacheLRU (NewLRUTxCache 10) : @cache _ AnyCache) 1 0 (run2 true false).2
              (small_cfg_ok true 10) (run2_reach true false)) as (xs & Hw & Hs & Hc & _ & _ & _ & _ & Hop).
  exists xs. split; [exact Hw|]. split; [exact Hs|]. split; [exact Hc|]. apply (Hop OpFlush). exact I.
Defined.

Definition new_wtx : WrappedTx :=
  {| w_tx := [x09]; w_hash := tx_key [x09]; w_height := 1; w_timestamp := 7; w_gasWanted := 0; w_priority := 0;
     w_sender := ""; w_peers := {[4%Z]} |}.
Definition new_res : ResponseCheckTx :=
  {| rct_Code := 0; rct_Data := []; rct_Log := ""; rct_Codespace := ""; rct_GasWanted := 1; rct_Priority := 9; rct_Sender := ""; rct_MempoolError := "" |}.


(** It takes the place of the transaction of lowest priority. *)
Example eviction_example :
  let t := (run_ops true 10 false (ops2 ++ [OpCheckTx [x09] 4])).2 in ReapMaxTxs (-1) t = [[x09]; [x02]].
Proof. vm_compute. reflexivity. Qed.

Lemma entries2_reapable : reapable entries2.*2.
Proof.
  split; [|vm_compute; reflexivity..]. intros w. unfold entries2, wtx. csimpl.
  rewrite !elem_of_cons, elem_of_nil. intros [->|[->|[]]]; simpl; lia.
Qed.

(** Reaping at most seven bytes from the two transactions of three bytes. *)
Lemma reap_within_limits_witness :
  ReapMaxBytesMaxGas 5 (-1) (run2 true false).2 = [[x02]] /\
  exists ws1 ws2, ReapMaxBytesMaxGas 5 (-1) (run2 true false).2 = w_tx <$> ws1 /\ ws1 ++ ws2 ≡ₚ entries2.*2.
Proof.
  split; [vm_compute; reflexivity|].
  destruct (reap_within_limits 5 (-1) (run2 true false).2 entries2 (proj1 (run2_inv true false)) (run2_indexed true false) entries2_reapable)
    as (ws1 & ws2 & Hr & Hp & _). exists ws1, ws2. split; [exact Hr|exact Hp].
Defined.

Definition ok_res : ResponseDeliverTx := {| dtx_Code := 0; dtx_Events := []; dtx_Rest := [] |}.

(** A block with the first transaction. *)
Lemma update_removes_block_txs_witness :
  exists t' xs', Update 2 [[x01]] [ok_res] None None (run2 false false).2 = (Ok tt, t') /\ mempool_inv t' xs' /\
                 tm_height t' = 2%Z /\ tm_txByKey t' !! tx_key [x01] = None.
Proof.
  destruct (update_removes_block_txs 2 [[x01]] [ok_res] None None (run2 false false).2 entries2) as (t' & xs' & Hr & Hi & Hh & Hn & _).
  - apply run2_inv.
  - apply run2_indexed.
  - rewrite (proj2 (proj2 (run2_inv false false))). reflexivity.
  - reflexivity.
  - exists t', xs'. split; [exact Hr|]. split; [exact Hi|]. split; [exact Hh|]. apply Hn. by left.
Defined.

(** The application rejects both transactions on recheck, and only the first goes. *)
Lemma recheck_removes_at_most_one_witness :
  ReapMaxTxs (-1) (recheckTransactions (run2 true true).2).2 = [[x02]] /\
  exists t' xs', recheckTransactions (run2 true true).2 = (Ok tt, t') /\ mempool_inv t' xs' /\ 2 <= S (length xs').
Proof.
  split; [vm_compute; reflexivity|].
  apply (recheck_removes_at_most_one (run2 true true).2 entries2); [apply run2_inv|apply run2_indexed|discriminate].
Defined.

(** ** A block from this mempool *)

Section NodeRun.
#[local] Existing Instance toy.
#[local] Existing Instance toy_validators.
#[local] Existing Instance toy_app.
#[local] Existing Instance toy_events.
#[local] Existing Instance NodeMempool.

Abbreviation block2 :=
  (CreateBlock (mc_executor toy_cfg) 1 (toy_commit 0) zero_hash (toy_state 0 0) 7 ((run2 false false).2 : @mempool NodeMempool)).

Lemma created_block_within_limits_witness :
  (proto_bytes (data_Txs (blk_Data block2)) <= cp_Block_MaxBytes (st_ConsensusParams (toy_state 0 0)))%Z.
Proof.
  apply (created_block_within_limits (mc_executor toy_cfg) 1 (toy_commit 0) zero_hash (toy_state 0 0) 7 (run2 false false).2 entries2
           (proj1 (run2_inv false false)) (run2_indexed false false) entries2_reapable).
  vm_compute. discriminate.
Defined.

Definition env2 : ExecEnv :=
  {| ee_app := (0%Z, 1%Z) : @app toy_app; ee_mempool := (run2 false false).2 : @mempool NodeMempool; ee_eventBus := None |}.
Abbreviation commit2 := (commit (toy_state 0 0) block1 [ok_res; ok_res] env2).

End NodeRun.

(** ** Transactions outside of the index *)

Definition roomy_cfg : MempoolConfig :=
  {| cfg_Size := 3; cfg_MaxTxsBytes := 100; cfg_MaxTxBytes := 10; cfg_KeepInvalidTxsInCache := false;
     cfg_Recheck := false; cfg_TTLNumBlocks := 0; cfg_TTLDuration := 0; cfg_CacheSize := 1 |}.

(** A transaction, another one that pushes it out of the cache, the first one again; then
    a block with both. *)
Definition ghost_ops : list mempoolop :=
  [OpCheckTx [x01] 0; OpCheckTx [x02] 0; OpCheckTx [x01] 0; OpUpdate 1 [[x01]; [x02]] [ok_res; ok_res] None None].

(** A transaction that comes again after the cache has forgotten it is inserted a
    second time, and the index keeps only the second copy: when a block commits it, the
    first copy stays in the list, where it counts for the size and is gossiped, but no
    key leads to it, so that it is never reaped and no update or removal reaches it. *)
Theorem duplicate_outlives_commit :
  let run := for_each mempool_step ghost_ops (NewTxMempool roomy_cfg (false : @mconn toy_conn) 1 0) in
  run.1 = Ok tt /\ Size run.2 = 1%Z /\ SizeBytes run.2 = 1%Z /\ ReapMaxTxs (-1) run.2 = [] /\ tm_txByKey run.2 = ∅ /\
  (walk 1 (TxsFront run.2) (tm_txs run.2)) = Some [wtx 0 [x01] 1 0 0].
Proof. cbv zeta. split_and!; vm_compute; reflexivity. Qed.

(** ** Gossiped transactions *)

Definition big_msg : GossipMessage := {| gm_Data := replicate 11 x01; gm_From := [x07] |}.

(** Eleven bytes for a mempool that takes ten. *)
Lemma refused_tx_blocks_validator_witness :
  exists ids', TxValidator big_msg (NewMempoolIDs, (run2 true false).2) = (Ok Blocked, (ids', (run2 true false).2)).
Proof.
  exists (GetForPeer [x07] NewMempoolIDs).2.
  apply (refused_tx_blocks_validator big_msg NewMempoolIDs (GetForPeer [x07] NewMempoolIDs).2 (run2 true false).2 1).
  - vm_compute. reflexivity.
  - rewrite (proj2 (proj2 (run2_inv true false))). vm_compute. discriminate.
  - left. rewrite (proj2 (proj2 (run2_inv true false))). vm_compute. reflexivity.
Defined.

(** All identifiers are taken. *)
Definition full_ids : MempoolIDs :=
  {| ids_peerMap := ∅; ids_nextID := 1; ids_activeIDs := list_to_set (seqZ 0 65535) |}.

Lemma unknown_peer_panics_at_maximum_witness :
  TxValidator big_msg (full_ids, (run2 true false).2) =
  (Panic "node has maximum active IDs and wanted to get one more", (full_ids, (run2 true false).2)).
Proof.
  apply (unknown_peer_panics_at_maximum big_msg full_ids (run2 true false).2).
  - unfold full_ids, ids_activeIDs. rewrite size_list_to_set by apply NoDup_seqZ. apply length_seqZ.
  - reflexivity.
Defined.
