(* ===== verification/MempoolRace.v ===== *)
(** * MempoolRace: the mempool under concurrent calls

    The mempool (mempool/v1/mempool.go) is called from many goroutines: [CheckTx] by the RPC
    server and by the validator of gossiped transactions, [Update] by the executor.  Its lock is
    not held over a whole call: [CheckTx] is checked in under the lock, calls the application
    without it, and inserts under the lock; [Update] gives the lock up while the transactions
    left are checked again.  Here a call is a thread that stops at each of those points, and the
    threads interleave.  A section under the lock is one step.  What is read without the lock -
    the length of the list, its front, the successor of an element - may be read in the middle of
    a section of another thread: such a read sees any length, and any element that was ever in
    the list.  Theorems: the limits, counters and indexes survive every interleaving, and no
    thread panics; the calls of Mempool.v are the runs in which a thread is alone; a transaction
    whose [CheckTx] is under way while a block commits it enters the mempool afterwards. *)
From stdpp Require Import base gmap strings vector sorting numbers list.
From S2P Require Import Prelude Types TxCache CList Mempool MempoolInv MempoolSpec MempoolRuns.

Section Race.
Context {TT : TmTx} {TC : TxCache} {AC : AppConnMempool} {GO : GoOrder}.

(** ** Calls in parts *)

(** Where [CheckTxAsync], called for a new transaction or for an element of the list, returns. *)
Inductive mempool_cont :=
| InCheck (tx : Tx) (sender height : Z) (res : ResponseCheckTx)
| InRecheck (e : nat).

Inductive mempool_pc :=
| AtAdmit (tx : Tx) (sender : Z)                                (* CheckTx, under the read lock *)
| AtCall (tx : Tx) (sender height : Z)                          (* the application's CheckTx *)
| AtCount (k : mempool_cont) (tx : Tx) (res : ResponseCheckTx)  (* recheckTxCallback: its counter *)
| AtResult (k : mempool_cont) (tx : Tx) (res : ResponseCheckTx) (final : bool)   (* its section *)
| AtNotify (k : mempool_cont)                                   (* its deferred notification *)
| AtFlush (k : mempool_cont)                                    (* FlushSync *)
| AtTime (tx : Tx) (sender height : Z) (res : ResponseCheckTx)  (* the callback, time.Now() *)
| AtInsert (w : WrappedTx) (res : ResponseCheckTx)              (* initialTxCallback *)
| AtUpdate (h : Z) (txs : list Tx) (ress : list ResponseDeliverTx) (pre : option PreCheckFunc) (post : option PostCheckFunc)
| AtLen                                                         (* recheckTransactions: txs.Len() *)
| AtStore (n : Z)                                               (* its counter is set *)
| AtFront                                                       (* txs.Front() *)
| AtVisit (e : nat)                                             (* e.Value and the application *)
| AtUncount (e : nat)                                           (* a failed FlushSync *)
| AtNext (e : nat)                                              (* e.Next() *)
| AtRemove (key : hash32)                                       (* RemoveTxByKey *)
| AtFlushAll                                                    (* Flush *)
| AtFlushConn                                                   (* FlushAppConn *)
| AtEnable                                                      (* EnableTxsAvailable *)
| AtReturn.

(** The part of [Update] before [recheckTransactions] gives the lock up: whether that follows. *)
Definition update_locked (blockHeight : Z) (blockTxs : list Tx) (deliverTxResponses : list ResponseDeliverTx)
    (newPreFn : option PreCheckFunc) (newPostFn : option PostCheckFunc) : M TxMempool bool :=
  if negb (length blockTxs =? length deliverTxResponses)%nat
  then panic "mempool: transactions and DeliverTx responses differ in number"
  else
    do! modify (fun t => set_notifiedTxsAvailable false (set_height blockHeight t)) in
    do! modify (fun t => set_hooks (match newPreFn with Some f => Some f | None => tm_preCheck t end)
                                   (match newPostFn with Some f => Some f | None => tm_postCheck t end) t) in
    do! for_each update_tx (zip blockTxs deliverTxResponses) in
    do! purgeExpiredTxs blockHeight in
    let! t := get in
    if (0 <? Size t)%Z then
      if cfg_Recheck (tm_config t) then
        if (Size t =? 0)%Z then panic "mempool: cannot run recheck on an empty mempool" else ret true
      else do! modify notifyTxsAvailable in ret false
    else ret false.

(** What a read without the lock sees. *)
Record peek := { pk_len : Z; pk_elt : option nat }.

(** [notifyTxsAvailable] when [Size()] returned [n]. *)
Definition notify_seen (n : Z) (t : TxMempool) : TxMempool :=
  if (n =? 0)%Z then t
  else match tm_txsAvailable t with
       | Some _ => if tm_notifiedTxsAvailable t then t else set_txsAvailable (Some true) (set_notifiedTxsAvailable true t)
       | None => t
       end.

Definition app_call (tx : Tx) (recheck : bool) : M TxMempool ResponseCheckTx :=
  let! t := get in
  let '(res, conn) := conn_CheckTx tx recheck (tm_conn t) in
  do! modify (set_conn conn) in ret res.

Definition visit_or_return (e : option nat) : mempool_pc := match e with Some e => AtVisit e | None => AtReturn end.

(** The next part of a call, and where the call stands after it. *)
Definition mempool_part (o : peek) (p : mempool_pc) : M TxMempool mempool_pc :=
  match p with
  | AtAdmit tx id =>
      let! r := checkTx_admit tx id in
      ret (match r with inl _ => AtReturn | inr height => AtCall tx id height end)
  | AtCall tx id height => let! res := app_call tx false in ret (AtCount (InCheck tx id height res) tx res)
  | AtCount k tx res =>
      let! t := get in
      let numLeft := i64 (tm_txRecheck t - 1) in
      do! modify (set_txRecheck numLeft) in
      ret (if (numLeft =? 0)%Z then AtResult k tx res true else if (numLeft <? 0)%Z then AtFlush k else AtResult k tx res false)
  | AtResult k tx res final => do! recheck_result tx res in ret (if final : bool then AtNotify k else AtFlush k)
  | AtNotify k => do! modify (notify_seen (pk_len o)) in ret (AtFlush k)
  | AtFlush k =>
      let! err := FlushSync in
      ret (match k, err with
           | InCheck tx id height res, None => AtTime tx id height res
           | InCheck _ _ _ _, Some _ => AtReturn
           | InRecheck e, None => AtNext e
           | InRecheck e, Some _ => AtUncount e
           end)
  | AtTime tx id height res =>
      let! t := get in
      ret (AtInsert {| w_tx := tx; w_hash := tx_key tx; w_height := height; w_timestamp := tm_now t;
                       w_gasWanted := 0; w_priority := 0; w_sender := ""; w_peers := {[id]} |} res)
  | AtInsert w res => do! initialTxCallback w res in ret AtReturn
  | AtUpdate h txs ress pre post => let! again := update_locked h txs ress pre post in ret (if again : bool then AtLen else AtReturn)
  | AtLen => ret (AtStore (pk_len o))
  | AtStore n => do! modify (set_txRecheck n) in ret AtFront
  | AtFront => ret (visit_or_return (pk_elt o))
  | AtVisit e =>
      let! w := elt_wtx e in
      let! res := app_call (w_tx w) true in ret (AtCount (InRecheck e) (w_tx w) res)
  | AtUncount e => do! modify (fun t => set_txRecheck (i64 (tm_txRecheck t - 1)) t) in ret (AtNext e)
  | AtNext e => ret (visit_or_return (pk_elt o))
  | AtRemove key => do! try (RemoveTxByKey key) in ret AtReturn
  | AtFlushAll => do! Flush in ret AtReturn
  | AtFlushConn => do! try FlushAppConn in ret AtReturn
  | AtEnable => do! modify EnableTxsAvailable in ret AtReturn
  | AtReturn => ret AtReturn
  end.

(** Elements that were ever in the list. *)
Definition known (t : TxMempool) (e : nat) : Prop := is_Some (cl_heap (tm_txs t) !! e).
Definition peek_ok (t : TxMempool) (o : peek) : Prop := forall e, pk_elt o = Some e -> known t e.

(** Where a call starts; an update has one response per transaction. *)
Definition entry (p : mempool_pc) : Prop :=
  match p with
  | AtAdmit _ _ | AtRemove _ | AtFlushAll | AtFlushConn | AtEnable => True
  | AtUpdate _ txs ress _ _ => length txs = length ress
  | _ => False
  end.

Abbreviation threads := (TxMempool * list mempool_pc)%type.

(** A call starts, a thread does its next part, time passes. *)
Inductive mempool_race : threads -> threads -> Prop :=
| race_call t ps p : entry p -> mempool_race (t, ps) (t, ps ++ [p])
| race_part t ps i p o p' t' :
    ps !! i = Some p -> peek_ok t o -> mempool_part o p t = (Ok p', t') -> mempool_race (t, ps) (t', <[i := p']> ps)
| race_time t ps now : mempool_race (t, ps) (set_now now t, ps).

(** ** Elements stay known *)

Ltac keeps :=
  repeat first
    [ solve [eauto with go_inv keeps]
    | match goal with |- preserves _ (bind _ _) => apply preserves_bind; [|intros] end
    | apply preserves_try
    | apply preserves_for_each; intros
    | match goal with |- preserves _ (match ?x with _ => _ end) => destruct x end ].

Create HintDb keeps.

Definition elt_known (e : nat) (l : CList WrappedTx) : Prop := is_Some (cl_heap l !! e).

Lemma write_elt_known e0 e x : preserves (elt_known e0) (write_elt (V := WrappedTx) e x).
Proof. apply preserves_modify. intros l Hl. unfold elt_known. cbn. destruct (decide (e = e0)) as [->|]; [rewrite lookup_insert_eq|rewrite lookup_insert_ne by done]; eauto. Qed.
#[local] Hint Resolve write_elt_known : keeps.

Lemma frame_known e0 (f : CList WrappedTx -> CList WrappedTx) : (forall l, cl_heap (f l) = cl_heap l) -> preserves (elt_known e0) (modify f).
Proof. intros H. apply preserves_modify. intros l. unfold elt_known. by rewrite H. Qed.

Lemma SetNext_known e0 e n : preserves (elt_known e0) (SetNext e n).
Proof. unfold SetNext, read_elt, fire. keeps. Qed.
Lemma SetPrev_known e0 e n : preserves (elt_known e0) (SetPrev e n).
Proof. unfold SetPrev, read_elt, fire. keeps. Qed.
#[local] Hint Resolve SetNext_known SetPrev_known : keeps.
#[local] Hint Extern 2 (preserves (elt_known _) (modify _)) => (by apply frame_known) : keeps.

Lemma RemoveDetach_known e0 e : preserves (elt_known e0) (RemoveDetach e).
Proof. unfold RemoveDetach, Remove, DetachPrev, DetachNext, SetRemoved, Prev, Next, read_elt, fire. keeps. Qed.

Lemma PushBack_known e0 w : preserves (elt_known e0) (PushBack w).
Proof.
  unfold PushBack. intros l Hl. unfold bind at 1, get. unfold bind at 1, put.
  set (l1 := {| cl_heap := <[cl_fresh l := _]> _ |}). assert (H1 : elt_known e0 l1).
  { unfold elt_known. cbn. destruct (decide (cl_fresh l = e0)) as [->|]; [rewrite lookup_insert_eq|rewrite lookup_insert_ne by done]; eauto. }
  clearbody l1. revert l1 H1. apply preserves_bind; [unfold fire; keeps|intros done']. keeps.
Qed.

Lemma SetValue_known e0 e f : preserves (elt_known e0) (SetValue e f).
Proof. unfold SetValue, read_elt. keeps. Qed.

Lemma on_txs_known {B} e0 (c : M (CList WrappedTx) B) : preserves (elt_known e0) c -> preserves (fun t => known t e0) (on_txs c).
Proof. intros Hc. apply preserves_zoom. intros t l Ht ->. by apply (Hc (tm_txs t)). Qed.

Lemma modify_known e0 f : (forall t, tm_txs (f t) = tm_txs t) -> preserves (fun t => known t e0) (modify f).
Proof. intros H. apply preserves_modify. intros t. unfold known. by rewrite H. Qed.
#[local] Hint Extern 2 (preserves (fun t => known t _) (modify _)) => (apply modify_known; intros; repeat case_match; done) : keeps.
#[local] Hint Extern 2 (preserves (fun t => known t _) (on_cache _)) => (by apply modify_known) : keeps.
#[local] Hint Resolve on_txs_known RemoveDetach_known PushBack_known SetValue_known : keeps.

Lemma elt_wtx_known e0 e : preserves (fun t => known t e0) (elt_wtx e).
Proof. apply preserves_read. Qed.
#[local] Hint Resolve elt_wtx_known : keeps.

Lemma removeTxByElement_known e0 e : preserves (fun t => known t e0) (removeTxByElement e).
Proof. unfold removeTxByElement, unlink. keeps. Qed.
Lemma removeTxByKey_known e0 k : preserves (fun t => known t e0) (removeTxByKey k).
Proof. unfold removeTxByKey, unlink. keeps. Qed.
#[local] Hint Resolve removeTxByElement_known removeTxByKey_known : keeps.

Lemma Next_known e0 e : preserves (fun t => known t e0) (on_txs (Next e)).
Proof. apply on_txs_known. unfold Next, read_elt. keeps. Qed.
#[local] Hint Resolve Next_known : keeps.

Lemma for_txs_known e0 body : (forall e, preserves (fun t => known t e0) (body e)) -> preserves (fun t => known t e0) (for_txs body).
Proof.
  intros Hb. unfold for_txs. apply preserves_bind; [apply preserves_get|intros t]. generalize (Z.to_nat (Size t)) (TxsFront t).
  intros n. induction n as [|n IH]; intros [e|]; cbn [list_loop]; keeps; auto.
Qed.

Lemma evict_loop_known e0 need acc vs : preserves (fun t => known t e0) (evict_loop need acc vs).
Proof. revert acc. induction vs as [|[v w] vs IH]; intros acc; cbn [evict_loop]; keeps. Qed.
#[local] Hint Resolve evict_loop_known : keeps.

Lemma notify_seen_known e0 n : preserves (fun t => known t e0) (modify (notify_seen n)).
Proof. apply modify_known. intros t. unfold notify_seen. by repeat case_match. Qed.

Lemma notify_known e0 : preserves (fun t => known t e0) (modify notifyTxsAvailable).
Proof. apply modify_known. intros t. by destruct (notify_frame t) as (_ & _ & ? & _). Qed.
#[local] Hint Resolve notify_seen_known notify_known : keeps.

Lemma initialTxCallback_known e0 w res : preserves (fun t => known t e0) (initialTxCallback w res).
Proof.
  unfold initialTxCallback, make_room, insertTx. keeps.
Qed.

Lemma checkTx_admit_known e0 tx id : preserves (fun t => known t e0) (checkTx_admit tx id).
Proof. unfold checkTx_admit. keeps. Qed.

Lemma recheck_result_known e0 tx res : preserves (fun t => known t e0) (recheck_result tx res).
Proof. unfold recheck_result. keeps. Qed.
#[local] Hint Resolve initialTxCallback_known checkTx_admit_known recheck_result_known : keeps.

Lemma update_locked_known e0 h txs ress pre post : preserves (fun t => known t e0) (update_locked h txs ress pre post).
Proof.
  unfold update_locked, purgeExpiredTxs, update_tx. keeps. apply for_txs_known. intros. keeps.
Qed.
#[local] Hint Resolve update_locked_known : keeps.

(** No part makes an element unknown. *)
Lemma part_known e0 o p : preserves (fun t => known t e0) (mempool_part o p).
Proof.
  destruct p; cbn [mempool_part]; unfold app_call, FlushAppConn, FlushSync, RemoveTxByKey, Flush; keeps.
  apply for_txs_known. intros. keeps.
Qed.

(** ** The invariant of the threads *)

Definition small (t : TxMempool) (tx : Tx) : Prop := (Z.of_nat (length tx) <= cfg_MaxTxBytes (tm_config t))%Z.

Definition cont_ok (t : TxMempool) (k : mempool_cont) : Prop :=
  match k with InCheck tx _ _ _ => small t tx | InRecheck e => known t e end.

Definition pc_ok (t : TxMempool) (p : mempool_pc) : Prop :=
  match p with
  | AtCall tx _ _ | AtTime tx _ _ _ => small t tx
  | AtCount k _ _ | AtResult k _ _ _ | AtNotify k | AtFlush k => cont_ok t k
  | AtInsert w _ => small t (w_tx w)
  | AtUpdate _ txs ress _ _ => length txs = length ress
  | AtVisit e | AtUncount e | AtNext e => known t e
  | _ => True
  end.

Lemma pc_ok_mono t t' p : tm_config t' = tm_config t -> (forall e, known t e -> known t' e) -> pc_ok t p -> pc_ok t' p.
Proof. intros Hc Hk. destruct p as [| |[]|[]|[]|[]| | | | | | | | | | | | | |]; cbn; unfold small; rewrite ?Hc; auto. Qed.

Lemma notify_seen_frame n t : same_env t (notify_seen n t) /\ (forall xs, mempool_inv t xs -> mempool_inv (notify_seen n t) xs).
Proof. unfold notify_seen. repeat case_match; (split; [by split|]); intros xs Hi; done || by eapply mempool_inv_frame. Qed.

Lemma update_locked_ok h txs ress pre post t xs :
  mempool_inv t xs -> length txs = length ress ->
  exists b t' xs', update_locked h txs ress pre post t = (Ok b, t') /\ mempool_inv t' xs' /\ sublist xs' xs /\ tm_config t' = tm_config t.
Proof.
  intros Hinv Hlen. unfold update_locked. rewrite (proj2 (Nat.eqb_eq _ _) Hlen). cbn [negb].
  unfold bind at 1 2, modify. set (t0 := set_hooks _ _ _).
  assert (Hi0 : mempool_inv t0 xs) by (by eapply mempool_inv_frame).
  destruct (update_txs_ok (zip txs ress) t0 xs Hi0) as (t1 & xs1 & Hr1 & Hi1 & [[E1 _ _ _] _] & Hsub1 & _ & _).
  erewrite bind_ok by exact Hr1. destruct (purgeExpiredTxs_ok h t1 xs1 Hi1) as (t2 & Hr2 & [[E2 _ _ _] _] & Hi2).
  erewrite bind_ok by exact Hr2. unfold bind at 1, get. set (xs2 := filter _ xs1) in Hi2.
  assert (Hsub : sublist xs2 xs) by (etrans; [apply sublist_filter|done]).
  assert (E : tm_config t2 = tm_config t) by (by rewrite E2, E1).
  destruct (Z.ltb_spec 0 (Size t2)); [|by exists false, t2, xs2]. destruct (cfg_Recheck (tm_config t2)).
  - destruct (Z.eqb_spec (Size t2) 0); [lia|]. by exists true, t2, xs2.
  - destruct (notify_frame t2) as ([E3 _ _ _] & _ & _ & Hi3). exists false, (notifyTxsAvailable t2), xs2.
    split_and!; [done|by apply Hi3|done|congruence].
Qed.

Context `{!GoOrderLaws GO}.

(** A part that is safe: it returns, and the list is within the limits. *)
Definition safe_part (t : TxMempool) (x : result mempool_pc * TxMempool) : Prop :=
  exists p' t' xs', x = (Ok p', t') /\ mempool_inv t' xs' /\ fits (tm_config t) xs' /\ tm_config t' = tm_config t /\
    ((forall e, known t e -> known t' e) -> pc_ok t' p').

(** The list was left alone. *)
Lemma safe_frame t xs p' t' :
  mempool_inv t xs -> fits (tm_config t) xs -> mempool_inv t' xs -> tm_config t' = tm_config t ->
  ((forall e, known t e -> known t' e) -> pc_ok t' p') -> safe_part t (Ok p', t').
Proof. intros Hi Hf Hi' E Hp. by exists p', t', xs. Qed.

(** It lost elements, or their priorities changed. *)
Lemma safe_raw {B} (c : M TxMempool B) (k : B -> mempool_pc) t xs b t' xs' :
  c t = (Ok b, t') -> fits (tm_config t) xs -> mempool_inv t' xs' -> sublist (raw <$> xs') (raw <$> xs) -> tm_config t' = tm_config t ->
  ((forall e, known t e -> known t' e) -> pc_ok t' (k b)) -> safe_part t ((let! b := c in ret (k b)) t).
Proof.
  intros Hr Hf Hi Hs E Hp. erewrite bind_ok by exact Hr. exists (k b), t', xs'. split_and!; try done. by eapply fits_raw.
Qed.

Lemma app_call_safe tx b k t xs :
  mempool_inv t xs -> fits (tm_config t) xs ->
  ((forall conn, (forall e, known t e -> known (set_conn conn t) e) -> pc_ok (set_conn conn t) (k (conn_CheckTx tx b (tm_conn t)).1))) ->
  safe_part t ((let! res := app_call tx b in ret (k res)) t).
Proof.
  intros Hi Hf Hp. eapply (safe_raw (app_call tx b) k t xs _ (set_conn (conn_CheckTx tx b (tm_conn t)).2 t) xs); [|done|by eapply mempool_inv_frame|done|done|apply Hp].
  unfold app_call, bind, get. by destruct (conn_CheckTx tx b (tm_conn t)).
Qed.

Lemma FlushSync_safe k t xs :
  mempool_inv t xs -> fits (tm_config t) xs ->
  (forall t' err, tm_config t' = tm_config t -> (forall e, known t e -> known t' e) -> pc_ok t' (k err)) ->
  safe_part t ((let! err := FlushSync in ret (k err)) t).
Proof.
  intros Hi Hf Hp. destruct (FlushSync_ok t) as (t1 & err & Hr & _ & [E _ _ _] & _ & Hi1).
  eapply safe_raw; [exact Hr|done|by apply Hi1|done|done|by apply Hp].
Qed.

(** Checking in, and the responses of rechecks. *)
Lemma check_part_safe o p t xs :
  mempool_inv t xs -> fits (tm_config t) xs -> pc_ok t p ->
  match p with AtAdmit _ _ | AtCall _ _ _ | AtCount _ _ _ | AtResult _ _ _ _ | AtNotify _ | AtFlush _ => True | _ => False end ->
  safe_part t (mempool_part o p t).
Proof.
  intros Hi Hf Hp Hk. destruct p; try done; cbn [mempool_part pc_ok] in *; clear Hk.
  - destruct (checkTx_admit_ok tx sender t xs Hi) as (t1 & r & xs1 & Hr & Hi1 & [E _ _ _] & Hraw & Hh).
    eapply safe_raw; [exact Hr|done|done|by rewrite Hraw|done|]. intros _. destruct r as [|height]; [done|].
    cbn. unfold small. rewrite E. by destruct (Hh height eq_refl).
  - apply (app_call_safe tx false (fun res => AtCount (InCheck tx sender height res) tx res) t xs Hi Hf). intros conn _. apply Hp.
  - eapply safe_frame; [done|done|by eapply mempool_inv_frame|done|]. intros Hkn.
    assert (cont_ok (set_txRecheck (i64 (tm_txRecheck t - 1)) t) k) by (by destruct k). by repeat case_match.
  - destruct (recheck_result_ok tx res t xs Hi) as (t1 & xs1 & Hr & Hi1 & [[E _ _ _] _] & Hrc).
    eapply (safe_raw _ (fun _ => if final then AtNotify k else AtFlush k)); [exact Hr|done|done|by eapply rechecked_raw|done|].
    intros Hkn. apply (pc_ok_mono t); [done|done|by destruct final].
  - destruct (notify_seen_frame (pk_len o) t) as ([E _ _ _] & Hi1). eapply safe_frame; [done|done|by apply Hi1|done|].
    intros Hkn. by apply (pc_ok_mono t).
  - apply FlushSync_safe with (xs := xs); [done|done|]. intros t1 err E Hkn.
    destruct k, err; cbn in *; unfold small in *; rewrite ?E; auto.
Qed.

(** Insertion, update and the traversal of a recheck. *)
Lemma part_safe o p t xs :
  cfg_ok (tm_config t) -> mempool_inv t xs -> fits (tm_config t) xs -> peek_ok t o -> pc_ok t p -> safe_part t (mempool_part o p t).
Proof.
  intros Hc Hi Hf Ho Hp. destruct p; try (by eapply check_part_safe); cbn [mempool_part pc_ok] in *.
  - by eapply safe_frame.
  - destruct (initialTxCallback_ok w res t xs Hc Hi Hf Hp) as (t1 & res' & xs1 & Hr & [E _ _ _] & Hi1 & Hf1 & _).
    erewrite bind_ok by exact Hr. by exists AtReturn, t1, xs1.
  - destruct (update_locked_ok h txs ress pre post t xs Hi Hp) as (b & t1 & xs1 & Hr & Hi1 & Hs & E).
    eapply safe_raw; [exact Hr|done|done|by apply fmap_sublist|done|by destruct b].
  - by eapply safe_frame.
  - eapply safe_frame; [done|done|by eapply mempool_inv_frame|done|done].
  - eapply safe_frame; [done..|]. intros _. destruct (pk_elt o) as [e|] eqn:E; [by apply Ho|done].
  - destruct Hp as [x Hx]. erewrite bind_ok by (unfold elt_wtx, read; by rewrite Hx).
    apply (app_call_safe _ true (fun res => AtCount (InRecheck e) _ res) t xs Hi Hf). intros conn Hkn. cbn. by exists x.
  - eapply safe_frame; [done|done|by eapply mempool_inv_frame|done|]. by intros Hkn.
  - eapply safe_frame; [done..|]. intros _. destruct (pk_elt o) as [e'|] eqn:E; [by apply Ho|done].
  - destruct (mempool_step_ok (OpRemove key) t xs Hc I Hi Hf) as (t1 & xs1 & Hr & Hi1 & Hf1 & E). rewrite E in Hf1.
    cbn in Hr. go_inv Hr. erewrite bind_ok by exact Hrun. unfold ret in Hr. simplify_eq. by exists AtReturn, t1, xs1.
  - destruct (mempool_step_ok OpFlush t xs Hc I Hi Hf) as (t1 & xs1 & Hr & Hi1 & Hf1 & E). rewrite E in Hf1.
    cbn in Hr. erewrite bind_ok by exact Hr. by exists AtReturn, t1, xs1.
  - destruct (FlushSync_ok t) as (t1 & err & Hr & _ & [E _ _ _] & _ & Hi1).
    eapply (safe_raw (try FlushAppConn) (fun _ => AtReturn) t xs (match err with Some e => inl e | None => inr tt end) t1 xs); [|done|by apply Hi1|done|done|done].
    unfold try, FlushAppConn. rewrite (bind_ok _ _ _ _ _ Hr). by destruct err.
  - eapply safe_frame; [done|done|by eapply mempool_inv_frame|done|done].
  - by eapply safe_frame.
Qed.

(** ** Every interleaving *)

Definition threads_ok (cfg : MempoolConfig) (c : threads) : Prop :=
  tm_config c.1 = cfg /\ Forall (pc_ok c.1) c.2 /\ exists xs, mempool_inv c.1 xs /\ fits cfg xs.

Lemma race_step_ok cfg c c' : cfg_ok cfg -> mempool_race c c' -> threads_ok cfg c -> threads_ok cfg c'.
Proof.
  intros Hc Hstep (E & Hps & xs & Hi & Hf). destruct Hstep as [t ps p Hp|t ps i p o p' t' Hl Ho Hr|t ps now]; cbn [fst snd] in *.
  - split; [done|]. split; [|by exists xs]. apply Forall_app. split; [done|]. constructor; [|done]. by destruct p.
  - subst cfg. pose proof (Forall_lookup_1 _ _ _ _ Hps Hl) as Hp.
    destruct (part_safe o p t xs Hc Hi Hf Ho Hp) as (p1 & t1 & xs1 & Hr1 & Hi1 & Hf1 & E1 & Hp1). rewrite Hr in Hr1. injection Hr1 as -> ->.
    assert (Hkn : forall e, known t e -> known t1 e) by (intros e He; pose proof (part_known e o p t He) as H; by rewrite Hr in H).
    split; [done|]. split; [|by exists xs1]. apply Forall_insert; [|by apply Hp1].
    eapply Forall_impl; [exact Hps|]. intros q. by apply pc_ok_mono.
  - split; [done|]. split; [done|]. exists xs. split; [by eapply mempool_inv_frame|done].
Qed.

(** C10: the mempool is safe under every interleaving of concurrent calls: whatever calls of
    [CheckTx], [Update], [RemoveTxByKey], [Flush], [FlushAppConn] and [EnableTxsAvailable] are
    under way, each stopped between any two of its sections, with any answers of the
    application and whatever the reads without the lock saw, the mempool never holds more
    transactions or bytes than it is configured for, its counters are the number and the total
    size of the transactions in its list, the two indexes only point to transactions of the list
    with that key or sender, and the next part of every thread returns without a panic. *)
Theorem mempool_race_safe cfg conn c h now t ps :
  cfg_ok cfg -> rtc mempool_race (mk_mempool cfg conn c h now, []) (t, ps) ->
  exists xs, walk (Z.to_nat (Size t)) (TxsFront t) (tm_txs t) = Some xs /\
    Size t = Z.of_nat (length xs) /\ (Size t <= cfg_Size cfg)%Z /\
    SizeBytes t = total xs /\ (SizeBytes t <= cfg_MaxTxsBytes cfg)%Z /\
    (forall k e, tm_txByKey t !! k = Some e -> exists w, (e, w) ∈ xs /\ tx_key (w_tx w) = k) /\
    (forall s e, tm_txBySender t !! s = Some e -> exists w, (e, w) ∈ xs /\ w_sender w = s) /\
    (forall i p o, ps !! i = Some p -> peek_ok t o -> exists p' t', mempool_part o p t = (Ok p', t')).
Proof.
  intros Hc Hr. assert (Hok : threads_ok cfg (t, ps)).
  { assert (H0 : threads_ok cfg (mk_mempool cfg conn c h now, [])).
    { split; [done|]. split; [constructor|]. exists []. split; [apply mk_mempool_inv|]. destruct Hc. split; cbn; lia. }
    revert H0. generalize dependent (mk_mempool cfg conn c h now, @nil mempool_pc). intros c0 Hr. induction Hr; eauto using race_step_ok. }
  destruct Hok as (E & Hps & xs & Hi & Hf). cbn [fst snd] in *. exists xs.
  destruct (mempool_within cfg t xs Hc Hi Hf) as (Hw & Hs & Hs' & Hb & Hb'). split_and!; [done..|apply (mi_key _ _ Hi)|apply (mi_sender _ _ Hi)|].
  intros i p o Hl Ho. subst cfg. destruct (part_safe o p t xs Hc Hi Hf Ho (Forall_lookup_1 _ _ _ _ Hps Hl)) as (p' & t' & _ & Hp & _). eauto.
Qed.
End Race.

(** ** A thread alone *)

Section Alone.
Context {TT : TmTx} {TC : TxCache} {AC : AppConnMempool} {GO : GoOrder}.

Definition alone (x y : TxMempool * mempool_pc) : Prop :=
  exists o, peek_ok x.1 o /\ mempool_part o x.2 x.1 = (Ok y.2, y.1).

(** What a read sees when nobody else runs. *)
Definition nothing : peek := {| pk_len := 0; pk_elt := None |}.
Lemma nothing_ok t : peek_ok t nothing.
Proof. by intros e. Qed.

Lemma alone_part t p p' t' : mempool_part nothing p t = (Ok p', t') -> alone (t, p) (t', p').
Proof. exists nothing. split; [apply nothing_ok|done]. Qed.

Ltac step_alone := apply alone_part; cbn [mempool_part]; unfold bind, get, modify, ret; reflexivity.

(** The scheduler can let a thread run. *)
Lemma race_alone t p t' p' ps i :
  rtc alone (t, p) (t', p') -> ps !! i = Some p -> rtc mempool_race (t, ps) (t', <[i := p']> ps).
Proof.
  intros Hr. remember (t, p) as x eqn:Ex. remember (t', p') as y eqn:Ey. revert t p ps Ex.
  induction Hr as [|x z y (o & Ho & Hp) Hr IH]; intros t p ps -> Hl.
  - simplify_eq. rewrite list_insert_id by done. apply rtc_refl.
  - destruct z as [t1 p1]. cbn [fst snd] in *. eapply rtc_l; [by eapply race_part|].
    rewrite <- (list_insert_insert_eq ps i p' p1). apply (IH Ey t1 p1); [done|]. apply list_lookup_insert_eq. by eapply lookup_lt_Some.
Qed.

Lemma alone_callback k tx res t t' :
  recheckTxCallback tx res t = (Ok tt, t') -> rtc alone (t, AtCount k tx res) (t', AtFlush k).
Proof.
  unfold recheckTxCallback, bind at 1, get, bind at 1, modify. set (n := i64 (tm_txRecheck t - 1)). intros Hr.
  eapply rtc_l; [step_alone|]. fold n. destruct (n =? 0)%Z; [|destruct (n <? 0)%Z].
  - apply bind_inv_ok in Hr as ([] & t1 & Hr1 & Hr2). eapply rtc_l; [apply alone_part; cbn [mempool_part]; by rewrite (bind_ok _ _ _ _ _ Hr1)|].
    apply rtc_once. exists {| pk_len := Size t1; pk_elt := None |}. split; [by intros e|]. unfold modify in Hr2. injection Hr2 as <-. done.
  - injection Hr as <-. apply rtc_refl.
  - apply rtc_once, alone_part. cbn [mempool_part]. by rewrite (bind_ok _ _ _ _ _ Hr).
Qed.

Lemma CheckTxAsync_parts tx b t res t' :
  CheckTxAsync tx b t = (Ok res, t') ->
  exists t1, app_call tx b t = (Ok res, t1) /\ recheckTxCallback tx res t1 = (Ok tt, t').
Proof.
  unfold CheckTxAsync, app_call, bind, get, modify, ret. destruct (conn_CheckTx tx b (tm_conn t)) as [r conn].
  destruct (recheckTxCallback tx r (set_conn conn t)) as [[[]|e|m] t1] eqn:E; intros Hr; simplify_eq. eauto.
Qed.

(** [CheckTx] is a run of its thread. *)
Lemma alone_CheckTx tx id t r t' : CheckTx tx id t = (Ok r, t') -> rtc alone (t, AtAdmit tx id) (t', AtReturn).
Proof.
  intros Hr. unfold CheckTx in Hr. go_inv Hr. rename r0 into a. eapply rtc_l; [apply alone_part; cbn [mempool_part]; by rewrite (bind_ok _ _ _ _ _ Hrun)|].
  destruct a as [e|height]; [go_inv Hr; apply rtc_refl|]. go_inv Hr. rename r0 into res.
  destruct (CheckTxAsync_parts _ _ _ _ _ Hrun0) as (t1 & Hcall & Hcb).
  eapply rtc_l; [apply alone_part; cbn [mempool_part]; by rewrite (bind_ok _ _ _ _ _ Hcall)|].
  etrans; [by apply alone_callback|]. go_inv Hr. eapply rtc_l; [apply alone_part; cbn [mempool_part]; by rewrite (bind_ok _ _ _ _ _ Hrun1)|].
  destruct r0 as [e|]; [go_inv Hr; apply rtc_refl|]. unfold bind at 1, get in Hr. go_inv Hr. go_inv Hr.
  eapply rtc_l; [step_alone|]. apply rtc_once, alone_part. cbn [mempool_part]. by rewrite (bind_ok _ _ _ _ _ Hrun2).
Qed.

Lemma Next_state e (t : TxMempool) next t' : on_txs (Next e) t = (Ok next, t') -> t' = t.
Proof. unfold on_txs, zoom, Next, bind, read_elt, read. destruct (deref _); intros [= _ <-]. by destruct t. Qed.

(** The traversal of a recheck. *)
Lemma alone_recheck fuel cur t t' :
  recheck_loop fuel cur t = (Ok tt, t') ->
  (forall e, cur = Some e -> known t e) /\ rtc alone (t, visit_or_return cur) (t', AtReturn).
Proof.
  revert cur t. induction fuel as [|fuel IH]; intros [e|] t Hr; cbn [recheck_loop] in Hr; try done.
  - go_inv Hr. split; [done|apply rtc_refl].
  - go_inv Hr. rename r into w. assert (s = t) as -> by (unfold elt_wtx, read in Hrun; by injection Hrun). split.
    { intros e' [= <-]. unfold elt_wtx, read in Hrun. injection Hrun as Hx. unfold known. by destruct (cl_heap (tm_txs t) !! e). }
    go_inv Hr. rename r into res. destruct (CheckTxAsync_parts _ _ _ _ _ Hrun0) as (t1 & Hcall & Hcb).
    cbn [visit_or_return]. eapply rtc_l; [apply alone_part; cbn [mempool_part]; by rewrite (bind_ok _ _ _ _ _ Hrun), (bind_ok _ _ _ _ _ Hcall)|].
    etrans; [by apply alone_callback|]. go_inv Hr. rename r into err. eapply rtc_l; [apply alone_part; cbn [mempool_part]; by rewrite (bind_ok _ _ _ _ _ Hrun1)|].
    go_inv Hr. go_inv Hr. rename r0 into next. destruct (IH _ _ Hr) as [Hkn Hgo].
    apply Next_state in Hrun3 as ->. assert (Hnext : alone (s1, AtNext e) (s1, visit_or_return next)).
    { exists {| pk_len := 0; pk_elt := next |}. split; [exact Hkn|done]. }
    destruct err; [|go_inv Hrun2; by eapply rtc_l]. go_inv Hrun2.
    eapply rtc_l; [step_alone|]. by eapply rtc_l.
  - go_inv Hr. split; [done|apply rtc_refl].
Qed.

(** [Update] is a run of its thread. *)
Lemma alone_Update h txs ress pre post t t' :
  Update h txs ress pre post t = (Ok tt, t') -> rtc alone (t, AtUpdate h txs ress pre post) (t', AtReturn).
Proof.
  unfold Update. intros Hr. destruct (negb _) eqn:El; [done|]. do 4 go_inv Hr. unfold bind at 1, get in Hr.
  assert (Hlock : forall b t1, (if (0 <? Size s2)%Z then
        if cfg_Recheck (tm_config s2) then if (Size s2 =? 0)%Z then panic "mempool: cannot run recheck on an empty mempool" else ret true
        else do! modify notifyTxsAvailable in ret false else ret false) s2 = (Ok b, t1) ->
      alone (t, AtUpdate h txs ress pre post) (t1, if b : bool then AtLen else AtReturn)).
  { intros b t1 Hb. apply alone_part. cbn [mempool_part]. unfold update_locked. rewrite El.
    rewrite (bind_ok _ _ t b t1); [done|]. by rewrite (bind_ok _ _ _ _ _ Hrun), (bind_ok _ _ _ _ _ Hrun0), (bind_ok _ _ _ _ _ Hrun1), (bind_ok _ _ _ _ _ Hrun2). }
  destruct (0 <? Size s2)%Z; [destruct (cfg_Recheck (tm_config s2))|].
  - unfold recheckTransactions, bind at 1, get in Hr. destruct (Size s2 =? 0)%Z; [done|]. go_inv Hr.
    eapply rtc_l; [by apply (Hlock true)|]. cbn beta iota. destruct (alone_recheck _ _ _ _ Hr) as [Hkn Hgo].
    eapply (rtc_l _ _ (s2, AtStore (Size s2))); [exists {| pk_len := Size s2; pk_elt := None |}; split; [by intros e|done]|].
    eapply rtc_l; [step_alone|]. unfold modify in Hrun3. injection Hrun3 as Hs3. subst s3.
    eapply rtc_l; [|exact Hgo]. exists {| pk_len := 0; pk_elt := TxsFront s2 |}. split; [exact Hkn|done].
  - eapply rtc_l; [apply (Hlock false); by rewrite (bind_ok _ _ _ _ _ Hr)|]. apply rtc_refl.
  - go_inv Hr. eapply rtc_l; [by apply (Hlock false)|]. apply rtc_refl.
Qed.

(** ** A transaction under way while its block commits *)

Context `{!GoOrderLaws GO}.

Lemma canAddTx_fewer w t xs t' xs' :
  cfg_ok (tm_config t) -> mempool_inv t xs -> fits (tm_config t) xs -> mempool_inv t' xs' -> sublist (raw <$> xs') (raw <$> xs) ->
  tm_config t' = tm_config t -> small t (w_tx w) -> canAddTx w t = None -> canAddTx w t' = None.
Proof.
  intros Hc Hi Hf Hi' Hsub E Hw Hadd. pose proof (fits_raw _ _ _ Hsub Hf) as Hf'.
  destruct (mempool_within _ _ _ Hc Hi Hf) as (_ & Hs & _ & Hb & Hle). destruct (mempool_within _ _ _ Hc Hi' Hf') as (_ & Hs' & _ & Hb' & Hle').
  assert (Hlen : (length xs' <= length xs)%nat) by (apply sublist_length in Hsub; by rewrite !length_fmap in Hsub).
  assert (Htot : (total xs' <= total xs)%Z).
  { apply (fits_raw {| cfg_Size := Z.of_nat (length xs); cfg_MaxTxsBytes := total xs; cfg_MaxTxBytes := 0; cfg_KeepInvalidTxsInCache := false;
      cfg_Recheck := false; cfg_TTLNumBlocks := 0; cfg_TTLDuration := 0; cfg_CacheSize := 0 |} xs xs' Hsub). split; cbn; lia. }
  unfold canAddTx in *. rewrite E, Hs', Hb'. rewrite Hs, Hb in Hadd. destruct Hc. unfold small in Hw.
  pose proof (total_nonneg xs'). pose proof (total_nonneg xs). assert (0 <= Size_wtx w)%Z by (unfold Size_wtx; lia).
  assert (Hw' : (Size_wtx w <= cfg_MaxTxBytes (tm_config t))%Z) by exact Hw.
  rewrite i64_small in Hadd by (unfold is_i64; lia). rewrite i64_small by (unfold is_i64; lia).
  destruct (_ || _) eqn:E1 in Hadd; [done|]. destruct (_ || _) eqn:E2 at 1; [|done]. exfalso.
  apply orb_false_iff in E1 as [?%Z.leb_gt ?%Z.ltb_ge]. apply orb_true_iff in E2 as [?%Z.leb_le|?%Z.ltb_lt]; lia.
Qed.

(** With room, and nothing against it, a transaction is inserted and can be reaped. *)
Lemma initialTxCallback_inserts w res t xs :
  mempool_inv t xs -> (Z.of_nat (length xs) < MaxLength)%Z -> canAddTx w t = None ->
  rct_Code res = 0%Z -> rct_Sender res = "" -> match tm_postCheck t with Some f => f (w_tx w) res | None => None end = None ->
  exists t' e, initialTxCallback w res t = (Ok res, t') /\ mempool_inv t' (xs ++ [(e, accepted_tx w res)]) /\
    tm_txByKey t' !! tx_key (w_tx w) = Some e.
Proof.
  intros Hi Hlen Hadd Hcode Hsend Hpost. unfold initialTxCallback, bind at 1, get. rewrite Hpost, Hcode, Hsend. cbn [Z.eqb negb orb bool_decide].
  rewrite (bool_decide_false (is_Some None)) by (by intros []). cbn [orb String.eqb negb andb].
  rewrite (bind_ok _ _ t true t) by (unfold make_room, bind, get; by rewrite Hadd). cbn [negb].
  destruct (insertTx_ok (accepted_tx w res) t xs Hi Hlen) as (t1 & e & Hr & Hi1 & _ & _ & Hk). unfold accepted_tx in Hr. rewrite Hsend in Hr.
  rewrite (bind_ok _ _ _ _ _ Hr). destruct (notify_frame t1) as (_ & Hk' & _ & Hi').
  exists (notifyTxsAvailable t1), e. split; [done|]. split; [by apply Hi'|]. rewrite Hk', Hk. apply lookup_insert_eq.
Qed.

Lemma indexed_reaped t xs e w : mempool_inv t xs -> (e, w) ∈ xs -> tm_txByKey t !! tx_key (w_tx w) = Some e -> w_tx w ∈ ReapMaxTxs (-1) t.
Proof.
  intros Hi Hin Hk. destruct (repr_lookup _ _ _ _ (mi_repr _ _ Hi) Hin) as (x & Hx & Hv).
  assert (Hall : w ∈ allEntriesSorted t).
  { unfold allEntriesSorted, allEntries. rewrite sort_perm, range_perm. apply list_elem_of_omap. exists (tx_key (w_tx w), e).
    split; [by apply elem_of_map_to_list|]. cbn. rewrite Hx. cbn. by rewrite Hv. }
  unfold ReapMaxTxs. generalize 0%Z. induction Hall as [w' ws|w' w1 ws Hin' IH]; intros n; cbn; [by left|right; auto].
Qed.

(** C28: a transaction can be committed and then enter the mempool: when the application has
    accepted it and its [CheckTx] has yet to insert it, a block that contains it removes nothing
    - and the insertion that follows puts it into the mempool, within the limits, where the next
    block finds it again.  Without the other call the update leaves no transaction of the block
    in the index. *)
Theorem in_flight_tx_survives_commit h txs ress pre post w res t xs :
  cfg_ok (tm_config t) -> mempool_inv t xs -> fits (tm_config t) xs -> small t (w_tx w) -> canAddTx w t = None ->
  rct_Code res = 0%Z -> rct_Sender res = "" ->
  match (match post with Some f => Some f | None => tm_postCheck t end) with Some f => f (w_tx w) res | None => None end = None ->
  length txs = length ress -> w_tx w ∈ txs ->
  exists t1 t2, Update h txs ress pre post t = (Ok tt, t1) /\ tm_txByKey t1 !! tx_key (w_tx w) = None /\
    rtc mempool_race (t, [AtInsert w res; AtUpdate h txs ress pre post]) (t1, [AtInsert w res; AtReturn]) /\
    rtc mempool_race (t1, [AtInsert w res; AtReturn]) (t2, [AtReturn; AtReturn]) /\
    w_tx w ∈ ReapMaxTxs (-1) t2.
Proof.
  intros Hc Hi Hf Hw Hadd Hcode Hsend Hpost Hlen Hin.
  destruct (Update_ok h txs ress pre post t xs Hi Hlen) as (t1 & xs1 & Hu & Hi1 & Hraw & E & _ & _ & Hp1 & Hgone & _).
  pose proof (canAddTx_fewer w t xs t1 xs1 Hc Hi Hf Hi1 Hraw E Hw Hadd) as Hadd1. rewrite <- Hp1 in Hpost.
  assert (Hlt : (Z.of_nat (length xs1) < MaxLength)%Z).
  { rewrite <- (Size_inv _ _ Hi1). unfold canAddTx in Hadd1. destruct (_ || _) eqn:Eo in Hadd1; [done|].
    apply orb_false_iff in Eo as [Eo%Z.leb_gt _]. rewrite E in Eo. destruct Hc. lia. }
  destruct (initialTxCallback_inserts w res t1 xs1 Hi1 Hlt Hadd1 Hcode Hsend Hpost) as (t2 & e & Hr & Hi2 & Hk2).
  exists t1, t2. split_and!; [done|by apply Hgone| | |].
  - apply (race_alone t (AtUpdate h txs ress pre post) t1 AtReturn [AtInsert w res; AtUpdate h txs ress pre post] 1); [by apply alone_Update|done].
  - apply (race_alone t1 (AtInsert w res) t2 AtReturn [AtInsert w res; AtReturn] 0); [|done].
    apply rtc_once, alone_part. cbn [mempool_part]. by rewrite (bind_ok _ _ _ _ _ Hr).
  - apply (indexed_reaped t2 _ e (accepted_tx w res) Hi2); [|done]. apply elem_of_app. right. by left.
Qed.
End Alone.

(** ** Concrete runs *)

(** Two calls of [CheckTx] that were admitted and answered, one after the other; then both
    insert. *)
Definition racing : list mempool_pc := [AtAdmit [x01] 0; AtAdmit [x02] 3].
Abbreviation pool0 := (NewTxMempool (small_cfg true 10) (false : @mconn toy_conn) 1 0).

(** Runs the threads as the list says. *)
Fixpoint schedule (order : list nat) (c : TxMempool * list mempool_pc) : option (TxMempool * list mempool_pc) :=
  match order with
  | [] => Some c
  | i :: order =>
      match c.2 !! i with
      | Some p =>
          match mempool_part nothing p c.1 with
          | (Ok p', t') => schedule order (t', <[i := p']> c.2)
          | _ => None
          end
      | None => None
      end
  end.

Lemma schedule_race order c c' : schedule order c = Some c' -> rtc mempool_race c c'.
Proof.
  revert c. induction order as [|i order IH]; intros [t ps] Hs; cbn [schedule fst snd] in Hs; [injection Hs as ->; apply rtc_refl|].
  destruct (ps !! i) as [p|] eqn:El; [|done]. destruct (mempool_part nothing p t) as [[p'|e|m] t'] eqn:Ep; [|done..].
  eapply rtc_l; [|by apply IH]. by apply (race_part t ps i p nothing).
Qed.

Lemma start_racing (t : TxMempool) ps : Forall entry ps -> rtc mempool_race (t, []) (t, ps).
Proof.
  induction ps as [|p ps IH] using rev_ind; intros Hps; [apply rtc_refl|]. apply Forall_app in Hps as [Hps Hp].
  eapply rtc_r; [by apply IH|]. apply race_call. by inversion Hp.
Qed.

Definition half_way : TxMempool * list mempool_pc :=
  default (pool0, []) (schedule [0; 1; 0; 1; 0; 1; 0; 1; 0] (pool0, racing)).

Lemma half_way_runs : schedule [0; 1; 0; 1; 0; 1; 0; 1; 0] (pool0, racing) = Some half_way.
Proof.
  unfold half_way. assert (Hs : bool_decide (is_Some (schedule [0; 1; 0; 1; 0; 1; 0; 1; 0] (pool0, racing))) = true) by (vm_compute; reflexivity).
  apply bool_decide_eq_true_1 in Hs as [c Hc]. by rewrite Hc.
Qed.

(** One of the two is about to insert, the other one to read the clock. *)
Lemma mempool_race_safe_witness :
  length half_way.2 = 2%nat /\
  exists xs, walk (Z.to_nat (Size half_way.1)) (TxsFront half_way.1) (tm_txs half_way.1) = Some xs /\ (Size half_way.1 <= 2)%Z /\
    exists p' t', mempool_part nothing (default AtReturn (half_way.2 !! 1%nat)) half_way.1 = (Ok p', t').
Proof.
  split; [vm_compute; reflexivity|].
  assert (Hr : rtc mempool_race (pool0, []) half_way).
  { etrans; [apply (start_racing pool0 racing); repeat constructor|]. eapply schedule_race, half_way_runs. }
  rewrite (surjective_pairing half_way) in Hr.
  destruct (mempool_race_safe (small_cfg true 10) (false : @mconn toy_conn) (CacheLRU (NewLRUTxCache 10) : @cache _ AnyCache) 1 0 half_way.1 half_way.2
              (small_cfg_ok true 10) Hr) as (xs & Hw & _ & Hs & _ & _ & _ & _ & Hnext).
  exists xs. split; [exact Hw|]. split; [exact Hs|]. apply (Hnext 1%nat _ nothing); [vm_compute; reflexivity|apply nothing_ok].
Defined.

(** A block of height 2 that commits the transaction whose [CheckTx] is under way. *)
Definition committing : mempool_pc := AtUpdate 2 [[x01]] [ok_res] None None.
Definition answered : TxMempool * list mempool_pc :=
  default (pool0, []) (schedule [0; 0; 0; 0; 0] (pool0, [AtAdmit [x01] 0; committing])).
Definition under_way : WrappedTx :=
  {| w_tx := [x01]; w_hash := tx_key [x01]; w_height := 1; w_timestamp := 0; w_gasWanted := 0; w_priority := 0; w_sender := ""; w_peers := {[0%Z]} |}.
Definition answer : ResponseCheckTx := (conn_CheckTx (AppConnMempool := toy_conn) [x01] false false).1.

Lemma answered_runs : schedule [0; 0; 0; 0; 0] (pool0, [AtAdmit [x01] 0; committing]) = Some answered.
Proof.
  unfold answered. assert (Hs : bool_decide (is_Some (schedule [0; 0; 0; 0; 0] (pool0, [AtAdmit [x01] 0; committing]))) = true) by (vm_compute; reflexivity).
  apply bool_decide_eq_true_1 in Hs as [c Hc]. by rewrite Hc.
Qed.

Lemma answered_empty : mempool_inv answered.1 [].
Proof.
  apply (mempool_inv_frame pool0); [apply mk_mempool_inv|vm_compute; reflexivity..].
Qed.

(** From a new mempool: the call is admitted and answered, the block commits its transaction,
    the call inserts it. *)
Lemma in_flight_tx_survives_commit_witness :
  exists t2, rtc mempool_race (pool0, []) (t2, [AtReturn; AtReturn]) /\ [x01] ∈ ReapMaxTxs (-1) t2.
Proof.
  assert (Hps : answered.2 = [AtInsert under_way answer; committing]) by (vm_compute; reflexivity).
  destruct (in_flight_tx_survives_commit 2 [[x01]] [ok_res] None None under_way answer answered.1 [])
    as (t1 & t2 & _ & _ & Hu & Hi & Hin);
    [apply (small_cfg_ok true 10)|apply answered_empty|split; vm_compute; congruence|vm_compute; congruence|vm_compute; reflexivity..|by left|].
  exists t2. split; [|exact Hin]. etrans; [apply (start_racing pool0 [AtAdmit [x01] 0; committing]); by repeat constructor|].
  etrans; [eapply schedule_race, answered_runs|]. rewrite (surjective_pairing answered), Hps. etrans; [exact Hu|exact Hi].
Defined.
