(* ===== verification/Settlement.v ===== *)
(** * Settlement: the settlement layer clients

    Models settlement/settlement.go ([DAMetaData.ToPath] and [FromPath]),
    settlement/base.go ([BaseLayerClient] over the [HubClient] interface, with the handler
    of its events) and settlement/mock/mock.go (the hub client that keeps the batches in a
    key-value store).  The JSON encoding of a batch is a parameter. *)
From stdpp Require Import base gmap strings vector sorting numbers list.
From S2P Require Import Prelude Strconv KVStore Types Layers.

(** ** DAMetaData *)

Definition dot : Ascii.ascii := Ascii.ascii_of_N 46.

Definition ToPath (d : DAMetaData) : string :=
  String.string_of_list_ascii (String.list_ascii_of_string (dm_Client d) ++ [dot] ++ FormatUint (dm_Height d)).

(** [strings.FieldsFunc] on dots: the non-empty parts; [cur] is the part being read,
    reversed. *)
Fixpoint fields_dot (cur : chars) (s : chars) : list chars :=
  match s with
  | [] => match cur with [] => [] | _ => [rev cur] end
  | c :: s =>
      if decide (c = dot) then match cur with [] => fields_dot [] s | _ => rev cur :: fields_dot [] s end
      else fields_dot (c :: cur) s
  end.

Definition FromPath (path : string) : result DAMetaData :=
  let pathParts := fields_dot [] (String.list_ascii_of_string path) in
  try! p1 := index pathParts 1 in
  try! height := ParseUint p1 in
  try! p0 := index pathParts 0 in
  Ok {| dm_Height := height; dm_Client := String.string_of_list_ascii p0 |}.

(** ** The hub client interface and the base client *)

Class HubClient `{Tendermint} := {
  hub : Type;
  hub_PostBatch : Batch -> DAClient -> DABaseResult -> M hub unit;
  hub_GetLatestBatch : string -> M hub SLResultRetrieveBatch;
  hub_GetBatchAtIndex : string -> Z -> M hub SLResultRetrieveBatch;
  hub_GetSequencers : string -> M hub (list Sequencer);
}.

(** [EventDataNewBatchAccepted], which is also [EventDataNewSettlementBatchAccepted]. *)
Record EventDataNewBatchAccepted := { ev_EndHeight : Z; ev_StateIndex : Z }.

Section Base.
Context {T : Tendermint} {H : HubClient}.

Record BaseLayerClient := {
  bl_latestHeight : Z;
  bl_sequencersList : list Sequencer;
  bl_RollappID : string;
  bl_client : hub;
  bl_emitted : list EventDataNewBatchAccepted;  (* EventNewBatchAccepted published so far *)
}.

Definition set_hub (h : hub) (b : BaseLayerClient) : BaseLayerClient :=
  {| bl_latestHeight := bl_latestHeight b; bl_sequencersList := bl_sequencersList b; bl_RollappID := bl_RollappID b;
     bl_client := h; bl_emitted := bl_emitted b |}.
Definition set_latestHeight (z : Z) (b : BaseLayerClient) : BaseLayerClient :=
  {| bl_latestHeight := z; bl_sequencersList := bl_sequencersList b; bl_RollappID := bl_RollappID b;
     bl_client := bl_client b; bl_emitted := bl_emitted b |}.
Definition set_sequencersList (l : list Sequencer) (b : BaseLayerClient) : BaseLayerClient :=
  {| bl_latestHeight := bl_latestHeight b; bl_sequencersList := l; bl_RollappID := bl_RollappID b;
     bl_client := bl_client b; bl_emitted := bl_emitted b |}.
Definition emit (e : EventDataNewBatchAccepted) (b : BaseLayerClient) : BaseLayerClient :=
  {| bl_latestHeight := bl_latestHeight b; bl_sequencersList := bl_sequencersList b; bl_RollappID := bl_RollappID b;
     bl_client := bl_client b; bl_emitted := bl_emitted b ++ [e] |}.

Definition on_hub {R} (c : M hub R) : M BaseLayerClient R := zoom bl_client set_hub c.

Definition RetrieveBatch (stateIndex : option Z) : M BaseLayerClient SLResultRetrieveBatch :=
  let! b := get in
  match stateIndex with
  | None => on_hub (hub_GetLatestBatch (bl_RollappID b))
  | Some i => on_hub (hub_GetBatchAtIndex (bl_RollappID b) i)
  end.

Definition fetchSequencersList : M BaseLayerClient (list Sequencer) :=
  let! b := get in on_hub (hub_GetSequencers (bl_RollappID b)).

(** [Init] after the fields are set from its arguments. *)
Definition Init_base : M BaseLayerClient unit :=
  let! latestBatch := try (RetrieveBatch None) in
  let! endHeight := match latestBatch with
                    | inl err => if decide (err = ErrBatchNotFound) then ret 0%Z else fail err
                    | inr r => let! b := lift (deref (srb_Batch r)) in ret (sb_EndHeight b)
                    end in
  do! modify (set_latestHeight endHeight) in
  let! l := fetchSequencersList in
  modify (set_sequencersList l).

Definition validateBatch (batch : Batch) (b : BaseLayerClient) : result unit :=
  if negb (bt_StartHeight batch =? u64 (bl_latestHeight b + 1))%Z
  then Err (New "batch start height != latest height + 1")
  else if (bt_EndHeight batch <? bt_StartHeight batch)%Z
  then Err (New "batch end height must be greater than start height")
  else Ok tt.

Definition SubmitBatch (batch : Batch) (daClient : DAClient) (daResult : DABaseResult) : M BaseLayerClient unit :=
  let! b := get in
  match validateBatch batch b with
  | Ok _ => on_hub (hub_PostBatch batch daClient daResult)
  | _ => panic "invalid batch"
  end.

Definition GetSequencersList (b : BaseLayerClient) : list Sequencer := bl_sequencersList b.

Definition GetProposer (b : BaseLayerClient) : option Sequencer :=
  head (filter (fun s => seq_Status s = Proposer) (bl_sequencersList b)).

(** One event of the loop of [stateUpdatesHandler]. *)
Definition stateUpdatesHandler_step (eventData : EventDataNewBatchAccepted) : M BaseLayerClient unit :=
  do! modify (set_latestHeight (ev_EndHeight eventData)) in
  modify (emit {| ev_EndHeight := ev_EndHeight eventData; ev_StateIndex := ev_StateIndex eventData |}).

(** The base client is a settlement layer for the block manager. *)
Definition BaseSettlement : SettlementLayer :=
  {| slc := BaseLayerClient; sl_SubmitBatch := SubmitBatch; sl_RetrieveBatch := RetrieveBatch;
     sl_GetSequencersList := gets GetSequencersList; sl_GetProposer := gets GetProposer |}.
End Base.

(** ** The mock hub client *)

(** [encoding/json] on [settlement.Batch], and on a [MsgUpdateState] read from such a
    text: its start height and number of blocks. *)
Class SLJson := {
  json_batch : SLBatch -> result bytes;
  unjson_batch : bytes -> result SLBatch;
  unjson_msg : bytes -> result (Z * Z);
}.

Class SLJsonLaws (J : SLJson) := {
  json_roundtrip b d : json_batch b = Ok d -> unjson_batch d = Ok b;
  json_msg b d : json_batch b = Ok d -> unjson_msg d = Ok (sb_StartHeight b, 0%Z);
}.

Section Mock.
Context {T : Tendermint} {K : KVStore} {J : SLJson}.

Record MockHub := {
  mh_ProposerPubKey : result PubKey;  (* decoding its hex text *)
  mh_slStateIndex : Z;
  mh_latestHeight : Z;
  mh_settlementKV : db;
  mh_published : list EventDataNewBatchAccepted;
}.

Definition settlementKVPrefix : bytes := [x00].
Definition slStateIndexKey : bytes := [x73; x6c; x53; x74; x61; x74; x65; x49; x6e; x64; x65; x78].  (* "slStateIndex" *)
Definition getKey (key : Z) : bytes := be_split 8 key.

Definition set_kv (d : db) (c : MockHub) : MockHub :=
  {| mh_ProposerPubKey := mh_ProposerPubKey c; mh_slStateIndex := mh_slStateIndex c; mh_latestHeight := mh_latestHeight c;
     mh_settlementKV := d; mh_published := mh_published c |}.
Definition set_index (i h : Z) (c : MockHub) : MockHub :=
  {| mh_ProposerPubKey := mh_ProposerPubKey c; mh_slStateIndex := i; mh_latestHeight := h;
     mh_settlementKV := mh_settlementKV c; mh_published := mh_published c |}.
Definition publish (e : EventDataNewBatchAccepted) (c : MockHub) : MockHub :=
  {| mh_ProposerPubKey := mh_ProposerPubKey c; mh_slStateIndex := mh_slStateIndex c; mh_latestHeight := mh_latestHeight c;
     mh_settlementKV := mh_settlementKV c; mh_published := mh_published c ++ [e] |}.

(** [newHubClient] on the store and the proposer of [initConfig]. *)
Definition newHubClient (proposer : result PubKey) (slstore : db) : result MockHub :=
  let mk i h := {| mh_ProposerPubKey := proposer; mh_slStateIndex := i; mh_latestHeight := h;
                   mh_settlementKV := slstore; mh_published := [] |} in
  match prefix_get K settlementKVPrefix slstore slStateIndexKey with
  | Ok b =>
      if (length b <? 8)%nat then Panic "index out of range"
      else
        let slStateIndex := be_combine (take 8 b) in
        try! b := prefix_get K settlementKVPrefix slstore (getKey slStateIndex) in
        match unjson_msg b with
        | Ok (StartHeight, NumBlocks) => Ok (mk slStateIndex (u64 (StartHeight + NumBlocks - 1)))
        | Err _ => Err (New "error unmarshalling batch")
        | Panic m => Panic m
        end
  | Err _ => Ok (mk 0%Z 0%Z)
  | Panic m => Panic m
  end.

(** [if err != nil { panic(err) }]. *)
Definition or_panic {S A} (c : M S A) : M S A := fun s =>
  match c s with (Err _, s') => (Panic "error", s') | r => r end.

Definition saveBatch (batch : SLBatch) : M MockHub unit :=
  let! b := or_panic (lift (json_batch batch)) in
  let! slStateIndex := gets mh_slStateIndex in
  do! or_panic (zoom mh_settlementKV set_kv (prefix_set K settlementKVPrefix (getKey (u64 (slStateIndex + 1))) b)) in
  do! modify (fun c => set_index (u64 (slStateIndex + 1)) (mh_latestHeight c) c) in
  do! or_panic (zoom mh_settlementKV set_kv (prefix_set K settlementKVPrefix slStateIndexKey (be_split 8 (u64 (slStateIndex + 1))))) in
  modify (fun c => set_index (mh_slStateIndex c) (sb_EndHeight batch) c).

Definition convertBatchtoSettlementBatch (batch : Batch) (daClient : DAClient) (daResult : DABaseResult) : SLBatch :=
  {| sb_StartHeight := bt_StartHeight batch; sb_EndHeight := bt_EndHeight batch;
     sb_AppHashes := (fun block => hdr_AppHash (blk_Header block)) <$> bt_Blocks batch;
     sb_MetaData := Some (Some {| dm_Height := dr_DAHeight daResult; dm_Client := daClient |}) |}.

(** The event is published a little later, without a state index. *)
Definition PostBatch (batch : Batch) (daClient : DAClient) (daResult : DABaseResult) : M MockHub unit :=
  let settlementBatch := convertBatchtoSettlementBatch batch daClient daResult in
  do! saveBatch settlementBatch in
  modify (publish {| ev_EndHeight := sb_EndHeight settlementBatch; ev_StateIndex := 0 |}).

Definition retrieveBatchAtStateIndex (slStateIndex : Z) : M MockHub SLResultRetrieveBatch :=
  read (fun c =>
    match prefix_get K settlementKVPrefix (mh_settlementKV c) (getKey slStateIndex) with
    | Ok b =>
        match unjson_batch b with
        | Ok settlementBatch => Ok {| srb_Code := StatusSuccess; srb_StateIndex := slStateIndex; srb_Batch := Some settlementBatch |}
        | Err _ => Err (New "error unmarshalling batch")
        | Panic m => Panic m
        end
    | Err _ => Err ErrBatchNotFound
    | Panic m => Panic m
    end).

Definition GetBatchAtIndex (rollappID : string) (index : Z) : M MockHub SLResultRetrieveBatch := retrieveBatchAtStateIndex index.

Definition GetLatestBatch (rollappID : string) : M MockHub SLResultRetrieveBatch :=
  let! i := gets mh_slStateIndex in GetBatchAtIndex rollappID i.

Definition GetSequencers (rollappID : string) : M MockHub (list Sequencer) :=
  read (fun c =>
    try! pubKey := mh_ProposerPubKey c in
    Ok [{| seq_PublicKey := pubKey; seq_Status := Proposer |}]).

Definition MockHubClient : HubClient :=
  {| hub := MockHub; hub_PostBatch := PostBatch; hub_GetLatestBatch := GetLatestBatch;
     hub_GetBatchAtIndex := GetBatchAtIndex; hub_GetSequencers := GetSequencers |}.
End Mock.
