(* ===== verification/SettlementSpec.v ===== *)
(** * SettlementSpec: what the settlement clients promise

    The path that names a batch on the data availability layer can be read back, and a
    batch submitted to the mock hub is the latest one, found at the next state index, and
    found again after a restart. *)
From stdpp Require Import base gmap strings vector sorting numbers list.
From S2P Require Import Prelude Strconv KVStore Types Layers Settlement Concrete.

(** ** Paths *)

Lemma digit_not_dot d : (0 <= d < 10)%Z -> digit d <> dot.
Proof.
  intros Hd E. apply (f_equal Ascii.N_of_ascii) in E. unfold digit, dot in E.
  rewrite !Ascii.N_ascii_embedding in E by lia. lia.
Qed.

(** A part without dots is read up to the next dot or to the end. *)
Lemma fields_dot_part s cur rest :
  Forall (fun c => c <> dot) s -> (cur <> [] \/ s <> []) ->
  fields_dot cur (s ++ dot :: rest) = (rev cur ++ s) :: fields_dot [] rest.
Proof.
  revert cur. induction s as [|c s IH]; intros cur Hs Hne; cbn [app fields_dot].
  - rewrite decide_True by done. rewrite app_nil_r. destruct cur; [naive_solver|done].
  - apply Forall_cons in Hs as [Hc Hs]. rewrite decide_False by done. rewrite IH by (auto; left; done).
    f_equal. simpl. by rewrite <- app_assoc.
Qed.

Lemma fields_dot_last s cur : Forall (fun c => c <> dot) s -> (cur <> [] \/ s <> []) -> fields_dot cur s = [rev cur ++ s].
Proof.
  revert cur. induction s as [|c s IH]; intros cur Hs Hne; cbn [app fields_dot].
  - rewrite app_nil_r. destruct cur; [naive_solver|done].
  - apply Forall_cons in Hs as [Hc Hs]. rewrite decide_False by done. rewrite IH by (auto; left; done).
    simpl. by rewrite <- app_assoc.
Qed.

Lemma path_roundtrip (d : DAMetaData) :
  is_u64 (dm_Height d) -> dm_Client d <> EmptyString ->
  Forall (fun c => c <> dot) (String.list_ascii_of_string (dm_Client d)) -> FromPath (ToPath d) = Ok d.
Proof.
  destruct d as [h c]. intros Hh Hne Hdot. simpl in *. unfold FromPath, ToPath. cbn [dm_Height dm_Client].
  rewrite String.list_ascii_of_string_of_list_ascii. simpl app.
  assert (Hc : String.list_ascii_of_string c <> []) by (by destruct c).
  rewrite fields_dot_part by auto. simpl app.
  rewrite fields_dot_last; [|apply digits_Forall; [apply digit_not_dot|apply Hh|done]|right; apply FormatUint_nonempty].
  simpl. rewrite ParseUint_FormatUint by done. simpl. by rewrite String.string_of_list_ascii_of_string.
Qed.

(** The path of a batch on the data availability layer is read back as it was
    written, for every client name without dots that is not empty and every 64-bit
    height; a path of fewer than two parts makes [FromPath] panic instead of returning an
    error. *)
Theorem da_path_roundtrip :
  (forall d : DAMetaData, is_u64 (dm_Height d) -> dm_Client d <> EmptyString ->
     Forall (fun c => c <> dot) (String.list_ascii_of_string (dm_Client d)) -> FromPath (ToPath d) = Ok d) /\
  (forall path, length (fields_dot [] (String.list_ascii_of_string path)) < 2 ->
     FromPath path = Panic "index out of range").
Proof.
  split; [apply path_roundtrip|].
  intros path Hl. unfold FromPath, index. by rewrite lookup_ge_None_2 by lia.
Qed.

(** ** Submission to the mock hub *)

Section Submit.
Context {T : Tendermint} {K : KVStore} `{!KVLaws K} `{!KVReliable K} {J : SLJson} `{!SLJsonLaws J}.
#[local] Existing Instance MockHubClient.
#[local] Arguments be_split : simpl never.

(** What a store write does, when it cannot fail. *)
Lemma prefix_set_run k v (d : db) :
  exists d', prefix_set K settlementKVPrefix k v d = (Ok tt, d') /\
             kv_view d' = <[settlementKVPrefix ++ k := v]> (kv_view d).
Proof.
  unfold prefix_set. pose proof (kv_set_ok (settlementKVPrefix ++ k) v d) as Hok.
  destruct (kv_set_view (settlementKVPrefix ++ k) v d) as [(d' & E & Hv)|(e & d' & E & _)].
  - exists d'. done.
  - by rewrite E in Hok.
Qed.

Lemma getKey_inj i j : is_u64 i -> is_u64 j -> settlementKVPrefix ++ getKey i = settlementKVPrefix ++ getKey j -> i = j.
Proof. intros Hi Hj E%app_inv_head. by apply be_split_inj. Qed.

Lemma getKey_index i : settlementKVPrefix ++ slStateIndexKey <> settlementKVPrefix ++ getKey i.
Proof. intros E%(f_equal length). rewrite !length_app in E. unfold getKey in E. rewrite length_be_split in E. done. Qed.

Definition mock_result (i : Z) (sb : SLBatch) : SLResultRetrieveBatch :=
  {| srb_Code := StatusSuccess; srb_StateIndex := i; srb_Batch := Some sb |}.

(** The batch saved under an index of the store. *)
Definition stored_at (i : Z) (sb : SLBatch) (d : db) : Prop :=
  exists data, kv_view d !! (settlementKVPrefix ++ getKey i) = Some data /\ json_batch sb = Ok data.

Lemma retrieve_stored i sb (c : MockHub) :
  stored_at i sb (mh_settlementKV c) -> retrieveBatchAtStateIndex i c = (Ok (mock_result i sb), c).
Proof.
  intros (data & Hv & Hj). unfold retrieveBatchAtStateIndex, read, prefix_get. rewrite kv_get_view, Hv.
  by rewrite (json_roundtrip _ _ Hj).
Qed.

Lemma RetrieveBatch_at (b : BaseLayerClient) j sb :
  stored_at j sb (mh_settlementKV (bl_client b : MockHub)) -> RetrieveBatch (Some j) b = (Ok (mock_result j sb), b).
Proof.
  intros Hst. unfold RetrieveBatch, bind, get, on_hub, zoom. cbn [hub_GetBatchAtIndex MockHubClient].
  unfold GetBatchAtIndex. rewrite (retrieve_stored j sb _ Hst). by destruct b.
Qed.

Lemma RetrieveBatch_latest (b : BaseLayerClient) i sb :
  mh_slStateIndex (bl_client b : MockHub) = i -> stored_at i sb (mh_settlementKV (bl_client b : MockHub)) ->
  RetrieveBatch None b = (Ok (mock_result i sb), b).
Proof.
  intros <- Hst. unfold RetrieveBatch, bind, get, on_hub, zoom. cbn [hub_GetLatestBatch MockHubClient].
  unfold GetLatestBatch, bind, gets, GetBatchAtIndex. rewrite (retrieve_stored _ sb _ Hst). by destruct b.
Qed.

(** A client that starts finds the latest batch and the proposer. *)
Lemma Init_base_run (b : BaseLayerClient) sb key :
  stored_at (mh_slStateIndex (bl_client b : MockHub)) sb (mh_settlementKV (bl_client b : MockHub)) ->
  mh_ProposerPubKey (bl_client b : MockHub) = Ok key ->
  Init_base b = (Ok tt, set_sequencersList [{| seq_PublicKey := key; seq_Status := Proposer |}]
                          (set_latestHeight (sb_EndHeight sb) b)).
Proof.
  intros Hst Hkey. unfold Init_base. unfold bind at 1, try. rewrite (RetrieveBatch_latest b _ sb eq_refl Hst).
  cbn [srb_Batch mock_result]. unfold bind at 1 2, lift. cbn [deref]. unfold bind, ret, modify, fetchSequencersList, get, on_hub, zoom.
  cbn [hub_GetSequencers MockHubClient]. unfold bind, GetSequencers, read. cbn [bl_client set_latestHeight].
  rewrite Hkey. by destruct b.
Qed.

Lemma saveBatch_run sb data (c : MockHub) :
  json_batch sb = Ok data -> is_u64 (mh_slStateIndex c + 1) ->
  exists c', saveBatch sb c = (Ok tt, c') /\ mh_slStateIndex c' = (mh_slStateIndex c + 1)%Z /\
    mh_ProposerPubKey c' = mh_ProposerPubKey c /\ mh_published c' = mh_published c /\
    stored_at (mh_slStateIndex c + 1) sb (mh_settlementKV c') /\
    kv_view (mh_settlementKV c') !! (settlementKVPrefix ++ slStateIndexKey) = Some (be_split 8 (mh_slStateIndex c + 1)) /\
    (forall j sb', is_u64 j -> j <> (mh_slStateIndex c + 1)%Z -> stored_at j sb' (mh_settlementKV c) -> stored_at j sb' (mh_settlementKV c')).
Proof.
  intros Hj Hi. unfold saveBatch, or_panic, bind, lift, gets, zoom, modify. rewrite Hj, (u64_small _ Hi).
  destruct (prefix_set_run (getKey (mh_slStateIndex c + 1)) data (mh_settlementKV c)) as (d1 & E1 & V1). rewrite E1. simpl.
  destruct (prefix_set_run slStateIndexKey (be_split 8 (mh_slStateIndex c + 1)) d1) as (d2 & E2 & V2). rewrite E2.
  eexists. split; [reflexivity|]. simpl. rewrite V1 in V2. split_and!; try done.
  - exists data. split; [|done]. rewrite V2, lookup_insert_ne by apply getKey_index. apply lookup_insert_eq.
  - rewrite V2. apply lookup_insert_eq.
  - intros j sb' Hju Hne (data' & Hv & Hjs). exists data'. split; [|done].
    rewrite V2, lookup_insert_ne by apply getKey_index. rewrite lookup_insert_ne; [done|].
    intros E. apply getKey_inj in E; [congruence|done|done].
Qed.

(** The restarted hub client. *)
Lemma newHubClient_restarts p i sb d :
  is_u64 i -> kv_view d !! (settlementKVPrefix ++ slStateIndexKey) = Some (be_split 8 i) -> stored_at i sb d ->
  exists c, newHubClient p d = Ok c /\ mh_slStateIndex c = i /\ mh_settlementKV c = d /\ mh_ProposerPubKey c = p.
Proof.
  intros Hi Hk (data & Hv & Hj). unfold newHubClient, prefix_get. rewrite kv_get_view, Hk, length_be_split.
  change (8 <? 8)%nat with false. cbn iota.
  assert (Hc : be_combine (take 8 (be_split 8 i)) = i).
  { rewrite take_ge by (by rewrite length_be_split). rewrite be_combine_split. by apply Z.mod_small. }
  rewrite Hc, kv_get_view, Hv. simpl. rewrite (json_msg _ _ Hj). by eexists.
Qed.

(** C33: a batch that continues the settled heights is accepted by the client over the
    mock hub: it is then the latest batch, under the next state index, with its
    application hashes and its place on the data availability layer; older batches stay
    where they were; the acceptance event moves the client's height to its end, and a
    client started again over the same store finds the same.  Any other batch makes the
    submission panic. *)
Theorem settlement_submit_retrieve (b : BaseLayerClient) (batch : Batch) client da data key :
  let c := bl_client b : MockHub in
  let sb := convertBatchtoSettlementBatch batch client da in
  let i := (mh_slStateIndex c + 1)%Z in
  is_u64 i -> json_batch sb = Ok data -> mh_ProposerPubKey c = Ok key ->
  bt_StartHeight batch = u64 (bl_latestHeight b + 1) -> (bt_StartHeight batch <= bt_EndHeight batch)%Z ->
  (exists b1 b2, SubmitBatch batch client da b = (Ok tt, b1) /\
     stateUpdatesHandler_step {| ev_EndHeight := bt_EndHeight batch; ev_StateIndex := 0 |} b1 = (Ok tt, b2) /\
     mh_published (bl_client b1 : MockHub) = mh_published c ++ [{| ev_EndHeight := bt_EndHeight batch; ev_StateIndex := 0 |}] /\
     RetrieveBatch None b2 = (Ok (mock_result i sb), b2) /\ bl_latestHeight b2 = bt_EndHeight batch /\
     (forall j sb', is_u64 j -> j <> i -> stored_at j sb' (mh_settlementKV c) -> RetrieveBatch (Some j) b2 = (Ok (mock_result j sb'), b2)) /\
     exists c' b3, newHubClient (Ok key) (mh_settlementKV (bl_client b2 : MockHub)) = Ok c' /\
       Init_base {| bl_latestHeight := 0; bl_sequencersList := []; bl_RollappID := bl_RollappID b;
                    bl_client := c' : @hub _ MockHubClient; bl_emitted := [] |} = (Ok tt, b3) /\
       bl_latestHeight b3 = bt_EndHeight batch /\ RetrieveBatch None b3 = (Ok (mock_result i sb), b3) /\
       GetProposer b3 = Some {| seq_PublicKey := key; seq_Status := Proposer |}) /\
  (forall batch', (bt_StartHeight batch' <> u64 (bl_latestHeight b + 1) \/ (bt_EndHeight batch' < bt_StartHeight batch')%Z) ->
     SubmitBatch batch' client da b = (Panic "invalid batch", b)).
Proof.
  intros c sb i Hi Hj Hkey Hstart Hend. split.
  - destruct (saveBatch_run sb data c Hj Hi) as (c1 & Hr & Hi1 & Hk1 & Hp1 & Hs1 & Hx1 & Ho1).
    set (e := {| ev_EndHeight := bt_EndHeight batch; ev_StateIndex := 0 |}).
    assert (Hsub : SubmitBatch batch client da b = (Ok tt, set_hub (publish e c1 : @hub _ MockHubClient) b)).
    { unfold SubmitBatch, bind, get, validateBatch. rewrite (proj2 (Z.eqb_eq _ _) Hstart). cbn [negb].
      rewrite (proj2 (Z.ltb_ge _ _) Hend). unfold on_hub, zoom. cbn [hub_PostBatch MockHubClient].
      unfold PostBatch, bind. fold c. fold sb. by rewrite Hr. }
    eexists _, _. split; [exact Hsub|]. split; [reflexivity|]. simpl. rewrite Hp1. split; [done|].
    fold i in Hi1, Hs1. split; [|split; [done|split]].
    + by apply RetrieveBatch_latest.
    + intros j sb' Hju Hne Hst. by apply RetrieveBatch_at, Ho1.
    + destruct (newHubClient_restarts (Ok key) i sb (mh_settlementKV c1) Hi Hx1 Hs1) as (c' & Hn & Hci & Hcd & Hcp).
      assert (Hst : stored_at (mh_slStateIndex c') sb (mh_settlementKV c')) by (by rewrite Hci, Hcd).
      eexists c', _. split; [done|]. split; [by apply (Init_base_run _ sb key)|]. split; [done|]. split; [|done].
      apply RetrieveBatch_latest; [done|]. simpl. by rewrite Hcd.
  - intros batch' Hbad. unfold SubmitBatch, bind, get, validateBatch.
    destruct (Z.eqb_spec (bt_StartHeight batch') (u64 (bl_latestHeight b + 1))) as [E|E]; simpl; [|done].
    destruct Hbad as [|Hlt]; [done|]. by rewrite (proj2 (Z.ltb_lt _ _) Hlt).
Qed.
End Submit.

(** ** A run on an empty store in memory *)

#[export] Instance DAMetaData_codec : Codec DAMetaData.
Proof. refine (iso_codec (fun d => (dm_Height d, dm_Client d)) (fun '(h, c) => Build_DAMetaData h c) _). by intros []. Defined.

#[export] Instance hash32_codec : Codec hash32.
Proof.
  refine (iso_codec vec_to_list (fun l => default zero_hash (to_vec 32 l)) _). intros c. by rewrite to_vec_vec.
Defined.

#[export] Instance SLBatch_codec : Codec SLBatch.
Proof.
  refine (iso_codec (fun b => (sb_StartHeight b, (sb_EndHeight b, (sb_AppHashes b, sb_MetaData b))))
            (fun '(s, (e, (a, m))) => Build_SLBatch s e a m) _). by intros [].
Defined.

Definition toy_json : SLJson := {|
  json_batch := enc_ok;
  unjson_batch := dec_all;
  unjson_msg d := try! b := dec_all (A := SLBatch) d in Ok (sb_StartHeight b, 0%Z);
|}.

#[export] Instance toy_json_laws : SLJsonLaws toy_json.
Proof.
  split; simpl; [apply codec_law_all|]. intros b d E. by rewrite (codec_law_all _ _ E).
Qed.

Section Run.
#[local] Existing Instance toy.
#[local] Existing Instance MemKV.
#[local] Existing Instance toy_json.

Definition toy_hub : MockHub :=
  {| mh_ProposerPubKey := Ok ([x6b] : @PubKey toy); mh_slStateIndex := 0; mh_latestHeight := 0;
     mh_settlementKV := (∅ : @db MemKV); mh_published := [] |}.
Definition toy_base : BaseLayerClient (H := MockHubClient) :=
  {| bl_latestHeight := 0; bl_sequencersList := []; bl_RollappID := "rollapp"; bl_client := toy_hub : @hub _ MockHubClient;
     bl_emitted := [] |}.
Definition batch12 : Batch := {| bt_StartHeight := 1; bt_EndHeight := 2; bt_Blocks := []; bt_Commits := [] |}.
Definition da_ok : DABaseResult := {| dr_Code := StatusSuccess; dr_Message := ""; dr_DAHeight := 7 |}.

Lemma settlement_submit_retrieve_witness :
  exists b1 b2, SubmitBatch batch12 "mock" da_ok toy_base = (Ok tt, b1) /\
    stateUpdatesHandler_step {| ev_EndHeight := 2; ev_StateIndex := 0 |} b1 = (Ok tt, b2) /\
    RetrieveBatch None b2 = (Ok (mock_result 1 (convertBatchtoSettlementBatch batch12 "mock" da_ok)), b2) /\
    bl_latestHeight b2 = 2%Z.
Proof.
  destruct (settlement_submit_retrieve toy_base batch12 "mock" da_ok (enc (convertBatchtoSettlementBatch batch12 "mock" da_ok)) [x6b])
    as [(b1 & b2 & H1 & H2 & _ & H3 & H4 & _) _].
  - vm_compute. split; [discriminate|reflexivity].
  - reflexivity.
  - reflexivity.
  - reflexivity.
  - vm_compute. discriminate.
  - exists b1, b2. split; [exact H1|]. split; [exact H2|]. split; [exact H3|exact H4].
Defined.
End Run.
