(* ===== verification/Dymension.v ===== *)
(** * Dymension: the hub client of the Dymension settlement layer

    Models settlement/dymension/dymension.go: the messages sent to the hub and read back
    from it, the submission with its retries, and the loop of [PostBatch] that submits,
    waits for acceptance and reports the health of the settlement layer.  The Cosmos
    client is a parameter; waiting on several channels is an answer of that parameter. *)
From stdpp Require Import base gmap strings vector sorting numbers list.
From S2P Require Import Prelude Strconv Types Layers Settlement SettlementSpec Concrete.

(** ** Messages of the hub (x/rollapp/types) *)

Record BlockDescriptor := { bd_Height : Z; bd_StateRoot : bytes; bd_IntermediateStatesRoot : bytes }.

Record MsgUpdateState := {
  mu_Creator : string;
  mu_RollappId : string;
  mu_StartHeight : Z;
  mu_NumBlocks : Z;
  mu_DAPath : string;
  mu_Version : Z;
  mu_BDs : list BlockDescriptor;
}.

Record StateInfo := { si_StartHeight : Z; si_NumBlocks : Z; si_DAPath : string; si_Index : Z }.

(** ** What the client uses of the hub *)

(** What a wait on the channels of [PostBatch] ends with. *)
Inductive Wait := WaitDone | WaitCancelled | WaitAccepted | WaitTimeout.

Class CosmosClient := {
  cosmos : Type;
  cc_Address : result string;                                       (* GetAccount and Address *)
  cc_BroadcastTx : MsgUpdateState -> M cosmos Z;                    (* the code of the response *)
  cc_LatestStateIndex : M cosmos (option Z * option error);         (* the response may be nil *)
  cc_StateInfo : Z -> M cosmos (option StateInfo * option error);
  cc_Done : cosmos -> bool;                                         (* the context is cancelled *)
  cc_Wait : M cosmos Wait;
}.

(** Events on the node's bus. *)
Inductive HubEvent :=
| EventSettlementHealthStatus (Healthy : bool) (Error : option error)
| EventNewSettlementBatchAccepted (e : EventDataNewBatchAccepted).

Section Hub.
Context {T : Tendermint} {C : CosmosClient}.

Record HubState := { hs_client : cosmos; hs_events : list HubEvent }.

Definition on_cosmos {R} (c : M cosmos R) : M HubState R :=
  zoom hs_client (fun x s => {| hs_client := x; hs_events := hs_events s |}) c.
Definition emit_event (e : HubEvent) : M HubState unit :=
  modify (fun s => {| hs_client := hs_client s; hs_events := hs_events s ++ [e] |}).

Record HubConfig := { hc_RollappID : string; hc_batchRetryAttempts : nat }.
Context (cfg : HubConfig).

Definition dymRollappVersion : Z := 0.

Definition convertBatchToMsgUpdateState (batch : Batch) (daClient : DAClient) (daResult : DABaseResult)
    : result MsgUpdateState :=
  try! addr := cc_Address in
  let DAMetaData := {| dm_Height := dr_DAHeight daResult; dm_Client := daClient |} in
  let blockDescriptors :=
    (fun block => {| bd_Height := hdr_Height (blk_Header block);
                     bd_StateRoot := vec_to_list (hdr_AppHash (blk_Header block));
                     bd_IntermediateStatesRoot := replicate 32 x00 |}) <$> bt_Blocks batch in
  Ok {| mu_Creator := addr; mu_RollappId := hc_RollappID cfg; mu_StartHeight := bt_StartHeight batch;
        mu_NumBlocks := u64 (bt_EndHeight batch - bt_StartHeight batch + 1); mu_DAPath := ToPath DAMetaData;
        mu_Version := dymRollappVersion; mu_BDs := blockDescriptors |}.

Definition convertStateInfoToResultRetrieveBatch (stateInfo : StateInfo) : result SLResultRetrieveBatch :=
  try! daMetaData := FromPath (si_DAPath stateInfo) in
  let batchResult := {| sb_StartHeight := si_StartHeight stateInfo;
                        sb_EndHeight := u64 (si_StartHeight stateInfo + si_NumBlocks stateInfo - 1);
                        sb_AppHashes := []; sb_MetaData := Some (Some daMetaData) |} in
  Ok {| srb_Code := StatusSuccess; srb_StateIndex := si_Index stateInfo; srb_Batch := Some batchResult |}.

Definition GetBatchAtIndex_hub (index : Z) : M HubState SLResultRetrieveBatch :=
  let! (stateInfoResp, err) := on_cosmos (cc_StateInfo index) in
  match stateInfoResp with
  | None => fail ErrBatchNotFound
  | Some si => match err with
               | Some e => fail e
               | None => lift (convertStateInfoToResultRetrieveBatch si)
               end
  end.

Definition GetLatestBatch_hub : M HubState SLResultRetrieveBatch :=
  let! (resp, err) := on_cosmos cc_LatestStateIndex in
  match resp with
  | None => fail ErrBatchNotFound
  | Some i => match err with Some e => fail e | None => GetBatchAtIndex_hub i end
  end.

(** [retry.Do] with [attempts] attempts (at least one: the option 0, which retries without
    end, is left out): the last error, or the end of the context. *)
Fixpoint retry_Do {A} (attempts : nat) (f : M HubState A) : M HubState A :=
  let! r := try f in
  match r with
  | inr a => ret a
  | inl e =>
      match attempts with
      | O | 1 => fail e
      | S attempts =>
          let! s := get in
          if cc_Done (hs_client s) then fail (New "context canceled") else retry_Do attempts f
      end
  end.

(** The response's code is looked at, but what is returned is [err], which is nil. *)
Definition submitBatch (msgUpdateState : MsgUpdateState) : M HubState unit :=
  retry_Do (hc_batchRetryAttempts cfg)
    (let! code := on_cosmos (cc_BroadcastTx msgUpdateState) in
     if negb (code =? 0)%Z then ret tt else ret tt).

Definition waitForBatchInclusion (batchStartHeight : Z) : M HubState SLResultRetrieveBatch :=
  retry_Do (hc_batchRetryAttempts cfg)
    (let! latestBatch := GetLatestBatch_hub in
     let! b := lift (deref (srb_Batch latestBatch)) in
     if (sb_StartHeight b =? batchStartHeight)%Z then ret latestBatch else fail ErrBatchNotFound).

Definition healthy : HubEvent := EventSettlementHealthStatus true None.
Definition unhealthy (e : error) : HubEvent := EventSettlementHealthStatus false (Some e).

(** One iteration of the loop of [PostBatch]: whether it returns. *)
Definition post_iteration (msgUpdateState : MsgUpdateState) (startHeight : Z) : M HubState bool :=
  let! s := get in
  if cc_Done (hs_client s) then ret true
  else
    let! submitted := try (submitBatch msgUpdateState) in
    match submitted with
    | inl err => do! emit_event (unhealthy err) in ret false
    | inr _ =>
        let! w := on_cosmos cc_Wait in
        match w with
        | WaitDone | WaitCancelled => ret true
        | WaitAccepted => do! emit_event healthy in ret true
        | WaitTimeout =>
            let! included := try (waitForBatchInclusion startHeight) in
            match included with
            | inl _ => do! emit_event (unhealthy ErrBatchNotAccepted) in ret false
            | inr includedBatch =>
                let! b := lift (deref (srb_Batch includedBatch)) in
                do! emit_event (EventNewSettlementBatchAccepted
                      {| ev_EndHeight := sb_EndHeight b; ev_StateIndex := srb_StateIndex includedBatch |}) in
                do! emit_event healthy in
                ret true
            end
        end
    end.

(** The loop runs until it returns; [None] when it has not after [fuel] iterations. *)
Fixpoint post_loop (fuel : nat) (msgUpdateState : MsgUpdateState) (startHeight : Z) : M HubState (option unit) :=
  match fuel with
  | O => ret None
  | S fuel =>
      let! stop := post_iteration msgUpdateState startHeight in
      if stop : bool then ret (Some tt) else post_loop fuel msgUpdateState startHeight
  end.

Definition PostBatch_hub (fuel : nat) (batch : Batch) (daClient : DAClient) (daResult : DABaseResult)
    : M HubState (option unit) :=
  match convertBatchToMsgUpdateState batch daClient daResult with
  | Ok msgUpdateState => post_loop fuel msgUpdateState (bt_StartHeight batch)
  | _ => panic "failed to convert batch"
  end.

(** [rawEventData.Events[key][0]]: a missing key is an empty slice, whose index panics. *)
Definition event_int (events : gmap string (list string)) (key : string) : result (error + Z) :=
  try! v := index (default [] (events !! key)) 0 in
  match ParseInt (String.list_ascii_of_string v) with Ok z => Ok (inr z) | Err e => Ok (inl e) | Panic m => Panic m end.

Definition int_error (r : error + Z) : option error := match r with inl e => Some e | inr _ => None end.
Definition int_value (r : error + Z) : Z := match r with inl _ => 0%Z | inr z => z end.

(** The errors of the three numbers are collected; the end height is computed in signed
    arithmetic. *)
Definition convertToNewBatchEvent (events : gmap string (list string)) : result EventDataNewBatchAccepted :=
  try! numBlocks := event_int events "state_update.num_blocks" in
  try! startHeight := event_int events "state_update.start_height" in
  try! stateIndex := event_int events "state_update.state_info_index" in
  match multierr_append (multierr_append (int_error numBlocks) (int_error startHeight)) (int_error stateIndex) with
  | Some err => Err err
  | None => Ok {| ev_EndHeight := u64 (i64 (int_value startHeight + int_value numBlocks - 1));
                  ev_StateIndex := u64 (int_value stateIndex) |}
  end.

(** ** Properties *)

(** A [retry_Do] that succeeds ended with a success of its body. *)
Lemma retry_Do_ok {A} n (f : M HubState A) (P : HubState -> Prop) a s s' :
  preserves P f -> P s -> retry_Do n f s = (Ok a, s') -> exists s0, P s0 /\ f s0 = (Ok a, s').
Proof.
  intros Hp. revert s. induction n as [|n IH]; intros s HP Hr; cbn [retry_Do] in Hr; unfold bind at 1, try in Hr;
    pose proof (Hp s HP) as HP1; destruct (f s) as [[x|e|m] s1] eqn:Ef; try done.
  - unfold ret in Hr. simplify_eq. eauto.
  - unfold ret in Hr. simplify_eq. eauto.
  - destruct n as [|n]; [done|]. unfold bind, get in Hr. destruct (cc_Done (hs_client s1)); [done|]. by eapply IH.
Qed.

Lemma retry_Do_preserves {A} n (f : M HubState A) (P : HubState -> Prop) : preserves P f -> preserves P (retry_Do n f).
Proof.
  intros Hp. induction n as [|n IH]; cbn [retry_Do]; apply preserves_bind; try (by apply preserves_try); intros [e|a];
    try apply preserves_ret; try apply preserves_fail.
  destruct n; [apply preserves_fail|]. apply preserves_bind; [apply preserves_get|]. intros s.
  destruct (cc_Done (hs_client s)); [apply preserves_fail|done].
Qed.

(** Calls of the hub publish nothing. *)
Lemma on_cosmos_events {R} (c : M cosmos R) evs : preserves (fun s => hs_events s = evs) (on_cosmos c).
Proof. apply preserves_zoom. by intros s t Hs _. Qed.

Lemma submitBatch_events msg evs : preserves (fun s => hs_events s = evs) (submitBatch msg).
Proof.
  apply retry_Do_preserves, preserves_bind; [apply on_cosmos_events|]. intros c. case_match; apply preserves_ret.
Qed.

Lemma GetLatestBatch_hub_events evs : preserves (fun s => hs_events s = evs) GetLatestBatch_hub.
Proof.
  unfold GetLatestBatch_hub, GetBatchAtIndex_hub. apply preserves_bind; [apply on_cosmos_events|]. intros [[i|] [e|]]; auto with go_inv.
  apply preserves_bind; [apply on_cosmos_events|]. intros [[si|] [e|]]; auto with go_inv.
Qed.

Lemma inclusion_body_events h evs : preserves (fun s => hs_events s = evs)
  (let! latestBatch := GetLatestBatch_hub in
   let! b := lift (deref (srb_Batch latestBatch)) in
   if (sb_StartHeight b =? h)%Z then ret latestBatch else fail ErrBatchNotFound).
Proof.
  apply preserves_bind; [apply GetLatestBatch_hub_events|]. intros r. apply preserves_bind; [apply preserves_lift|].
  intros b. case_match; auto with go_inv.
Qed.

(** An inclusion that is reported is of a batch with the height asked for. *)
Lemma waitForBatchInclusion_ok h s r s' :
  waitForBatchInclusion h s = (Ok r, s') -> hs_events s' = hs_events s /\ exists b, srb_Batch r = Some b /\ sb_StartHeight b = h.
Proof.
  intros Hr. pose proof (retry_Do_preserves (hc_batchRetryAttempts cfg) _ _ (inclusion_body_events h (hs_events s)) s eq_refl) as He.
  unfold waitForBatchInclusion in Hr. rewrite Hr in He. split; [done|].
  destruct (retry_Do_ok _ _ (fun _ => True) _ _ _ ltac:(done) I Hr) as (s0 & _ & Hb). go_inv Hb. go_inv Hb. go_inv Hrun0.
  destruct (srb_Batch r0) as [b|] eqn:E; [|done]. injection Hrun0 as <-.
  destruct (Z.eqb_spec (sb_StartHeight b) h); [|done]. unfold ret in Hb. simplify_eq. eauto.
Qed.

(** The events of one iteration. *)
Definition iteration_events (h : Z) (stop : bool) (evs : list HubEvent) : Prop :=
  if stop then
    evs = [] \/ evs = [healthy] \/
    exists b i, sb_StartHeight b = h /\
      evs = [EventNewSettlementBatchAccepted {| ev_EndHeight := sb_EndHeight b; ev_StateIndex := i |}; healthy]
  else exists e, evs = [unhealthy e].

Lemma post_iteration_events msg h s stop s' :
  post_iteration msg h s = (Ok stop, s') -> exists evs, hs_events s' = hs_events s ++ evs /\ iteration_events h stop evs.
Proof.
  intros Hr. unfold post_iteration in Hr. unfold bind at 1, get in Hr.
  destruct (cc_Done (hs_client s)).
  { unfold ret in Hr. simplify_eq. exists []. rewrite app_nil_r. split; [done|by left]. }
  pose proof (submitBatch_events msg (hs_events s) s eq_refl) as He1. unfold bind at 1, try in Hr.
  destruct (submitBatch msg s) as [[[]|e|m] s1] eqn:E1; simpl in He1; [|unfold emit_event, bind, modify, ret in Hr; simplify_eq; simpl; rewrite He1; eexists; split; [done|by eexists]|done].
  go_inv Hr. pose proof (on_cosmos_events cc_Wait (hs_events s1) s1 eq_refl) as He2. rewrite Hrun in He2. simpl in He2.
  destruct r; try (unfold ret in Hr; simplify_eq; exists []; rewrite app_nil_r; split; [congruence|by left]).
  { unfold emit_event, bind, modify, ret in Hr. simplify_eq. simpl. rewrite He2, He1. eexists. split; [done|]. right. by left. }
  unfold bind at 1, try in Hr. pose proof (retry_Do_preserves (hc_batchRetryAttempts cfg) _ _ (inclusion_body_events h (hs_events s0)) s0 eq_refl) as He3.
  fold (waitForBatchInclusion h) in He3.
  destruct (waitForBatchInclusion h s0) as [[r|e|m] s2] eqn:E2; simpl in He3; [| |done].
  - apply waitForBatchInclusion_ok in E2 as (_ & b & Eb & Hb). rewrite Eb in Hr.
    unfold emit_event, bind, lift, modify, ret in Hr. simpl in Hr. simplify_eq. simpl. rewrite He3, He2, He1, <- app_assoc.
    eexists. split; [done|]. right. right. by exists b, (srb_StateIndex r).
  - unfold emit_event, bind, modify, ret in Hr. simplify_eq. simpl. rewrite He3, He2, He1. eexists. split; [done|by eexists].
Qed.

Lemma post_loop_events fuel msg h s s' :
  post_loop fuel msg h s = (Ok (Some tt), s') ->
  exists errs evs, hs_events s' = hs_events s ++ (unhealthy <$> errs) ++ evs /\ iteration_events h true evs.
Proof.
  revert s. induction fuel as [|fuel IH]; intros s Hr; cbn [post_loop] in Hr; [done|]. go_inv Hr.
  apply post_iteration_events in Hrun as (evs & He & Hev). destruct r.
  - unfold ret in Hr. simplify_eq. by exists [], evs.
  - destruct Hev as (e & ->). apply IH in Hr as (errs & evs & He' & Hev). exists (e :: errs), evs. split; [|done].
    rewrite He', He, <- app_assoc. done.
Qed.

(** What [PostBatch] publishes: one unhealthy event for every attempt that failed, and,
    when it returns, nothing more because the node is stopping, or a healthy event, or the
    acceptance of a batch that starts at the height of the batch posted followed by a
    healthy event. *)
Theorem post_batch_reports_health fuel batch client da s s' :
  PostBatch_hub fuel batch client da s = (Ok (Some tt), s') ->
  exists errs evs, hs_events s' = hs_events s ++ (unhealthy <$> errs) ++ evs /\
                   iteration_events (bt_StartHeight batch) true evs.
Proof.
  unfold PostBatch_hub. destruct (convertBatchToMsgUpdateState batch client da) as [msg| |]; [|done..].
  apply post_loop_events.
Qed.

(** A batch that the hub refuses - a broadcast that returns with a code other than 0 -
    counts as submitted: the client does not try again, and waits for an acceptance until
    the timeout. *)
Theorem refused_broadcast_counts_as_submitted msg s code c' :
  cc_BroadcastTx msg (hs_client s) = (Ok code, c') -> code <> 0%Z ->
  submitBatch msg s = (Ok tt, {| hs_client := c'; hs_events := hs_events s |}).
Proof.
  intros Hb _. unfold submitBatch. destruct (hc_batchRetryAttempts cfg); cbn [retry_Do];
    unfold bind, try, on_cosmos, zoom; rewrite Hb; by destruct (negb (code =? 0)%Z).
Qed.

(** A batch read back from what the hub stores of the update message has the start,
    the end and the place on the data availability layer of the batch sent. *)
Theorem hub_batch_roundtrip batch client da msg i :
  convertBatchToMsgUpdateState batch client da = Ok msg ->
  is_u64 (bt_EndHeight batch) -> is_u64 (dr_DAHeight da) -> client <> EmptyString ->
  Forall (fun c => c <> dot) (String.list_ascii_of_string client) ->
  convertStateInfoToResultRetrieveBatch
    {| si_StartHeight := mu_StartHeight msg; si_NumBlocks := mu_NumBlocks msg; si_DAPath := mu_DAPath msg; si_Index := i |} =
  Ok {| srb_Code := StatusSuccess; srb_StateIndex := i;
        srb_Batch := Some {| sb_StartHeight := bt_StartHeight batch; sb_EndHeight := bt_EndHeight batch; sb_AppHashes := [];
                             sb_MetaData := Some (Some {| dm_Height := dr_DAHeight da; dm_Client := client |}) |} |}.
Proof.
  intros Hm He Hd Hne Hdot. unfold convertBatchToMsgUpdateState in Hm. go_inv Hm. injection Hm as <-. simpl.
  unfold convertStateInfoToResultRetrieveBatch. cbn [si_DAPath si_StartHeight si_NumBlocks si_Index].
  rewrite (path_roundtrip {| dm_Height := dr_DAHeight da; dm_Client := client |}) by done. simpl.
  do 5 f_equal. rewrite <- Z.add_sub_assoc. unfold u64. rewrite <- Zplus_mod_idemp_r, Zminus_mod_idemp_l, Zplus_mod_idemp_r.
  replace (bt_StartHeight batch + (bt_EndHeight batch - bt_StartHeight batch + 1 - 1))%Z with (bt_EndHeight batch) by lia.
  by apply Z.mod_small.
Qed.
End Hub.

(** ** A run against a hub that refuses the broadcast but has the batch *)

Definition toy_cosmos : CosmosClient := {|
  cosmos := nat;  (* broadcasts so far *)
  cc_Address := Ok "dym1";
  cc_BroadcastTx _ := fun n => (Ok 5%Z, S n);
  cc_LatestStateIndex := ret (Some 1%Z, None);
  cc_StateInfo i := ret (Some {| si_StartHeight := 1; si_NumBlocks := 2; si_DAPath := "mock.7"; si_Index := i |}, None);
  cc_Done _ := false;
  cc_Wait := ret WaitTimeout;
|}.

Section Run.
#[local] Existing Instance toy.
#[local] Existing Instance toy_cosmos.

Definition hub_cfg : HubConfig := {| hc_RollappID := "rollapp"; hc_batchRetryAttempts := 10 |}.
Definition hub0 : HubState := {| hs_client := 0 : @cosmos toy_cosmos; hs_events := [] |}.

Lemma post_batch_reports_health_witness :
  exists s' errs evs, PostBatch_hub hub_cfg 3 batch12 "mock" da_ok hub0 = (Ok (Some tt), s') /\
    hs_events s' = (unhealthy <$> errs) ++ evs /\ iteration_events 1 true evs.
Proof.
  destruct (post_batch_reports_health hub_cfg 3 batch12 "mock" da_ok hub0 (PostBatch_hub hub_cfg 3 batch12 "mock" da_ok hub0).2)
    as (errs & evs & He & Hev).
  - vm_compute. reflexivity.
  - exists (PostBatch_hub hub_cfg 3 batch12 "mock" da_ok hub0).2, errs, evs.
    split; [vm_compute; reflexivity|]. split; [exact He|exact Hev].
Defined.

(** A state update of two blocks from height 41 on. *)
Example new_batch_event :
  convertToNewBatchEvent (list_to_map [("state_update.num_blocks", ["2"]); ("state_update.start_height", ["41"]);
                                       ("state_update.state_info_index", ["9"])]) =
  Ok {| ev_EndHeight := 42; ev_StateIndex := 9 |}.
Proof. vm_compute. reflexivity. Qed.

(** The acceptance that the timeout found is published, then the health. *)
Example post_batch_events :
  hs_events (PostBatch_hub hub_cfg 3 batch12 "mock" da_ok hub0).2 =
  [EventNewSettlementBatchAccepted {| ev_EndHeight := 2; ev_StateIndex := 1 |}; healthy].
Proof. vm_compute. reflexivity. Qed.

Definition msg12 : MsgUpdateState := get_ok {| mu_Creator := ""; mu_RollappId := ""; mu_StartHeight := 0; mu_NumBlocks := 0;
  mu_DAPath := ""; mu_Version := 0; mu_BDs := [] |} (convertBatchToMsgUpdateState hub_cfg batch12 "mock" da_ok).

Lemma refused_broadcast_counts_as_submitted_witness :
  submitBatch hub_cfg msg12 hub0 = (Ok tt, {| hs_client := 1 : @cosmos toy_cosmos; hs_events := [] |}).
Proof. apply (refused_broadcast_counts_as_submitted hub_cfg msg12 hub0 5 1); [reflexivity|discriminate]. Defined.

Lemma hub_batch_roundtrip_witness :
  convertStateInfoToResultRetrieveBatch
    {| si_StartHeight := mu_StartHeight msg12; si_NumBlocks := mu_NumBlocks msg12; si_DAPath := mu_DAPath msg12; si_Index := 4 |} =
  Ok {| srb_Code := StatusSuccess; srb_StateIndex := 4;
        srb_Batch := Some {| sb_StartHeight := 1; sb_EndHeight := 2; sb_AppHashes := [];
                             sb_MetaData := Some (Some {| dm_Height := 7; dm_Client := "mock" |}) |} |}.
Proof.
  apply (hub_batch_roundtrip hub_cfg batch12 "mock" da_ok msg12 4).
  - reflexivity.
  - vm_compute. split; [discriminate|reflexivity].
  - vm_compute. split; [discriminate|reflexivity].
  - discriminate.
  - repeat constructor; discriminate.
Defined.
End Run.
