(* ===== verification/HubEvents.v ===== *)
(** * HubEvents: starting the Dymension hub client and its events

    Models the rest of settlement/dymension/dymension.go - the construction of the client
    with its options, [Start], [Stop], [Init], [GetSequencers] and the loop of
    [eventHandler] - with settlement/config.go, and what becomes of an event of the hub in
    the rest of the node: the state updates handler of settlement/base.go and the sync target
    of block/synctarget.go.  The Cosmos client and the codec of public keys are parameters. *)
From stdpp Require Import base gmap strings vector sorting numbers list.
From S2P Require Import Prelude Strconv KVStore Types Serialization Store Conv Executor Gossip Layers Manager ManagerLoops ConcreteNode Settlement SettlementSpec Concrete Dymension.

(** ** The configuration (settlement/config.go) *)

Record SLConfig := {
  sc_KeyringBackend : string;
  sc_NodeAddress : string;
  sc_KeyringHomeDir : string;
  sc_DymAccountName : string;
  sc_RollappID : string;
  sc_GasLimit : Z;
  sc_GasPrices : string;
  sc_GasFees : string;
  sc_ProposerPubKey : string;
}.

Definition SLConfig_Validate (c : SLConfig) : result unit :=
  if negb (bool_decide (sc_GasPrices c = "")) && negb (bool_decide (sc_GasFees c = ""))
  then Err (New "cannot provide both fees and gas prices")
  else if bool_decide (sc_GasPrices c = "") && bool_decide (sc_GasFees c = "")
  then Err (New "must provide either fees or gas prices")
  else if bool_decide (sc_RollappID c = "") then Err (New "must provide rollapp id")
  else Ok tt.

(** The options of the Cosmos client. *)
Inductive CosmosOption :=
| WithAddressPrefix (s : string)
| WithBroadcastMode (s : string)
| WithNodeAddress (s : string)
| WithFees (s : string)
| WithGasLimit (n : Z)
| WithGasPrices (s : string)
| WithKeyringBackend (s : string)
| WithHome (s : string).

Definition addressPrefix : string := "dym".
Definition defaultGasLimit : Z := 300000.

(** The configuration is a pointer: a gas limit of 0 is replaced in place. *)
Definition getCosmosClientOptions (config : SLConfig) : SLConfig * list CosmosOption :=
  let config := {| sc_KeyringBackend := sc_KeyringBackend config; sc_NodeAddress := sc_NodeAddress config;
                   sc_KeyringHomeDir := sc_KeyringHomeDir config; sc_DymAccountName := sc_DymAccountName config;
                   sc_RollappID := sc_RollappID config;
                   sc_GasLimit := if (sc_GasLimit config =? 0)%Z then defaultGasLimit else sc_GasLimit config;
                   sc_GasPrices := sc_GasPrices config; sc_GasFees := sc_GasFees config;
                   sc_ProposerPubKey := sc_ProposerPubKey config |} in
  let options := [WithAddressPrefix addressPrefix; WithBroadcastMode "sync"; WithNodeAddress (sc_NodeAddress config);
                  WithFees (sc_GasFees config); WithGasLimit (sc_GasLimit config); WithGasPrices (sc_GasPrices config)] in
  (config,
   if negb (bool_decide (sc_KeyringHomeDir config = ""))
   then options ++ [WithKeyringBackend (sc_KeyringBackend config); WithHome (sc_KeyringHomeDir config)]
   else options).

(** ** What the client uses of the Cosmos client besides Dymension.v *)

(** An event of the subscription: the query it answers, and its attributes. *)
Record ResultEvent := { re_Query : string; re_Events : gmap string (list string) }.

(** What the select of [eventHandler] receives. *)
Inductive HubSelect := SelDone | SelQuit | SelEvent (event : ResultEvent).

(** A sequencer as the hub lists it. *)
Record SequencerInfo {K : Type} := { si_DymintPubKey : K; si_IsProposer : bool }.
Arguments SequencerInfo K : clear implicits.

Class CosmosEvents {T : Tendermint} (C : CosmosClient) := {
  PackedKey : Type;                                                   (* codectypes.Any *)
  ce_New : list CosmosOption -> result cosmos;                        (* cosmosclient.New *)
  ce_StartEventListener : M cosmos unit;
  ce_StopEventListener : M cosmos unit;
  ce_SubscribeToEvents : string -> string -> M cosmos unit;           (* subscriber, query *)
  ce_SequencersByRollapp : string -> M cosmos (list (SequencerInfo PackedKey));
  ce_UnpackAny : PackedKey -> result PubKey;
  ce_cancel : cosmos -> cosmos;                                       (* the context of the client *)
}.

Section Client.
Context {T : Tendermint} {C : CosmosClient} {CE : CosmosEvents C}.

Definition EventTypeNewSettlementBatchAccepted : string := "EventNewSettlementBatchAccepted".
Definition EventTypeSequencersListUpdated : string := "SequencersListUpdated".

Definition eventStateUpdate (rollappID : string) : string := ("state_update.rollapp_id='" ++ rollappID ++ "'")%string.
Definition eventSequencersListUpdate (rollappID : string) : string :=
  ("sequencers_list_update.rollapp_id='" ++ rollappID ++ "'")%string.

(** [HubClient]; the events it publishes are kept with the Cosmos client in [HubState] of
    Dymension.v.  Durations in nanoseconds. *)
Record DymensionHubClient := {
  dh_config : SLConfig;
  dh_client : option cosmos;
  dh_eventMap : gmap string string;
  dh_batchRetryAttempts : Z;
  dh_batchRetryDelay : Z;
  dh_batchAcceptanceTimeout : Z;
}.

Definition batchRetryDelay : Z := 10 * 1000000000.
Definition batchAcceptanceTimeout : Z := 120 * 1000000000.
Definition batchRetryAttempts : Z := 10.

(** An option changes one field. *)
Definition HubOption : Type := DymensionHubClient -> DymensionHubClient.
Definition WithCosmosClient (c : cosmos) : HubOption := fun d =>
  {| dh_config := dh_config d; dh_client := Some c; dh_eventMap := dh_eventMap d;
     dh_batchRetryAttempts := dh_batchRetryAttempts d; dh_batchRetryDelay := dh_batchRetryDelay d;
     dh_batchAcceptanceTimeout := dh_batchAcceptanceTimeout d |}.
Definition WithBatchRetryAttempts (n : Z) : HubOption := fun d =>
  {| dh_config := dh_config d; dh_client := dh_client d; dh_eventMap := dh_eventMap d;
     dh_batchRetryAttempts := n; dh_batchRetryDelay := dh_batchRetryDelay d;
     dh_batchAcceptanceTimeout := dh_batchAcceptanceTimeout d |}.
Definition WithBatchAcceptanceTimeout (t : Z) : HubOption := fun d =>
  {| dh_config := dh_config d; dh_client := dh_client d; dh_eventMap := dh_eventMap d;
     dh_batchRetryAttempts := dh_batchRetryAttempts d; dh_batchRetryDelay := dh_batchRetryDelay d;
     dh_batchAcceptanceTimeout := t |}.
Definition WithBatchRetryDelay (t : Z) : HubOption := fun d =>
  {| dh_config := dh_config d; dh_client := dh_client d; dh_eventMap := dh_eventMap d;
     dh_batchRetryAttempts := dh_batchRetryAttempts d; dh_batchRetryDelay := t;
     dh_batchAcceptanceTimeout := dh_batchAcceptanceTimeout d |}.

Definition eventMap (rollappID : string) : gmap string string :=
  <[eventSequencersListUpdate rollappID := EventTypeSequencersListUpdated]>
    {[eventStateUpdate rollappID := EventTypeNewSettlementBatchAccepted]}.

(** A client is made with [cosmosclient.New] unless an option set one; the options of the
    Cosmos client change the configuration that the hub client keeps. *)
Definition newDymensionHubClient (config : SLConfig) (options : list HubOption) : result DymensionHubClient :=
  let d := {| dh_config := config; dh_client := None; dh_eventMap := eventMap (sc_RollappID config);
              dh_batchRetryAttempts := batchRetryAttempts; dh_batchRetryDelay := batchRetryDelay;
              dh_batchAcceptanceTimeout := batchAcceptanceTimeout |} in
  let d := foldl (fun d option => option d) d options in
  match dh_client d with
  | Some _ => Ok d
  | None =>
      let '(config, opts) := getCosmosClientOptions config in
      try! client := ce_New opts in
      Ok {| dh_config := config; dh_client := Some client; dh_eventMap := dh_eventMap d;
            dh_batchRetryAttempts := dh_batchRetryAttempts d; dh_batchRetryDelay := dh_batchRetryDelay d;
            dh_batchAcceptanceTimeout := dh_batchAcceptanceTimeout d |}
  end.

Context (d : DymensionHubClient).

(** [Start]: whether [eventHandler] was launched. *)
Definition Start_hub : M HubState bool := do! on_cosmos ce_StartEventListener in ret true.

Definition Stop_hub : M HubState unit :=
  do! on_cosmos (modify ce_cancel) in
  on_cosmos ce_StopEventListener.

Fixpoint unpack_sequencers (l : list (SequencerInfo PackedKey)) : result (list Sequencer) :=
  match l with
  | [] => Ok []
  | sequencer :: l =>
      try! pubKey := ce_UnpackAny (si_DymintPubKey sequencer) in
      try! rest := unpack_sequencers l in
      Ok ({| seq_PublicKey := pubKey; seq_Status := if si_IsProposer sequencer then Proposer else Inactive |} :: rest)
  end.

Definition GetSequencers_hub (rollappID : string) : M HubState (list Sequencer) :=
  let! r := try (on_cosmos (ce_SequencersByRollapp (sc_RollappID (dh_config d)))) in
  match r with
  | inl _ => fail (Wrap ("rollappID: " ++ rollappID) ErrNoSequencerForRollapp)
  | inr sequencers => lift (unpack_sequencers sequencers)
  end.

(** ** The event handler *)

Definition getEventData (eventType : string) (rawEventData : ResultEvent) : result EventDataNewBatchAccepted :=
  if decide (eventType = EventTypeNewSettlementBatchAccepted) then convertToNewBatchEvent (re_Events rawEventData)
  else Err (New ("event type " ++ eventType ++ " not recognized")).

(** An iteration of the loop on what the select received: whether the loop ends. *)
Definition eventHandler_step (sel : HubSelect) : M HubState bool :=
  match sel with
  | SelDone => ret true
  | SelQuit => panic "Settlement WS disconnected"
  | SelEvent event =>
      match dh_eventMap d !! re_Query event with
      | None => ret false
      | Some eventType =>
          match getEventData eventType event with
          | Ok eventData => do! emit_event (EventNewSettlementBatchAccepted eventData) in ret false
          | Err _ => panic "failed to get event data"
          | Panic m => panic m
          end
      end
  end.

(** The subscription, then the loop over what the select receives, in order: [true] when
    the handler has returned. *)
Fixpoint eventHandler_loop (sels : list HubSelect) : M HubState bool :=
  match sels with
  | [] => ret false
  | sel :: sels => let! stop := eventHandler_step sel in if stop : bool then ret true else eventHandler_loop sels
  end.

Definition eventHandler (sels : list HubSelect) : M HubState bool :=
  let! r := try (on_cosmos (ce_SubscribeToEvents "dymension-client" (eventStateUpdate (sc_RollappID (dh_config d))))) in
  match r with
  | inl _ => panic "Error subscribing to events"
  | inr _ => eventHandler_loop sels
  end.
End Client.

(** ** The layer client (settlement/dymension/dymension.go [LayerClient]) *)

Section Layer.
Context {T : Tendermint} {C : CosmosClient} {CE : CosmosEvents C}.

(** The hub client with the state of its connection. *)
Record DymHub := { dy_client : DymensionHubClient; dy_state : HubState }.

Definition on_dym {R} (c : DymensionHubClient -> M HubState R) : M DymHub R := fun h =>
  zoom dy_state (fun s h => {| dy_client := dy_client h; dy_state := s |}) (c (dy_client h)) h.

Definition hub_config (d : DymensionHubClient) : HubConfig :=
  {| hc_RollappID := sc_RollappID (dh_config d); hc_batchRetryAttempts := Z.to_nat (dh_batchRetryAttempts d) |}.

(** [PostBatch] has no result; while its loop has not ended within the fuel the call has
    not returned, which this value stands for. *)
Definition still_posting : error := New "PostBatch has not returned".

Definition post_dym (fuel : nat) (batch : Batch) (daClient : DAClient) (daResult : DABaseResult) : M DymHub unit :=
  let! r := on_dym (fun d => PostBatch_hub (hub_config d) fuel batch daClient daResult) in
  match r with Some _ => ret tt | None => fail still_posting end.

Definition DymensionHub (fuel : nat) : HubClient :=
  {| hub := DymHub;
     hub_PostBatch := post_dym fuel;
     hub_GetLatestBatch _ := on_dym (fun _ => GetLatestBatch_hub);
     hub_GetBatchAtIndex _ i := on_dym (fun _ => GetBatchAtIndex_hub i);
     hub_GetSequencers rollappID := on_dym (fun d => GetSequencers_hub d rollappID) |}.

(** [Init]: the hub client is made without options of its own, and set on the base client
    before the options given. *)
Definition LayerClient_Init (fuel : nat) (config : SLConfig)
    (options : list (@BaseLayerClient T (DymensionHub fuel) -> @BaseLayerClient T (DymensionHub fuel)))
    : result (@BaseLayerClient T (DymensionHub fuel)) :=
  try! d := newDymensionHubClient config [] in
  try! c := deref (dh_client d) in
  let b := {| bl_latestHeight := 0; bl_sequencersList := []; bl_RollappID := sc_RollappID config;
              bl_client := {| dy_client := d; dy_state := {| hs_client := c; hs_events := [] |} |} : @hub T (DymensionHub fuel);
              bl_emitted := [] |} in
  let b := foldl (fun b option => option b) b options in
  match Init_base (H := DymensionHub fuel) b with
  | (Ok _, b) => Ok b
  | (Err e, _) => Err e
  | (Panic m, _) => Panic m
  end.
End Layer.

(** ** An event on its way through the node *)

Section Delivery.
Context {T : Tendermint} {C : CosmosClient} {CE : CosmosEvents C}.

(** [stateUpdatesHandler] on the events published, in order; its query selects the
    accepted batches. *)
Definition deliver_base {H : HubClient} (evs : list HubEvent) : M BaseLayerClient unit :=
  for_each (fun e => match e with
                     | EventNewSettlementBatchAccepted e => stateUpdatesHandler_step e
                     | _ => ret tt
                     end) evs.

(** A state update of the hub: its attributes are decimal numbers. *)
Definition update_event (rollappID : string) (numBlocks startHeight stateIndex : Z) : ResultEvent :=
  {| re_Query := eventStateUpdate rollappID;
     re_Events := list_to_map [("state_update.num_blocks", [String.string_of_list_ascii (FormatInt numBlocks)]);
                               ("state_update.start_height", [String.string_of_list_ascii (FormatInt startHeight)]);
                               ("state_update.state_info_index", [String.string_of_list_ascii (FormatInt stateIndex)])] |}.

Lemma event_int_format (events : gmap string (list string)) key z :
  events !! key = Some [String.string_of_list_ascii (FormatInt z)] -> is_i64 z -> event_int events key = Ok (inr z).
Proof.
  intros He Hz. unfold event_int. rewrite He. cbn -[ParseInt].
  by rewrite String.list_ascii_of_string_of_list_ascii, ParseInt_FormatInt.
Qed.

(** A batch of at least one block, within the range of [int64]. *)
Definition valid_update (n s i : Z) : Prop := (0 < n)%Z /\ (0 < s)%Z /\ (s + n - 1 < 2 ^ 63)%Z /\ is_i64 i.

Lemma convert_update rollappID n s i :
  valid_update n s i ->
  convertToNewBatchEvent (re_Events (update_event rollappID n s i)) = Ok {| ev_EndHeight := s + n - 1; ev_StateIndex := u64 i |}.
Proof.
  intros (Hn & Hs & Hle & Hi). unfold convertToNewBatchEvent.
  rewrite (event_int_format _ "state_update.num_blocks" n) by (done || unfold is_i64; lia).
  rewrite (event_int_format _ "state_update.start_height" s) by (done || unfold is_i64; lia).
  rewrite (event_int_format _ "state_update.state_info_index" i) by done. cbn.
  rewrite i64_small by (unfold is_i64; lia). rewrite u64_small by (unfold is_u64; lia). done.
Qed.

Lemma newDymensionHubClient_map config options d :
  newDymensionHubClient config options = Ok d -> (forall o x, o ∈ options -> dh_eventMap (o x) = dh_eventMap x) ->
  dh_eventMap d = eventMap (sc_RollappID config).
Proof.
  unfold newDymensionHubClient. set (d0 := {| dh_config := config |}). intros Hd Ho.
  assert (Hf : dh_eventMap (foldl (fun d option => option d) d0 options) = dh_eventMap d0).
  { clear Hd. generalize d0. induction options as [|o options IH]; intros x; cbn; [done|].
    rewrite IH; [apply Ho; by left|]. intros o' y Hin. apply Ho. by right. }
  set (d1 := foldl (fun d option => option d) d0 options) in *. destruct (dh_client d1); [by simplify_eq|]. destruct (getCosmosClientOptions config) as [config' opts].
  destruct (ce_New opts); cbn in Hd; by simplify_eq.
Qed.

Lemma eventMap_state_update rollappID : eventMap rollappID !! eventStateUpdate rollappID = Some EventTypeNewSettlementBatchAccepted.
Proof. unfold eventMap. rewrite lookup_insert_ne by (unfold eventStateUpdate, eventSequencersListUpdate; done). by rewrite lookup_singleton_eq. Qed.

Context (d : DymensionHubClient) (rollappID : string) (Hmap : dh_eventMap d = eventMap rollappID).

(** What the handler makes of an event that does not stop it. *)
Inductive handled : HubSelect -> list HubEvent -> Prop :=
| handled_other event : dh_eventMap d !! re_Query event = None -> handled (SelEvent event) []
| handled_update n s i : valid_update n s i ->
    handled (SelEvent (update_event rollappID n s i))
      [EventNewSettlementBatchAccepted {| ev_EndHeight := s + n - 1; ev_StateIndex := u64 i |}].

Lemma eventHandler_step_handled sel evs h :
  handled sel evs -> eventHandler_step d sel h = (Ok false, {| hs_client := hs_client h; hs_events := hs_events h ++ evs |}).
Proof.
  intros [event He|n s i Hv]; unfold eventHandler_step.
  - rewrite He, app_nil_r. by destruct h.
  - change (re_Query (update_event rollappID n s i)) with (eventStateUpdate rollappID). rewrite Hmap, eventMap_state_update.
    unfold getEventData. rewrite decide_True by done. by rewrite convert_update.
Qed.

Lemma eventHandler_loop_handled sels evss h :
  Forall2 handled sels evss ->
  eventHandler_loop d sels h = (Ok false, {| hs_client := hs_client h; hs_events := hs_events h ++ mjoin evss |}).
Proof.
  intros Hf. revert h. induction Hf as [|sel evs sels evss Hh _ IH]; intros h; cbn [eventHandler_loop].
  - cbn. rewrite app_nil_r. by destruct h.
  - rewrite (bind_ok _ _ _ _ _ (eventHandler_step_handled _ _ h Hh)). rewrite IH. cbn. by rewrite app_assoc.
Qed.

End Delivery.

Section Reach.
Context {T : Tendermint} {W : Wire} {K : KVStore} {A : App} {MP : MempoolI} {EB : EventBus}
  {DA : DALayer} {SL : SettlementLayer} {P : P2PClient} {C : CosmosClient} {CE : CosmosEvents C} {H : HubClient}.

(** The batches accepted among the events of the hub client. *)
Definition accepted (evs : list HubEvent) : list EventDataNewBatchAccepted :=
  omap (fun e => match e with EventNewSettlementBatchAccepted e => Some e | _ => None end) evs.

(** [SyncTargetLoop] on the events of the base client, in order; [now] is the clock. *)
Definition deliver_manager (evs : list EventDataNewBatchAccepted) (now : Z) : M Manager unit :=
  for_each (fun e => onNewBatchAccepted (ev_EndHeight e) now) evs.

Lemma deliver_base_run evs (b : BaseLayerClient) :
  exists b', deliver_base evs b = (Ok tt, b') /\ bl_emitted b' = bl_emitted b ++ accepted evs /\
    bl_latestHeight b' = foldl (fun _ e => ev_EndHeight e) (bl_latestHeight b) (accepted evs).
Proof.
  revert b. induction evs as [|[h e|e] evs IH]; intros b; unfold deliver_base; cbn [for_each].
  - exists b. cbn. by rewrite app_nil_r.
  - destruct (IH b) as (b' & E & ?). exists b'. by rewrite (bind_ok _ _ b tt b).
  - destruct (IH (emit {| ev_EndHeight := ev_EndHeight e; ev_StateIndex := ev_StateIndex e |} (set_latestHeight (ev_EndHeight e) b)))
      as (b' & E & He & Hh). exists b'. rewrite (bind_ok _ _ b tt _) by done. split; [done|]. rewrite He, Hh. cbn.
    rewrite <- app_assoc. by destruct e.
Qed.

Lemma deliver_manager_run evs now (m : Manager) :
  exists m', deliver_manager evs now m = (Ok tt, m') /\ m_store m' = m_store m /\
    m_syncTarget m' = foldl (fun _ e => ev_EndHeight e) (m_syncTarget m) evs /\
    (evs <> [] -> m_batchInProcess m' = false /\ m_syncTargetDiode m' = Some (m_syncTarget m')).
Proof.
  revert m. induction evs as [|e evs IH]; intros m; unfold deliver_manager; cbn [for_each]; [by exists m|].
  set (m1 := set_batchInProcess false (set_syncParams (ev_EndHeight e) now (Some (ev_EndHeight e)) m)).
  rewrite (bind_ok _ _ m tt m1) by done. destruct (IH m1) as (m' & E & Hs & Ht & Hb). exists m'. split_and!; [done..|].
  intros _. destruct evs as [|e' evs]; [|by apply Hb]. cbn in E. unfold ret in E. by simplify_eq.
Qed.

(** C19: a state update of the hub reaches the block manager: from the client that
    [newDymensionHubClient] makes, whatever updates and foreign events come before it and
    whatever foreign events after, once the event handler, the state updates handler and the
    sync target loop have run, the settlement client continues at, and the manager
    synchronises up to, the last height of the last batch the hub announced, the manager may
    submit its next batch, and the settlement client accepts exactly the batches that start
    at the following height. *)
Theorem hub_update_reaches_manager config options d sels1 evss1 sels2 n s i h (b : BaseLayerClient) now (m : Manager) :
  newDymensionHubClient config options = Ok d ->
  (forall o x, o ∈ options -> dh_eventMap (o x) = dh_eventMap x) ->
  Forall2 (handled d (sc_RollappID config)) sels1 evss1 -> valid_update n s i ->
  Forall (fun sel => exists event, sel = SelEvent event /\ dh_eventMap d !! re_Query event = None) sels2 ->
  exists h' evs b' m',
    eventHandler_loop d (sels1 ++ SelEvent (update_event (sc_RollappID config) n s i) :: sels2) h = (Ok false, h') /\
    hs_events h' = hs_events h ++ evs /\
    deliver_base evs b = (Ok tt, b') /\
    deliver_manager (drop (length (bl_emitted b)) (bl_emitted b')) now m = (Ok tt, m') /\
    bl_latestHeight b' = (s + n - 1)%Z /\ m_syncTarget m' = (s + n - 1)%Z /\ m_syncTargetDiode m' = Some (s + n - 1)%Z /\
    m_batchInProcess m' = false /\
    (forall batch, validateBatch batch b' = Ok tt <-> (bt_StartHeight batch = s + n /\ s + n <= bt_EndHeight batch)%Z).
Proof.
  intros Hnew Hopts H1 Hv H2.
  assert (Hmap : dh_eventMap d = eventMap (sc_RollappID config)) by (by eapply newDymensionHubClient_map).
  set (last_ev := {| ev_EndHeight := s + n - 1; ev_StateIndex := u64 i |}).
  assert (Hall : Forall2 (handled d (sc_RollappID config)) (sels1 ++ SelEvent (update_event (sc_RollappID config) n s i) :: sels2)
                   (evss1 ++ [EventNewSettlementBatchAccepted last_ev] :: replicate (length sels2) [])).
  { apply Forall2_app; [done|]. constructor; [by constructor|]. clear -H2.
    induction H2 as [|sel sels (event & -> & He) _ IH]; constructor; [by constructor|done]. }
  destruct (deliver_base_run (mjoin (evss1 ++ [EventNewSettlementBatchAccepted last_ev] :: replicate (length sels2) [])) b)
    as (b' & Eb & Hem & Hlat).
  set (acc := accepted _) in Hem, Hlat.
  assert (Hacc : exists acc1, acc = acc1 ++ [last_ev]).
  { exists (accepted (mjoin evss1)). unfold acc, accepted. rewrite join_app, omap_app. f_equal. cbn. f_equal.
    generalize (length sels2). clear. intros k. by induction k. }
  destruct Hacc as (acc1 & Hacc). rewrite Hacc, foldl_app in Hlat. cbn in Hlat.
  destruct (deliver_manager_run acc now m) as (m' & Em & _ & Ht & Hd). rewrite Hacc, foldl_app in Ht. cbn in Ht.
  destruct Hd as [Hip Hdi]; [rewrite Hacc; by destruct acc1|].
  eexists _, _, b', m'. split_and!.
  - by apply (eventHandler_loop_handled d (sc_RollappID config)).
  - done.
  - done.
  - by rewrite Hem, drop_app_length.
  - done.
  - done.
  - by rewrite Hdi, Ht.
  - done.
  - intros batch. destruct Hv as (Hn & Hs & Hle & _). unfold validateBatch. rewrite Hlat, u64_small by (unfold is_u64; lia).
    replace (s + n - 1 + 1)%Z with (s + n)%Z by lia. destruct (Z.eqb_spec (bt_StartHeight batch) (s + n)) as [E|E]; cbn; [|split; [done|lia]].
    rewrite E. destruct (Z.ltb_spec (bt_EndHeight batch) (s + n)); split; done || lia.
Qed.
End Reach.

(** ** What stops the node *)

Section Panics.
Context {T : Tendermint} {C : CosmosClient} {CE : CosmosEvents C}.

(** What an event of the hub does: the loop ends when the client is stopped, an event of
    another query is ignored, a well formed state update is published; but a lost
    connection, an update of the sequencers list - which the table of events lists and
    [getEventData] does not know - and a state update with a missing or malformed number
    panic, and the node with it, with nothing published. *)
Theorem hub_event_outcomes d rollappID sel h :
  dh_eventMap d = eventMap rollappID ->
  match sel with
  | SelDone => eventHandler_step d sel h = (Ok true, h)
  | SelQuit => eventHandler_step d sel h = (Panic "Settlement WS disconnected", h)
  | SelEvent event =>
      if decide (re_Query event = eventStateUpdate rollappID) then
        match convertToNewBatchEvent (re_Events event) with
        | Ok e => eventHandler_step d sel h = (Ok false, {| hs_client := hs_client h; hs_events := hs_events h ++ [EventNewSettlementBatchAccepted e] |})
        | _ => exists msg, eventHandler_step d sel h = (Panic msg, h)
        end
      else if decide (re_Query event = eventSequencersListUpdate rollappID)
      then eventHandler_step d sel h = (Panic "failed to get event data", h)
      else eventHandler_step d sel h = (Ok false, h)
  end.
Proof.
  intros Hmap. destruct sel as [| |event]; [done..|]. unfold eventHandler_step. rewrite Hmap.
  case_decide as E1; [rewrite E1, eventMap_state_update; unfold getEventData; rewrite decide_True by done;
    destruct (convertToNewBatchEvent (re_Events event)); by eauto|].
  unfold eventMap. case_decide as E2; [by rewrite E2, lookup_insert_eq|]. by rewrite lookup_insert_ne, lookup_singleton_ne.
Qed.

(** A number that is missing. *)
Lemma missing_number_panics (events : gmap string (list string)) :
  events !! "state_update.num_blocks" = None -> convertToNewBatchEvent events = Panic "index out of range".
Proof. intros E. unfold convertToNewBatchEvent, event_int. by rewrite E. Qed.
End Panics.

(** ** A concrete hub *)

Section HubRun.
#[local] Existing Instance toy.
#[local] Existing Instance toy_cosmos.

#[local] Instance toy_cosmos_events : CosmosEvents toy_cosmos := {|
  PackedKey := bytes;
  ce_New _ := Ok 0;
  ce_StartEventListener := ret tt;
  ce_StopEventListener := ret tt;
  ce_SubscribeToEvents _ _ := ret tt;
  ce_SequencersByRollapp _ := ret [{| si_DymintPubKey := [Byte.x6b]; si_IsProposer := true |}];
  ce_UnpackAny k := Ok k;
  ce_cancel c := c;
|}.

Definition sl_conf : SLConfig :=
  {| sc_KeyringBackend := "test"; sc_NodeAddress := "http://hub"; sc_KeyringHomeDir := ""; sc_DymAccountName := "seq";
     sc_RollappID := "rollapp"; sc_GasLimit := 0; sc_GasPrices := "1udym"; sc_GasFees := ""; sc_ProposerPubKey := "" |}.

(** The client made without options keeps the default gas limit in its configuration. *)
Example new_hub_client :
  (fun d => (sc_GasLimit (dh_config d), dh_client d, dh_batchRetryAttempts d)) <$> (match newDymensionHubClient sl_conf [] with Ok d => Some d | _ => None end)
  = Some (300000%Z, Some 0, 10%Z).
Proof. vm_compute. reflexivity. Qed.

(** The layer client starts from the last batch of the hub, with its proposer. *)
Example layer_client_init :
  match LayerClient_Init 3 sl_conf [] with Ok b => Some (bl_latestHeight b, seq_Status <$> bl_sequencersList b) | _ => None end
  = Some (2%Z, [Proposer]).
Proof. vm_compute. reflexivity. Qed.

Definition toy_hub_client : DymensionHubClient :=
  {| dh_config := (getCosmosClientOptions sl_conf).1; dh_client := Some (0 : @cosmos toy_cosmos); dh_eventMap := eventMap "rollapp";
     dh_batchRetryAttempts := 10; dh_batchRetryDelay := batchRetryDelay; dh_batchAcceptanceTimeout := batchAcceptanceTimeout |}.
Definition toy_base : @BaseLayerClient toy (DymensionHub 3) :=
  {| bl_latestHeight := 2; bl_sequencersList := [toy_proposer]; bl_RollappID := "rollapp";
     bl_client := {| dy_client := toy_hub_client; dy_state := hub0 |} : @hub toy (DymensionHub 3); bl_emitted := [] |}.

Import ToyInstances.

(** A foreign event, the update of heights 3 to 5 with index 2, then an event of another
    rollapp. *)
Lemma hub_update_reaches_manager_witness :
  exists h' evs b' m',
    eventHandler_loop toy_hub_client
      [SelEvent {| re_Query := "tm.event='Tx'"; re_Events := ∅ |}; SelEvent (update_event "rollapp" 3 3 2);
       SelEvent (update_event "other" 9 9 9)] hub0 = (Ok false, h') /\
    hs_events h' = evs /\
    deliver_base evs toy_base = (Ok tt, b') /\ deliver_manager (bl_emitted b') 7 (toy_node []) = (Ok tt, m') /\
    bl_latestHeight b' = 5%Z /\ m_syncTarget m' = 5%Z.
Proof.
  destruct (hub_update_reaches_manager sl_conf [] toy_hub_client [SelEvent {| re_Query := "tm.event='Tx'"; re_Events := ∅ |}] [[]]
    [SelEvent (update_event "other" 9 9 9)] 3 3 2 hub0 toy_base 7 (toy_node []))
    as (h' & evs & b' & m' & E1 & E2 & E3 & E4 & E5 & E6 & _).
  - reflexivity.
  - intros o x Hin. inversion Hin.
  - constructor; [|constructor]. constructor. reflexivity.
  - unfold valid_update, is_i64. lia.
  - constructor; [|constructor]. eexists. split; [reflexivity|]. reflexivity.
  - exists h', evs, b', m'. split_and!; [exact E1|exact E2|exact E3|exact E4|exact E5|exact E6].
Defined.

(** An update of the list of sequencers stops the node. *)
Lemma hub_event_outcomes_witness :
  eventHandler_step toy_hub_client (SelEvent {| re_Query := eventSequencersListUpdate "rollapp"; re_Events := ∅ |}) hub0
  = (Panic "failed to get event data", hub0).
Proof.
  exact (hub_event_outcomes toy_hub_client "rollapp"
    (SelEvent {| re_Query := eventSequencersListUpdate "rollapp"; re_Events := ∅ |}) hub0 eq_refl).
Defined.
End HubRun.
