(* ===== verification/DA.v ===== *)
(** * DA: the data availability clients

    Models da/mock/mock.go (a client over a key-value store) and the Celestia client:
    da/celestia/celestia.go, the gas estimate of da/celestia/fees.go and the share count
    of da/celestia/types/types.go, with the helper of da/utils.go.  The Celestia node, the
    floating-point products of the fee computation and SHA-1 are parameters. *)
From stdpp Require Import base gmap strings vector sorting numbers list.
From S2P Require Import Prelude KVStore Types Serialization Layers.

(** [err.Error()]. *)
Fixpoint error_text (e : error) : string :=
  match e with
  | New msg => msg
  | Wrap msg e => (msg ++ ": " ++ error_text e)%string
  | Multi e1 e2 => (error_text e1 ++ "; " ++ error_text e2)%string
  end.

Definition da_error (e : error) : DABaseResult :=
  {| dr_Code := StatusError; dr_Message := error_text e; dr_DAHeight := 0 |}.

(** ** The mock client *)

Section Mock.
Context {T : Tendermint} {W : Wire} {K : KVStore} (sha1 : bytes -> bytes).

Record MockDA := { md_dalcKV : db; md_daHeight : Z; md_BlockTime : Z (* nanoseconds *) }.

Definition defaultBlockTime_mock : Z := 3000000000.

(** [Init], given [time.ParseDuration]. *)
Definition Init_mock (ParseDuration : bytes -> result Z) (config : bytes) (dalcKV : db) : result MockDA :=
  try! blockTime := (if (0 <? length config)%nat then ParseDuration config else Ok defaultBlockTime_mock) in
  Ok {| md_dalcKV := dalcKV; md_daHeight := 1; md_BlockTime := blockTime |}.

Definition uint64ToBinary (daHeight : Z) : bytes := be_split 8 daHeight.
Definition getKey_da (daHeight height : Z) : bytes := be_split 8 daHeight ++ be_split 8 height.

Definition on_dalcKV {R} (c : M db R) : M MockDA R :=
  zoom md_dalcKV (fun d m => {| md_dalcKV := d; md_daHeight := md_daHeight m; md_BlockTime := md_BlockTime m |}) c.

Definition SubmitBatch_mock (batch : Batch) : M MockDA DABaseResult :=
  let! daHeight := gets md_daHeight in
  match Batch_MarshalBinary batch with
  | Panic msg => panic msg
  | Err e => ret (da_error e)
  | Ok blob =>
      let hash := sha1 (uint64ToBinary (bt_EndHeight batch)) in
      let! r := try (on_dalcKV (kv_set (getKey_da daHeight (bt_StartHeight batch)) hash)) in
      match r with
      | inl e => ret (da_error e)
      | inr _ =>
          let! r := try (on_dalcKV (kv_set hash blob)) in
          match r with
          | inl e => ret (da_error e)
          | inr _ => ret {| dr_Code := StatusSuccess; dr_Message := "OK"; dr_DAHeight := daHeight |}
          end
      end
  end.

(** The loop over the iterator: an error ends it. *)
Fixpoint retrieve_loop (d : db) (iter : iterator) : result (DABaseResult + list (option Batch)) :=
  match iter with
  | [] => Ok (inr [])
  | (_, value) :: iter =>
      let hash := match value with Ok v => v | _ => [] end in  (* Value of an item that cannot be read *)
      match kv_get d hash with
      | Panic msg => Panic msg
      | Err e => Ok (inl (da_error e))
      | Ok blob =>
          match Batch_UnmarshalBinary blob with
          | Panic msg => Panic msg
          | Err e => Ok (inl (da_error e))
          | Ok batch =>
              try! rest := retrieve_loop d iter in
              Ok (match rest with inl e => inl e | inr bs => inr (Some batch :: bs) end)
          end
      end
  end.

Definition RetrieveBatches_mock (dataLayerHeight : Z) : M MockDA DAResultRetrieveBatch :=
  let! m := get in
  if (md_daHeight m <=? dataLayerHeight)%Z
  then ret {| drr_Base := {| dr_Code := StatusError; dr_Message := "batch not found"; dr_DAHeight := 0 |}; drr_Batches := [] |}
  else
    let iter := kv_prefix_iterator (md_dalcKV m) (uint64ToBinary dataLayerHeight) in
    let! r := lift (retrieve_loop (md_dalcKV m) iter) in
    ret match r with
        | inl e => {| drr_Base := e; drr_Batches := [] |}
        | inr batches => {| drr_Base := {| dr_Code := StatusSuccess; dr_Message := ""; dr_DAHeight := 0 |}; drr_Batches := batches |}
        end.

Definition CheckBatchAvailability_mock (dataLayerHeight : Z) : M MockDA DAResultCheckBatch :=
  let! batchesRes := RetrieveBatches_mock dataLayerHeight in
  ret {| drc_Base := {| dr_Code := dr_Code (drr_Base batchesRes); dr_Message := ""; dr_DAHeight := 0 |};
         drc_DataAvailable := (0 <? length (drr_Batches batchesRes))%nat |}.

(** [updateDAHeight] with the random number [r]. *)
Definition updateDAHeight (r : Z) : M MockDA unit :=
  modify (fun m => {| md_dalcKV := md_dalcKV m; md_daHeight := u64 (md_daHeight m + (r mod 10 + 1));
                      md_BlockTime := md_BlockTime m |}).

Definition MockDALayer : DALayer :=
  {| dalc := MockDA; da_SubmitBatch := SubmitBatch_mock; da_CheckBatchAvailability := CheckBatchAvailability_mock;
     da_RetrieveBatches := RetrieveBatches_mock; da_GetClientType := "mock" |}.
End Mock.

(** ** Celestia: shares and gas *)

Definition ShareSize : Z := 512.
Definition NamespaceVersionSize : Z := 1.
Definition NamespaceIDSize : Z := 28.
Definition NamespaceSize : Z := NamespaceVersionSize + NamespaceIDSize.
Definition ShareInfoBytes : Z := 1.
Definition SequenceLenBytes : Z := 4.
Definition FirstSparseShareContentSize : Z := ShareSize - NamespaceSize - ShareInfoBytes - SequenceLenBytes.
Definition ContinuationSparseShareContentSize : Z := ShareSize - NamespaceSize - ShareInfoBytes.

(** [for uint32(bytesAvailable) < sequenceLen]: [None] when the fuel runs out.
    [bytesAvailable] is an [int]; its conversion to 32 bits does not depend on its width. *)
Fixpoint shares_loop (fuel : nat) (bytesAvailable sharesNeeded sequenceLen : Z) : option Z :=
  if (u32 bytesAvailable <? sequenceLen)%Z then
    match fuel with
    | O => None
    | S fuel => shares_loop fuel (bytesAvailable + ContinuationSparseShareContentSize) (sharesNeeded + 1) sequenceLen
    end
  else Some sharesNeeded.

Definition SparseSharesNeeded (fuel : nat) (sequenceLen : Z) : option Z :=
  if (sequenceLen =? 0)%Z then Some 0%Z
  else if (sequenceLen <? FirstSparseShareContentSize)%Z then Some 1%Z
  else shares_loop fuel FirstSparseShareContentSize 1 sequenceLen.

(** Enough for every size up to four gigabytes less one share (above it the comparison may
    wrap around): [DASpec.sparse_shares_exact]. *)
Definition shares_fuel (sequenceLen : Z) : nat := Z.to_nat (sequenceLen / ContinuationSparseShareContentSize + 1).

Fixpoint total_shares (blobSizes : list Z) : option Z :=
  match blobSizes with
  | [] => Some 0%Z
  | size :: sizes =>
      match SparseSharesNeeded (shares_fuel size) size, total_shares sizes with
      | Some n, Some m => Some (u64 (n + m))
      | _, _ => None
      end
  end.

Definition GasToConsume (blobSizes : list Z) (gasPerByte : Z) : option Z :=
  (fun totalSharesUsed => u64 (totalSharesUsed * ShareSize * gasPerByte)) <$> total_shares blobSizes.

Definition PFBGasFixedCost : Z := 75000.
Definition BytesPerBlobInfo : Z := 70.
Definition DefaultGasPerBlobByte : Z := 8.
Definition DefaultTxSizeCostPerByte : Z := 10.

Definition EstimateGas (blobSizes : list Z) (gasPerByte txSizeCost : Z) : option Z :=
  (fun gas => u64 (gas + txSizeCost * BytesPerBlobInfo * Z.of_nat (length blobSizes) + PFBGasFixedCost))
  <$> GasToConsume blobSizes gasPerByte.

Definition DefaultEstimateGas (blobSize : Z) : option Z :=
  EstimateGas [blobSize] DefaultGasPerBlobByte DefaultTxSizeCostPerByte.

(** ** The Celestia client *)

Record TxResponse := { tr_Code : Z; tr_Height : Z; tr_TxHash : string; tr_RawLog : string }.

Class CelestiaNode := {
  cnode : Type;
  cn_SubmitPFB : bytes -> Z -> Z -> M cnode (option TxResponse * option error);  (* blob, fees, gas *)
  cn_NamespacedData : Z -> M cnode (list bytes);
  cn_NamespacedShares : Z -> M cnode (list bytes);
  cn_Tx : bytes -> M cnode (option Z);          (* the height of a transaction, by its hash *)
  cn_Publish : bool -> option error -> M cnode unit;  (* a health event on the node's bus *)
  cn_Done : cnode -> bool;                      (* the context is cancelled *)
}.

Record CelestiaConfig := {
  cel_Fee : Z;
  cel_Ceil : Z -> Z;    (* int64(math.Ceil(GasPrices * float64(gas))) *)
  cel_Adjust : Z -> Z;  (* uint64(float64(gas) * GasAdjustment) *)
  cel_txPollingAttempts : nat;  (* positive: 0 would retry without end *)
  cel_retryError : list error -> error;  (* the error of [retry.Do]: those of all the attempts *)
  cel_hex : string -> result bytes;
}.

Section Celestia.
Context {T : Tendermint} {W : Wire} {N : CelestiaNode} (c : CelestiaConfig).

Definition calculateFees (gas : Z) : Z := if (cel_Fee c =? 0)%Z then cel_Ceil c gas else cel_Fee c.

(** The result to return when the event cannot be published. *)
Definition SubmitBatchHealthEventHelper (healthy : bool) (err : option error) : M cnode (option DABaseResult) :=
  let! r := try (cn_Publish healthy err) in
  ret (match r with inl e => Some (da_error e) | inr _ => None end).

(** The body that [waitForTXInclusion] retries. *)
Definition query_tx (hash : bytes) : M cnode Z :=
  let! result := cn_Tx hash in
  match result with
  | Some height => ret (u64 height)
  | None => fail (New "transaction not found")
  end.

(** [retry.Do] with [attempts] more attempts after this one, [errs] the errors so far. *)
Fixpoint poll_tx (attempts : nat) (errs : list error) (hash : bytes) : M cnode Z :=
  let! r := try (query_tx hash) in
  match r with
  | inr height => ret height
  | inl e =>
      match attempts with
      | O => fail (cel_retryError c (errs ++ [e]))
      | S attempts => poll_tx attempts (errs ++ [e]) hash
      end
  end.

Definition waitForTXInclusion (txHash : string) : M cnode Z :=
  let! hashBytes := lift (cel_hex c txHash) in
  poll_tx (pred (cel_txPollingAttempts c)) [] hashBytes.

(** A failed attempt: an unhealthy event, and again unless it cannot be published. *)
Definition submit_failed (err : option error) : M cnode (option DABaseResult) := SubmitBatchHealthEventHelper false err.

(** One iteration of the loop of [SubmitBatch]: the result it returns, if any. *)
Definition submit_attempt (blob : bytes) (fees gasWanted : Z) : M cnode (option DABaseResult) :=
  let! s := get in
  if cn_Done s then ret (Some {| dr_Code := StatusUnknown; dr_Message := ""; dr_DAHeight := 0 |})
  else
    let! (txResponse, err) := cn_SubmitPFB blob fees gasWanted in
    match txResponse with
    | None => submit_failed err
    | Some tx =>
        if negb (tr_Code tx =? 0)%Z then submit_failed (Some (New (tr_RawLog tx)))
        else
          let! included := if (u64 (tr_Height tx) =? 0)%Z then try (waitForTXInclusion (tr_TxHash tx))
                           else ret (inr (u64 (tr_Height tx))) in
          match included with
          | inl e => submit_failed (Some e)
          | inr daHeight =>
              let! failed := SubmitBatchHealthEventHelper true None in
              match failed with
              | Some res => ret (Some res)
              | None => ret (Some {| dr_Code := StatusSuccess; dr_Message := ("tx hash: " ++ tr_TxHash tx)%string;
                                     dr_DAHeight := daHeight |})
              end
          end
    end.

(** [None] when no attempt has succeeded after [fuel] of them. *)
Fixpoint submit_loop (fuel : nat) (blob : bytes) (fees gasWanted : Z) : M cnode (option DABaseResult) :=
  match fuel with
  | O => ret None
  | S fuel =>
      let! r := submit_attempt blob fees gasWanted in
      match r with Some res => ret (Some res) | None => submit_loop fuel blob fees gasWanted end
  end.

Definition SubmitBatch_celestia (fuel : nat) (batch : Batch) : M cnode (option DABaseResult) :=
  match Batch_MarshalBinary batch with
  | Panic msg => panic msg
  | Err e => ret (Some (da_error e))
  | Ok blob =>
      match DefaultEstimateGas (u32 (Z.of_nat (length blob))) with
      | None => ret None
      | Some estimatedGas =>
          let gasWanted := cel_Adjust c estimatedGas in
          submit_loop fuel blob (calculateFees gasWanted) gasWanted
      end
  end.

Definition CheckBatchAvailability_celestia (dataLayerHeight : Z) : M cnode DAResultCheckBatch :=
  let! r := try (cn_NamespacedShares dataLayerHeight) in
  ret match r with
      | inl e => {| drc_Base := da_error e; drc_DataAvailable := false |}
      | inr shares => {| drc_Base := {| dr_Code := StatusSuccess; dr_Message := ""; dr_DAHeight := dataLayerHeight |};
                         drc_DataAvailable := (0 <? length shares)%nat |}
      end.

(** The batches of the blobs: a blob that is no message leaves its entry nil, a message
    that is no batch ends the loop with an error. *)
Fixpoint decode_blobs (data : list bytes) : result (list (option Batch)) :=
  match data with
  | [] => Ok []
  | msg :: data =>
      match batch_unmarshal msg with
      | Panic m => Panic m
      | Err _ => try! rest := decode_blobs data in Ok (None :: rest)
      | Ok pb =>
          try! batch := Batch_FromProto pb in
          try! rest := decode_blobs data in
          Ok (Some batch :: rest)
      end
  end.

Definition RetrieveBatches_celestia (dataLayerHeight : Z) : M cnode DAResultRetrieveBatch :=
  let! r := try (cn_NamespacedData dataLayerHeight) in
  match r with
  | inl e => ret {| drr_Base := da_error e; drr_Batches := [] |}
  | inr data =>
      match decode_blobs data with
      | Panic m => panic m
      | Err e => ret {| drr_Base := da_error e; drr_Batches := [] |}
      | Ok batches => ret {| drr_Base := {| dr_Code := StatusSuccess; dr_Message := ""; dr_DAHeight := dataLayerHeight |};
                             drr_Batches := batches |}
      end
  end.

(** The client as a layer, seen until it has made [fuel] attempts. *)
Definition CelestiaLayer (fuel : nat) : DALayer :=
  {| dalc := cnode;
     da_SubmitBatch batch := let! r := SubmitBatch_celestia fuel batch in
                             match r with Some res => ret res | None => panic "still submitting" end;
     da_CheckBatchAvailability := CheckBatchAvailability_celestia;
     da_RetrieveBatches := RetrieveBatches_celestia;
     da_GetClientType := "celestia" |}.
End Celestia.
