(* ===== verification/DASpec.v ===== *)
(** * DASpec: what the data availability clients promise

    A batch submitted to the mock client is retrieved from its height once the layer has
    moved on; the number of Celestia shares is exact for every size a blob can have in
    practice, and the loop that computes it does not end at the largest 32-bit size; and
    what a blob that is no batch in the node's namespace does to a node that follows the
    chain. *)
From stdpp Require Import base gmap strings vector sorting numbers list.
From S2P Require Import Prelude KVStore Types Serialization WireSpec Concrete Store StoreSpec Conv Executor Gossip Layers Manager ManagerLoops ConcreteNode LoopSpec DA.

(** ** Shares *)

Ltac sizes := change FirstSparseShareContentSize with 478%Z in *; change ContinuationSparseShareContentSize with 482%Z in *.

(** The bytes that [n] shares hold. *)
Definition capacity (n : Z) : Z := FirstSparseShareContentSize + ContinuationSparseShareContentSize * (n - 1).

Lemma shares_loop_exact fuel n len :
  (1 <= n)%Z -> (len <= 2 ^ 32 - ContinuationSparseShareContentSize)%Z -> (capacity n <= 2 ^ 32 - 1)%Z ->
  (n = 1 \/ capacity (n - 1) < len)%Z -> (len <= capacity n + ContinuationSparseShareContentSize * Z.of_nat fuel)%Z ->
  exists r, shares_loop fuel (capacity n) n len = Some r /\ (len <= capacity r)%Z /\ (r = 1 \/ capacity (r - 1) < len)%Z /\ (1 <= r)%Z.
Proof.
  unfold capacity. sizes.
  revert n. induction fuel as [|fuel IH]; intros n Hn Hlen Hcap Hprev Hfuel; cbn [shares_loop]; sizes;
    unfold u32; rewrite Z.mod_small by lia;
    (destruct (Z.ltb_spec (478 + 482 * (n - 1)) len) as [Hlt|Hge]; [|exists n; split_and!; auto; lia]).
  - lia.
  - replace (478 + 482 * (n - 1) + 482)%Z with (478 + 482 * (n + 1 - 1))%Z by lia. apply IH; lia.
Qed.

Lemma u32_even b : (b mod 2 = 0)%Z -> (u32 b < 2 ^ 32 - 1)%Z.
Proof.
  intros Hb. unfold u32. pose proof (Z.mod_pos_bound b (2 ^ 32) ltac:(lia)). pose proof (Z.div_mod b (2 ^ 32) ltac:(lia)).
  pose proof (Z.div_mod b 2 ltac:(lia)). lia.
Qed.

Lemma shares_loop_even fuel b n : (b mod 2 = 0)%Z -> shares_loop fuel b n (2 ^ 32 - 1) = None.
Proof.
  revert b n. induction fuel as [|fuel IH]; intros b n Hb; cbn [shares_loop];
    rewrite (proj2 (Z.ltb_lt _ _) (u32_even b Hb)); [done|].
  apply IH. sizes. rewrite <- Zplus_mod_idemp_l, Hb. done.
Qed.

(** For every blob up to four gigabytes less one share, [SparseSharesNeeded] returns
    the least number of shares that holds it; at the largest 32-bit size the conversion to
    32 bits wraps around before the loop's condition fails, and the loop never ends. *)
Theorem sparse_shares_exact :
  (forall len, (0 < len <= 2 ^ 32 - ContinuationSparseShareContentSize)%Z ->
     exists n, SparseSharesNeeded (shares_fuel len) len = Some n /\ (len <= capacity n)%Z /\
               (forall k, (1 <= k < n)%Z -> (capacity k < len)%Z)) /\
  (forall fuel, SparseSharesNeeded fuel (2 ^ 32 - 1) = None).
Proof.
  split.
  - intros len Hlen. unfold SparseSharesNeeded. rewrite (proj2 (Z.eqb_neq _ _)) by lia.
    destruct (Z.ltb_spec len FirstSparseShareContentSize) as [Hlt|Hge].
    { exists 1%Z. split; [done|]. split; [unfold capacity in *; sizes; lia|lia]. }
    destruct (shares_loop_exact (shares_fuel len) 1 len) as (r & Hr & Hc & Hp & Hr1); [lia|lia| |by left| |].
    + unfold capacity. sizes. lia.
    + unfold shares_fuel, capacity. sizes.
      pose proof (Z.div_mod len 482 ltac:(lia)). pose proof (Z.mod_pos_bound len 482 ltac:(lia)). rewrite Z2Nat.id by lia. lia.
    + exists r. split; [exact Hr|]. split; [done|]. intros k Hk. destruct Hp as [->|Hp]; [lia|].
      unfold capacity in *; sizes. lia.
  - intros fuel. apply shares_loop_even. done.
Qed.

(** ** The mock client *)

Section Mock.
Context {T : Tendermint} {W : Wire} `{!WireLaws W} {K : KVStore} `{!KVLaws K} `{!KVReliable K} `{!KVIterLaws K}.
Context (sha1 : bytes -> bytes).

Lemma kv_set_run k v (d : db) : exists d', kv_set k v d = (Ok tt, d') /\ kv_view d' = <[k := v]> (kv_view d).
Proof.
  pose proof (kv_set_ok k v d) as Hok. destruct (kv_set_view k v d) as [(d' & E & Hv)|(e & d' & E & _)]; [by exists d'|].
  by rewrite E in Hok.
Qed.

Lemma singleton_list {A} (l : list A) x : x ∈ l -> (forall y, y ∈ l -> y = x) -> NoDup l -> l = [x].
Proof.
  intros Hin Hall Hnd. destruct l as [|a l]; [by apply elem_of_nil in Hin|].
  assert (a = x) as -> by (apply Hall; by left). f_equal. destruct l as [|b l]; [done|].
  assert (b = x) as -> by (apply Hall; right; by left). apply NoDup_cons in Hnd as [Hn _]. destruct Hn. by left.
Qed.

Lemma SubmitBatch_mock_run batch blob (m : MockDA) :
  Batch_MarshalBinary batch = Ok blob ->
  exists d', SubmitBatch_mock sha1 batch m =
    (Ok {| dr_Code := StatusSuccess; dr_Message := "OK"; dr_DAHeight := md_daHeight m |},
     {| md_dalcKV := d'; md_daHeight := md_daHeight m; md_BlockTime := md_BlockTime m |}) /\
    kv_view d' = <[sha1 (uint64ToBinary (bt_EndHeight batch)) := blob]>
                   (<[getKey_da (md_daHeight m) (bt_StartHeight batch) := sha1 (uint64ToBinary (bt_EndHeight batch))]>
                      (kv_view (md_dalcKV m))).
Proof.
  intros Hb. unfold SubmitBatch_mock, bind, gets, try, on_dalcKV, zoom. rewrite Hb.
  set (hash := sha1 _). destruct (kv_set_run (getKey_da (md_daHeight m) (bt_StartHeight batch)) hash (md_dalcKV m)) as (d1 & E1 & V1).
  rewrite E1. cbn [md_dalcKV md_daHeight md_BlockTime]. destruct (kv_set_run hash blob d1) as (d2 & E2 & V2). rewrite E2.
  exists d2. split; [done|]. by rewrite V2, V1.
Qed.

(** A batch submitted to the mock data availability layer is found at the height it was
    given as soon as the layer has moved past this height, and not before; the height holds
    exactly this batch. *)
Theorem mock_da_roundtrip (m : MockDA) batch blob r :
  let h := md_daHeight m in
  let hash := sha1 (uint64ToBinary (bt_EndHeight batch)) in
  Batch_MarshalBinary batch = Ok blob -> Forall (fun blk => data_Evidence (blk_Data blk) = []) (bt_Blocks batch) ->
  (forall k, is_Some (kv_view (md_dalcKV m) !! k) -> ~ uint64ToBinary h `prefix_of` k) ->
  ~ uint64ToBinary h `prefix_of` hash -> is_u64 h -> is_u64 (h + (r mod 10 + 1)) ->
  exists m1 m2, SubmitBatch_mock sha1 batch m = (Ok {| dr_Code := StatusSuccess; dr_Message := "OK"; dr_DAHeight := h |}, m1) /\
    (exists res, RetrieveBatches_mock h m1 = (Ok res, m1) /\ dr_Code (drr_Base res) = StatusError) /\
    updateDAHeight r m1 = (Ok tt, m2) /\
    RetrieveBatches_mock h m2 =
      (Ok {| drr_Base := {| dr_Code := StatusSuccess; dr_Message := ""; dr_DAHeight := 0 |}; drr_Batches := [Some batch] |}, m2).
Proof.
  intros h hash Hb Hev Hfree Hhash Hh Hn. destruct (SubmitBatch_mock_run batch blob m Hb) as (d' & Hs & Hv).
  fold hash in Hv. fold h in Hs, Hv. set (k := getKey_da h (bt_StartHeight batch)) in *.
  assert (Hpk : uint64ToBinary h `prefix_of` k) by (by exists (be_split 8 (bt_StartHeight batch))).
  assert (Hkh : k <> hash) by (intros E; apply Hhash; by rewrite <- E).
  assert (Hiter : kv_prefix_iterator d' (uint64ToBinary h) = [(kv_base K ++ k, Ok hash)]).
  { apply singleton_list.
    - apply kv_prefix_iterator_elem. exists k, hash. split_and!; [done|done|done|].
      rewrite Hv, lookup_insert_ne by done. apply lookup_insert_eq.
    - intros [k' r'] (k0 & v & -> & Hp & -> & Hl)%kv_prefix_iterator_elem. rewrite Hv in Hl.
      rewrite lookup_insert_ne in Hl by (intros <-; done). rewrite lookup_insert in Hl. case_decide as E; [by subst; simplify_eq|].
      destruct (Hfree k0); [by eexists|done].
    - apply (NoDup_fmap_1 fst), kv_prefix_iterator_nodup. }
  assert (Hget : kv_get d' hash = Ok blob) by (rewrite kv_get_view, Hv; by rewrite lookup_insert_eq).
  eexists _, _. split; [exact Hs|]. split; [|split; [reflexivity|]].
  - eexists. split; [unfold RetrieveBatches_mock, bind, get; cbn [md_daHeight]; rewrite Z.leb_refl; reflexivity|reflexivity].
  - unfold RetrieveBatches_mock, bind, get. cbn [md_daHeight md_dalcKV]. rewrite (u64_small _ Hn).
    pose proof (Z.mod_pos_bound r 10 ltac:(lia)). rewrite (proj2 (Z.leb_gt _ _)) by lia. rewrite Hiter. cbn [retrieve_loop].
    by rewrite Hget, (batch_marshal_roundtrip _ _ Hev Hb).
Qed.
End Mock.

(** ** A blob that is no batch *)

Section Junk.
Context {T : Tendermint} {W : Wire} {K : KVStore} `{!KVLaws K} {A : App} {MP : MempoolI} {EB : EventBus}
  {N : CelestiaNode} {SL : SettlementLayer} {P : P2PClient}.
Context (c : CelestiaConfig) (fuel : nat).
#[local] Existing Instance CelestiaLayer.

Lemma RetrieveBatches_celestia_run h (n n' : cnode) data batches :
  cn_NamespacedData h n = (Ok data, n') -> decode_blobs data = Ok batches ->
  RetrieveBatches_celestia h n =
  (Ok {| drr_Base := {| dr_Code := StatusSuccess; dr_Message := ""; dr_DAHeight := h |}; drr_Batches := batches |}, n').
Proof. intros Hd Hb. unfold RetrieveBatches_celestia, bind, try. by rewrite Hd, Hb. Qed.

(** Anybody who can write to the node's namespace on Celestia can stop the nodes that
    follow the chain: when the first blob at a height is no batch message, its entry in the
    answer is nil, and reading the height panics, whatever else is there. *)
Theorem junk_blob_panics_sync (cfg : ManagerConf) daHeight (m : Manager (DA := CelestiaLayer c fuel)) n' e junk rest batches :
  cn_NamespacedData daHeight (m_dalc m : cnode) = (Ok (junk :: rest), n') ->
  batch_unmarshal junk = Err e -> decode_blobs rest = Ok batches ->
  exists msg, processNextDABatch cfg daHeight m = (Panic msg, set_dalc (n' : @dalc (CelestiaLayer c fuel)) m).
Proof.
  intros Hd Hj Hr. eapply (da_nil_batch_panics (DA := CelestiaLayer c fuel)).
  - apply (RetrieveBatches_celestia_run daHeight _ _ (junk :: rest)); [exact Hd|]. cbn [decode_blobs]. rewrite Hj, Hr. reflexivity.
  - reflexivity.
Qed.
End Junk.

(** ** Concrete clients *)
Import ToyInstances.

Definition toy_sha1 (_ : bytes) : bytes := replicate 20 Byte.xff.
Definition toy_mock : MockDA := {| md_dalcKV := (∅ : gmap bytes bytes) : @db MemKV; md_daHeight := 1; md_BlockTime := 3000000000 |}.

(** A node of Celestia whose namespace holds one blob that is no batch. *)
Definition junk_node : CelestiaNode := {|
  cnode := unit;
  cn_SubmitPFB _ _ _ := ret (None, None);
  cn_NamespacedData _ := ret [[Byte.x07]];
  cn_NamespacedShares _ := ret [];
  cn_Tx _ := ret None;
  cn_Publish _ _ := ret tt;
  cn_Done _ := false;
|}.

Definition toy_celestia : CelestiaConfig :=
  {| cel_Fee := 1000; cel_Ceil := id; cel_Adjust := id; cel_txPollingAttempts := 5;
     cel_retryError := fun _ => New "All attempts fail"; cel_hex := fun _ => Ok [] |}.

Definition junk_layer : DALayer := CelestiaLayer (N := junk_node) toy_celestia 3.
Definition junk_manager : @Manager toy MemKV toy_app toy_mempool toy_events junk_layer toy_sl toy_p2p :=
  @Build_Manager toy MemKV toy_app toy_mempool toy_events junk_layer toy_sl toy_p2p
    (toy_state 0 0) empty_store (toy_exec []) (tt : @dalc junk_layer) [] [] 0 0 false None None None.

Lemma mock_da_roundtrip_witness :
  exists m2, RetrieveBatches_mock 1 m2 =
    (Ok {| drr_Base := {| dr_Code := StatusSuccess; dr_Message := ""; dr_DAHeight := 0 |}; drr_Batches := [Some toy_batch] |}, m2).
Proof.
  destruct (mock_da_roundtrip toy_sha1 toy_mock toy_batch (enc (Batch_ToProto toy_batch)) 7) as (m1 & m2 & _ & _ & _ & H).
  - reflexivity.
  - repeat constructor.
  - intros k [v Hk]. discriminate Hk.
  - intros [l Hl]. discriminate Hl.
  - done.
  - done.
  - exists m2. exact H.
Defined.

Lemma junk_blob_panics_sync_witness :
  exists msg, processNextDABatch (DA := junk_layer) toy_cfg 7 junk_manager = (Panic msg, set_dalc (tt : @dalc junk_layer) junk_manager).
Proof.
  eapply (junk_blob_panics_sync (N := junk_node) toy_celestia 3 toy_cfg 7 junk_manager tt _ [Byte.x07] [] []); reflexivity.
Defined.
