(* ===== verification/Avail.v ===== *)
(** * Avail: the client of the Avail data availability layer

    Models da/avail/avail.go: the submission of a batch as an extrinsic, with its retries,
    its wait for finalization and its health events, and the retrieval of the batches of a
    block.  The Substrate API, the key pair and the retry library are parameters. *)
From stdpp Require Import base gmap strings vector sorting numbers list.
From S2P Require Import Prelude KVStore Types Serialization Layers DA.

(** da/errors.go. *)
Definition ErrTxBroadcastConfigError : error := New "Failed building tx".
Definition ErrTxBroadcastNetworkError : error := New "Failed broadcasting tx".
Definition ErrTxBroadcastTimeout : error := New "Broadcast timeout error".

(** [errors.Is]: the error or one that it wraps. *)
Fixpoint errors_Is (e target : error) : bool :=
  bool_decide (e = target) ||
  match e with New _ => false | Wrap _ e => errors_Is e target | Multi e1 e2 => errors_Is e1 target || errors_Is e2 target end.

(** [fmt.Errorf("%w: %s", target, err)] and [fmt.Errorf("%s: %s", msg, err)], which wraps
    nothing. *)
Definition wraps (target e : error) : error := Wrap (error_text e) target.
Definition texts (msg : string) (e : error) : error := New (msg ++ ": " ++ error_text e)%string.

Definition DataCallSectionIndex : Z := 29.
Definition DataCallMethodIndex : Z := 1.

(** An extrinsic of a block: what the client looks at. *)
Record Extrinsic := { ext_AppID : Z; ext_SectionIndex : Z; ext_MethodIndex : Z; ext_Args : bytes }.

(** [SignatureOptions]: the fields that are set. *)
Record SignatureOptions (hash : Type) := { so_GenesisHash : hash; so_Nonce : Z; so_SpecVersion : Z; so_Tip : Z; so_TransactionVersion : Z; so_AppID : Z }.
Arguments Build_SignatureOptions {hash}.

(** What the select of [broadcastTx] receives; the error channel may be closed, which gives
    a nil error. *)
Inductive AvailEvent (hash : Type) :=
| AvDone (e : error)
| AvSubErr (e : option error)
| AvFinalized (h : hash)
| AvInBlock
| AvOther (json : result unit)
| AvTimer.
Arguments AvDone {hash}.
Arguments AvSubErr {hash}.
Arguments AvFinalized {hash}.
Arguments AvInBlock {hash}.
Arguments AvOther {hash}.
Arguments AvTimer {hash}.

Class AvailNode := {
  anode : Type;
  av_meta : Type;
  av_call : Type;
  av_key : Type;
  av_ext : Type;
  av_hash : Type;
  av_GetMetadataLatest : M anode av_meta;
  av_NewCall : av_meta -> bytes -> result av_call;
  av_GetBlockHash : Z -> M anode av_hash;
  av_GetRuntimeVersionLatest : M anode (Z * Z);
  av_KeyringPairFromSecret : string -> result av_key;
  av_CreateStorageKey : av_meta -> av_key -> result bytes;
  av_GetStorageLatest : bytes -> M anode (bool * Z);            (* whether there is an account, and its nonce *)
  av_Sign : av_call -> av_key -> SignatureOptions av_hash -> result av_ext;
  av_SubmitAndWatchExtrinsic : av_ext -> M anode unit;
  av_Unsubscribe : anode -> anode;
  av_Event : M anode (AvailEvent av_hash);
  av_GetHeader : av_hash -> M anode Z;                           (* its number *)
  av_GetBlock : av_hash -> M anode (list Extrinsic);
  av_Publish : bool -> option error -> M anode unit;
  av_Done : anode -> bool;
}.

Record AvailConfig := {
  av_Seed : string;
  av_AppID : Z;
  av_Tip : Z;
  av_batchRetryAttempts : nat;                                   (* positive: 0 would retry without end *)
  av_marked : bool;  (* does [retry.IsRecoverable] still know an unrecoverable error when [retry.Do] has returned it? *)
}.

Section Avail.
Context {T : Tendermint} {W : Wire} {N : AvailNode} (c : AvailConfig).

(** ** Submission *)

Definition getHeightFromHash (hash : av_hash) : M anode Z :=
  let! number := wrap "cannot get block by hash" (av_GetHeader hash) in
  ret (u64 number).

(** The loop of [broadcastTx] over the status of the extrinsic: [None] when it is still
    waiting after [fuel] events. *)
Fixpoint watch_loop (fuel : nat) : M anode (option Z) :=
  match fuel with
  | O => ret None
  | S fuel =>
      let! ev := av_Event in
      match ev with
      | AvDone e => fail e
      | AvSubErr (Some e) => fail e
      | AvSubErr None => ret (Some 0%Z)
      | AvFinalized hash =>
          let! r := try (getHeightFromHash hash) in
          match r with
          | inl e => fail (texts "failed to getHeightFromHash" e)
          | inr blockHeight => ret (Some blockHeight)
          end
      | AvInBlock => watch_loop fuel
      | AvOther json =>
          match json with
          | Ok _ => watch_loop fuel
          | Err e => fail (texts "failed to MarshalJSON of received status" e)
          | Panic m => panic m
          end
      | AvTimer => fail ErrTxBroadcastTimeout
      end
  end.

(** Calls whose error is turned into another one. *)
Definition relabel {A} (f : error -> error) (m : M anode A) : M anode A := fun s =>
  match m s with (Err e, s) => (Err (f e), s) | r => r end.

Definition broadcastTx (fuel : nat) (tx : bytes) : M anode (option Z) :=
  let! meta := relabel (texts "failed to GetMetadataLatest") av_GetMetadataLatest in
  let! newCall := relabel (wraps ErrTxBroadcastConfigError) (lift (av_NewCall meta tx)) in
  let! genesisHash := relabel (texts "failed to GetBlockHash") (av_GetBlockHash 0) in
  let! (specVersion, transactionVersion) := relabel (texts "failed to GetRuntimeVersionLatest") av_GetRuntimeVersionLatest in
  let! keyringPair := relabel (wraps ErrTxBroadcastConfigError) (lift (av_KeyringPairFromSecret (av_Seed c))) in
  let! key := relabel (wraps ErrTxBroadcastConfigError) (lift (av_CreateStorageKey meta keyringPair)) in
  let! (ok, accountNonce) := relabel (texts "failed to GetStorageLatest") (av_GetStorageLatest key) in
  if negb ok then fail (New "failed to GetStorageLatest: %!s(<nil>)")
  else
    let options := {| so_GenesisHash := genesisHash; so_Nonce := u32 accountNonce; so_SpecVersion := specVersion; so_Tip := av_Tip c;
                      so_TransactionVersion := transactionVersion; so_AppID := u64 (av_AppID c) |} in
    let! ext := relabel (wraps ErrTxBroadcastConfigError) (lift (av_Sign newCall keyringPair options)) in
    do! relabel (wraps ErrTxBroadcastNetworkError) (av_SubmitAndWatchExtrinsic ext) in
    (fun s => match watch_loop fuel s with (r, s) => (r, av_Unsubscribe s) end).

(** What [retry.Do] ends with: a value, an error and whether it is recoverable, or nothing
    yet. *)
Inductive Retried := RetryOk (height : Z) | RetryErr (e : error) (recoverable : bool) | RetryPending.

(** [retry.Do] with [attempts] more attempts: an unrecoverable error ends it at once. *)
Fixpoint retry_broadcast (attempts fuel : nat) (tx : bytes) : M anode Retried :=
  let! r := try (broadcastTx fuel tx) in
  match r with
  | inr (Some height) => ret (RetryOk height)
  | inr None => ret RetryPending
  | inl e =>
      if errors_Is e ErrTxBroadcastConfigError then ret (RetryErr e (negb (av_marked c)))
      else match attempts with
           | O => ret (RetryErr e true)
           | S attempts =>
               let! s := get in
               if av_Done s then ret (RetryErr (New "context canceled") true) else retry_broadcast attempts fuel tx
           end
  end.

Definition SubmitBatchHealthEventHelper_avail (healthy : bool) (err : option error) : M anode (option DABaseResult) :=
  let! r := try (av_Publish healthy err) in
  ret (match r with inl e => Some (da_error e) | inr _ => None end).

(** One iteration of [submitBatchLoop]: [None] when it has not ended, otherwise the result,
    or nothing when it goes on with the next iteration. *)
Definition submit_iteration (fuel : nat) (dataBlob : bytes) : M anode (option (option DABaseResult)) :=
  let! s := get in
  if av_Done s then ret (Some (Some {| dr_Code := StatusError; dr_Message := "context done"; dr_DAHeight := 0 |}))
  else
    let! r := retry_broadcast (pred (av_batchRetryAttempts c)) fuel dataBlob in
    match r with
    | RetryPending => ret None
    | RetryErr err false => ret (Some (Some (da_error err)))
    | RetryErr err true =>
        let! failed := SubmitBatchHealthEventHelper_avail false (Some err) in
        ret (Some failed)
    | RetryOk daBlockHeight =>
        let! failed := SubmitBatchHealthEventHelper_avail true None in
        match failed with
        | Some res => ret (Some (Some res))
        | None => ret (Some (Some {| dr_Code := StatusSuccess; dr_Message := "success"; dr_DAHeight := daBlockHeight |}))
        end
    end.

(** [None] when the loop has not ended after [fuel] iterations, or waits for an event. *)
Fixpoint submitBatchLoop (fuel : nat) (dataBlob : bytes) : M anode (option DABaseResult) :=
  match fuel with
  | O => ret None
  | S fuel =>
      let! r := submit_iteration fuel dataBlob in
      match r with
      | None => ret None
      | Some None => submitBatchLoop fuel dataBlob
      | Some (Some res) => ret (Some res)
      end
  end.

Definition SubmitBatch_avail (fuel : nat) (batch : Batch) : M anode (option DABaseResult) :=
  match Batch_MarshalBinary batch with
  | Panic msg => panic msg
  | Err e => ret (Some (da_error e))
  | Ok blob => submitBatchLoop fuel blob
  end.

(** ** Retrieval *)

(** [for len(data) > 0]: an error goes on with the same data; [None] when the loop has not
    ended after [fuel] iterations. *)
Fixpoint decode_args (fuel : nat) (data : bytes) (batches : list (option Batch)) : result (option (list (option Batch))) :=
  if (length data =? 0)%nat then Ok (Some batches)
  else
    match fuel with
    | O => Ok None
    | S fuel =>
        match batch_unmarshal data with
        | Panic m => Panic m
        | Err _ => decode_args fuel data batches
        | Ok pbBatch =>
            match Batch_FromProto pbBatch with
            | Panic m => Panic m
            | Err _ => decode_args fuel data batches
            | Ok batch =>
                let size := batch_size pbBatch in
                if (Z.of_nat (length data) <? size)%Z then Panic "slice bounds out of range"
                else decode_args fuel (drop (Z.to_nat size) data) (batches ++ [Some batch])
            end
        end
    end.

(** Is the extrinsic a submission of data of the application? *)
Definition is_data (ext : Extrinsic) : bool :=
  (ext_AppID ext =? av_AppID c)%Z && (ext_SectionIndex ext =? DataCallSectionIndex)%Z && (ext_MethodIndex ext =? DataCallMethodIndex)%Z.

Fixpoint decode_extrinsics (fuel : nat) (exts : list Extrinsic) (batches : list (option Batch)) : result (option (list (option Batch))) :=
  match exts with
  | [] => Ok (Some batches)
  | ext :: exts =>
      if is_data ext then
        try! r := decode_args fuel (ext_Args ext) batches in
        match r with None => Ok None | Some batches => decode_extrinsics fuel exts batches end
      else decode_extrinsics fuel exts batches
  end.

(** [RetrieveBatches]: [None] when a loop over an extrinsic has not ended. *)
Definition RetrieveBatches_avail (fuel : nat) (dataLayerHeight : Z) : M anode (option DAResultRetrieveBatch) :=
  let! blockHash := try (av_GetBlockHash dataLayerHeight) in
  match blockHash with
  | inl e => ret (Some {| drr_Base := da_error e; drr_Batches := [] |})
  | inr blockHash =>
      let! block := try (av_GetBlock blockHash) in
      match block with
      | inl e => ret (Some {| drr_Base := da_error e; drr_Batches := [] |})
      | inr extrinsics =>
          let! batches := lift (decode_extrinsics fuel extrinsics []) in
          ret ((fun batches => {| drr_Base := {| dr_Code := StatusSuccess; dr_Message := ""; dr_DAHeight := dataLayerHeight |};
                                  drr_Batches := batches |}) <$> batches)
      end
  end.

Definition CheckBatchAvailability_avail (dataLayerHeight : Z) : M anode DAResultCheckBatch :=
  ret {| drc_Base := {| dr_Code := StatusError; dr_Message := "not implemented"; dr_DAHeight := 0 |}; drc_DataAvailable := false |}.
End Avail.

(** ** Retrieval of what was submitted *)

(** [proto.Size] is the length of the encoding. *)
Class BatchSizeLaw `(W : Wire) := batch_size_marshal pb d : batch_marshal pb = Ok d -> batch_size pb = Z.of_nat (length d).

Section Retrieval.
Context {T : Tendermint} {W : Wire} `{!WireLaws W} `{!BatchSizeLaw W} {N : AvailNode} (c : AvailConfig).

(** The arguments of an extrinsic are the encoding of a batch. *)
Definition carries (ext : Extrinsic) (batch : Batch) : Prop :=
  Batch_MarshalBinary batch = Ok (ext_Args ext) /\ ext_Args ext <> [] /\
  Forall (fun blk => data_Evidence (blk_Data blk) = []) (bt_Blocks batch).

Lemma decode_args_carries fuel ext batch batches :
  carries ext batch -> decode_args (S fuel) (ext_Args ext) batches = Ok (Some (batches ++ [Some batch])).
Proof.
  intros (Hm & Hne & Hev). cbn [decode_args]. unfold Batch_MarshalBinary in Hm.
  destruct (ext_Args ext) as [|b data] eqn:E; [done|]. cbn [length Nat.eqb]. rewrite (batch_codec _ _ Hm), batch_roundtrip by done.
  rewrite (batch_size_marshal _ _ Hm), Z.ltb_irrefl, Nat2Z.id, drop_all. by destruct fuel.
Qed.

Lemma decode_args_junk fuel data batches e : batch_unmarshal data = Err e -> data <> [] -> decode_args fuel data batches = Ok None.
Proof.
  intros He Hne. induction fuel as [|fuel IH]; cbn [decode_args]; (destruct data as [|b data]; [done|]); cbn [length Nat.eqb]; [done|].
  by rewrite He.
Qed.

Lemma decode_extrinsics_cons fuel ext exts batches :
  decode_extrinsics c fuel (ext :: exts) batches =
  if is_data c ext then
    try! r := decode_args fuel (ext_Args ext) batches in
    match r with None => Ok None | Some batches => decode_extrinsics c fuel exts batches end
  else decode_extrinsics c fuel exts batches.
Proof. done. Qed.

Lemma decode_extrinsics_all fuel exts acc batches :
  0 < fuel -> Forall2 carries (filter (fun ext => is_data c ext = true) exts) batches ->
  decode_extrinsics c fuel exts acc = Ok (Some (acc ++ (Some <$> batches))).
Proof.
  intros Hf. revert acc batches. induction exts as [|ext exts IH]; intros acc batches H.
  { apply Forall2_nil_inv_l in H as ->. cbn. by rewrite app_nil_r. }
  rewrite decode_extrinsics_cons. rewrite filter_cons in H. case_decide as Hd.
  - apply Forall2_cons_inv_l in H as (b & bs & Hb & Hbs & ->). rewrite Hd. destruct fuel as [|fuel]; [lia|].
    rewrite (decode_args_carries _ _ _ _ Hb). cbn [result_bind]. rewrite (IH _ _ Hbs). by rewrite <- app_assoc.
  - apply not_true_is_false in Hd. rewrite Hd. by apply IH.
Qed.

Lemma decode_extrinsics_junk fuel before junk after acc batches e :
  Forall2 carries (filter (fun ext => is_data c ext = true) before) batches -> is_data c junk = true ->
  ext_Args junk <> [] -> batch_unmarshal (ext_Args junk) = Err e ->
  decode_extrinsics c fuel (before ++ junk :: after) acc = Ok None.
Proof.
  intros H Hd Hne He. revert acc batches H. induction before as [|ext before IH]; intros acc batches H.
  { rewrite app_nil_l, decode_extrinsics_cons. by rewrite Hd, (decode_args_junk _ _ _ _ He Hne). }
  change ((ext :: before) ++ junk :: after) with (ext :: (before ++ junk :: after)). rewrite decode_extrinsics_cons.
  rewrite filter_cons in H. case_decide as Hdx; [|apply not_true_is_false in Hdx; rewrite Hdx; by eapply IH].
  apply Forall2_cons_inv_l in H as (b & bs & Hb & Hbs & ->). rewrite Hdx. destruct fuel as [|fuel].
  - destruct Hb as (_ & Hnx & _). cbn [decode_args]. by destruct (ext_Args ext).
  - rewrite (decode_args_carries _ _ _ _ Hb). cbn [result_bind]. by eapply IH.
Qed.

(** C30: [RetrieveBatches] of Avail returns the batches of a block, in order, when every data
    extrinsic of the application carries the encoding of one; but one extrinsic of the
    application whose data is no message makes the loop over it go on for ever, whatever
    comes before and after it, so that a node that reads the block never returns from the
    call. *)
Theorem avail_retrieval exts h hash s s1 s2 :
  av_GetBlockHash h s = (Ok hash, s1) -> av_GetBlock hash s1 = (Ok exts, s2) ->
  (forall batches fuel, 0 < fuel -> Forall2 carries (filter (fun ext => is_data c ext = true) exts) batches ->
     RetrieveBatches_avail c fuel h s =
     (Ok (Some {| drr_Base := {| dr_Code := StatusSuccess; dr_Message := ""; dr_DAHeight := h |}; drr_Batches := Some <$> batches |}), s2)) /\
  (forall before junk after batches e, exts = before ++ junk :: after ->
     Forall2 carries (filter (fun ext => is_data c ext = true) before) batches -> is_data c junk = true ->
     ext_Args junk <> [] -> batch_unmarshal (ext_Args junk) = Err e ->
     forall fuel, RetrieveBatches_avail c fuel h s = (Ok None, s2)).
Proof.
  intros Hh Hb.
  assert (Hrun : forall fuel, RetrieveBatches_avail c fuel h s =
    match decode_extrinsics c fuel exts [] with
    | Ok batches => (Ok ((fun batches => {| drr_Base := {| dr_Code := StatusSuccess; dr_Message := ""; dr_DAHeight := h |};
                                            drr_Batches := batches |}) <$> batches), s2)
    | Err e => (Err e, s2)
    | Panic m => (Panic m, s2)
    end).
  { intros fuel. unfold RetrieveBatches_avail. unfold bind at 1, try at 1. rewrite Hh. unfold bind at 1, try at 1. rewrite Hb.
    unfold bind, lift. by destruct (decode_extrinsics c fuel exts []). }
  split.
  - intros batches fuel Hf Hc. by rewrite Hrun, (decode_extrinsics_all fuel exts [] batches Hf Hc).
  - intros before junk after batches e -> Hc Hd Hne He fuel. by rewrite Hrun, (decode_extrinsics_junk fuel _ _ _ [] _ _ Hc Hd Hne He).
Qed.
End Retrieval.
