(* ===== verification/GrpcDA.v ===== *)
(** * GrpcDA: a data availability layer behind gRPC

    Models da/grpc/grpc.go, the client that forwards every call to a server, and
    da/grpc/mockserv/mockserv.go, a server over the mock client, and proves that the two
    together are the mock client.  The transport is the class [DALCService]. *)
From stdpp Require Import base gmap strings vector sorting numbers list.
From S2P Require Import Prelude KVStore Types Serialization Layers DA Concrete WireSpec DASpec.

(** ** Messages (types/pb/dalc) *)

(** The status codes have the same numbers in both enumerations. *)
Record DAResponse := { dres_Code : StatusCode; dres_Message : string; dres_DataLayerHeight : Z }.
Record SubmitBatchResponse := { sbr_Result : option DAResponse }.
Record CheckBatchAvailabilityResponse := { cbr_Result : option DAResponse; cbr_DataAvailable : bool }.
Record RetrieveBatchesResponse := { rtb_Result : option DAResponse; rtb_Batches : list PbBatch }.

Class DALCService := {
  service : Type;
  srv_SubmitBatch : PbBatch -> M service SubmitBatchResponse;
  srv_CheckBatchAvailability : Z -> M service CheckBatchAvailabilityResponse;
  srv_RetrieveBatches : Z -> M service RetrieveBatchesResponse;
}.

(** ** The client *)

Section Client.
Context {S : DALCService}.

Definition SubmitBatch_grpc (batch : Batch) : M service DABaseResult :=
  let! r := try (srv_SubmitBatch (Batch_ToProto batch)) in
  match r with
  | inl e => ret (da_error e)
  | inr resp =>
      let! res := lift (deref (sbr_Result resp)) in
      ret {| dr_Code := dres_Code res; dr_Message := dres_Message res; dr_DAHeight := dres_DataLayerHeight res |}
  end.

Definition CheckBatchAvailability_grpc (dataLayerHeight : Z) : M service DAResultCheckBatch :=
  let! r := try (srv_CheckBatchAvailability dataLayerHeight) in
  match r with
  | inl e => ret {| drc_Base := da_error e; drc_DataAvailable := false |}
  | inr resp =>
      let! res := lift (deref (cbr_Result resp)) in
      ret {| drc_Base := {| dr_Code := dres_Code res; dr_Message := dres_Message res; dr_DAHeight := 0 |};
             drc_DataAvailable := cbr_DataAvailable resp |}
  end.

(** The loop over the batches: the first error ends it. *)
Fixpoint batches_from_proto (pbs : list PbBatch) : result (list (option Batch)) :=
  match pbs with
  | [] => Ok []
  | pb :: pbs =>
      try! b := Batch_FromProto pb in
      try! bs := batches_from_proto pbs in
      Ok (Some b :: bs)
  end.

Definition RetrieveBatches_grpc (dataLayerHeight : Z) : M service DAResultRetrieveBatch :=
  let! r := try (srv_RetrieveBatches dataLayerHeight) in
  match r with
  | inl e => ret {| drr_Base := da_error e; drr_Batches := [] |}
  | inr resp =>
      match batches_from_proto (rtb_Batches resp) with
      | Panic m => panic m
      | Err e => ret {| drr_Base := da_error e; drr_Batches := [] |}
      | Ok batches =>
          let! res := lift (deref (rtb_Result resp)) in
          ret {| drr_Base := {| dr_Code := dres_Code res; dr_Message := dres_Message res; dr_DAHeight := dataLayerHeight |};
                 drr_Batches := batches |}
      end
  end.

(** [GetClientType] names another client. *)
Definition GrpcLayer : DALayer :=
  {| dalc := service; da_SubmitBatch := SubmitBatch_grpc; da_CheckBatchAvailability := CheckBatchAvailability_grpc;
     da_RetrieveBatches := RetrieveBatches_grpc; da_GetClientType := "celestia" |}.
End Client.

(** ** The mock server *)

Section Server.
Context {T : Tendermint} {W : Wire} {K : KVStore} (sha1 : bytes -> bytes).

Definition SubmitBatch_srv (request : PbBatch) : M MockDA SubmitBatchResponse :=
  let! b := lift (Batch_FromProto request) in
  let! resp := SubmitBatch_mock sha1 b in
  ret {| sbr_Result := Some {| dres_Code := dr_Code resp; dres_Message := dr_Message resp; dres_DataLayerHeight := dr_DAHeight resp |} |}.

Definition CheckBatchAvailability_srv (dataLayerHeight : Z) : M MockDA CheckBatchAvailabilityResponse :=
  let! resp := CheckBatchAvailability_mock dataLayerHeight in
  ret {| cbr_Result := Some {| dres_Code := dr_Code (drc_Base resp); dres_Message := dr_Message (drc_Base resp); dres_DataLayerHeight := 0 |};
         cbr_DataAvailable := drc_DataAvailable resp |}.

(** [resp.Batches[i].ToProto()] for all of them. *)
Fixpoint batches_to_proto (bs : list (option Batch)) : result (list PbBatch) :=
  match bs with
  | [] => Ok []
  | b :: bs =>
      try! b := deref b in
      try! pbs := batches_to_proto bs in
      Ok (Batch_ToProto b :: pbs)
  end.

Definition RetrieveBatches_srv (dataLayerHeight : Z) : M MockDA RetrieveBatchesResponse :=
  let! resp := RetrieveBatches_mock dataLayerHeight in
  let! batches := lift (batches_to_proto (drr_Batches resp)) in
  ret {| rtb_Result := Some {| dres_Code := dr_Code (drr_Base resp); dres_Message := dr_Message (drr_Base resp); dres_DataLayerHeight := 0 |};
         rtb_Batches := batches |}.

Definition MockServ : DALCService :=
  {| service := MockDA; srv_SubmitBatch := SubmitBatch_srv; srv_CheckBatchAvailability := CheckBatchAvailability_srv;
     srv_RetrieveBatches := RetrieveBatches_srv |}.
End Server.

(** ** Together *)

Definition no_evidence (b : Batch) : Prop := Forall (fun blk => data_Evidence (blk_Data blk) = []) (bt_Blocks b).

Lemma map_or_panic_forall {A B} (f : A -> result B) (P : B -> Prop) l l' :
  (forall x y, f x = Ok y -> P y) -> map_or_panic f l = Ok l' -> Forall P l'.
Proof.
  intros Hf. revert l'. induction l as [|x l IH]; intros l' H; cbn [map_or_panic] in H; [by simplify_eq|].
  destruct (f x) as [y|e|m] eqn:E; cbn in H; [|done..]. destruct (map_or_panic f l) as [ys|e|m]; cbn in H; simplify_eq.
  constructor; [by eapply Hf|by apply IH].
Qed.

Lemma Batch_FromProto_no_evidence pb b : Batch_FromProto pb = Ok b -> no_evidence b.
Proof.
  unfold Batch_FromProto, protoToBlocks. destruct (map_or_panic _ (pbt_Blocks pb)) as [blocks|e|m] eqn:E; cbn -[protoToCommits]; [|done..].
  destruct (protoToCommits _); cbn; intros H; simplify_eq. unfold no_evidence. cbn. eapply map_or_panic_forall; [|exact E].
  intros x y. apply Block_FromProto_no_evidence.
Qed.

Lemma batches_proto_roundtrip bs :
  Forall (fun ob => exists b, ob = Some b /\ no_evidence b) bs ->
  exists pbs, batches_to_proto bs = Ok pbs /\ batches_from_proto pbs = Ok bs.
Proof.
  induction 1 as [|ob bs (b & -> & Hb) _ (pbs & E & H)]; [by exists []|]. cbn [batches_to_proto deref result_bind]. rewrite E. cbn.
  eexists. split; [done|]. cbn [batches_from_proto]. by rewrite batch_roundtrip, H.
Qed.

Section Together.
Context {T : Tendermint} {W : Wire} {K : KVStore} (sha1 : bytes -> bytes).
#[local] Instance server : DALCService := MockServ sha1.

Lemma retrieve_loop_no_evidence d iter bs :
  retrieve_loop d iter = Ok (inr bs) -> Forall (fun ob => exists b, ob = Some b /\ no_evidence b) bs.
Proof.
  revert bs. induction iter as [|[k v] iter IH]; intros bs H; cbn [retrieve_loop] in H; [by simplify_eq|].
  destruct (kv_get d _) as [blob|e|m]; [|done..]. unfold Batch_UnmarshalBinary in H.
  destruct (batch_unmarshal blob) as [pb|e|m]; cbn [result_bind] in H; [|done..].
  destruct (Batch_FromProto pb) as [b|e|m] eqn:Eb; [|done..]. destruct (retrieve_loop d iter) as [[e|bs']|e|m]; cbn in H; simplify_eq.
  constructor; [|by apply IH]. exists b. split; [done|]. by eapply Batch_FromProto_no_evidence.
Qed.

Lemma RetrieveBatches_mock_no_evidence h (m m' : MockDA) res :
  RetrieveBatches_mock h m = (Ok res, m') -> Forall (fun ob => exists b, ob = Some b /\ no_evidence b) (drr_Batches res).
Proof.
  unfold RetrieveBatches_mock, bind, get. destruct (_ <=? _)%Z; [intros [= <- <-]; constructor|].
  unfold lift, ret. destruct (retrieve_loop _ _) as [[e|bs]|e|msg] eqn:E; intros [= <- <-]; [constructor|].
  by eapply retrieve_loop_no_evidence.
Qed.

(** The mock client reports errors in its results. *)
Definition not_err {A} (r : result A) : bool := match r with Err _ => false | _ => true end.

Lemma retrieve_loop_not_err d iter : not_err (retrieve_loop d iter) = true.
Proof.
  induction iter as [|[k v] iter IH]; [done|]. cbn [retrieve_loop]. destruct (kv_get d _) as [blob|e|m]; [|done..].
  destruct (Batch_UnmarshalBinary blob); [|done..]. by destruct (retrieve_loop d iter) as [[e|bs]|e|m].
Qed.

Lemma RetrieveBatches_mock_not_err h (m : MockDA) : not_err (RetrieveBatches_mock h m).1 = true.
Proof.
  unfold RetrieveBatches_mock, bind, get. destruct (_ <=? _)%Z; [done|]. unfold lift.
  pose proof (retrieve_loop_not_err (md_dalcKV m) (kv_prefix_iterator (md_dalcKV m) (uint64ToBinary h))). by destruct (retrieve_loop _ _).
Qed.

Lemma SubmitBatch_mock_not_err batch (m : MockDA) : not_err (SubmitBatch_mock sha1 batch m).1 = true.
Proof.
  unfold SubmitBatch_mock, bind at 1, gets. destruct (Batch_MarshalBinary batch) as [blob|e|msg]; [|done..].
  unfold bind at 1, try at 1. destruct (on_dalcKV _ _) as [[[]|e|msg] m1]; [|done..].
  unfold bind at 1, try at 1. by destruct (on_dalcKV _ _) as [[[]|e|msg] m2].
Qed.

(** A mock layer behind gRPC is the mock layer: forwarded to the server, submitting a
    batch without evidence, checking and retrieving do and answer what the mock client
    does, but that a retrieved batch carries the height it was asked for. *)
Theorem grpc_transparent :
  (forall batch (m : MockDA), no_evidence batch -> SubmitBatch_grpc batch m = SubmitBatch_mock sha1 batch m) /\
  (forall h (m : MockDA), CheckBatchAvailability_grpc h m = CheckBatchAvailability_mock h m) /\
  (forall h (m : MockDA), RetrieveBatches_grpc h m =
     match RetrieveBatches_mock h m with
     | (Ok res, m') => (Ok {| drr_Base := {| dr_Code := dr_Code (drr_Base res); dr_Message := dr_Message (drr_Base res); dr_DAHeight := h |};
                              drr_Batches := drr_Batches res |}, m')
     | r => r
     end).
Proof.
  split_and!.
  - intros batch m Hev. pose proof (SubmitBatch_mock_not_err batch m) as Hn. unfold SubmitBatch_grpc. cbn [srv_SubmitBatch server MockServ].
    unfold bind at 1, try, SubmitBatch_srv. unfold bind at 1, lift. rewrite batch_roundtrip by done. unfold bind at 1.
    by destruct (SubmitBatch_mock sha1 batch m) as [[[code msg h]|e|msg] m'].
  - intros h m. pose proof (RetrieveBatches_mock_not_err h m) as Hn. unfold CheckBatchAvailability_grpc. cbn [srv_CheckBatchAvailability server MockServ].
    unfold bind at 1, try, CheckBatchAvailability_srv, CheckBatchAvailability_mock. unfold bind.
    by destruct (RetrieveBatches_mock h m) as [[res|e|msg] m'].
  - intros h m. pose proof (RetrieveBatches_mock_not_err h m) as Hn. unfold RetrieveBatches_grpc. cbn [srv_RetrieveBatches server MockServ].
    unfold bind at 1, try, RetrieveBatches_srv. unfold bind at 1. pose proof (RetrieveBatches_mock_no_evidence h m) as Hev.
    destruct (RetrieveBatches_mock h m) as [[res|e|msg] m']; [|done..].
    destruct (batches_proto_roundtrip _ (Hev m' res eq_refl)) as (pbs & Hto & Hfrom). unfold bind at 1, lift at 1. rewrite Hto. cbn. by rewrite Hfrom.
Qed.
End Together.
