(* ===== verification/DARuns.v ===== *)
(** * DARuns: the Avail and gRPC clients on concrete layers *)
From stdpp Require Import base gmap strings vector sorting numbers list.
From S2P Require Import Prelude KVStore Types Serialization Concrete WireSpec Layers DA DASpec Avail GrpcDA.

#[local] Existing Instance toy.
#[local] Existing Instance toy_wire.
#[local] Existing Instance MemKV.

(** ** Avail *)

(** A chain whose block at every height has these extrinsics; every submission is finalized
    at once, in block 9. *)
Definition toy_avail (exts : list Extrinsic) : AvailNode := {|
  anode := list (bool * option error);      (* the health events published *)
  av_meta := unit; av_call := bytes; av_key := string; av_ext := bytes; av_hash := Z;
  av_GetMetadataLatest := ret tt;
  av_NewCall _ data := Ok data;
  av_GetBlockHash h := ret h;
  av_GetRuntimeVersionLatest := ret (1%Z, 1%Z);
  av_KeyringPairFromSecret seed := if String.eqb seed "" then Err (New "no seed") else Ok seed;
  av_CreateStorageKey _ _ := Ok [];
  av_GetStorageLatest _ := ret (true, 0%Z);
  av_Sign call _ _ := Ok call;
  av_SubmitAndWatchExtrinsic _ := ret tt;
  av_Unsubscribe s := s;
  av_Event := ret (AvFinalized 9%Z);
  av_GetHeader h := ret h;
  av_GetBlock _ := ret exts;
  av_Publish healthy err := modify (fun l => l ++ [(healthy, err)]);
  av_Done _ := false;
|}.

Definition avail_cfg : AvailConfig := {| av_Seed := "alice"; av_AppID := 7; av_Tip := 0; av_batchRetryAttempts := 10; av_marked := true |}.
Definition no_seed_cfg (marked : bool) : AvailConfig := {| av_Seed := ""; av_AppID := 7; av_Tip := 0; av_batchRetryAttempts := 10; av_marked := marked |}.

Definition data_ext (args : bytes) : Extrinsic := {| ext_AppID := 7; ext_SectionIndex := 29; ext_MethodIndex := 1; ext_Args := args |}.
Definition other_ext : Extrinsic := {| ext_AppID := 3; ext_SectionIndex := 29; ext_MethodIndex := 1; ext_Args := [Byte.x07] |}.
Definition batch_ext : Extrinsic := data_ext (enc (Batch_ToProto toy_batch)).
Definition junk_ext : Extrinsic := data_ext [Byte.x07].

#[local] Instance toy_batch_size : BatchSizeLaw toy_wire.
Proof. intros pb d [= <-]. reflexivity. Qed.

Lemma toy_carries : carries batch_ext toy_batch.
Proof. split_and!; [reflexivity|vm_compute; discriminate|repeat constructor]. Qed.

Lemma avail_retrieval_witness :
  (forall fuel, 0 < fuel -> RetrieveBatches_avail (N := toy_avail [other_ext; batch_ext]) avail_cfg fuel 5 [] =
     (Ok (Some {| drr_Base := {| dr_Code := StatusSuccess; dr_Message := ""; dr_DAHeight := 5 |}; drr_Batches := [Some toy_batch] |}), [])) /\
  (forall fuel, RetrieveBatches_avail (N := toy_avail [batch_ext; junk_ext]) avail_cfg fuel 5 [] = (Ok None, [])).
Proof.
  split.
  - intros fuel Hf. refine (proj1 (avail_retrieval (N := toy_avail [other_ext; batch_ext]) avail_cfg [other_ext; batch_ext] 5 5%Z [] [] [] eq_refl eq_refl) [toy_batch] fuel Hf _).
    constructor; [apply toy_carries|constructor].
  - refine (proj2 (avail_retrieval (N := toy_avail [batch_ext; junk_ext]) avail_cfg [batch_ext; junk_ext] 5 5%Z [] [] [] eq_refl eq_refl)
      [batch_ext] junk_ext [] [toy_batch] _ eq_refl _ eq_refl _ eq_refl).
    + constructor; [apply toy_carries|constructor].
    + discriminate.
Defined.

(** A submission reports the layer healthy and returns the height of the finalized block. *)
Example avail_submits :
  SubmitBatch_avail (N := toy_avail []) avail_cfg 3 toy_batch [] =
  (Ok (Some {| dr_Code := StatusSuccess; dr_Message := "success"; dr_DAHeight := 9 |}), [(true, None)]).
Proof. vm_compute. reflexivity. Qed.

(** A configuration error ends the submission only if the retry library keeps its mark. *)
Example avail_config_error :
  match (SubmitBatch_avail (N := toy_avail []) (no_seed_cfg true) 3 toy_batch []).1 with
  | Ok (Some res) => dr_Code res = StatusError | _ => False end /\
  (SubmitBatch_avail (N := toy_avail []) (no_seed_cfg false) 3 toy_batch []).1 = Ok None.
Proof. vm_compute. done. Qed.

(** ** gRPC *)

Lemma grpc_transparent_witness :
  SubmitBatch_grpc (S := MockServ toy_sha1) toy_batch toy_mock = SubmitBatch_mock toy_sha1 toy_batch toy_mock.
Proof. refine (proj1 (grpc_transparent toy_sha1) toy_batch toy_mock _). repeat constructor. Defined.
