(* ===== verification/Indexer.v ===== *)
(** * Indexer: what the two indexers share

    Models state/indexer/query_range.go, the conditions of a query (Tendermint's
    libs/pubsub/query, whose parser is a parameter: a query is the list of conditions that
    [Conditions] returns), the context that a search polls, and the loops that the
    transaction indexer and the block indexer have in common: the scan of an iterator into
    a map of matches, and the loop that intersects two such maps. *)
From stdpp Require Import base gmap strings vector sorting numbers list.
From S2P Require Import Prelude Strconv KVStore Types.

(** ** Conditions *)

(** [query.Operator]. *)
Inductive Operator := OpLessEqual | OpGreaterEqual | OpLess | OpGreater | OpEqual | OpContains | OpExists.

(** The dynamic type and value of an operand ([interface{}]): of a float64 only the text
    that [%v] prints matters, of a [time.Time] also its Unix seconds. *)
Inductive Operand :=
| ONil
| OString (s : bytes)
| OInt64 (z : Z)
| OFloat64 (text : bytes)
| OTime (unix : Z) (text : bytes).

#[global] Instance Operator_eq_dec : EqDecision Operator.
Proof. solve_decision. Defined.
#[global] Instance Operand_eq_dec : EqDecision Operand.
Proof. solve_decision. Defined.

(** [query.Condition]. *)
Record Condition := { c_CompositeKey : bytes; c_Op : Operator; c_Operand : Operand }.

(** [fmt.Sprintf("%v", operand)]. *)
Definition fmt_v (o : Operand) : bytes :=
  match o with
  | ONil => lit "<nil>"
  | OString s => s
  | OInt64 z => dec_bytes z
  | OFloat64 text => text
  | OTime _ text => text
  end.

(** Type assertions: [o.(int64)] and [o.(string)] panic on another type. *)
Definition as_int64 (o : Operand) : result Z :=
  match o with OInt64 z => Ok z | _ => Panic "interface conversion" end.
Definition as_string (o : Operand) : result bytes :=
  match o with OString s => Ok s | _ => Panic "interface conversion" end.

(** [strings.Contains]. *)
Fixpoint Contains (s sub : bytes) : bool :=
  bool_decide (sub `prefix_of` s) || match s with [] => false | _ :: s => Contains s sub end.

(** [event.Type + "." + attr.Key]. *)
Definition composite (event : ABCIEvent) (attr : EventAttribute) : bytes :=
  event_Type event ++ lit "." ++ attr_Key attr.

(** ** Ranges (state/indexer/query_range.go) *)

Record QueryRange := {
  qr_LowerBound : Operand;
  qr_UpperBound : Operand;
  qr_Key : bytes;
  qr_IncludeLowerBound : bool;
  qr_IncludeUpperBound : bool;
}.

Definition AnyBound (qr : QueryRange) : Operand :=
  if decide (qr_LowerBound qr <> ONil) then qr_LowerBound qr else qr_UpperBound qr.

Definition LowerBoundValue (qr : QueryRange) : result Operand :=
  if decide (qr_LowerBound qr = ONil) then Ok ONil
  else if qr_IncludeLowerBound qr then Ok (qr_LowerBound qr)
  else match qr_LowerBound qr with
       | OInt64 t => Ok (OInt64 (i64 (t + 1)))
       | OTime unix _ => Ok (OInt64 (i64 (unix + 1)))
       | _ => Panic "not implemented"
       end.

Definition UpperBoundValue (qr : QueryRange) : result Operand :=
  if decide (qr_UpperBound qr = ONil) then Ok ONil
  else if qr_IncludeUpperBound qr then Ok (qr_UpperBound qr)
  else match qr_UpperBound qr with
       | OInt64 t => Ok (OInt64 (i64 (t - 1)))
       | OTime unix _ => Ok (OInt64 (i64 (unix - 1)))
       | _ => Panic "not implemented"
       end.

Definition IsRangeOperation (op : Operator) : bool :=
  match op with OpGreater | OpGreaterEqual | OpLess | OpLessEqual => true | _ => false end.

Definition new_range (key : bytes) : QueryRange :=
  {| qr_LowerBound := ONil; qr_UpperBound := ONil; qr_Key := key;
     qr_IncludeLowerBound := false; qr_IncludeUpperBound := false |}.

(** The switch of [LookForRanges]: the bounds that a condition sets. *)
Definition set_bound (c : Condition) (r : QueryRange) : QueryRange :=
  match c_Op c with
  | OpGreater =>
      {| qr_LowerBound := c_Operand c; qr_UpperBound := qr_UpperBound r; qr_Key := qr_Key r;
         qr_IncludeLowerBound := qr_IncludeLowerBound r; qr_IncludeUpperBound := qr_IncludeUpperBound r |}
  | OpGreaterEqual =>
      {| qr_LowerBound := c_Operand c; qr_UpperBound := qr_UpperBound r; qr_Key := qr_Key r;
         qr_IncludeLowerBound := true; qr_IncludeUpperBound := qr_IncludeUpperBound r |}
  | OpLess =>
      {| qr_LowerBound := qr_LowerBound r; qr_UpperBound := c_Operand c; qr_Key := qr_Key r;
         qr_IncludeLowerBound := qr_IncludeLowerBound r; qr_IncludeUpperBound := qr_IncludeUpperBound r |}
  | OpLessEqual =>
      {| qr_LowerBound := qr_LowerBound r; qr_UpperBound := c_Operand c; qr_Key := qr_Key r;
         qr_IncludeLowerBound := qr_IncludeLowerBound r; qr_IncludeUpperBound := true |}
  | _ => r
  end.

Abbreviation QueryRanges := (gmap bytes QueryRange).

(** The loop of [LookForRanges] from index [i] on. *)
Fixpoint look_for_ranges (i : nat) (conditions : list Condition) (ranges : QueryRanges) (indexes : list nat)
    : QueryRanges * list nat :=
  match conditions with
  | [] => (ranges, indexes)
  | c :: conditions =>
      if IsRangeOperation (c_Op c) then
        let r := default (new_range (c_CompositeKey c)) (ranges !! c_CompositeKey c) in
        look_for_ranges (S i) conditions (<[c_CompositeKey c := set_bound c r]> ranges) (indexes ++ [i])
      else look_for_ranges (S i) conditions ranges indexes
  end.

Definition LookForRanges (conditions : list Condition) : QueryRanges * list nat :=
  look_for_ranges 0 conditions ∅ [].

(** [intInSlice]. *)
Definition intInSlice (a : nat) (l : list nat) : bool := existsb (Nat.eqb a) l.

(** [include] of the two [matchRange]: is [v] within the bounds? *)
Definition in_bounds (lowerBound upperBound : Operand) (v : Z) : result bool :=
  try! l := (if decide (lowerBound = ONil) then Ok true else try! b := as_int64 lowerBound in Ok (negb (v <? b)%Z)) in
  try! u := (if decide (upperBound = ONil) then Ok true else try! b := as_int64 upperBound in Ok (negb (b <? v)%Z)) in
  Ok (l && u).

(** ** Contexts and maps *)

(** A context: how many more times it can be polled before it is done; [None] is never
    cancelled. *)
Abbreviation Ctx := (option nat).

(** [select { case <-ctx.Done(): ... default: }]. *)
Definition poll : M Ctx bool := fun ctx =>
  match ctx with
  | None => (Ok false, None)
  | Some O => (Ok true, Some O)
  | Some (S n) => (Ok false, Some n)
  end.

(** [for k, v := range m]: the order in which Go visits the entries of a map is not
    specified. *)
Class MapOrder := range_map : forall V, gmap bytes V -> list (bytes * V).
Arguments range_map {_} {_} _.

Class MapOrderLaws (O : MapOrder) := {
  range_map_perm V (m : gmap bytes V) : range_map m ≡ₚ map_to_list m;
}.

(** ** Scanning an iterator *)

(** The matches found so far, and the last error of the iterator. *)
Record ScanState := { sc_tmp : gmap bytes bytes; sc_lastError : option error }.

(** [tmp[string(it.Value())] = it.Value()]: a value that cannot be read is nil, and its
    error is kept by the iterator. *)
Definition scan_add (value : result bytes) (s : ScanState) : result ScanState :=
  match value with
  | Ok v => Ok {| sc_tmp := <[v := v]> (sc_tmp s); sc_lastError := sc_lastError s |}
  | Err e => Ok {| sc_tmp := <[[] := []]> (sc_tmp s); sc_lastError := Some e |}
  | Panic msg => Panic msg
  end.

(** [for ; it.Valid(); it.Next() { ... }]: [select] decides about a key whether the body
    goes on with the next one ([None]), and whether it adds the value; the context is
    polled at the end of the body. *)
Fixpoint scan (select : bytes -> result (option bool)) (it : iterator) (s : ScanState) : M Ctx ScanState :=
  match it with
  | [] => ret s
  | (key, value) :: it =>
      let! choice := lift (select key) in
      match choice with
      | None => scan select it s
      | Some add =>
          let! s := lift (if add : bool then scan_add value s else Ok s) in
          let! done := poll in
          if done : bool then ret s else scan select it s
      end
  end.

Definition scan_start : ScanState := {| sc_tmp := ∅; sc_lastError := None |}.

(** [tmp[k] == nil]: no entry, or an empty one. *)
Definition nil_entry (tmp : gmap bytes bytes) (k : bytes) : bool := bool_decide (default [] (tmp !! k) = []).

(** The loop that removes from [filtered] what is not in [tmp], over its keys. *)
Fixpoint narrow (tmp : gmap bytes bytes) (keys : list bytes) (filtered : gmap bytes bytes) : M Ctx (gmap bytes bytes) :=
  match keys with
  | [] => ret filtered
  | k :: keys =>
      if nil_entry tmp k then
        let filtered := delete k filtered in
        let! done := poll in
        if done : bool then ret filtered else narrow tmp keys filtered
      else narrow tmp keys filtered
  end.

Section Narrow.
Context {O : MapOrder}.

(** The end of [match] and of [matchRange]. *)
Definition intersect (tmp filtered : gmap bytes bytes) (firstRun : bool) : M Ctx (gmap bytes bytes) :=
  if bool_decide (tmp = ∅) || firstRun then ret tmp
  else narrow tmp (range_map filtered).*1 filtered.
End Narrow.

(** ** The loops of a search *)

Section Loops.
Context {A : Type} (run : A -> gmap bytes bytes -> bool -> M Ctx (gmap bytes bytes)).

(** The loop over the ranges and the one over the other conditions: the first match
    initialises what is filtered, and ends the loop when it is empty; the others narrow it. *)
Fixpoint narrow_all (l : list A) (initialized : bool) (filtered : gmap bytes bytes) : M Ctx (bool * gmap bytes bytes) :=
  match l with
  | [] => ret (initialized, filtered)
  | x :: l =>
      if negb initialized then
        let! filtered := run x filtered true in
        if bool_decide (filtered = ∅) then ret (true, filtered) else narrow_all l true filtered
      else
        let! filtered := run x filtered false in
        narrow_all l true filtered
  end.
End Loops.

(** The conditions that [if intInSlice(i, skipIndexes) { continue }] lets through, from
    index [i] on. *)
Fixpoint unskipped (skipIndexes : list nat) (i : nat) (conditions : list Condition) : list Condition :=
  match conditions with
  | [] => []
  | c :: conditions =>
      if intInSlice i skipIndexes then unskipped skipIndexes (S i) conditions
      else c :: unskipped skipIndexes (S i) conditions
  end.

(** ** Batches *)

(** A new batch filled by [c] and committed; it is discarded when [c] fails. *)
Definition with_new_batch {K : KVStore} (c : M batch unit) : M db unit := fun d =>
  match c (kv_new_batch d) with
  | (Ok _, b) => batch_commit b d
  | (Err e, _) => (Err e, d)
  | (Panic m, _) => (Panic m, d)
  end.
