(* ===== verification/IndexerSpec.v ===== *)
(** * IndexerSpec: reference semantics and shared lemmas of the indexers

    What it means that an indexed object satisfies a query, and the lemmas that the
    searches of transactions and of blocks share: the ranges that [LookForRanges] collects
    are the comparisons of the query, a scan collects the values of the keys it selects,
    and maps of matches are intersected. *)
From stdpp Require Import base gmap strings vector sorting numbers list.
From S2P Require Import Prelude Strconv KVStore Types Indexer.

(** ** The reference semantics of a query *)

(** A comparison with an integer. *)
Definition compares (c : Condition) (v : Z) : bool :=
  match c_Op c, c_Operand c with
  | OpGreater, OInt64 t => (t <? v)%Z
  | OpGreaterEqual, OInt64 t => (t <=? v)%Z
  | OpLess, OInt64 t => (v <? t)%Z
  | OpLessEqual, OInt64 t => (v <=? t)%Z
  | _, _ => false
  end.

(** One value satisfies all the comparisons of the query with [key]. *)
Definition value_in_ranges (conditions : list Condition) (key value : bytes) : bool :=
  match ParseInt (cs value) with
  | Ok v => forallb (fun c => negb (IsRangeOperation (c_Op c)) || negb (bool_decide (c_CompositeKey c = key)) || compares c v)
              conditions
  | _ => false
  end.

(** Does a tag satisfy a condition? *)
Definition tag_matches (conditions : list Condition) (c : Condition) (tag : bytes * bytes) : bool :=
  bool_decide (tag.1 = c_CompositeKey c) &&
  match c_Op c with
  | OpEqual => bool_decide (tag.2 = fmt_v (c_Operand c))
  | OpExists => true
  | OpContains => match c_Operand c with OString s => Contains tag.2 s | _ => false end
  | _ => value_in_ranges conditions (c_CompositeKey c) tag.2
  end.

(** Every condition is satisfied by some tag. *)
Definition tags_match (conditions : list Condition) (ts : list (bytes * bytes)) : bool :=
  forallb (fun c => existsb (tag_matches conditions c) ts) conditions.

(** ** Elements *)

Lemma forall_nil_elem {A} (P : A -> Prop) : (forall x, x ∈ [] -> P x) <-> True.
Proof. split; [done|]. intros _ x Hx. by apply elem_of_nil in Hx. Qed.

Lemma forall_cons_elem {A} (P : A -> Prop) y l : (forall x, x ∈ y :: l -> P x) <-> P y /\ forall x, x ∈ l -> P x.
Proof. setoid_rewrite elem_of_cons. naive_solver. Qed.

Lemma NoDup_fmap_elem_inj {A B} (f : A -> B) (l : list A) x y : NoDup (f <$> l) -> x ∈ l -> y ∈ l -> f x = f y -> x = y.
Proof.
  intros Hnd [i Hi]%list_elem_of_lookup [j Hj]%list_elem_of_lookup E. assert (i = j) as ->; [|congruence].
  eapply (NoDup_lookup (f <$> l)); [done|by rewrite list_lookup_fmap, Hi|by rewrite list_lookup_fmap, Hj, E].
Qed.

(** ** What is written *)

(** The attributes that the events mark for indexing, with their composite key. *)
Definition event_tags (events : list ABCIEvent) : list (bytes * bytes) :=
  event ← events;
  if (length (event_Type event) =? 0)%nat then []
  else attr ← event_Attributes event;
       if (length (attr_Key attr) =? 0)%nat then []
       else if attr_Index attr then [(composite event attr, attr_Value attr)] else [].

(** ** Ranges *)

Definition lower_op (op : Operator) : bool := match op with OpGreater | OpGreaterEqual => true | _ => false end.
Definition upper_op (op : Operator) : bool := match op with OpLess | OpLessEqual => true | _ => false end.

Lemma range_op_split op : IsRangeOperation op = lower_op op || upper_op op.
Proof. by destruct op. Qed.

(** The comparisons of a query that have a meaning: with integers whose neighbour exists,
    at most one lower and one upper bound for a key. *)
Record plain_ranges (conditions : list Condition) : Prop := {
  pr_int c : c ∈ conditions -> IsRangeOperation (c_Op c) = true ->
    exists t, c_Operand c = OInt64 t /\ is_i64 t /\ (c_Op c = OpGreater -> t < 2 ^ 63 - 1)%Z /\ (c_Op c = OpLess -> - 2 ^ 63 < t)%Z;
  pr_lower c c' : c ∈ conditions -> c' ∈ conditions -> lower_op (c_Op c) = true -> lower_op (c_Op c') = true ->
    c_CompositeKey c = c_CompositeKey c' -> c = c';
  pr_upper c c' : c ∈ conditions -> c' ∈ conditions -> upper_op (c_Op c) = true -> upper_op (c_Op c') = true ->
    c_CompositeKey c = c_CompositeKey c' -> c = c';
}.

(** A bound of the range of [key], after the conditions [cs0]: the one of the only
    condition of its side, if any. *)
Definition bound_ok (side : Operator -> bool) (incl : Operator) (cs0 : list Condition) (key : bytes) (b : Operand) (i : bool) : Prop :=
  (b = ONil /\ i = false /\ forall c, c ∈ cs0 -> side (c_Op c) = true -> c_CompositeKey c <> key) \/
  (exists c, c ∈ cs0 /\ side (c_Op c) = true /\ c_CompositeKey c = key /\ b = c_Operand c /\ i = bool_decide (c_Op c = incl)).

Definition range_ok (cs0 : list Condition) (key : bytes) (qr : QueryRange) : Prop :=
  qr_Key qr = key /\
  (exists c, c ∈ cs0 /\ IsRangeOperation (c_Op c) = true /\ c_CompositeKey c = key) /\
  bound_ok lower_op OpGreaterEqual cs0 key (qr_LowerBound qr) (qr_IncludeLowerBound qr) /\
  bound_ok upper_op OpLessEqual cs0 key (qr_UpperBound qr) (qr_IncludeUpperBound qr).

Definition ranges_ok (cs0 : list Condition) (ranges : QueryRanges) : Prop :=
  forall key, match ranges !! key with
              | Some qr => range_ok cs0 key qr
              | None => forall c, c ∈ cs0 -> IsRangeOperation (c_Op c) = true -> c_CompositeKey c <> key
              end.

(** Conditions of the other side or of another key leave a bound alone. *)
Lemma bound_ok_other side incl cs0 c key b i :
  side (c_Op c) = false \/ c_CompositeKey c <> key -> bound_ok side incl cs0 key b i -> bound_ok side incl (cs0 ++ [c]) key b i.
Proof.
  intros Ho [(-> & -> & H)|(c' & Hin & H)]; [left|right].
  - split_and!; [done|done|]. intros c' [Hc|Hc%list_elem_of_singleton]%elem_of_app; [by apply H|subst c']. intros Hs.
    destruct Ho as [Ho|Ho]; congruence.
  - exists c'. rewrite elem_of_app. naive_solver.
Qed.

(** A condition of the side sets it. *)
Lemma bound_ok_set side incl cs0 c b i :
  (forall c', c' ∈ cs0 -> side (c_Op c') = true -> c_CompositeKey c' = c_CompositeKey c -> c' = c) -> side (c_Op c) = true ->
  bound_ok side incl cs0 (c_CompositeKey c) b i ->
  bound_ok side incl (cs0 ++ [c]) (c_CompositeKey c) (c_Operand c) (bool_decide (c_Op c = incl) || i).
Proof.
  intros Hu Hs Hb. right. exists c. split_and!; [rewrite elem_of_app, list_elem_of_singleton; by right|done|done|done|].
  destruct Hb as [(_ & -> & _)|(c' & Hin & Hs' & Hk & _ & ->)]; [apply orb_false_r|].
  rewrite (Hu c') by done. by destruct (bool_decide _).
Qed.

Lemma range_ok_other cs0 c key qr :
  IsRangeOperation (c_Op c) = false \/ c_CompositeKey c <> key -> range_ok cs0 key qr -> range_ok (cs0 ++ [c]) key qr.
Proof.
  intros Ho (Hk & (c' & Hin & Hc') & Hl & Hu). split; [done|]. split; [exists c'; rewrite elem_of_app; naive_solver|].
  rewrite range_op_split, orb_false_iff in Ho. split; apply bound_ok_other; naive_solver.
Qed.

Lemma range_ok_set cs0 c qr :
  plain_ranges (cs0 ++ [c]) -> IsRangeOperation (c_Op c) = true ->
  bound_ok lower_op OpGreaterEqual cs0 (c_CompositeKey c) (qr_LowerBound qr) (qr_IncludeLowerBound qr) ->
  bound_ok upper_op OpLessEqual cs0 (c_CompositeKey c) (qr_UpperBound qr) (qr_IncludeUpperBound qr) ->
  qr_Key qr = c_CompositeKey c -> range_ok (cs0 ++ [c]) (c_CompositeKey c) (set_bound c qr).
Proof.
  intros Hp Hr Hl Hu Hk.
  assert (Hc : c ∈ cs0 ++ [c]) by (rewrite elem_of_app, list_elem_of_singleton; by right).
  assert (Hul : lower_op (c_Op c) = true -> forall c', c' ∈ cs0 -> lower_op (c_Op c') = true -> c_CompositeKey c' = c_CompositeKey c -> c' = c)
    by (intros; apply (pr_lower _ Hp); auto; apply elem_of_app; by left).
  assert (Huu : upper_op (c_Op c) = true -> forall c', c' ∈ cs0 -> upper_op (c_Op c') = true -> c_CompositeKey c' = c_CompositeKey c -> c' = c)
    by (intros; apply (pr_upper _ Hp); auto; apply elem_of_app; by left).
  assert (Hex : exists c', c' ∈ cs0 ++ [c] /\ IsRangeOperation (c_Op c') = true /\ c_CompositeKey c' = c_CompositeKey c) by eauto.
  unfold range_ok, set_bound.
  destruct (c_Op c) eqn:Eo; try discriminate Hr; cbn; split_and!; try done;
    first [apply bound_ok_other; [left; by rewrite Eo|done]
          |match goal with |- bound_ok ?s ?o _ _ _ ?b =>
             pose proof (bound_ok_set s o cs0 c) as Hset; rewrite Eo in Hset; cbn in Hset; by eapply Hset; eauto end].
Qed.

Lemma new_range_ok cs0 key side incl :
  (forall c, c ∈ cs0 -> IsRangeOperation (c_Op c) = true -> c_CompositeKey c <> key) ->
  (forall op, side op = true -> IsRangeOperation op = true) -> bound_ok side incl cs0 key ONil false.
Proof. intros H Hs. left. split_and!; auto. Qed.

Lemma look_for_ranges_ok n conditions cs0 ranges indexes :
  plain_ranges (cs0 ++ conditions) -> ranges_ok cs0 ranges ->
  ranges_ok (cs0 ++ conditions) (look_for_ranges n conditions ranges indexes).1.
Proof.
  revert n cs0 ranges indexes. induction conditions as [|c conditions IH]; intros n cs0 ranges indexes Hp Hr; cbn [look_for_ranges].
  { by rewrite app_nil_r. }
  assert (Happ : cs0 ++ c :: conditions = (cs0 ++ [c]) ++ conditions) by (by rewrite <- app_assoc).
  rewrite Happ in Hp |- *.
  assert (Hp' : plain_ranges (cs0 ++ [c])).
  { assert (Hsub : forall x, x ∈ cs0 ++ [c] -> x ∈ (cs0 ++ [c]) ++ conditions) by (intros; apply elem_of_app; by left).
    split; intros; [by apply (pr_int _ Hp); auto|apply (pr_lower _ Hp); auto|apply (pr_upper _ Hp); auto]. }
  destruct (IsRangeOperation (c_Op c)) eqn:Eo; (apply IH; [done|]); intros key.
  - destruct (decide (key = c_CompositeKey c)) as [->|Hne].
    + rewrite lookup_insert_eq. specialize (Hr (c_CompositeKey c)). destruct (ranges !! c_CompositeKey c) as [qr|]; simpl.
      * destruct Hr as (Hk & _ & Hl & Hu). by apply range_ok_set.
      * apply range_ok_set; [done|done| | |done]; apply new_range_ok; auto; by intros [].
    + rewrite lookup_insert_ne by done. specialize (Hr key). destruct (ranges !! key) as [qr|].
      * apply range_ok_other; auto.
      * intros c' [Hc|Hc%list_elem_of_singleton]%elem_of_app; [by apply Hr|by subst c'].
  - specialize (Hr key). destruct (ranges !! key) as [qr|].
    + apply range_ok_other; auto.
    + intros c' [Hc|Hc%list_elem_of_singleton]%elem_of_app; [by apply Hr|subst c'; congruence].
Qed.

Lemma LookForRanges_ok conditions : plain_ranges conditions -> ranges_ok conditions (LookForRanges conditions).1.
Proof. intros Hp. apply (look_for_ranges_ok 0 conditions [] ∅ []); [done|]. intros key. rewrite lookup_empty. intros c Hc. by apply elem_of_nil in Hc. Qed.

(** The tests of [in_bounds], one side at a time. *)
Lemma lower_test cs0 key qr :
  plain_ranges cs0 -> bound_ok lower_op OpGreaterEqual cs0 key (qr_LowerBound qr) (qr_IncludeLowerBound qr) ->
  exists l, LowerBoundValue qr = Ok l /\
    (forall v, exists b, (if decide (l = ONil) then Ok true else try! b := as_int64 l in Ok (negb (v <? b)%Z)) = Ok b /\
       (b = true <-> forall c, c ∈ cs0 -> lower_op (c_Op c) = true -> c_CompositeKey c = key -> compares c v = true)).
Proof.
  intros Hp [(Hb & Hi & Hno)|(c & Hin & Hs & Hk & Hb & Hi)]; unfold LowerBoundValue; rewrite Hb.
  - rewrite decide_True by done. eexists. split; [done|]. intros v. exists true. split; [done|]. split; [|done].
    intros _ c Hc Hs Hk. by destruct (Hno c).
  - assert (Hr : IsRangeOperation (c_Op c) = true) by (rewrite range_op_split, Hs; done).
    destruct (pr_int _ Hp c Hin Hr) as (t & Ht & Hi64 & Hg & _). unfold is_i64 in Hi64. rewrite Ht. rewrite decide_False by done.
    assert (Hall : forall v, (forall c', c' ∈ cs0 -> lower_op (c_Op c') = true -> c_CompositeKey c' = key -> compares c' v = true)
                             <-> compares c v = true).
    { intros v. split; [naive_solver|]. intros Hv c' Hc' Hs' Hk'. by rewrite (pr_lower _ Hp c' c) by congruence. }
    rewrite Hi. destruct (c_Op c) eqn:Eo; try discriminate Hs.
    + rewrite bool_decide_true by done. eexists. split; [done|]. intros v. rewrite decide_False by done. eexists. split; [done|].
      rewrite Hall. unfold compares. rewrite Eo, Ht. lia.
    + rewrite bool_decide_false by done. eexists. split; [done|]. intros v. rewrite decide_False by done. eexists. split; [done|].
      rewrite Hall. unfold compares. rewrite Eo, Ht. specialize (Hg eq_refl). unfold i64. rewrite Z.mod_small by lia. lia.
Qed.

Lemma upper_test cs0 key qr :
  plain_ranges cs0 -> bound_ok upper_op OpLessEqual cs0 key (qr_UpperBound qr) (qr_IncludeUpperBound qr) ->
  exists u, UpperBoundValue qr = Ok u /\
    (forall v, exists b, (if decide (u = ONil) then Ok true else try! b := as_int64 u in Ok (negb (b <? v)%Z)) = Ok b /\
       (b = true <-> forall c, c ∈ cs0 -> upper_op (c_Op c) = true -> c_CompositeKey c = key -> compares c v = true)).
Proof.
  intros Hp [(Hb & Hi & Hno)|(c & Hin & Hs & Hk & Hb & Hi)]; unfold UpperBoundValue; rewrite Hb.
  - rewrite decide_True by done. eexists. split; [done|]. intros v. exists true. split; [done|]. split; [|done].
    intros _ c Hc Hs Hk. by destruct (Hno c).
  - assert (Hr : IsRangeOperation (c_Op c) = true) by (rewrite range_op_split, Hs; apply orb_true_r).
    destruct (pr_int _ Hp c Hin Hr) as (t & Ht & Hi64 & _ & Hg). unfold is_i64 in Hi64. rewrite Ht. rewrite decide_False by done.
    assert (Hall : forall v, (forall c', c' ∈ cs0 -> upper_op (c_Op c') = true -> c_CompositeKey c' = key -> compares c' v = true)
                             <-> compares c v = true).
    { intros v. split; [naive_solver|]. intros Hv c' Hc' Hs' Hk'. by rewrite (pr_upper _ Hp c' c) by congruence. }
    rewrite Hi. destruct (c_Op c) eqn:Eo; try discriminate Hs.
    + rewrite bool_decide_true by done. eexists. split; [done|]. intros v. rewrite decide_False by done. eexists. split; [done|].
      rewrite Hall. unfold compares. rewrite Eo, Ht. lia.
    + rewrite bool_decide_false by done. eexists. split; [done|]. intros v. rewrite decide_False by done. eexists. split; [done|].
      rewrite Hall. unfold compares. rewrite Eo, Ht. specialize (Hg eq_refl). unfold i64. rewrite Z.mod_small by lia. lia.
Qed.

(** The comparisons of the query with [key] that an integer has to satisfy. *)
Definition int_in_ranges (conditions : list Condition) (key : bytes) (v : Z) : bool :=
  forallb (fun c => negb (IsRangeOperation (c_Op c)) || negb (bool_decide (c_CompositeKey c = key)) || compares c v) conditions.

Lemma int_in_ranges_spec conditions key v :
  int_in_ranges conditions key v = true <->
  forall c, c ∈ conditions -> IsRangeOperation (c_Op c) = true -> c_CompositeKey c = key -> compares c v = true.
Proof.
  unfold int_in_ranges. rewrite forallb_forall. split; intros H c Hc.
  - intros Hr Hk. apply list_elem_of_In in Hc. specialize (H c Hc). by rewrite Hr, bool_decide_true in H by done.
  - apply list_elem_of_In in Hc. destruct (IsRangeOperation (c_Op c)) eqn:Er; [|done].
    case_bool_decide; [|done]. by apply H.
Qed.

(** A range collected from a plain query decides as the comparisons do. *)
Lemma range_decides cs0 key qr :
  plain_ranges cs0 -> range_ok cs0 key qr ->
  exists l u z, LowerBoundValue qr = Ok l /\ UpperBoundValue qr = Ok u /\ AnyBound qr = OInt64 z /\
    forall v, in_bounds l u v = Ok (int_in_ranges cs0 key v).
Proof.
  intros Hp (Hk & (c & Hin & Hr & Hck) & Hl & Hu).
  destruct (lower_test cs0 key qr Hp Hl) as (l & El & Tl). destruct (upper_test cs0 key qr Hp Hu) as (u & Eu & Tu).
  assert (exists z, AnyBound qr = OInt64 z) as [z Ez].
  { unfold AnyBound. destruct Hl as [(Hb & _ & Hno)|(c' & Hin' & Hs' & _ & Hb & _)]; rewrite Hb.
    - rewrite decide_False by naive_solver. destruct Hu as [(_ & _ & Hno')|(c' & Hin' & Hs' & _ & Hb' & _)].
      { rewrite range_op_split, orb_true_iff in Hr. naive_solver. }
      destruct (pr_int _ Hp c' Hin') as (t & Ht & _); [rewrite range_op_split, Hs'; apply orb_true_r|]. rewrite Hb', Ht. eauto.
    - destruct (pr_int _ Hp c' Hin') as (t & Ht & _); [rewrite range_op_split, Hs'; done|]. rewrite Ht. rewrite decide_True by done. eauto. }
  exists l, u, z. split_and!; [done..|]. intros v. unfold in_bounds.
  destruct (Tl v) as (bl & -> & Hbl). destruct (Tu v) as (bu & -> & Hbu). simpl. f_equal.
  apply eq_bool_prop_intro. rewrite !Is_true_true, andb_true_iff, Hbl, Hbu, int_in_ranges_spec.
  setoid_rewrite range_op_split. setoid_rewrite orb_true_iff. naive_solver.
Qed.

(** ** The parts of a query *)

Section Parts.
Context (conditions : list Condition) (ts : list (bytes * bytes)).

Lemma existsb_tags c : existsb (tag_matches conditions c) ts = true <-> exists tag, tag ∈ ts /\ tag_matches conditions c tag = true.
Proof. rewrite existsb_exists. by setoid_rewrite list_elem_of_In. Qed.

(** One of the tags with [key] is within the ranges of the query. *)
Definition ranged_tags (key : bytes) : Prop :=
  exists tag, tag ∈ ts /\ tag.1 = key /\ value_in_ranges conditions key tag.2 = true.

(** The ranges and the other conditions together are the query. *)
Lemma tags_match_split :
  plain_ranges conditions ->
  ((forall key qr, (LookForRanges conditions).1 !! key = Some qr -> ranged_tags key) /\
   (forall c, c ∈ conditions -> IsRangeOperation (c_Op c) = false -> existsb (tag_matches conditions c) ts = true)) <->
  tags_match conditions ts = true.
Proof.
  intros Hp. pose proof (LookForRanges_ok conditions Hp) as Hok. unfold tags_match. rewrite forallb_forall.
  assert (Hran : forall c, IsRangeOperation (c_Op c) = true -> existsb (tag_matches conditions c) ts = true <-> ranged_tags (c_CompositeKey c)).
  { intros c Hc. rewrite existsb_tags. unfold ranged_tags, tag_matches. setoid_rewrite andb_true_iff. setoid_rewrite bool_decide_eq_true.
    by destruct (c_Op c). }
  split.
  - intros [Hranges Hother] c Hc. apply list_elem_of_In in Hc. destruct (IsRangeOperation (c_Op c)) eqn:Er; [|by apply Hother].
    rewrite Hran by done. specialize (Hok (c_CompositeKey c)). destruct (_ !! _) as [qr|] eqn:Eqr; [by eapply Hranges|by destruct (Hok c)].
  - intros Hall. split; [|intros c Hc _; by apply Hall, list_elem_of_In].
    intros key qr Eqr. specialize (Hok key). rewrite Eqr in Hok. destruct Hok as (_ & (c & Hc & Hrc & <-) & _).
    apply Hran; [done|]. by apply Hall, list_elem_of_In.
Qed.
End Parts.

(** ** The indexes of the ranges *)

Lemma intInSlice_app i l1 l2 : intInSlice i (l1 ++ l2) = intInSlice i l1 || intInSlice i l2.
Proof. apply existsb_app. Qed.

Lemma look_for_ranges_indexes n conditions ranges indexes i :
  intInSlice i (look_for_ranges n conditions ranges indexes).2 =
  intInSlice i indexes || ((n <=? i)%nat && match conditions !! (i - n)%nat with Some c => IsRangeOperation (c_Op c) | None => false end).
Proof.
  revert n ranges indexes. induction conditions as [|c conditions IH]; intros n ranges indexes; cbn [look_for_ranges].
  { rewrite lookup_nil. by rewrite andb_false_r, orb_false_r. }
  assert (Hstep : forall b, (n <=? i)%nat && match (c :: conditions) !! (i - n)%nat with Some c => IsRangeOperation (c_Op c) | None => false end = b ->
    b = (Nat.eqb i n && IsRangeOperation (c_Op c)) ||
        ((S n <=? i)%nat && match conditions !! (i - S n)%nat with Some c => IsRangeOperation (c_Op c) | None => false end)).
  { intros b <-. destruct (Nat.leb_spec n i), (Nat.leb_spec (S n) i), (Nat.eqb_spec i n); try lia; simpl.
    - replace (i - n)%nat with (S (i - S n)) by lia. done.
    - subst i. rewrite Nat.sub_diag. simpl. by rewrite orb_false_r. }
  rewrite (Hstep _ eq_refl). destruct (IsRangeOperation (c_Op c)) eqn:E; rewrite IH, ?intInSlice_app; simpl;
    rewrite ?orb_false_r, ?andb_true_r, ?andb_false_r, <- ?orb_assoc; done.
Qed.

Lemma LookForRanges_indexes conditions i :
  intInSlice i (LookForRanges conditions).2 = match conditions !! i with Some c => IsRangeOperation (c_Op c) | None => false end.
Proof. unfold LookForRanges. rewrite look_for_ranges_indexes. simpl. by rewrite Nat.sub_0_r. Qed.

(** ** Maps of matches *)

(** The map [m] holds exactly the values with [P], each under itself. *)
Definition denotes (m : gmap bytes bytes) (P : bytes -> Prop) : Prop :=
  forall k v, m !! k = Some v <-> v = k /\ P k.

Lemma denotes_proper m P Q : (forall k, P k <-> Q k) -> denotes m P -> denotes m Q.
Proof. intros HPQ Hm k v. rewrite (Hm k v), HPQ. done. Qed.

Lemma denotes_empty P : denotes ∅ P <-> forall k, ~ P k.
Proof.
  unfold denotes. split; intros H k.
  - intros HP. pose proof (proj2 (H k k) (conj eq_refl HP)) as E. by rewrite lookup_empty in E.
  - intros v. rewrite lookup_empty. naive_solver.
Qed.

Lemma denotes_insert m P v : denotes m P -> denotes (<[v := v]> m) (fun k => k = v \/ P k).
Proof. intros Hm k w. rewrite lookup_insert. case_decide; subst; [|rewrite (Hm k w)]; naive_solver. Qed.

Lemma denotes_dom m P k : denotes m P -> k ∈ (map_to_list m).*1 <-> P k.
Proof.
  intros Hm. rewrite list_elem_of_fmap. split.
  - intros ([k' v] & -> & Hin). apply elem_of_map_to_list, Hm in Hin. naive_solver.
  - intros HP. exists (k, k). split; [done|]. apply elem_of_map_to_list, Hm. done.
Qed.

(** The values under which a map denotes are its keys. *)
Lemma denotes_values m P : denotes m P -> (map_to_list m).*2 = (map_to_list m).*1.
Proof.
  intros Hm. apply list_fmap_ext. intros i [k v] Hi. apply list_elem_of_lookup_2, elem_of_map_to_list, Hm in Hi. naive_solver.
Qed.

(** ** Scans *)

(** The iterator delivers all its values. *)
Definition readable (it : iterator) : Prop := forall k r, (k, r) ∈ it -> exists v, r = Ok v.

Definition selected (select : bytes -> result (option bool)) (it : iterator) (v : bytes) : Prop :=
  exists k, (k, Ok v) ∈ it /\ select k = Ok (Some true).

Lemma selected_cons select k v it w :
  selected select ((k, Ok v) :: it) w <-> (w = v /\ select k = Ok (Some true)) \/ selected select it w.
Proof.
  unfold selected. split.
  - intros (k' & [[= -> ->]|Hin]%elem_of_cons & Hs); [by left|right; eauto].
  - intros [[-> Hs]|(k' & Hin & Hs)]; [exists k|exists k']; (split; [|done]); [left|by right].
Qed.

Lemma scan_run select it s P :
  readable it -> (forall k r, (k, r) ∈ it -> exists c, select k = Ok c) -> denotes (sc_tmp s) P ->
  exists s', scan select it s None = (Ok s', None) /\ sc_lastError s' = sc_lastError s /\
    denotes (sc_tmp s') (fun v => P v \/ selected select it v).
Proof.
  revert s P. induction it as [|[k r] it IH]; intros s P Hread Hsel Hs; cbn [scan].
  { exists s. split_and!; [done|done|]. eapply denotes_proper; [|exact Hs]. intros v. split; [by left|]. intros [?|(k & Hin & _)]; [done|by apply elem_of_nil in Hin]. }
  destruct (Hread k r) as [v ->]; [by left|]. destruct (Hsel k (Ok v)) as [c Hc]; [by left|].
  assert (Hread' : readable it) by (intros k' r' Hin; apply (Hread k' r'); by right).
  assert (Hsel' : forall k r, (k, r) ∈ it -> exists c, select k = Ok c) by (intros k' r' Hin; apply (Hsel k' r'); by right).
  unfold bind at 1, lift at 1. rewrite Hc. destruct c as [[|]|].
  - unfold bind, lift, poll. cbn [scan_add]. destruct (IH {| sc_tmp := <[v:=v]> (sc_tmp s); sc_lastError := sc_lastError s |}
      (fun k => k = v \/ P k)) as (s' & -> & He & Hd); [done|done|by apply denotes_insert|].
    exists s'. split_and!; [done|done|]. eapply denotes_proper; [|exact Hd]. intros w. rewrite selected_cons, Hc. clear. naive_solver.
  - unfold bind, lift, poll. destruct (IH s P) as (s' & -> & He & Hd); [done..|]. exists s'. split_and!; [done|done|].
    eapply denotes_proper; [|exact Hd]. intros w. rewrite selected_cons, Hc. clear. naive_solver.
  - destruct (IH s P) as (s' & -> & He & Hd); [done..|]. exists s'. split_and!; [done|done|].
    eapply denotes_proper; [|exact Hd]. intros w. rewrite selected_cons, Hc. clear. naive_solver.
Qed.

Lemma scan_start_run select it :
  readable it -> (forall k r, (k, r) ∈ it -> exists c, select k = Ok c) ->
  exists s', scan select it scan_start None = (Ok s', None) /\ sc_lastError s' = None /\
    denotes (sc_tmp s') (selected select it).
Proof.
  intros Hr Hs. destruct (scan_run select it scan_start (fun _ => False) Hr Hs) as (s' & E & He & Hd).
  { apply denotes_empty. auto. }
  exists s'. split_and!; [done|done|]. eapply denotes_proper; [|exact Hd]. naive_solver.
Qed.

(** ** Intersections *)

Lemma narrow_run tmp keys filtered :
  exists f, narrow tmp keys filtered None = (Ok f, None) /\
    forall k, f !! k = if decide (k ∈ keys /\ nil_entry tmp k = true) then None else filtered !! k.
Proof.
  revert filtered. induction keys as [|x keys IH]; intros filtered; cbn [narrow].
  { exists filtered. split; [done|]. intros k. rewrite decide_False; [done|]. intros [Hk _]. by apply elem_of_nil in Hk. }
  destruct (nil_entry tmp x) eqn:En.
  - unfold bind, poll. destruct (IH (delete x filtered)) as (f & -> & Hf). exists f. split; [done|]. intros k. rewrite Hf.
    destruct (decide (k = x)) as [->|Hne].
    + rewrite lookup_delete_eq, (decide_True (P := x ∈ x :: keys /\ _)) by (split; [by left|done]). by case_decide.
    + rewrite lookup_delete_ne by done. apply decide_ext. rewrite elem_of_cons. naive_solver.
  - destruct (IH filtered) as (f & -> & Hf). exists f. split; [done|]. intros k. rewrite Hf.
    apply decide_ext. rewrite elem_of_cons. split; [naive_solver|]. intros [[->|?] ?]; [congruence|done].
Qed.

Lemma nil_entry_denotes tmp P k : denotes tmp P -> (forall v, P v -> v <> []) -> nil_entry tmp k = true <-> ~ P k.
Proof.
  intros Hd Hne. unfold nil_entry. rewrite bool_decide_eq_true. destruct (tmp !! k) as [v|] eqn:E; simpl.
  - apply Hd in E as [-> HP]. specialize (Hne k HP). naive_solver.
  - split; [|done]. intros _ HP. rewrite (proj2 (Hd k k) (conj eq_refl HP)) in E. done.
Qed.

Lemma intersect_run {O : MapOrder} `{!MapOrderLaws O} tmp filtered P Q firstRun :
  denotes tmp P -> (forall v, P v -> v <> []) -> (firstRun = false -> denotes filtered Q) ->
  exists f, intersect tmp filtered firstRun None = (Ok f, None) /\
    denotes f (fun k => P k /\ (firstRun = true \/ Q k)).
Proof.
  intros HP Hne HQ. unfold intersect. case_bool_decide as Et; simpl.
  { subst tmp. exists ∅. split; [done|]. apply denotes_empty. rewrite denotes_empty in HP. naive_solver. }
  destruct firstRun; [exists tmp; split; [done|]; eapply denotes_proper; [|exact HP]; naive_solver|].
  specialize (HQ eq_refl). destruct (narrow_run tmp (range_map filtered).*1 filtered) as (f & -> & Hf). exists f. split; [done|].
  intros k v. rewrite Hf. assert (Hdom : k ∈ (range_map filtered).*1 <-> Q k) by (rewrite range_map_perm; by apply denotes_dom).
  pose proof (nil_entry_denotes tmp P k HP Hne) as Hnil.
  destruct (nil_entry tmp k) eqn:En; case_decide as Hd; rewrite ?(HQ k v); [naive_solver|naive_solver|naive_solver|].
  assert (HPk : P k).
  { destruct (tmp !! k) as [w|] eqn:Ew; [by apply HP in Ew as [_ ?]|]. unfold nil_entry in En. by rewrite Ew in En. }
  naive_solver.
Qed.

(** ** What a search has found *)

Section Found.
Context {O : MapOrder} `{!MapOrderLaws O} {A : Type} (xs : list A) (key : A -> bytes).
Hypothesis key_inj : forall x y, x ∈ xs -> y ∈ xs -> key x = key y -> x = y.
Hypothesis key_some : forall x, x ∈ xs -> key x <> [].

(** A map of matches holds the keys of the elements with [P]. *)
Definition found (m : gmap bytes bytes) (P : A -> Prop) : Prop :=
  denotes m (fun v => exists x, x ∈ xs /\ v = key x /\ P x).

Lemma found_proper m P Q : (forall x, x ∈ xs -> P x <-> Q x) -> found m P -> found m Q.
Proof. intros H. apply denotes_proper. intros k. naive_solver. Qed.

Lemma found_empty P : found ∅ P <-> forall x, x ∈ xs -> ~ P x.
Proof. unfold found. rewrite denotes_empty. naive_solver. Qed.

(** Intersecting with what was found before. *)
Lemma intersect_found tmp filtered P Q firstRun :
  found tmp P -> (firstRun = false -> found filtered Q) ->
  exists f, intersect tmp filtered firstRun None = (Ok f, None) /\ found f (fun x => P x /\ (firstRun = true \/ Q x)).
Proof.
  intros HP HQ. destruct (intersect_run tmp filtered _ (fun v => exists x, x ∈ xs /\ v = key x /\ Q x) firstRun HP)
    as (f & Hf & Hden).
  - intros v (x & Hx & -> & _). by apply key_some.
  - done.
  - exists f. split; [done|]. eapply denotes_proper; [|exact Hden]. intros v. split.
    + intros ((x & Hx & -> & Hp) & [?|(y & Hy & E & Hq)]); [exists x; auto|].
      assert (x = y) as <- by (by apply key_inj). exists x. auto.
    + intros (x & Hx & -> & Hp & Hor). split; [eauto|]. destruct Hor; [by left|right; eauto].
Qed.

(** [run b] finds the elements with [sem b] among those found before. *)
Definition narrows {B} (run : B -> gmap bytes bytes -> bool -> M Ctx (gmap bytes bytes)) (sem : B -> A -> Prop) (b : B) : Prop :=
  forall filtered Q firstRun, (firstRun = false -> found filtered Q) ->
  exists f, run b filtered firstRun None = (Ok f, None) /\ found f (fun x => sem b x /\ (firstRun = true \/ Q x)).

(** The state of a loop: nothing was matched yet, or what [P] says. *)
Definition progress_ok (init : bool) (m : gmap bytes bytes) (P : A -> Prop) : Prop :=
  if init then found m P else forall x, x ∈ xs -> P x.

Lemma progress_ok_proper init m P Q : (forall x, P x <-> Q x) -> progress_ok init m P -> progress_ok init m Q.
Proof. intros H. destruct init; simpl; [apply found_proper; auto|]. intros HP x Hx. by apply H, HP. Qed.

Lemma narrow_all_run {B} (run : B -> gmap bytes bytes -> bool -> M Ctx (gmap bytes bytes)) sem l init filtered P :
  (forall b, b ∈ l -> narrows run sem b) -> progress_ok init filtered P ->
  exists f, narrow_all run l init filtered None = (Ok (init || negb (bool_decide (l = [])), f), None) /\
            progress_ok (init || negb (bool_decide (l = []))) f (fun x => P x /\ forall b, b ∈ l -> sem b x).
Proof.
  revert init filtered P. induction l as [|b l IH]; intros init filtered P Hrun HP; cbn [narrow_all].
  { exists filtered. rewrite bool_decide_true by done. rewrite orb_false_r. split; [done|].
    eapply progress_ok_proper; [|exact HP]. intros x. rewrite forall_nil_elem. clear. naive_solver. }
  rewrite (bool_decide_false (b :: l = [])) by done. cbn [negb]. rewrite orb_true_r.
  apply forall_cons_elem in Hrun as [Hb Hl].
  assert (Hrest : forall f, found f (fun x => P x /\ sem b x) ->
    exists f', narrow_all run l true f None = (Ok (true, f'), None) /\ found f' (fun x => P x /\ forall c, c ∈ b :: l -> sem c x)).
  { intros f Hf. destruct (IH true f _ Hl Hf) as (f' & Hr & Hf'). exists f'. split; [done|].
    eapply found_proper; [|exact Hf']. intros x _. rewrite forall_cons_elem. clear. naive_solver. }
  destruct init.
  - destruct (Hb filtered P false ltac:(done)) as (f & Hm & Hf). cbn [negb]. unfold bind. rewrite Hm.
    apply Hrest. eapply found_proper; [|exact Hf]. clear. naive_solver.
  - destruct (Hb filtered P true ltac:(done)) as (f & Hm & Hf). cbn [negb]. unfold bind. rewrite Hm.
    assert (Hf' : found f (fun x => P x /\ sem b x)).
    { eapply found_proper; [|exact Hf]. intros x Hx. specialize (HP x Hx). clear -HP. naive_solver. }
    destruct (bool_decide_reflect (f = ∅)) as [->|_]; [|by apply Hrest]. exists ∅. split; [done|]. simpl. rewrite found_empty in Hf' |- *.
    intros x Hx. rewrite forall_cons_elem. specialize (Hf' x Hx). clear -Hf'. naive_solver.
Qed.

(** What was found, as keys in the order of the map. *)
Lemma found_values m P :
  found m P -> NoDup (range_map m).*2 /\ forall k, k ∈ (range_map m).*2 <-> exists x, x ∈ xs /\ k = key x /\ P x.
Proof.
  intros Hm. assert (Hperm : (range_map m).*2 ≡ₚ (map_to_list m).*1) by (rewrite <- (denotes_values m _ Hm); by rewrite range_map_perm).
  split; [rewrite Hperm; apply NoDup_fst_map_to_list|]. intros k. rewrite Hperm. exact (denotes_dom m _ k Hm).
Qed.
End Found.

(** The conditions that are not skipped are those without a comparison. *)
Lemma unskipped_spec conditions prev todo :
  conditions = prev ++ todo ->
  unskipped (LookForRanges conditions).2 (length prev) todo = filter (fun c => IsRangeOperation (c_Op c) = false) todo.
Proof.
  revert prev. induction todo as [|c todo IH]; intros prev Hsplit; cbn [unskipped]; [done|].
  assert (Hlk : conditions !! length prev = Some c) by (rewrite Hsplit; by apply list_lookup_middle).
  assert (Hnext : unskipped (LookForRanges conditions).2 (S (length prev)) todo = filter (fun c => IsRangeOperation (c_Op c) = false) todo).
  { replace (S (length prev)) with (length (prev ++ [c])) by (rewrite length_app; simpl; lia). apply IH. by rewrite <- app_assoc. }
  rewrite LookForRanges_indexes, Hlk, Hnext. destruct (IsRangeOperation (c_Op c)) eqn:E;
    [rewrite filter_cons_False by congruence|rewrite filter_cons_True by done]; done.
Qed.

(** The ranges of a map, in its order. *)
Lemma range_map_values {O : MapOrder} `{!MapOrderLaws O} (ranges : QueryRanges) qr :
  qr ∈ (range_map ranges).*2 <-> exists key, ranges !! key = Some qr.
Proof.
  rewrite list_elem_of_fmap. setoid_rewrite range_map_perm. split.
  - intros ([k q] & -> & Hin). apply elem_of_map_to_list in Hin. eauto.
  - intros [k Hk]. exists (k, qr). split; [done|]. by apply elem_of_map_to_list.
Qed.

(** A query that is not empty has a range or another condition. *)
Lemma query_not_empty {O : MapOrder} `{!MapOrderLaws O} conditions :
  conditions <> [] -> plain_ranges conditions ->
  negb (bool_decide ((range_map (LookForRanges conditions).1).*2 = [])) ||
  negb (bool_decide (unskipped (LookForRanges conditions).2 0 conditions = [])) = true.
Proof.
  intros Hne Hp. pose proof (LookForRanges_ok conditions Hp) as Hok. pose proof (unskipped_spec conditions [] conditions eq_refl) as Hun.
  cbn [length] in Hun. rewrite Hun. clear Hun. destruct conditions as [|c cs0]; [done|]. apply orb_true_iff. rewrite !negb_true_iff, !bool_decide_eq_false.
  destruct (IsRangeOperation (c_Op c)) eqn:Er; [left|right; by rewrite filter_cons_True].
  intros E. specialize (Hok (c_CompositeKey c)). destruct (_ !! _) as [qr|] eqn:Eqr; [|destruct (Hok c); [by left|done..]].
  assert (Hin : qr ∈ (range_map (LookForRanges (c :: cs0)).1).*2) by (apply range_map_values; eauto). rewrite E in Hin. by apply elem_of_nil in Hin.
Qed.

(** ** What a batch appends *)

Lemma fmap_list_bind {A B C} (f : B -> C) (g : A -> list B) (l : list A) : f <$> (l ≫= g) = l ≫= (fun x => f <$> g x).
Proof. induction l as [|x l IH]; [done|]. csimpl. by rewrite fmap_app, IH. Qed.

(** The operations pending in a batch, and the key under which a key is set: that of the
    store itself, or of the store below a prefix. *)
Record BatchView (K : KVStore) := {
  bv_ops : batch -> list kvop;
  bv_key : bytes -> bytes;
  bv_set k v : write_spec bv_ops (fun ops => ops ++ [OpSet (bv_key k) v]) (batch_set k v);
}.
Arguments bv_ops {K} _ _.
Arguments bv_key {K} _ _.
Arguments bv_set {K} _ _ _.

Definition plain_view (K : KVStore) `{!KVLaws K} : BatchView K :=
  {| bv_ops := batch_view; bv_key := id; bv_set := batch_set_view |}.

Definition view_below (K : KVStore) `{!KVLaws K} (p : bytes) : BatchView (PrefixKV K p) :=
  {| bv_ops := (@batch_view K _ : @batch (PrefixKV K p) -> _); bv_key := app p; bv_set := fun k v => @batch_set_view K _ (p ++ k) v |}.

Definition sets (f : bytes -> bytes) (kvs : list (bytes * bytes)) : list kvop := (fun kv => OpSet (f kv.1) kv.2) <$> kvs.

Section Appends.
Context {K : KVStore} (V : BatchView K).

(** When [c] returns it has appended the entries [kvs] to the batch. *)
Definition appends (kvs : list (bytes * bytes)) (c : M batch unit) : Prop :=
  forall b b', c b = (Ok tt, b') -> bv_ops V b' = bv_ops V b ++ sets (bv_key V) kvs.

Lemma appends_ret : appends [] (ret tt).
Proof. intros b b' [= <-]. by rewrite app_nil_r. Qed.

Lemma appends_set k v : appends [(k, v)] (batch_set k v).
Proof. intros b b' E. by rewrite (write_spec_ok _ _ _ _ _ _ (bv_set V k v) E). Qed.

Lemma appends_bind kvs1 kvs2 c1 c2 : appends kvs1 c1 -> appends kvs2 c2 -> appends (kvs1 ++ kvs2) (do! c1 in c2).
Proof.
  intros H1 H2 b b' E. apply bind_inv_ok in E as ([] & b1 & E1 & E2). unfold sets.
  rewrite (H2 _ _ E2), (H1 _ _ E1), fmap_app. unfold sets. by rewrite app_assoc.
Qed.

Lemma appends_for_each {A} (body : A -> M batch unit) f l :
  (forall x, x ∈ l -> appends (f x) (body x)) -> appends (l ≫= f) (for_each body l).
Proof.
  induction l as [|x l IH]; intros Hb; cbn [for_each]; [apply appends_ret|]. cbn [mbind list_bind].
  apply (appends_bind (f x) (l ≫= f)); [apply Hb; by left|]. apply IH. intros y Hy. apply Hb. by right.
Qed.

Lemma appends_wrap kvs msg (c : M batch unit) : appends kvs c -> appends kvs (wrap msg c).
Proof. intros H b b' Hb%wrap_inv_ok. by apply H. Qed.
End Appends.

Section Commits.
Context (K : KVStore) `{!KVLaws K}.

(** A batch that is committed applies its entries, one that is not leaves the database as
    it was. *)
Lemma with_new_batch_run kvs c d r d' :
  appends (plain_view K) kvs c -> with_new_batch c d = (r, d') ->
  match r with
  | Ok _ => kv_view d' = apply_ops (sets id kvs) (kv_view d)
  | _ => kv_view d' = kv_view d
  end.
Proof.
  intros Hc E. unfold with_new_batch in E. destruct (c (kv_new_batch d)) as [[[]|e|msg] b] eqn:Ec; [|by simplify_eq..].
  apply Hc in Ec. simpl in Ec. rewrite kv_new_batch_view in Ec. simpl in Ec. rewrite <- Ec.
  destruct (batch_commit_view b d) as [(d1 & E1 & Hv)|(e & d1 & E1 & Hv)]; rewrite E in E1; by simplify_eq.
Qed.

(** The same for a store under a prefix, seen from below. *)
Lemma with_new_batch_below p kvs (c : M (@batch (PrefixKV K p)) unit) (d : @db K) r (d' : @db K) :
  appends (view_below K p) kvs c -> with_new_batch (K := PrefixKV K p) c d = (r, d') ->
  match r with
  | Ok _ => kv_view d' = apply_ops (sets (app p) kvs) (kv_view d)
  | _ => kv_view d' = kv_view d
  end.
Proof.
  intros Hc E. unfold with_new_batch in E. destruct (c (kv_new_batch _)) as [[[]|e|msg] b] eqn:Ec; [|by simplify_eq..].
  apply Hc in Ec. simpl in Ec. unfold prefix_new_batch in Ec. rewrite kv_new_batch_view in Ec. simpl in Ec. rewrite <- Ec.
  destruct (batch_commit_view (K := K) b d) as [(d1 & E1 & Hv)|(e & d1 & E1 & Hv)]; simpl in E; unfold prefix_batch_commit in E;
    rewrite E in E1; by simplify_eq.
Qed.
End Commits.

(** Entries of which no two have the same key and different values. *)
Definition functional (kvs : list (bytes * bytes)) : Prop := forall k v v', (k, v) ∈ kvs -> (k, v') ∈ kvs -> v = v'.

Lemma apply_sets_lookup kvs m k :
  apply_ops (sets id kvs) m !! k =
  match last (filter (fun kv => kv.1 = k) kvs) with Some kv => Some kv.2 | None => m !! k end.
Proof.
  revert m. induction kvs as [|[k' v] kvs IH] using rev_ind; intros m; [done|].
  unfold sets in *. rewrite fmap_app, apply_ops_app. cbn [fmap list_fmap]. cbn [apply_ops foldl apply_op]. rewrite lookup_insert, filter_app.
  case_decide; subst; [rewrite filter_cons_True by done|rewrite filter_cons_False by done].
  - by rewrite filter_nil, last_snoc.
  - by rewrite filter_nil, app_nil_r, IH.
Qed.

Lemma apply_sets_functional kvs m k v :
  functional kvs -> (k, v) ∈ kvs -> apply_ops (sets id kvs) m !! k = Some v.
Proof.
  intros Hf Hin. rewrite apply_sets_lookup. destruct (last _) as [[k' v']|] eqn:El.
  - apply last_Some_elem_of in El. apply list_elem_of_filter in El as [Hk Hin']. simpl in *. subst k'. f_equal. by eapply Hf.
  - apply last_None in El. assert (Hin' : (k, v) ∈ filter (fun kv => kv.1 = k) kvs) by (by apply list_elem_of_filter).
    rewrite El in Hin'. by apply elem_of_nil in Hin'.
Qed.

Lemma apply_sets_inv kvs m k v :
  apply_ops (sets id kvs) m !! k = Some v -> (k, v) ∈ kvs \/ (m !! k = Some v /\ k ∉ kvs.*1).
Proof.
  rewrite apply_sets_lookup. destruct (last _) as [[k' v']|] eqn:El; intros E.
  - apply last_Some_elem_of in El. apply list_elem_of_filter in El as [Hk Hin]. simpl in *. simplify_eq. by left.
  - right. split; [done|]. intros ([k' v'] & -> & Hin)%list_elem_of_fmap. apply last_None in El.
    assert (Hin' : (k', v') ∈ filter (fun kv => kv.1 = k') kvs) by (by apply list_elem_of_filter).
    simpl in *. rewrite El in Hin'. by apply elem_of_nil in Hin'.
Qed.

(** Entries written over those that are there, when the keys they share have one value. *)
Lemma apply_sets_extend old new m k v :
  functional (old ++ new) -> (forall k v, (k, v) ∈ old -> m !! k = Some v) -> (k, v) ∈ old ++ new ->
  apply_ops (sets id new) m !! k = Some v.
Proof.
  intros Hf Hold [Hin|Hin]%elem_of_app.
  - rewrite apply_sets_lookup. destruct (last _) as [[k' v']|] eqn:El; [|by apply Hold].
    apply last_Some_elem_of in El. apply list_elem_of_filter in El as [Hk Hin']. simpl in *. subst k'. f_equal.
    apply (Hf k); apply elem_of_app; [by right|by left].
  - apply apply_sets_functional; [|done]. intros k' v1 v2 H1 H2. apply (Hf k'); apply elem_of_app; by right.
Qed.

(** Entries whose keys are not below a prefix are not seen there. *)
Lemma sub_ops_apart p kvs : (forall k, k ∈ kvs.*1 -> ~ p `prefix_of` k) -> omap (sub_op p) (sets id kvs) = [].
Proof.
  induction kvs as [|[k v] kvs IH]; intros H; [done|]. csimpl in H. apply forall_cons_elem in H as [Hk Hkvs].
  unfold sets. csimpl. destruct (strip p k) as [k'|] eqn:Es; [|by apply IH].
  apply strip_Some in Es as ->. destruct Hk. by exists k'.
Qed.
