(* ===== verification/TxIndex.v ===== *)
(** * TxIndex: the transaction indexer

    Models state/txindex/kv/kv.go over the [KVStore] interface and the batches of
    state/txindex/indexer.go.  The hash of a transaction and the protobuf form of a result
    are parameters. *)
From stdpp Require Import base gmap strings vector sorting numbers list.
From S2P Require Import Prelude Strconv KVStore Types Serialization Indexer.

(** [abci.TxResult]. *)
Record TxResult := { txr_Height : Z; txr_Index : Z; txr_Tx : bytes; txr_Result : ResponseDeliverTx }.

Class TxIndexWire := {
  tx_Hash : bytes -> bytes;
  txresult_marshal : TxResult -> result bytes;
  txresult_unmarshal : bytes -> result TxResult;
}.

Class TxIndexWireLaws (X : TxIndexWire) := {
  txresult_codec : codec_law txresult_marshal txresult_unmarshal;
}.

Definition ErrorEmptyHash : error := New "transaction hash cannot be empty".

(** ** Batches (state/txindex/indexer.go) *)

(** [Batch]: one entry per transaction, nil until it is added. *)
Record TxBatch := { tb_Ops : list (option TxResult) }.

(** [NewBatch]: [make] with a negative length panics. *)
Definition NewTxBatch (n : Z) : result TxBatch :=
  if (n <? 0)%Z then Panic "makeslice: len out of range" else Ok {| tb_Ops := replicate (Z.to_nat n) None |}.

Definition Add_tx (result : TxResult) (b : TxBatch) : Prelude.result TxBatch :=
  if (txr_Index result <? Z.of_nat (length (tb_Ops b)))%Z
  then Ok {| tb_Ops := <[Z.to_nat (txr_Index result) := Some result]> (tb_Ops b) |}
  else Panic "index out of range".

(** ** Keys *)

Definition slash : byte := Byte.x2f.
Definition TxHashKey : bytes := lit "tx.hash".
Definition TxHeightKey : bytes := lit "tx.height".

(** [strings.Count(s, sep)] for a separator of one byte. *)
Definition count_byte (sep : byte) (s : bytes) : nat := length (filter (fun b => b = sep) s).

Definition isTagKey (key : bytes) : bool := (count_byte slash key =? 3)%nat.

(** The part of [s] before the first [sep] and, if there is one, the part after it. *)
Fixpoint cut (sep : byte) (s : bytes) : bytes * option bytes :=
  match s with
  | [] => ([], None)
  | b :: s => if decide (b = sep) then ([], Some s) else let '(before, after) := cut sep s in (b :: before, after)
  end.

(** [strings.SplitN(s, sep, n)] for [n > 0]. *)
Fixpoint SplitN (sep : byte) (s : bytes) (n : nat) : list bytes :=
  match n with
  | O => []
  | 1 => [s]
  | S n => match cut sep s with
           | (before, Some after) => before :: SplitN sep after n
           | (before, None) => [before]
           end
  end.

Definition extractValueFromKey (key : bytes) : result bytes := index (SplitN slash key 3) 1.

Definition keyForEvent (key value : bytes) (result : TxResult) : bytes :=
  key ++ [slash] ++ value ++ [slash] ++ dec_bytes (txr_Height result) ++ [slash] ++ dec_bytes (txr_Index result).

Definition keyForHeight (result : TxResult) : bytes :=
  TxHeightKey ++ [slash] ++ dec_bytes (txr_Height result) ++ [slash] ++
  dec_bytes (txr_Height result) ++ [slash] ++ dec_bytes (txr_Index result).

(** [startKey(fields...)], the fields already printed. *)
Definition startKey (fields : list bytes) : bytes := fields ≫= (fun f => f ++ [slash]).

Definition startKeyForCondition (c : Condition) (height : Z) : bytes :=
  if (0 <? height)%Z then startKey [c_CompositeKey c; fmt_v (c_Operand c); dec_bytes height]
  else startKey [c_CompositeKey c; fmt_v (c_Operand c)].

(** ** Looking for special conditions *)

(** The hash of the first condition on it: [ok] is whether there is one. *)
Fixpoint lookForHash (conditions : list Condition) : result (option bytes) :=
  match conditions with
  | [] => Ok None
  | c :: conditions =>
      if decide (c_CompositeKey c = TxHashKey) then
        try! operand := as_string (c_Operand c) in
        try! decoded := hex_DecodeString operand in
        Ok (Some decoded)
      else lookForHash conditions
  end.

Fixpoint lookForHeight (conditions : list Condition) : result Z :=
  match conditions with
  | [] => Ok 0%Z
  | c :: conditions =>
      if decide (c_CompositeKey c = TxHeightKey /\ c_Op c = OpEqual) then as_int64 (c_Operand c)
      else lookForHeight conditions
  end.

Section TxIndex.
Context {K : KVStore} {X : TxIndexWire} {O : MapOrder}.

(** ** Writing *)

Definition indexEvents (result : TxResult) (hash : bytes) : M batch unit :=
  for_each (fun event =>
    if (length (event_Type event) =? 0)%nat then ret tt
    else for_each (fun attr =>
      if (length (attr_Key attr) =? 0)%nat then ret tt
      else if attr_Index attr then batch_set (keyForEvent (composite event attr) (attr_Value attr) result) hash
      else ret tt) (event_Attributes event))
  (dtx_Events (txr_Result result)).

(** The body that [Index] and the loop of [AddBatch] share. *)
Definition index_result (result : TxResult) : M batch unit :=
  let hash := tx_Hash (txr_Tx result) in
  do! indexEvents result hash in
  do! batch_set (keyForHeight result) hash in
  let! rawBytes := lift (txresult_marshal result) in
  batch_set hash rawBytes.

Definition AddBatch (b : TxBatch) : M db unit :=
  with_new_batch (for_each (fun op => let! result := lift (deref op) in index_result result) (tb_Ops b)).

Definition Index_tx (result : TxResult) : M db unit := with_new_batch (index_result result).

(** ** Reading *)

Definition Get_tx (d : db) (hash : bytes) : result (option TxResult) :=
  if (length hash =? 0)%nat then Err ErrorEmptyHash
  else
    match kv_get d hash with
    | Panic msg => Panic msg
    | Err _ => Ok None
    | Ok rawBytes =>
        if bool_decide (rawBytes = []) then Ok None   (* an empty value is read as nil *)
        else try! txResult := result_wrap "error reading TxResult" (txresult_unmarshal rawBytes) in
             Ok (Some txResult)
    end.

(** The iterator and the choice of [match] for each operator. *)
Definition match_scan (d : db) (c : Condition) (startKeyBz : bytes) : M Ctx ScanState :=
  match c_Op c with
  | OpEqual => scan (fun _ => Ok (Some true)) (kv_prefix_iterator d startKeyBz) scan_start
  | OpExists => scan (fun _ => Ok (Some true)) (kv_prefix_iterator d (startKey [c_CompositeKey c])) scan_start
  | OpContains =>
      scan (fun key =>
        if negb (isTagKey key) then Ok None
        else try! value := extractValueFromKey key in
             try! operand := as_string (c_Operand c) in
             Ok (Some (Contains value operand)))
        (kv_prefix_iterator d (startKey [c_CompositeKey c])) scan_start
  | _ => panic "other operators should be handled already"
  end.

(** [if err := it.Error(); err != nil { panic(err) }]. *)
Definition panic_on_error (s : ScanState) : M Ctx (gmap bytes bytes) :=
  match sc_lastError s with Some _ => panic "iterator error" | None => ret (sc_tmp s) end.

Definition match_tx (d : db) (c : Condition) (startKeyBz : bytes) (filteredHashes : gmap bytes bytes) (firstRun : bool)
    : M Ctx (gmap bytes bytes) :=
  if negb firstRun && bool_decide (filteredHashes = ∅) then ret filteredHashes
  else
    let! s := match_scan d c startKeyBz in
    let! tmpHashes := panic_on_error s in
    intersect tmpHashes filteredHashes firstRun.

(** What [matchRange] decides about a key. *)
Definition range_select (qr : QueryRange) (lowerBound upperBound : Operand) (key : bytes) : result (option bool) :=
  if negb (isTagKey key) then Ok None
  else match AnyBound qr with
       | OInt64 _ =>
           try! value := extractValueFromKey key in
           match ParseInt (cs value) with
           | Ok v => try! include := in_bounds lowerBound upperBound v in Ok (Some include)
           | Err _ => Ok None
           | Panic msg => Panic msg
           end
       | _ => Ok (Some false)
       end.

Definition matchRange_tx (d : db) (qr : QueryRange) (start : bytes) (filteredHashes : gmap bytes bytes) (firstRun : bool)
    : M Ctx (gmap bytes bytes) :=
  if negb firstRun && bool_decide (filteredHashes = ∅) then ret filteredHashes
  else
    let! lowerBound := lift (LowerBoundValue qr) in
    let! upperBound := lift (UpperBoundValue qr) in
    let! s := scan (range_select qr lowerBound upperBound) (kv_prefix_iterator d start) scan_start in
    let! tmpHashes := panic_on_error s in
    intersect tmpHashes filteredHashes firstRun.

(** The body of the loop of [Search] over the ranges. *)
Definition range_step_tx (d : db) (qr : QueryRange) (filteredHashes : gmap bytes bytes) (firstRun : bool) : M Ctx (gmap bytes bytes) :=
  matchRange_tx d qr (startKey [qr_Key qr]) filteredHashes firstRun.

(** The body of the loop of [Search] over the other conditions. *)
Definition condition_step_tx (d : db) (height : Z) (c : Condition) (filteredHashes : gmap bytes bytes) (firstRun : bool)
    : M Ctx (gmap bytes bytes) :=
  match_tx d c (startKeyForCondition c height) filteredHashes firstRun.

(** The loop of [Search] that fetches the results. *)
Fixpoint fetch_tx (d : db) (hashes : list bytes) (results : list TxResult) : M Ctx (list TxResult) :=
  match hashes with
  | [] => ret results
  | h :: hashes =>
      let! res := lift (result_wrap "failed to get Tx" (Get_tx d h)) in
      match res with
      | None => fetch_tx d hashes results
      | Some res =>
          let! done := poll in
          if done : bool then ret (results ++ [res]) else fetch_tx d hashes (results ++ [res])
      end
  end.

Definition Search_tx (d : db) (q : result (list Condition)) : M Ctx (list TxResult) :=
  let! done := poll in
  if done : bool then ret []
  else
    let! conditions := lift (result_wrap "error during parsing conditions from query" q) in
    let! hash := lift (result_wrap "error during searching for a hash in the query" (lookForHash conditions)) in
    match hash with
    | Some hash =>
        let! res := lift (result_wrap "error while retrieving the result" (Get_tx d hash)) in
        ret (match res with None => [] | Some res => [res] end)
    | None =>
        let '(ranges, skipIndexes) := LookForRanges conditions in
        let! (hashesInitialized, filteredHashes) := narrow_all (range_step_tx d) (range_map ranges).*2 false ∅ in
        let! height := lift (lookForHeight conditions) in
        let! (_, filteredHashes) := narrow_all (condition_step_tx d height) (unskipped skipIndexes 0 conditions)
                                                  hashesInitialized filteredHashes in
        fetch_tx d (range_map filteredHashes).*2 []
    end.
End TxIndex.
