(* ===== verification/TxIndexSpec.v ===== *)
(** * TxIndexSpec: searching the transaction index

    What the indexer writes for a transaction, and the equivalence of [Search] with a
    reference: the search returns exactly the indexed transactions that satisfy every
    condition of the query. *)
From stdpp Require Import base gmap strings vector sorting numbers list.
From S2P Require Import Prelude Strconv KVStore Types Serialization Indexer IndexerSpec TxIndex.

(** ** What is written *)

(** The tags of a transaction: those of its events, and its height. *)
Definition tags (r : TxResult) : list (bytes * bytes) :=
  event_tags (dtx_Events (txr_Result r)) ++ [(TxHeightKey, dec_bytes (txr_Height r))].

Section Written.
Context {X : TxIndexWire}.

Definition result_hash (r : TxResult) : bytes := tx_Hash (txr_Tx r).
Definition raw_of (r : TxResult) : bytes := match txresult_marshal r with Ok raw => raw | _ => [] end.

Definition tag_entries (r : TxResult) : list (bytes * bytes) :=
  (fun tv => (keyForEvent tv.1 tv.2 r, result_hash r)) <$> tags r.
Definition tx_entries (r : TxResult) : list (bytes * bytes) := tag_entries r ++ [(result_hash r, raw_of r)].
End Written.

(** The transaction satisfies the query. *)
Definition tx_matches (conditions : list Condition) (r : TxResult) : bool := tags_match conditions (tags r).

(** ** Lists of bytes around a separator *)

Definition no_slash (s : bytes) : Prop := slash ∉ s.

Lemma sep_inj a b x y : no_slash a -> no_slash b -> a ++ slash :: x = b ++ slash :: y -> a = b /\ x = y.
Proof.
  unfold no_slash. revert b. induction a as [|c a IH]; intros [|c' b] Ha Hb E; simpl in E; simplify_eq; try done.
  - rewrite elem_of_cons in Hb. naive_solver.
  - rewrite elem_of_cons in Ha. naive_solver.
  - destruct (IH b) as [-> ->]; [set_solver|set_solver|done|done].
Qed.

Lemma sep_prefix a b y : no_slash a -> no_slash b -> a ++ [slash] `prefix_of` b ++ slash :: y <-> a = b.
Proof.
  intros Ha Hb. split.
  - intros [l E]. rewrite <- app_assoc in E. symmetry in E. simpl in E. by apply sep_inj in E as [? _].
  - intros ->. exists y. by rewrite <- app_assoc.
Qed.

Lemma sep_prefix_more a b x y :
  no_slash a -> no_slash b -> a ++ slash :: x `prefix_of` b ++ slash :: y <-> a = b /\ x `prefix_of` y.
Proof.
  intros Ha Hb. split.
  - intros [l E]. rewrite <- app_assoc in E. symmetry in E. simpl in E. apply sep_inj in E as [-> E]; [|done..].
    split; [done|]. by exists l.
  - intros [-> [l ->]]. exists l. by rewrite <- app_assoc.
Qed.

Lemma cut_sep a x : no_slash a -> cut slash (a ++ slash :: x) = (a, Some x).
Proof.
  unfold no_slash. induction a as [|c a IH]; intros Ha; simpl; [done|]. rewrite decide_False by set_solver.
  rewrite IH by set_solver. done.
Qed.

Lemma count_no_slash a : no_slash a -> count_byte slash a = 0%nat.
Proof.
  unfold count_byte. intros Ha. induction a as [|c a IH]; [done|]. rewrite filter_cons_False by (unfold no_slash in Ha; set_solver).
  apply IH. unfold no_slash in *. set_solver.
Qed.

Lemma count_sep a x : no_slash a -> count_byte slash (a ++ slash :: x) = S (count_byte slash x).
Proof.
  intros Ha. pose proof (count_no_slash a Ha) as H0. unfold count_byte in *. rewrite filter_app, length_app, H0.
  by rewrite filter_cons_True.
Qed.

Lemma no_slash_app a b : no_slash a -> no_slash b -> no_slash (a ++ b).
Proof. unfold no_slash. set_solver. Qed.

Lemma dec_bytes_no_slash z : no_slash (dec_bytes z).
Proof.
  unfold no_slash. intros Hin. eapply (proj1 (Forall_forall _ _) (dec_bytes_Forall slash z ltac:(done) ltac:(done))); [exact Hin|done].
Qed.

(** ** Keys of tags *)

Lemma keyForHeight_event r : keyForHeight r = keyForEvent TxHeightKey (dec_bytes (txr_Height r)) r.
Proof. done. Qed.

Lemma keyForEvent_eq t v r : keyForEvent t v r = t ++ slash :: v ++ slash :: dec_bytes (txr_Height r) ++ slash :: dec_bytes (txr_Index r).
Proof. done. Qed.

Lemma isTagKey_event base t v r :
  no_slash base -> no_slash t -> no_slash v -> isTagKey (base ++ keyForEvent t v r) = true.
Proof.
  intros Hb Ht Hv. unfold isTagKey. rewrite keyForEvent_eq, app_assoc. rewrite count_sep by (by apply no_slash_app).
  rewrite count_sep by done. rewrite count_sep by apply dec_bytes_no_slash. by rewrite count_no_slash by apply dec_bytes_no_slash.
Qed.

Lemma extractValue_event base t v r :
  no_slash base -> no_slash t -> no_slash v -> extractValueFromKey (base ++ keyForEvent t v r) = Ok v.
Proof.
  intros Hb Ht Hv. unfold extractValueFromKey. rewrite keyForEvent_eq, app_assoc. cbn [SplitN].
  rewrite cut_sep by (by apply no_slash_app). rewrite cut_sep by done. done.
Qed.

(** A tag key determines the place of its transaction, whatever the tag. *)
Lemma last_sep_inj a b x y : no_slash x -> no_slash y -> a ++ slash :: x = b ++ slash :: y -> a = b /\ x = y.
Proof.
  intros Hx Hy E. apply (f_equal reverse) in E. rewrite !reverse_app, !reverse_cons, <- !app_assoc in E. simpl in E.
  apply sep_inj in E as [Ex Ea]; [|unfold no_slash in *; rewrite elem_of_reverse; done..].
  apply (inj reverse) in Ex, Ea. done.
Qed.

Definition valid_place (r : TxResult) : Prop := is_i64 (txr_Height r) /\ is_i64 (txr_Index r).

Lemma keyForEvent_place t v r t' v' r' :
  valid_place r -> valid_place r' -> keyForEvent t v r = keyForEvent t' v' r' ->
  txr_Height r = txr_Height r' /\ txr_Index r = txr_Index r'.
Proof.
  intros [Hh Hi] [Hh' Hi'] E. rewrite !keyForEvent_eq in E.
  assert (Es : forall (a b c d : bytes), a ++ slash :: b ++ slash :: c ++ slash :: d = ((a ++ slash :: b) ++ slash :: c) ++ slash :: d)
    by (intros; rewrite <- !app_assoc; done).
  rewrite !Es in E. apply last_sep_inj in E as [E Ei]; [|apply dec_bytes_no_slash..].
  apply last_sep_inj in E as [_ Eh]; [|apply dec_bytes_no_slash..]. split; by apply dec_bytes_inj.
Qed.

(** Which tag keys start like a condition. *)
Lemma startKey_key ck t v r : no_slash ck -> no_slash t -> startKey [ck] `prefix_of` keyForEvent t v r <-> ck = t.
Proof. intros Hc Ht. unfold startKey. simpl. rewrite app_nil_r, keyForEvent_eq. by apply sep_prefix. Qed.

Lemma startKey_value ck cv t v r :
  no_slash ck -> no_slash cv -> no_slash t -> no_slash v ->
  startKey [ck; cv] `prefix_of` keyForEvent t v r <-> ck = t /\ cv = v.
Proof.
  intros Hc Hcv Ht Hv. unfold startKey. simpl. rewrite app_nil_r, keyForEvent_eq, <- app_assoc. cbn [app].
  rewrite sep_prefix_more, sep_prefix by done. done.
Qed.

Lemma startKey_height ck cv h t v r :
  no_slash ck -> no_slash cv -> no_slash t -> no_slash v -> is_i64 h -> valid_place r ->
  startKey [ck; cv; dec_bytes h] `prefix_of` keyForEvent t v r <-> ck = t /\ cv = v /\ h = txr_Height r.
Proof.
  intros Hc Hcv Ht Hv Hh [Hr _]. unfold startKey. simpl. rewrite app_nil_r, keyForEvent_eq, <- !app_assoc. cbn [app].
  rewrite !sep_prefix_more by done.
  rewrite sep_prefix by apply dec_bytes_no_slash. split; [|by intros (-> & -> & ->)].
  intros (-> & -> & E). apply dec_bytes_inj in E; done.
Qed.

(** ** The index *)

Section Index.
Context {K : KVStore} `{!KVLaws K} {X : TxIndexWire} `{!TxIndexWireLaws X}.

(** What is assumed of the transactions of a chain: their hashes and places are theirs
    alone, no hash looks like a tag, tags have no separator inside and do not claim the
    reserved height key. *)
Record wf_results (rs : list TxResult) : Prop := {
  wr_hashes : NoDup (result_hash <$> rs);
  wr_places : NoDup ((fun r => (txr_Height r, txr_Index r)) <$> rs);
  wr_hash_some r : r ∈ rs -> result_hash r <> [];
  wr_hash_key r r' t v : r ∈ rs -> r' ∈ rs -> (t, v) ∈ tags r' -> result_hash r <> keyForEvent t v r';
  wr_place r : r ∈ rs -> valid_place r;
  wr_marshal r : r ∈ rs -> exists raw, txresult_marshal r = Ok raw /\ raw <> [];
  wr_slash r t v : r ∈ rs -> (t, v) ∈ tags r -> no_slash t /\ no_slash v;
  wr_reserved r t v : r ∈ rs -> (t, v) ∈ event_tags (dtx_Events (txr_Result r)) -> t <> TxHeightKey;
}.

Lemma wf_results_prefix rs rs' : wf_results (rs ++ rs') -> wf_results rs.
Proof.
  intros [H1 H2 H3 H4 H5 H6 H7 H8]. rewrite fmap_app in H1. rewrite fmap_app in H2. apply NoDup_app in H1 as [H1 _]. apply NoDup_app in H2 as [H2 _].
  assert (Hin : forall r, r ∈ rs -> r ∈ rs ++ rs') by (intros r Hr; apply elem_of_app; by left). split; eauto.
Qed.

Lemma wr_nodup rs : wf_results rs -> NoDup rs.
Proof. intros Hw. by eapply NoDup_fmap_1, wr_hashes. Qed.

Lemma wr_hash_inj rs : wf_results rs -> forall r r', r ∈ rs -> r' ∈ rs -> result_hash r = result_hash r' -> r = r'.
Proof. intros Hw r r'. apply NoDup_fmap_elem_inj, wr_hashes, Hw. Qed.

Lemma wr_place_inj rs :
  wf_results rs -> forall r r', r ∈ rs -> r' ∈ rs -> txr_Height r = txr_Height r' -> txr_Index r = txr_Index r' -> r = r'.
Proof. intros Hw r r' Hr Hr' Eh Ei. apply (NoDup_fmap_elem_inj _ _ _ _ (wr_places _ Hw) Hr Hr'). congruence. Qed.

Lemma tx_entries_elem r k v :
  (k, v) ∈ tx_entries r <-> (exists t w, (t, w) ∈ tags r /\ k = keyForEvent t w r /\ v = result_hash r) \/ (k = result_hash r /\ v = raw_of r).
Proof.
  unfold tx_entries, tag_entries. rewrite elem_of_app, list_elem_of_singleton, list_elem_of_fmap. split.
  - intros [([t w] & [= -> ->] & Hin)|[= -> ->]]; [left; eauto|by right].
  - intros [(t & w & Hin & -> & ->)|[-> ->]]; [left; by exists (t, w)|by right].
Qed.

Lemma tx_entries_functional rs : wf_results rs -> functional (rs ≫= tx_entries).
Proof.
  intros Hw k v v' (r & He & Hr)%list_elem_of_bind (r' & He' & Hr')%list_elem_of_bind.
  apply tx_entries_elem in He as [(t & w & Ht & -> & ->)|[-> ->]], He' as [(t' & w' & Ht' & E & ->)|[E ->]].
  - assert (r = r') as ->; [|done]. apply keyForEvent_place in E as [Eh Ei]; [|by eapply wr_place..]. by eapply wr_place_inj.
  - by destruct (wr_hash_key _ Hw r' r t w).
  - by destruct (wr_hash_key _ Hw r r' t' w').
  - by rewrite (wr_hash_inj _ Hw r r').
Qed.

(** The index holds the entries of [rs]; the other keys of its database are [other]. *)
Record tx_indexed (rs : list TxResult) (other : bytes -> Prop) (d : db) : Prop := {
  ti_own k v : (k, v) ∈ rs ≫= tx_entries -> kv_view d !! k = Some v;
  ti_all k v : kv_view d !! k = Some v -> (k, v) ∈ rs ≫= tx_entries \/ other k;
}.

Lemma indexEvents_appends r hash :
  appends (plain_view K) ((fun tv => (keyForEvent tv.1 tv.2 r, hash)) <$> event_tags (dtx_Events (txr_Result r))) (indexEvents r hash).
Proof.
  unfold indexEvents, event_tags. rewrite fmap_list_bind. apply appends_for_each. intros event _.
  destruct (length (event_Type event) =? 0)%nat; [apply appends_ret|]. rewrite fmap_list_bind. apply appends_for_each. intros attr _.
  destruct (length (attr_Key attr) =? 0)%nat; [apply appends_ret|]. destruct (attr_Index attr); [apply appends_set|apply appends_ret].
Qed.

Lemma index_result_appends r : appends (plain_view K) (tx_entries r) (index_result r).
Proof.
  assert (E : tx_entries r = ((fun tv => (keyForEvent tv.1 tv.2 r, result_hash r)) <$> event_tags (dtx_Events (txr_Result r))) ++
              [(keyForHeight r, result_hash r)] ++ [(result_hash r, raw_of r)]).
  { unfold tx_entries, tag_entries, tags. rewrite fmap_app, <- app_assoc. done. }
  rewrite E. unfold index_result. apply appends_bind; [apply indexEvents_appends|]. apply appends_bind; [apply appends_set|].
  intros b b' Hb. apply bind_inv_ok in Hb as (raw & b1 & Hm & Hs). unfold lift in Hm. simplify_eq.
  unfold raw_of. match goal with H : txresult_marshal r = _ |- _ => rewrite H end. by apply appends_set.
Qed.

Lemma AddBatch_run rs d r d' :
  AddBatch {| tb_Ops := Some <$> rs |} d = (r, d') ->
  match r with
  | Ok _ => kv_view d' = apply_ops (sets id (rs ≫= tx_entries)) (kv_view d)
  | _ => kv_view d' = kv_view d
  end.
Proof.
  apply with_new_batch_run. cbn [tb_Ops].
  replace (rs ≫= tx_entries) with ((Some <$> rs) ≫= (fun o => match o with Some r => tx_entries r | None => [] end)).
  - apply appends_for_each. intros [x|] _; [|by intros b b' [=]]. intros b b' Hb. unfold bind, lift, deref in Hb.
    by eapply index_result_appends.
  - induction rs as [|x rs IH]; [done|]. csimpl. by rewrite IH.
Qed.

(** Indexing another batch of transactions. *)
Lemma AddBatch_indexed rs rs' other d d' :
  wf_results (rs ++ rs') -> (forall k, other k -> k ∉ (rs' ≫= tx_entries).*1) ->
  tx_indexed rs other d -> AddBatch {| tb_Ops := Some <$> rs' |} d = (Ok tt, d') -> tx_indexed (rs ++ rs') other d'.
Proof.
  intros Hw Hother Hd Hr. apply AddBatch_run in Hr. apply tx_entries_functional in Hw as Hf.
  split; intros k v; rewrite Hr, bind_app in *.
  - apply apply_sets_extend; [done|apply (ti_own _ _ _ Hd)].
  - rewrite elem_of_app. intros [Hin|[Hin Hn]]%apply_sets_inv; [left; by right|].
    apply (ti_all _ _ _ Hd) in Hin as [?|?]; [left; by left|by right].
Qed.

Lemma Get_tx_indexed rs other d r : wf_results rs -> tx_indexed rs other d -> r ∈ rs -> Get_tx d (result_hash r) = Ok (Some r).
Proof.
  intros Hw Hd Hr. unfold Get_tx. destruct (length (result_hash r) =? 0)%nat eqn:El.
  { apply Nat.eqb_eq, length_zero_iff_nil in El. by destruct (wr_hash_some _ Hw r Hr). }
  destruct (wr_marshal _ Hw r Hr) as (raw & Hm & Hne).
  assert (Hv : kv_view d !! result_hash r = Some raw).
  { apply (ti_own _ _ _ Hd), list_elem_of_bind. exists r. split; [|done]. apply tx_entries_elem. right. unfold raw_of. by rewrite Hm. }
  rewrite kv_get_view, Hv. rewrite bool_decide_false by done. by rewrite (txresult_codec _ _ Hm).
Qed.
End Index.

(** ** Searching *)

(** The queries whose meaning is plain: no hash, texts without separators, string operands
    of CONTAINS and integer heights. *)
Record plain_query (conditions : list Condition) : Prop := {
  pq_some : conditions <> [];
  pq_ranges : plain_ranges conditions;
  pq_hash c : c ∈ conditions -> c_CompositeKey c <> TxHashKey;
  pq_key c : c ∈ conditions -> no_slash (c_CompositeKey c);
  pq_equal c : c ∈ conditions -> c_Op c = OpEqual -> no_slash (fmt_v (c_Operand c));
  pq_contains c : c ∈ conditions -> c_Op c = OpContains -> exists s, c_Operand c = OString s;
  pq_height c : c ∈ conditions -> c_CompositeKey c = TxHeightKey -> c_Op c = OpEqual -> exists h, c_Operand c = OInt64 h /\ is_i64 h;
}.

Lemma lookForHash_none conditions : (forall c, c ∈ conditions -> c_CompositeKey c <> TxHashKey) -> lookForHash conditions = Ok None.
Proof.
  induction conditions as [|c conditions IH]; intros H; cbn [lookForHash]; [done|].
  rewrite decide_False by (apply H; by left). apply IH. intros c' Hc'. apply H. by right.
Qed.

Lemma lookForHeight_plain conditions :
  (forall c, c ∈ conditions -> c_CompositeKey c = TxHeightKey -> c_Op c = OpEqual -> exists h, c_Operand c = OInt64 h /\ is_i64 h) ->
  exists h, lookForHeight conditions = Ok h /\ is_i64 h /\
    ((0 < h)%Z -> exists c, c ∈ conditions /\ c_CompositeKey c = TxHeightKey /\ c_Op c = OpEqual /\ c_Operand c = OInt64 h).
Proof.
  induction conditions as [|c conditions IH]; intros H; cbn [lookForHeight].
  { exists 0%Z. split_and!; [done| |]; unfold is_i64; lia. }
  case_decide as Hc.
  - destruct Hc as [Hk Ho]. destruct (H c) as (h & Hh & Hi); [by left|done|done|]. exists h. rewrite Hh.
    split_and!; [done|done|]. intros _. exists c. split_and!; [by left|done..].
  - destruct IH as (h & Hh & Hi & Hc'); [intros c' Hin; apply H; by right|]. exists h. split_and!; [done|done|].
    intros Hp. destruct (Hc' Hp) as (c' & Hin & ?). exists c'. split; [by right|done].
Qed.

Section Search.
Context {K : KVStore} `{!KVLaws K} `{!KVIterLaws K} {X : TxIndexWire} `{!TxIndexWireLaws X} {O : MapOrder} `{!MapOrderLaws O}.
Context (rs : list TxResult) (other : bytes -> Prop) (d : db) (conditions : list Condition).
Hypotheses (Hbase : no_slash (kv_base K)) (Hwf : wf_results rs) (Hd : tx_indexed rs other d) (Hq : plain_query conditions).
Hypothesis Hapart : forall c, c ∈ conditions ->
  (forall r, r ∈ rs -> ~ startKey [c_CompositeKey c] `prefix_of` result_hash r) /\
  (forall k, other k -> ~ startKey [c_CompositeKey c] `prefix_of` k).

Abbreviation found_tx := (found rs result_hash).

(** What an iterator over the keys of a condition visits. *)
Lemma iterator_tags c p k v :
  c ∈ conditions -> startKey [c_CompositeKey c] `prefix_of` p ->
  (k, Ok v) ∈ kv_prefix_iterator d p <->
  exists r tag, r ∈ rs /\ tag ∈ tags r /\ k = kv_base K ++ keyForEvent tag.1 tag.2 r /\ v = result_hash r /\
                p `prefix_of` keyForEvent tag.1 tag.2 r.
Proof.
  intros Hc Hp. destruct (Hapart c Hc) as [Hh Ho]. rewrite kv_prefix_iterator_elem. split.
  - intros (k' & v' & -> & Hpre & [= <-] & Hv). apply (ti_all _ _ _ Hd) in Hv as [Hin|Hot].
    + apply list_elem_of_bind in Hin as (r & Hin & Hr). apply tx_entries_elem in Hin as [(t & w & Ht & -> & ->)|[-> ->]].
      * by exists r, (t, w).
      * destruct (Hh r Hr). by transitivity p.
    + destruct (Ho k' Hot). by transitivity p.
  - intros (r & [t w] & Hr & Ht & -> & -> & Hpre). exists (keyForEvent t w r), (result_hash r). split_and!; [done..|].
    apply (ti_own _ _ _ Hd), list_elem_of_bind. exists r. split; [|done]. apply tx_entries_elem. left. eauto.
Qed.

Lemma iterator_readable p : readable (kv_prefix_iterator d p).
Proof. intros k r (k' & v & _ & _ & -> & _)%kv_prefix_iterator_elem. eauto. Qed.

(** A scan over the keys of a condition finds the transactions that have a tag it selects. *)
Lemma scan_tags c p select :
  c ∈ conditions -> startKey [c_CompositeKey c] `prefix_of` p ->
  (forall r tag, r ∈ rs -> tag ∈ tags r -> exists o, select (kv_base K ++ keyForEvent tag.1 tag.2 r) = Ok o) ->
  exists s, scan select (kv_prefix_iterator d p) scan_start None = (Ok s, None) /\ sc_lastError s = None /\
    found_tx (sc_tmp s) (fun r => exists tag, tag ∈ tags r /\ p `prefix_of` keyForEvent tag.1 tag.2 r /\
                                           select (kv_base K ++ keyForEvent tag.1 tag.2 r) = Ok (Some true)).
Proof.
  intros Hc Hp Hsel. destruct (scan_start_run select (kv_prefix_iterator d p)) as (s & Hs & He & Hden).
  - apply iterator_readable.
  - intros k r Hin. destruct (iterator_readable p k r Hin) as [v ->].
    apply (iterator_tags c) in Hin as (r' & tag & Hr & Ht & -> & _ & _); [|done|done]. by apply Hsel.
  - exists s. split_and!; [done|done|]. unfold found. eapply denotes_proper; [|exact Hden].
    intros v. unfold selected. setoid_rewrite (iterator_tags c p _ _ Hc Hp). clear. naive_solver.
Qed.

(** The tag that a selected key belongs to has no separators inside. *)
Lemma tag_no_slash r tag : r ∈ rs -> tag ∈ tags r -> no_slash tag.1 /\ no_slash tag.2.
Proof. destruct tag as [t v]. by eapply wr_slash. Qed.

(** What [match] looks for, given the height of the query. *)
Definition matched (height : Z) (c : Condition) (r : TxResult) : Prop :=
  existsb (tag_matches conditions c) (tags r) = true /\ (c_Op c = OpEqual -> (0 < height)%Z -> txr_Height r = height).

Lemma match_scan_run height c :
  c ∈ conditions -> IsRangeOperation (c_Op c) = false -> is_i64 height ->
  exists s, match_scan d c (startKeyForCondition c height) None = (Ok s, None) /\ sc_lastError s = None /\
            found_tx (sc_tmp s) (matched height c).
Proof.
  intros Hc Hr Hh. pose proof (pq_key _ Hq c Hc) as Hk. unfold match_scan, matched. destruct (c_Op c) eqn:Eo; try discriminate Hr.
  - pose proof (pq_equal _ Hq c Hc Eo) as Hv. set (p := startKeyForCondition c height).
    assert (Hp : startKey [c_CompositeKey c] `prefix_of` p).
    { unfold p, startKeyForCondition, startKey. destruct (0 <? height)%Z; simpl; rewrite app_nil_r; by eexists. }
    destruct (scan_tags c p (fun _ => Ok (Some true)) Hc Hp) as (s & Hs & He & Hf); [eauto|].
    exists s. split_and!; [done|done|]. eapply found_proper; [|exact Hf]. intros r Hin. rewrite existsb_tags.
    assert (Hpre : forall tag, tag ∈ tags r -> p `prefix_of` keyForEvent tag.1 tag.2 r <->
      tag_matches conditions c tag = true /\ ((0 < height)%Z -> txr_Height r = height)).
    { intros tag Ht. destruct (tag_no_slash r tag Hin Ht) as [H1 H2]. unfold tag_matches. rewrite Eo, andb_true_iff, !bool_decide_eq_true.
      unfold p, startKeyForCondition. destruct (Z.ltb_spec 0 height).
      - rewrite startKey_height by (done || by eapply wr_place). naive_solver.
      - rewrite startKey_value by done. split; [intros [-> ->]; split; [done|lia]|naive_solver]. }
    split; [intros (tag & Ht & Hp' & _); apply Hpre in Hp'; naive_solver|].
    intros [(tag & Ht & Hm) Hhe]. exists tag. split_and!; [done| |done]. apply Hpre; auto.
  - pose proof (pq_contains _ Hq c Hc Eo) as [s0 Es]. set (p := startKey [c_CompositeKey c]).
    set (sel := fun key => if negb (isTagKey key) then Ok None else _).
    assert (Hsel : forall r tag, r ∈ rs -> tag ∈ tags r -> sel (kv_base K ++ keyForEvent tag.1 tag.2 r) = Ok (Some (Contains tag.2 s0))).
    { intros r tag Hin Ht. destruct (tag_no_slash r tag Hin Ht) as [H1 H2]. unfold sel.
      rewrite isTagKey_event, extractValue_event, Es by done. done. }
    destruct (scan_tags c p sel Hc) as (s & Hs & He & Hf); [done|intros r tag Hin Ht; rewrite Hsel by done; eauto|].
    exists s. split_and!; [done|done|]. eapply found_proper; [|exact Hf]. intros r Hin. rewrite existsb_tags.
    split; [intros (tag & Ht & Hp' & Hs')|intros [(tag & Ht & Hm) _]].
    + destruct (tag_no_slash r tag Hin Ht) as [H1 H2]. apply startKey_key in Hp'; [|done..]. rewrite Hsel in Hs' by done. injection Hs' as Hs'.
      split; [|done]. exists tag. split; [done|]. unfold tag_matches. rewrite Eo, Es, Hs', bool_decide_true by done. done.
    + destruct (tag_no_slash r tag Hin Ht) as [H1 H2]. unfold tag_matches in Hm. rewrite Eo, Es, andb_true_iff, bool_decide_eq_true in Hm.
      destruct Hm as [Hm1 Hm2]. exists tag. split_and!; [done|apply startKey_key; done|]. rewrite Hsel, Hm2 by done. done.
  - set (p := startKey [c_CompositeKey c]).
    destruct (scan_tags c p (fun _ => Ok (Some true)) Hc) as (s & Hs & He & Hf); [done|eauto|].
    exists s. split_and!; [done|done|]. eapply found_proper; [|exact Hf]. intros r Hin. rewrite existsb_tags. unfold tag_matches. rewrite Eo.
    setoid_rewrite andb_true_r. setoid_rewrite bool_decide_eq_true. split.
    + intros (tag & Ht & Hp' & _). split; [|done]. exists tag. split; [done|].
      destruct (tag_no_slash r tag Hin Ht) as [H1 H2]. by apply startKey_key in Hp'.
    + intros [(tag & Ht & Hm) _]. exists tag. split_and!; [done| |done]. destruct (tag_no_slash r tag Hin Ht). by apply startKey_key.
Qed.

(** The maps of matches are keyed by the hashes. *)
Lemma intersect_tx tmp filtered P Q firstRun :
  found_tx tmp P -> (firstRun = false -> found_tx filtered Q) ->
  exists f, intersect tmp filtered firstRun None = (Ok f, None) /\ found_tx f (fun r => P r /\ (firstRun = true \/ Q r)).
Proof. apply intersect_found; [apply (wr_hash_inj _ Hwf)|apply (wr_hash_some _ Hwf)]. Qed.

(** Nothing is left to narrow. *)
Lemma already_empty (filtered : gmap bytes bytes) (firstRun : bool) P Q :
  negb firstRun && bool_decide (filtered = ∅) = true -> (firstRun = false -> found_tx filtered Q) ->
  found_tx filtered (fun r => P r /\ (firstRun = true \/ Q r)).
Proof.
  intros Ee HQ. apply andb_true_iff in Ee as [Ef Ee]. apply negb_true_iff in Ef as ->. apply bool_decide_eq_true in Ee as ->.
  specialize (HQ eq_refl). rewrite found_empty in HQ |- *. naive_solver.
Qed.

Lemma condition_narrows height c :
  is_i64 height -> c ∈ conditions -> IsRangeOperation (c_Op c) = false ->
  narrows rs result_hash (condition_step_tx d height) (matched height) c.
Proof.
  intros Hh Hc Hr filtered Q firstRun HQ. unfold condition_step_tx, match_tx. case_match eqn:Ee.
  { exists filtered. split; [done|]. by apply already_empty. }
  destruct (match_scan_run height c Hc Hr Hh) as (s & Hs & He & Hf). unfold bind at 1. rewrite Hs.
  unfold bind at 1, panic_on_error. rewrite He. cbn [ret]. by apply intersect_tx.
Qed.

Lemma range_narrows qr :
  range_ok conditions (qr_Key qr) qr -> narrows rs result_hash (range_step_tx d) (fun qr r => ranged_tags conditions (tags r) (qr_Key qr)) qr.
Proof.
  intros Hok filtered Q firstRun HQ. unfold range_step_tx, matchRange_tx. case_match eqn:Ee.
  { exists filtered. split; [done|]. by apply already_empty. }
  destruct (range_decides _ _ _ (pq_ranges _ Hq) Hok) as (l & u & z & El & Eu & Ez & Hin). destruct Hok as (_ & (c & Hc & _ & Hck) & _).
  unfold bind at 1, lift at 1. rewrite El. unfold bind at 1, lift at 1. rewrite Eu.
  assert (Hsel : forall r tag, r ∈ rs -> tag ∈ tags r -> range_select qr l u (kv_base K ++ keyForEvent tag.1 tag.2 r) =
    match ParseInt (cs tag.2) with Ok v => Ok (Some (int_in_ranges conditions (qr_Key qr) v)) | Err _ => Ok None | Panic m => Panic m end).
  { intros r tag Hr Ht. destruct (tag_no_slash r tag Hr Ht) as [H1 H2]. unfold range_select.
    rewrite isTagKey_event, extractValue_event, Ez by done. cbn [negb result_bind]. destruct (ParseInt (cs tag.2)); [|done..]. by rewrite Hin. }
  destruct (scan_tags c (startKey [qr_Key qr]) (range_select qr l u) Hc) as (s & Hs & He & Hf).
  { by rewrite Hck. }
  { intros r tag Hr Ht. rewrite Hsel by done. pose proof (ParseInt_no_panic (cs tag.2)) as Hnp.
    destruct (ParseInt (cs tag.2)); eauto. by destruct (Hnp msg). }
  unfold bind at 1. rewrite Hs. unfold bind at 1, panic_on_error. rewrite He. cbn [ret].
  apply intersect_tx; [|done]. eapply found_proper; [|exact Hf]. intros r Hr. unfold ranged_tags, value_in_ranges.
  assert (Hkey : no_slash (qr_Key qr)) by (rewrite <- Hck; by apply (pq_key _ Hq)).
  split; intros (tag & Ht & H1 & H2); exists tag; destruct (tag_no_slash r tag Hr Ht) as [Hs1 Hs2].
  - apply startKey_key in H1; [|done..]. rewrite Hsel in H2 by done. destruct (ParseInt (cs tag.2)); simplify_eq. split_and!; [done..|]. exact H2.
  - split_and!; [done|by apply startKey_key|]. rewrite Hsel by done. destruct (ParseInt (cs tag.2)); [|done..].
    fold (int_in_ranges conditions (qr_Key qr) a) in H2. by rewrite H2.
Qed.

Lemma fetch_tx_run hashes results :
  (forall h, h ∈ hashes -> exists r, r ∈ rs /\ h = result_hash r) ->
  exists res, fetch_tx d hashes results None = (Ok (results ++ res), None) /\ (forall r, r ∈ res -> r ∈ rs) /\ result_hash <$> res = hashes.
Proof.
  revert results. induction hashes as [|h hashes IH]; intros results Hall; cbn [fetch_tx].
  { exists []. rewrite app_nil_r. split_and!; [done|by apply forall_nil_elem|done]. }
  destruct (Hall h) as (r & Hr & ->); [by left|]. unfold bind at 1, lift at 1. rewrite (Get_tx_indexed rs other d r Hwf Hd Hr). cbn [result_wrap].
  unfold bind, poll. destruct (IH (results ++ [r])) as (res & -> & Hres & Heq); [intros h' Hh'; apply Hall; by right|].
  exists (r :: res). rewrite <- app_assoc. split_and!; [done|by apply forall_cons_elem|]. csimpl. by rewrite Heq.
Qed.

(** Fetching what was found. *)
Lemma fetch_found m P :
  found_tx m P -> exists res, fetch_tx d (range_map m).*2 [] None = (Ok res, None) /\ NoDup res /\ forall r, r ∈ res <-> r ∈ rs /\ P r.
Proof.
  intros Hm. destruct (found_values rs result_hash m P Hm) as [Hnd Hin].
  destruct (fetch_tx_run (range_map m).*2 []) as (res & Hf & Hres & Heq); [intros h Hh; apply Hin in Hh; naive_solver|].
  exists res. split_and!; [done|apply (NoDup_fmap_1 result_hash); by rewrite Heq|]. intros r. split.
  - intros Hr. split; [by apply Hres|]. assert (Hh : result_hash r ∈ (range_map m).*2) by (rewrite <- Heq; by apply list_elem_of_fmap_2).
    apply Hin in Hh as (r' & Hr' & E & HP). by rewrite (wr_hash_inj _ Hwf r r') by auto.
  - intros [Hr HP]. assert (Hh : result_hash r ∈ result_hash <$> res) by (rewrite Heq; apply Hin; eauto).
    apply list_elem_of_fmap in Hh as (r' & E & Hr'). rewrite (wr_hash_inj _ Hwf r r') by auto. done.
Qed.

(** The ranges and the other conditions together are the query. *)
Lemma matches_split height r :
  r ∈ rs -> (0 < height -> exists c, c ∈ conditions /\ c_CompositeKey c = TxHeightKey /\ c_Op c = OpEqual /\ c_Operand c = OInt64 height)%Z ->
  is_i64 height ->
  ((forall key qr, (LookForRanges conditions).1 !! key = Some qr -> ranged_tags conditions (tags r) key) /\
   (forall c, c ∈ conditions -> IsRangeOperation (c_Op c) = false -> matched height c r)) <-> tx_matches conditions r = true.
Proof.
  intros Hr Hheight Hh. unfold tx_matches. rewrite <- tags_match_split by apply (pq_ranges _ Hq). unfold matched.
  split; intros [HA HB]; (split; [done|]); intros c Hc Hn; [by apply HB|]. split; [by apply HB|]. intros _ Hpos.
  destruct (Hheight Hpos) as (c' & Hc' & Hk' & Ho' & Hop'). pose proof (HB c' Hc' ltac:(by rewrite Ho')) as Hm.
  apply existsb_tags in Hm as ([t v] & Ht & Hm). unfold tag_matches in Hm.
  rewrite Ho', Hop', andb_true_iff, !bool_decide_eq_true in Hm. destruct Hm as [Et Ev]. simpl in Et, Ev. rewrite Hk' in Et. subst t v.
  apply elem_of_app in Ht as [Ht|Ht%list_elem_of_singleton]; [by eapply (wr_reserved _ Hwf) in Ht|].
  injection Ht as Ht. apply dec_bytes_inj in Ht; [done|done|apply (wr_place _ Hwf r Hr)].
Qed.

(** The runs of [Search] on a plain query. *)
Lemma Search_tx_run :
  exists res, Search_tx d (Ok conditions) None = (Ok res, None) /\ res ≡ₚ filter (fun r => tx_matches conditions r = true) rs.
Proof.
  destruct (lookForHeight_plain conditions (pq_height _ Hq)) as (height & Hh & Hhi & Hhc).
  unfold Search_tx. unfold bind at 1, poll. cbn [result_wrap]. unfold bind at 1, lift at 1. unfold bind at 1, lift at 1.
  rewrite (lookForHash_none _ (pq_hash _ Hq)). cbn [result_wrap].
  pose proof (LookForRanges_ok conditions (pq_ranges _ Hq)) as Hok. pose proof (unskipped_spec conditions [] conditions eq_refl) as Hun.
  pose proof (fun r Hr => matches_split height r Hr Hhc Hhi) as Hsplit.
  pose proof (query_not_empty conditions (pq_some _ Hq) (pq_ranges _ Hq)) as Hinit.
  destruct (LookForRanges conditions) as [ranges skip]. simpl in Hok, Hun, Hsplit, Hinit.
  destruct (narrow_all_run rs result_hash (range_step_tx d) (fun qr r => ranged_tags conditions (tags r) (qr_Key qr)) (range_map ranges).*2 false ∅ (fun _ => True))
    as (f1 & Hr & Hf1); [|done|].
  { intros qr [key Hk]%range_map_values. specialize (Hok key). rewrite Hk in Hok. apply range_narrows. by destruct Hok as (<- & ?). }
  cbn [orb] in Hr, Hf1. unfold bind at 1. rewrite Hr. unfold bind at 1, lift at 1. rewrite Hh.
  edestruct (narrow_all_run rs result_hash (condition_step_tx d height) (matched height) (unskipped skip 0 conditions)) as (f2 & Hc & Hf2);
    [|exact Hf1|].
  { rewrite Hun. intros c [Hnr Hc]%list_elem_of_filter. by apply condition_narrows. }
  unfold bind at 1. rewrite Hc. rewrite Hinit in Hf2. destruct (fetch_found f2 _ Hf2) as (res & Hfe & Hnd & Hres). exists res. split; [done|].
  apply NoDup_Permutation; [done|apply NoDup_filter, (wr_nodup _ Hwf)|]. intros r. rewrite Hres, list_elem_of_filter, Hun.
  setoid_rewrite list_elem_of_filter. setoid_rewrite range_map_values.
  split; [intros (Hin & (_ & HA) & HB)|intros [HM Hin]].
  - split; [|done]. apply Hsplit; [done|]. split; [|auto]. intros key qr Hk. specialize (Hok key). rewrite Hk in Hok.
    destruct Hok as (<- & _). eauto.
  - split; [done|]. apply Hsplit in HM as [HA HB]; [|done]. split; [split; [done|]|naive_solver]. intros qr [key Hk].
    specialize (Hok key). rewrite Hk in Hok. destruct Hok as (-> & _). by eapply HA.
Qed.

(** C11: [Search] on the transaction index is equivalent to the reference: for a plain query
    that is not cancelled it returns exactly the indexed transactions every condition of
    which is satisfied by one of their tags, each once, in some order; whatever the order
    in which Go's maps are visited, and whatever else the database holds. *)
Theorem tx_search_equiv :
  exists res, Search_tx d (Ok conditions) None = (Ok res, None) /\ res ≡ₚ filter (fun r => tx_matches conditions r = true) rs.
Proof. exact Search_tx_run. Qed.
End Search.
