(* ===== verification/BlockIndex.v ===== *)
(** * BlockIndex: the block indexer and the indexing service

    Models state/indexer/block/kv/kv.go and util.go over the [KVStore] interface, and
    state/txindex/indexer_service.go, which feeds both indexers from the event bus.
    Google's orderedcode is a parameter. *)
From stdpp Require Import base gmap strings vector sorting numbers list.
From S2P Require Import Prelude Strconv KVStore Types Serialization Conv Executor Indexer TxIndex.

(** ** Orderedcode *)

(** The items of a key: strings and integers. *)
Inductive Item := IStr (s : bytes) | IInt (z : Z).
Inductive ItemKind := KStr | KInt.

(** [Append(nil, items...)], and [Parse] into variables of the kinds given, with the
    rest of the key. *)
Class OrderedCode := {
  oc_Append : list Item -> result bytes;
  oc_Parse : list ItemKind -> bytes -> result (list Item * bytes);
}.

Definition BlockHeightKey : bytes := lit "block.height".

(** [tmtypes.EventDataNewBlockHeader], the fields the indexer reads. *)
Record EventDataNewBlockHeader := {
  nh_Height : Z;
  nh_NumTxs : Z;
  nh_ResultBeginBlock : ResponseBeginBlock;
  nh_ResultEndBlock : ResponseEndBlock;
}.

(** ** util.go *)

Definition int64FromBytes (bz : bytes) : Z := Varint bz.
Definition int64ToBytes (i : Z) : bytes := PutVarint i.

(** The height of the first exact condition on it. *)
Fixpoint lookForHeight_block (conditions : list Condition) : result (option Z) :=
  match conditions with
  | [] => Ok None
  | c :: conditions =>
      if decide (c_CompositeKey c = BlockHeightKey /\ c_Op c = OpEqual)
      then try! h := as_int64 (c_Operand c) in Ok (Some h)
      else lookForHeight_block conditions
  end.

Section BlockIndex.
Context {K : KVStore} {OC : OrderedCode} {O : MapOrder}.

Definition heightKey (height : Z) : result bytes := oc_Append [IStr BlockHeightKey; IInt height].

Definition eventKey (compositeKey typ eventValue : bytes) (height : Z) : result bytes :=
  oc_Append [IStr compositeKey; IStr eventValue; IInt height; IStr typ].

Definition parseValueFromPrimaryKey (key : bytes) : result bytes :=
  try! (items, remaining) := result_wrap "failed to parse event key" (oc_Parse [KStr; KInt] key) in
  if (length remaining =? 0)%nat
  then match items with [IStr _; IInt height] => Ok (dec_bytes height) | _ => Panic "not the kinds asked for" end
  else Err (New "unexpected remainder in key").

Definition parseValueFromEventKey (key : bytes) : result bytes :=
  try! (items, remaining) := result_wrap "failed to parse event key" (oc_Parse [KStr; KStr; KInt; KStr] key) in
  if (length remaining =? 0)%nat
  then match items with [IStr _; IStr eventValue; IInt _; IStr _] => Ok eventValue | _ => Panic "not the kinds asked for" end
  else Err (New "unexpected remainder in key").

(** ** kv.go: writing *)

Definition Has (d : db) (height : Z) : result bool :=
  try! key := result_wrap "failed to create block height index key" (heightKey height) in
  match kv_get d key with
  | Ok _ => Ok true
  | Err e => if decide (e = ErrKeyNotFound) then Ok false else Err e
  | Panic m => Panic m
  end.

Definition indexEvents_block (events : list ABCIEvent) (typ : bytes) (height : Z) : M batch unit :=
  let heightBz := int64ToBytes height in
  for_each (fun event =>
    if (length (event_Type event) =? 0)%nat then ret tt
    else for_each (fun attr =>
      if (length (attr_Key attr) =? 0)%nat then ret tt
      else
        let compositeKey := composite event attr in
        if decide (compositeKey = BlockHeightKey) then fail (New "event type and attribute key is reserved")
        else if attr_Index attr then
          let! key := lift (result_wrap "failed to create block index key" (eventKey compositeKey typ (attr_Value attr) height)) in
          batch_set key heightBz
        else ret tt) (event_Attributes event))
  events.

(** What [Index] puts in its batch. *)
Definition fill_block (bh : EventDataNewBlockHeader) : M batch unit :=
  let height := nh_Height bh in
  let! key := lift (result_wrap "failed to create block height index key" (heightKey height)) in
  do! batch_set key (int64ToBytes height) in
  do! wrap "failed to index BeginBlock events"
        (indexEvents_block (bb_Events (nh_ResultBeginBlock bh)) (lit "begin_block") height) in
  wrap "failed to index EndBlock events"
    (indexEvents_block (eb_Events (nh_ResultEndBlock bh)) (lit "end_block") height).

Definition Index_block (bh : EventDataNewBlockHeader) : M db unit := with_new_batch (fill_block bh).

(** ** kv.go: searching *)

(** [if err := it.Error(); err != nil { return nil, err }]. *)
Definition fail_on_error (s : ScanState) : M Ctx (gmap bytes bytes) :=
  match sc_lastError s with Some e => fail e | None => ret (sc_tmp s) end.

Definition match_scan_block (d : db) (c : Condition) (startKeyBz : bytes) : M Ctx ScanState :=
  match c_Op c with
  | OpEqual => scan (fun _ => Ok (Some true)) (kv_prefix_iterator d startKeyBz) scan_start
  | OpExists =>
      let! prefix := lift (oc_Append [IStr (c_CompositeKey c)]) in
      scan (fun _ => Ok (Some true)) (kv_prefix_iterator d prefix) scan_start
  | OpContains =>
      let! prefix := lift (oc_Append [IStr (c_CompositeKey c)]) in
      scan (fun key =>
        match parseValueFromEventKey key with
        | Ok eventValue => try! operand := as_string (c_Operand c) in Ok (Some (Contains eventValue operand))
        | Err _ => Ok None
        | Panic m => Panic m
        end) (kv_prefix_iterator d prefix) scan_start
  | _ => fail (New "other operators should be handled already")
  end.

Definition match_block (d : db) (c : Condition) (startKeyBz : bytes) (filteredHeights : gmap bytes bytes) (firstRun : bool)
    : M Ctx (gmap bytes bytes) :=
  if negb firstRun && bool_decide (filteredHeights = ∅) then ret filteredHeights
  else
    let! s := match_scan_block d c startKeyBz in
    let! tmpHeights := fail_on_error s in
    intersect tmpHeights filteredHeights firstRun.

(** What [matchRange] decides about a key. *)
Definition range_select_block (qr : QueryRange) (lowerBound upperBound : Operand) (key : bytes) : result (option bool) :=
  let eventValue := if decide (qr_Key qr = BlockHeightKey) then parseValueFromPrimaryKey key else parseValueFromEventKey key in
  match eventValue with
  | Panic m => Panic m
  | Err _ => Ok None
  | Ok eventValue =>
      match AnyBound qr with
      | OInt64 _ =>
          match ParseInt (cs eventValue) with
          | Ok v => try! include := in_bounds lowerBound upperBound v in Ok (Some include)
          | Err _ => Ok None
          | Panic msg => Panic msg
          end
      | _ => Ok (Some false)
      end
  end.

Definition matchRange_block (d : db) (qr : QueryRange) (start : bytes) (filteredHeights : gmap bytes bytes) (firstRun : bool)
    : M Ctx (gmap bytes bytes) :=
  if negb firstRun && bool_decide (filteredHeights = ∅) then ret filteredHeights
  else
    let! lowerBound := lift (LowerBoundValue qr) in
    let! upperBound := lift (UpperBoundValue qr) in
    let! s := scan (range_select_block qr lowerBound upperBound) (kv_prefix_iterator d start) scan_start in
    let! tmpHeights := fail_on_error s in
    intersect tmpHeights filteredHeights firstRun.

(** The body of the loop of [Search] over the ranges. *)
Definition range_step_block (d : db) (qr : QueryRange) (filteredHeights : gmap bytes bytes) (firstRun : bool) : M Ctx (gmap bytes bytes) :=
  let! prefix := lift (result_wrap "failed to create prefix key" (oc_Append [IStr (qr_Key qr)])) in
  matchRange_block d qr prefix filteredHeights firstRun.

(** The body of the loop of [Search] over the other conditions. *)
Definition condition_step_block (d : db) (c : Condition) (filteredHeights : gmap bytes bytes) (firstRun : bool)
    : M Ctx (gmap bytes bytes) :=
  let! startKey := lift (oc_Append [IStr (c_CompositeKey c); IStr (fmt_v (c_Operand c))]) in
  match_block d c startKey filteredHeights firstRun.

(** The loop of [Search] that fetches the heights. *)
Fixpoint fetch_block (d : db) (hBzs : list bytes) (results : list Z) : M Ctx (list Z) :=
  match hBzs with
  | [] => ret results
  | hBz :: hBzs =>
      let h := int64FromBytes hBz in
      let! ok := lift (Has d h) in
      let results := if ok : bool then results ++ [h] else results in
      let! done := poll in
      if done : bool then ret results else fetch_block d hBzs results
  end.

Definition Search_block (d : db) (q : result (list Condition)) : M Ctx (list Z) :=
  let! done := poll in
  if done : bool then ret []
  else
    let! conditions := lift (result_wrap "failed to parse query conditions" q) in
    let! height := lift (lookForHeight_block conditions) in
    match height with
    | Some height =>
        let! ok := lift (Has d height) in
        ret (if ok : bool then [height] else [])
    | None =>
        let '(ranges, skipIndexes) := LookForRanges conditions in
        let! (heightsInitialized, filteredHeights) := narrow_all (range_step_block d) (range_map ranges).*2 false ∅ in
        let! (_, filteredHeights) := narrow_all (condition_step_block d) (unskipped skipIndexes 0 conditions)
                                                   heightsInitialized filteredHeights in
        let! results := fetch_block d (range_map filteredHeights).*2 [] in
        ret (merge_sort Z.le results)
    end.
End BlockIndex.
