(* ===== verification/BlockIndexSpec.v ===== *)
(** * BlockIndexSpec: searching the block index

    What the indexer writes for a block, and the equivalence of [Search] with the
    reference semantics of IndexerSpec. *)
From stdpp Require Import base gmap strings vector sorting numbers list.
From S2P Require Import Prelude Strconv KVStore Types Serialization Conv Executor Indexer IndexerSpec TxIndex BlockIndex.

(** ** Orderedcode *)

Definition kind_of (i : Item) : ItemKind := match i with IStr _ => KStr | IInt _ => KInt end.
Definition item_ok (i : Item) : Prop := match i with IStr _ => True | IInt z => is_i64 z end.

(** Bytes that are not escaped in a string. *)
Definition unescaped (s : bytes) : Prop := Forall (fun b => b <> Byte.x00 /\ b <> Byte.xff) s.

(** What orderedcode documents: items are appended one after the other, each can be read
    back without looking past it, and a string is kept byte by byte but for its escapes. *)
Class OrderedCodeLaws (OC : OrderedCode) := {
  oc_append_total items : exists k, oc_Append items = Ok k;
  oc_append_app items1 items2 k1 k2 :
    oc_Append items1 = Ok k1 -> oc_Append items2 = Ok k2 -> oc_Append (items1 ++ items2) = Ok (k1 ++ k2);
  oc_parse_append items k rest :
    oc_Append items = Ok k -> Forall item_ok items -> oc_Parse (kind_of <$> items) (k ++ rest) = Ok (items, rest);
  oc_append_base base s items k :
    unescaped base -> oc_Append (IStr s :: items) = Ok k -> oc_Append (IStr (base ++ s) :: items) = Ok (base ++ k);
}.

(** Lists of items whose integers are known to be in range. *)
Ltac items_ok := repeat first [apply Forall_nil_2 | apply Forall_cons_2; [first [exact I | assumption]|]].

Section Codes.
Context {OC : OrderedCode} `{!OrderedCodeLaws OC}.

Definition code (items : list Item) : bytes := match oc_Append items with Ok k => k | _ => [] end.

Lemma oc_Append_code items : oc_Append items = Ok (code items).
Proof. unfold code. destruct (oc_append_total items) as [k ->]. done. Qed.

Lemma code_app items1 items2 : code (items1 ++ items2) = code items1 ++ code items2.
Proof.
  pose proof (oc_append_app _ _ _ _ (oc_Append_code items1) (oc_Append_code items2)) as E.
  rewrite oc_Append_code in E. by injection E.
Qed.

Lemma parse_code items rest : Forall item_ok items -> oc_Parse (kind_of <$> items) (code items ++ rest) = Ok (items, rest).
Proof. apply oc_parse_append, oc_Append_code. Qed.

Lemma code_base base s items : unescaped base -> base ++ code (IStr s :: items) = code (IStr (base ++ s) :: items).
Proof.
  intros Hb. pose proof (oc_append_base _ s items _ Hb (oc_Append_code _)) as E. rewrite oc_Append_code in E. injection E as E. congruence.
Qed.

(** A key that starts with some items starts with those. *)
Lemma code_prefix items items1 items2 :
  Forall item_ok items -> Forall item_ok items1 -> kind_of <$> items = kind_of <$> items1 ->
  code items `prefix_of` code (items1 ++ items2) <-> items = items1.
Proof.
  intros Hi Hi1 Hk. split.
  - intros [rest E]. pose proof (parse_code items rest Hi) as H1. pose proof (parse_code items1 (code items2) Hi1) as H2.
    rewrite <- E, Hk in H1. rewrite <- code_app in H2. congruence.
  - intros ->. exists (code items2). apply code_app.
Qed.

Lemma code_inj items items' :
  Forall item_ok items -> Forall item_ok items' -> kind_of <$> items = kind_of <$> items' -> code items = code items' -> items = items'.
Proof. intros H H' Hk E. apply (code_prefix items items' []); [done..|]. rewrite app_nil_r, E. done. Qed.

Lemma code_prefix_key ck t items : code [IStr ck] `prefix_of` code (IStr t :: items) <-> ck = t.
Proof.
  rewrite (code_prefix [IStr ck] [IStr t] items); [|by repeat constructor..]. naive_solver.
Qed.

Lemma code_prefix_value ck cv t v items : code [IStr ck; IStr cv] `prefix_of` code (IStr t :: IStr v :: items) <-> ck = t /\ cv = v.
Proof. rewrite (code_prefix [IStr ck; IStr cv] [IStr t; IStr v] items); [|by repeat constructor..]. naive_solver. Qed.

(** An exact condition is on the key of the items. *)
Lemma code_prefix_value_key ck cv t items : code [IStr ck; IStr cv] `prefix_of` code (IStr t :: items) -> ck = t.
Proof.
  intros Hp. apply (code_prefix_key ck t items). transitivity (code [IStr ck; IStr cv]); [|done].
  exists (code [IStr cv]). apply (code_app [IStr ck] [IStr cv]).
Qed.

(** The values read from a key, whatever prefix the store shows before it. *)
Lemma parseEvent_code base t v h typ :
  unescaped base -> is_i64 h -> parseValueFromEventKey (base ++ code [IStr t; IStr v; IInt h; IStr typ]) = Ok v.
Proof.
  intros Hb Hh. unfold parseValueFromEventKey. rewrite code_base by done.
  pose proof (parse_code [IStr (base ++ t); IStr v; IInt h; IStr typ] []) as Hp. rewrite app_nil_r in Hp.
  cbn [fmap list_fmap kind_of] in Hp. rewrite Hp by items_ok. done.
Qed.

Lemma parsePrimary_code base t h :
  unescaped base -> is_i64 h -> parseValueFromPrimaryKey (base ++ code [IStr t; IInt h]) = Ok (dec_bytes h).
Proof.
  intros Hb Hh. unfold parseValueFromPrimaryKey. rewrite code_base by done.
  pose proof (parse_code [IStr (base ++ t); IInt h] []) as Hp. rewrite app_nil_r in Hp.
  cbn [fmap list_fmap kind_of] in Hp. rewrite Hp by items_ok. done.
Qed.
End Codes.

(** ** What is written *)

Definition begin_block : bytes := lit "begin_block".
Definition end_block : bytes := lit "end_block".

Definition begin_tags (bh : EventDataNewBlockHeader) := event_tags (bb_Events (nh_ResultBeginBlock bh)).
Definition end_tags (bh : EventDataNewBlockHeader) := event_tags (eb_Events (nh_ResultEndBlock bh)).

(** The tags of a block: those of its events, and its height. *)
Definition block_tags (bh : EventDataNewBlockHeader) : list (bytes * bytes) :=
  (BlockHeightKey, dec_bytes (nh_Height bh)) :: begin_tags bh ++ end_tags bh.

(** The items of the keys of a block. *)
Definition event_items (typ : bytes) (h : Z) (tv : bytes * bytes) : list Item := [IStr tv.1; IStr tv.2; IInt h; IStr typ].
Definition block_items (bh : EventDataNewBlockHeader) : list (list Item) :=
  [IStr BlockHeightKey; IInt (nh_Height bh)] ::
  (event_items begin_block (nh_Height bh) <$> begin_tags bh) ++ (event_items end_block (nh_Height bh) <$> end_tags bh).

Definition height_bytes (bh : EventDataNewBlockHeader) : bytes := int64ToBytes (nh_Height bh).

Definition block_matches (conditions : list Condition) (bh : EventDataNewBlockHeader) : bool := tags_match conditions (block_tags bh).

(** A key of a block is that of its height or of one of its event tags. *)
Lemma block_items_elem bh items :
  items ∈ block_items bh <->
  items = [IStr BlockHeightKey; IInt (nh_Height bh)] \/
  exists tag typ, tag ∈ begin_tags bh ++ end_tags bh /\ items = event_items typ (nh_Height bh) tag /\
    ((typ = begin_block /\ tag ∈ begin_tags bh) \/ (typ = end_block /\ tag ∈ end_tags bh)).
Proof.
  unfold block_items. rewrite elem_of_cons, elem_of_app, !list_elem_of_fmap. setoid_rewrite elem_of_app. naive_solver.
Qed.

Lemma block_items_tag bh tag : tag ∈ begin_tags bh ++ end_tags bh -> exists typ, event_items typ (nh_Height bh) tag ∈ block_items bh.
Proof.
  intros [H|H]%elem_of_app; [exists begin_block|exists end_block]; apply block_items_elem; right; do 2 eexists;
    rewrite elem_of_app; naive_solver.
Qed.

Lemma PutUvarint_some fuel x : PutUvarint (S fuel) x <> [].
Proof. cbn [PutUvarint]. by destruct (128 <=? x)%Z. Qed.

Lemma height_bytes_some bh : height_bytes bh <> [].
Proof. apply PutUvarint_some. Qed.

Lemma int64_roundtrip h : is_i64 h -> int64FromBytes (int64ToBytes h) = h.
Proof. apply Varint_PutVarint. Qed.

(** ** The index *)

Section Index.
Context {K : KVStore} `{!KVLaws K} {OC : OrderedCode} `{!OrderedCodeLaws OC}.

Definition blk_entries (bh : EventDataNewBlockHeader) : list (bytes * bytes) :=
  (fun items => (code items, height_bytes bh)) <$> block_items bh.

(** The blocks of a chain: one for a height, and no event with the reserved key. *)
Record wf_blocks (bs : list EventDataNewBlockHeader) : Prop := {
  wb_nodup : NoDup (nh_Height <$> bs);
  wb_height bh : bh ∈ bs -> is_i64 (nh_Height bh);
  wb_reserved bh tag : bh ∈ bs -> tag ∈ begin_tags bh ++ end_tags bh -> tag.1 <> BlockHeightKey;
}.

Record block_indexed (bs : list EventDataNewBlockHeader) (d : db) : Prop := {
  bi_own k v : (k, v) ∈ bs ≫= blk_entries -> kv_view d !! k = Some v;
  bi_all k v : kv_view d !! k = Some v -> (k, v) ∈ bs ≫= blk_entries;
}.

Lemma blk_entries_elem bs k v :
  (k, v) ∈ bs ≫= blk_entries <-> exists bh items, bh ∈ bs /\ items ∈ block_items bh /\ k = code items /\ v = height_bytes bh.
Proof.
  rewrite list_elem_of_bind. unfold blk_entries. setoid_rewrite list_elem_of_fmap. split.
  - intros (bh & (items & [= -> ->] & Hi) & Hb). eauto 10.
  - intros (bh & items & Hb & Hi & -> & ->). exists bh. eauto.
Qed.

Lemma block_items_ok bs bh items : wf_blocks bs -> bh ∈ bs -> items ∈ block_items bh -> Forall item_ok items.
Proof.
  intros Hw Hb [->|(tag & typ & _ & -> & _)]%block_items_elem; pose proof (wb_height _ Hw bh Hb); items_ok.
Qed.

(** Two keys of blocks that are equal are of the same height. *)
Lemma blk_entries_functional bs : wf_blocks bs -> functional (bs ≫= blk_entries).
Proof.
  intros Hw k v v' (bh & it & Hb & Hi & -> & ->)%blk_entries_elem (bh' & it' & Hb' & Hi' & E & ->)%blk_entries_elem.
  pose proof (block_items_ok _ _ _ Hw Hb Hi) as Hok. pose proof (block_items_ok _ _ _ Hw Hb' Hi') as Hok'.
  unfold height_bytes. f_equal.
  apply block_items_elem in Hi as [->|(tag & typ & Ht & -> & _)], Hi' as [->|(tag' & typ' & Ht' & -> & _)].
  - apply code_inj in E; [|done..]. by simplify_eq.
  - destruct (wb_reserved _ Hw bh' tag' Hb' Ht'). symmetry.
    apply (code_prefix_key _ tag'.1 [IStr tag'.2; IInt (nh_Height bh'); IStr typ']). unfold event_items in E. rewrite <- E.
    exists (code [IInt (nh_Height bh)]). apply (code_app [IStr BlockHeightKey]).
  - destruct (wb_reserved _ Hw bh tag Hb Ht). symmetry.
    apply (code_prefix_key _ tag.1 [IStr tag.2; IInt (nh_Height bh); IStr typ]). unfold event_items in E. rewrite E.
    exists (code [IInt (nh_Height bh')]). apply (code_app [IStr BlockHeightKey]).
  - unfold event_items in E. apply code_inj in E; [|done..]. by simplify_eq.
Qed.

Lemma indexEvents_block_appends {K' : KVStore} (V : BatchView K') events typ h :
  appends V ((fun tv => (code (event_items typ h tv), int64ToBytes h)) <$> event_tags events) (indexEvents_block events typ h).
Proof.
  unfold indexEvents_block, event_tags. rewrite fmap_list_bind. apply appends_for_each. intros event _.
  destruct (length (event_Type event) =? 0)%nat; [apply appends_ret|]. rewrite fmap_list_bind. apply appends_for_each. intros attr _.
  destruct (length (attr_Key attr) =? 0)%nat; [apply appends_ret|]. case_decide; [by intros b b' [=]|].
  destruct (attr_Index attr); [|apply appends_ret]. unfold eventKey. rewrite oc_Append_code.
  intros b b' Hb. unfold bind, lift in Hb. cbn [result_wrap] in Hb. by eapply appends_set.
Qed.

Lemma fill_block_appends {K' : KVStore} (V : BatchView K') bh : appends V (blk_entries bh) (fill_block bh).
Proof.
  assert (E : blk_entries bh = [(code [IStr BlockHeightKey; IInt (nh_Height bh)], height_bytes bh)] ++
    ((fun tv => (code (event_items begin_block (nh_Height bh) tv), int64ToBytes (nh_Height bh))) <$> begin_tags bh) ++
    ((fun tv => (code (event_items end_block (nh_Height bh) tv), int64ToBytes (nh_Height bh))) <$> end_tags bh)).
  { unfold blk_entries, block_items. rewrite fmap_cons, fmap_app, <- !list_fmap_compose. done. }
  rewrite E. unfold fill_block, heightKey. rewrite oc_Append_code. cbn [result_wrap].
  intros b b' Hb. unfold bind at 1, lift in Hb.
  revert b b' Hb. apply appends_bind; [apply appends_set|]. apply appends_bind; apply appends_wrap, indexEvents_block_appends.
Qed.

Lemma Index_block_run bh d r d' :
  Index_block bh d = (r, d') ->
  match r with
  | Ok _ => kv_view d' = apply_ops (sets id (blk_entries bh)) (kv_view d)
  | _ => kv_view d' = kv_view d
  end.
Proof. apply with_new_batch_run, fill_block_appends. Qed.

(** Indexing another block. *)
Lemma Index_block_indexed bs bh d d' :
  wf_blocks (bs ++ [bh]) -> block_indexed bs d -> Index_block bh d = (Ok tt, d') -> block_indexed (bs ++ [bh]) d'.
Proof.
  intros Hw Hd Hr. apply Index_block_run in Hr. apply blk_entries_functional in Hw as Hf.
  assert (E : (bs ++ [bh]) ≫= blk_entries = (bs ≫= blk_entries) ++ blk_entries bh) by (rewrite bind_app; cbn; by rewrite app_nil_r).
  split; intros k v; rewrite Hr, E in *.
  - apply apply_sets_extend; [done|apply (bi_own _ _ Hd)].
  - rewrite elem_of_app. intros [Hin|[Hin Hn]]%apply_sets_inv; [by right|]. left. by apply (bi_all _ _ Hd).
Qed.

Lemma Has_indexed bs d h : wf_blocks bs -> block_indexed bs d -> is_i64 h -> Has d h = Ok (bool_decide (h ∈ nh_Height <$> bs)).
Proof.
  intros Hw Hd Hh. unfold Has, heightKey. rewrite oc_Append_code. cbn [result_wrap result_bind]. rewrite kv_get_view.
  destruct (kv_view d !! _) as [v|] eqn:E.
  - apply (bi_all _ _ Hd), blk_entries_elem in E as (bh & items & Hb & Hi & Ec & _). pose proof (block_items_ok _ _ _ Hw Hb Hi) as Hok.
    rewrite bool_decide_true; [done|]. apply block_items_elem in Hi as [->|(tag & typ & Ht & -> & _)].
    + apply code_inj in Ec; [|items_ok|done|done]. simplify_eq. by apply list_elem_of_fmap_2.
    + destruct (wb_reserved _ Hw bh tag Hb Ht). symmetry. apply (code_prefix_key _ tag.1 [IStr tag.2; IInt (nh_Height bh); IStr typ]).
      unfold event_items in Ec. rewrite <- Ec. exists (code [IInt h]). apply (code_app [IStr BlockHeightKey]).
  - rewrite decide_True by done. rewrite bool_decide_false; [done|]. intros (bh & -> & Hb)%list_elem_of_fmap.
    rewrite (bi_own _ _ Hd _ (height_bytes bh)) in E; [done|]. apply blk_entries_elem. exists bh. eexists. split_and!; [done| |done|done].
    apply block_items_elem. by left.
Qed.
End Index.

(** ** Searching *)

(** The queries whose meaning is plain: no exact height, string operands of CONTAINS, which
    is not asked of the height. *)
Record plain_block_query (conditions : list Condition) : Prop := {
  pbq_some : conditions <> [];
  pbq_ranges : plain_ranges conditions;
  pbq_height c : c ∈ conditions -> c_Op c = OpEqual -> c_CompositeKey c <> BlockHeightKey;
  pbq_contains c : c ∈ conditions -> c_Op c = OpContains -> (exists s, c_Operand c = OString s) /\ c_CompositeKey c <> BlockHeightKey;
}.

Lemma lookForHeight_block_none conditions :
  (forall c, c ∈ conditions -> c_Op c = OpEqual -> c_CompositeKey c <> BlockHeightKey) -> lookForHeight_block conditions = Ok None.
Proof.
  induction conditions as [|c conditions IH]; intros H; cbn [lookForHeight_block]; [done|].
  rewrite decide_False by (intros [Hk Ho]; by apply (H c); [left| |]). apply IH. intros c' Hc'. apply H. by right.
Qed.

Section Search.
Context {K : KVStore} `{!KVLaws K} `{!KVIterLaws K} {OC : OrderedCode} `{!OrderedCodeLaws OC} {O : MapOrder} `{!MapOrderLaws O}.
Context (bs : list EventDataNewBlockHeader) (d : db) (conditions : list Condition).
Hypotheses (Hbase : unescaped (kv_base K)) (Hwf : wf_blocks bs) (Hd : block_indexed bs d).

Abbreviation found_blocks := (found bs height_bytes).

Lemma height_bytes_inj bh bh' : bh ∈ bs -> bh' ∈ bs -> height_bytes bh = height_bytes bh' -> bh = bh'.
Proof.
  intros Hb Hb' E. apply (NoDup_fmap_elem_inj _ _ _ _ (wb_nodup _ Hwf) Hb Hb'). rewrite <- (int64_roundtrip (nh_Height bh)) by (by eapply wb_height).
  unfold height_bytes in E. rewrite E. apply int64_roundtrip. by eapply wb_height.
Qed.

Lemma intersect_blocks tmp filtered P Q firstRun :
  found_blocks tmp P -> (firstRun = false -> found_blocks filtered Q) ->
  exists f, intersect tmp filtered firstRun None = (Ok f, None) /\ found_blocks f (fun bh => P bh /\ (firstRun = true \/ Q bh)).
Proof. apply intersect_found; [apply height_bytes_inj|intros; apply height_bytes_some]. Qed.

Lemma already_empty_blocks (filtered : gmap bytes bytes) (firstRun : bool) P Q :
  negb firstRun && bool_decide (filtered = ∅) = true -> (firstRun = false -> found_blocks filtered Q) ->
  found_blocks filtered (fun bh => P bh /\ (firstRun = true \/ Q bh)).
Proof.
  intros Ee HQ. apply andb_true_iff in Ee as [Ef Ee]. apply negb_true_iff in Ef as ->. apply bool_decide_eq_true in Ee as ->.
  specialize (HQ eq_refl). rewrite found_empty in HQ |- *. naive_solver.
Qed.

(** What an iterator visits. *)
Lemma iterator_items p k v :
  (k, Ok v) ∈ kv_prefix_iterator d p <->
  exists bh items, bh ∈ bs /\ items ∈ block_items bh /\ k = kv_base K ++ code items /\ v = height_bytes bh /\ p `prefix_of` code items.
Proof.
  rewrite kv_prefix_iterator_elem. split.
  - intros (k' & v' & -> & Hp & [= <-] & Hv). apply (bi_all _ _ Hd), blk_entries_elem in Hv as (bh & items & Hb & Hi & -> & ->). eauto 10.
  - intros (bh & items & Hb & Hi & -> & -> & Hp). exists (code items), (height_bytes bh). split_and!; [done..|].
    apply (bi_own _ _ Hd), blk_entries_elem. eauto 10.
Qed.

(** A scan finds the blocks that have a key it selects. *)
Lemma scan_items p select :
  (forall bh items, bh ∈ bs -> items ∈ block_items bh -> p `prefix_of` code items -> exists o, select (kv_base K ++ code items) = Ok o) ->
  exists s, scan select (kv_prefix_iterator d p) scan_start None = (Ok s, None) /\ sc_lastError s = None /\
    found_blocks (sc_tmp s) (fun bh => exists items, items ∈ block_items bh /\ p `prefix_of` code items /\
                                                     select (kv_base K ++ code items) = Ok (Some true)).
Proof.
  intros Hsel. assert (Hread : readable (kv_prefix_iterator d p)) by (intros k r (k' & v & _ & _ & -> & _)%kv_prefix_iterator_elem; eauto).
  destruct (scan_start_run select (kv_prefix_iterator d p)) as (s & Hs & He & Hden); [done| |].
  - intros k r Hin. destruct (Hread k r Hin) as [v ->]. apply iterator_items in Hin as (bh & items & Hb & Hi & -> & _ & Hp). by eapply Hsel.
  - exists s. split_and!; [done|done|]. unfold found. eapply denotes_proper; [|exact Hden].
    intros v. unfold selected. setoid_rewrite iterator_items. clear. naive_solver.
Qed.

(** The block satisfies a condition. *)
Definition block_sat (c : Condition) (bh : EventDataNewBlockHeader) : Prop := existsb (tag_matches conditions c) (block_tags bh) = true.

(** The keys of a condition that is not on the height are those of the event tags with it. *)
Lemma items_of_tags ck bh (P : list Item -> Prop) (Q : bytes * bytes -> Prop) :
  bh ∈ bs -> ck <> BlockHeightKey ->
  (forall tag typ, tag ∈ begin_tags bh ++ end_tags bh -> tag.1 = ck -> P (event_items typ (nh_Height bh) tag) <-> Q tag) ->
  (exists items, items ∈ block_items bh /\ code [IStr ck] `prefix_of` code items /\ P items) <->
  (exists tag, tag ∈ block_tags bh /\ tag.1 = ck /\ Q tag).
Proof.
  intros Hb Hck HPQ. split.
  - intros (items & Hi & Hp & HP). apply block_items_elem in Hi as [->|(tag & typ & Ht & -> & _)].
    { by apply (code_prefix_key _ _ [IInt (nh_Height bh)]) in Hp. }
    apply (code_prefix_key _ tag.1 [IStr tag.2; IInt (nh_Height bh); IStr typ]) in Hp. exists tag.
    split_and!; [by apply elem_of_cons; right|done|]. by eapply HPQ.
  - intros (tag & [->|Ht]%elem_of_cons & Hk & HQ); [done|]. destruct (block_items_tag bh tag Ht) as [typ Hi].
    eexists. split_and!; [exact Hi| |by apply HPQ]. apply (code_prefix_key _ tag.1 [IStr tag.2; IInt (nh_Height bh); IStr typ]). done.
Qed.

Context (Hq : plain_block_query conditions).

Lemma equal_found c bh :
  c ∈ conditions -> c_Op c = OpEqual -> bh ∈ bs ->
  (exists items, items ∈ block_items bh /\ code [IStr (c_CompositeKey c); IStr (fmt_v (c_Operand c))] `prefix_of` code items /\
                 Ok (Some true) = Ok (Some true)) <-> block_sat c bh.
Proof.
  intros Hc Ho Hb. pose proof (pbq_height _ Hq c Hc Ho) as Hk. unfold block_sat. rewrite existsb_tags. unfold tag_matches. rewrite Ho.
  setoid_rewrite andb_true_iff. setoid_rewrite bool_decide_eq_true. split.
  - intros (items & Hi & Hp & _). apply block_items_elem in Hi as [->|(tag & typ & Ht & -> & _)].
    { by apply (code_prefix_value_key _ _ _ [IInt (nh_Height bh)]) in Hp. }
    apply (code_prefix_value _ _ tag.1 tag.2 [IInt (nh_Height bh); IStr typ]) in Hp as [E1 E2]. exists tag.
    split_and!; [by apply elem_of_cons; right|done..].
  - intros (tag & [->|Ht]%elem_of_cons & E1 & E2); [done|]. destruct (block_items_tag bh tag Ht) as [typ Hi].
    eexists. split_and!; [exact Hi| |done]. apply (code_prefix_value _ _ tag.1 tag.2 [IInt (nh_Height bh); IStr typ]). done.
Qed.

Lemma match_scan_block_run c :
  c ∈ conditions -> IsRangeOperation (c_Op c) = false ->
  exists s, match_scan_block d c (code [IStr (c_CompositeKey c); IStr (fmt_v (c_Operand c))]) None = (Ok s, None) /\
            sc_lastError s = None /\ found_blocks (sc_tmp s) (block_sat c).
Proof.
  intros Hc Hr. unfold match_scan_block. destruct (c_Op c) eqn:Eo; try discriminate Hr.
  - destruct (scan_items (code [IStr (c_CompositeKey c); IStr (fmt_v (c_Operand c))]) (fun _ => Ok (Some true))) as (s & Hs & He & Hf); [eauto|].
    exists s. split_and!; [done|done|]. eapply found_proper; [|exact Hf]. intros bh Hb. by apply equal_found.
  - destruct (pbq_contains _ Hq c Hc Eo) as [[s0 Es] Hk]. unfold bind at 1, lift at 1. rewrite oc_Append_code.
    set (sel := fun key => match parseValueFromEventKey key with Ok _ => _ | Err _ => _ | Panic _ => _ end).
    assert (Hsel : forall bh tag typ, bh ∈ bs -> sel (kv_base K ++ code (event_items typ (nh_Height bh) tag)) = Ok (Some (Contains tag.2 s0))).
    { intros bh tag typ Hb. unfold sel, event_items. rewrite parseEvent_code, Es by (done || by eapply wb_height). done. }
    destruct (scan_items (code [IStr (c_CompositeKey c)]) sel) as (s & Hs & He & Hf).
    { intros bh items Hb Hi Hp. apply block_items_elem in Hi as [->|(tag & typ & Ht & -> & _)]; [|rewrite Hsel by done; eauto].
      by apply (code_prefix_key _ _ [IInt (nh_Height bh)]) in Hp. }
    exists s. split_and!; [done|done|]. eapply found_proper; [|exact Hf]. intros bh Hb.
    rewrite (items_of_tags _ bh _ (fun tag => Contains tag.2 s0 = true) Hb Hk) by (intros; rewrite Hsel by done; split; congruence).
    unfold block_sat. rewrite existsb_tags. unfold tag_matches. rewrite Eo, Es. setoid_rewrite andb_true_iff.
    by setoid_rewrite bool_decide_eq_true.
  - unfold bind at 1, lift at 1. rewrite oc_Append_code.
    destruct (scan_items (code [IStr (c_CompositeKey c)]) (fun _ => Ok (Some true))) as (s & Hs & He & Hf); [eauto|].
    exists s. split_and!; [done|done|]. eapply found_proper; [|exact Hf]. intros bh Hb.
    unfold block_sat. rewrite existsb_tags. unfold tag_matches. rewrite Eo. setoid_rewrite andb_true_r. setoid_rewrite bool_decide_eq_true.
    destruct (decide (c_CompositeKey c = BlockHeightKey)) as [->|Hk].
    + split; intros _; [eexists; split; [by left|done]|]. eexists. split_and!; [by left| |done].
      by apply (code_prefix_key _ _ [IInt (nh_Height bh)]).
    + rewrite (items_of_tags _ bh _ (fun _ => True) Hb Hk) by done. clear. naive_solver.
Qed.

Lemma condition_narrows_block c :
  c ∈ conditions -> IsRangeOperation (c_Op c) = false -> narrows bs height_bytes (condition_step_block d) block_sat c.
Proof.
  intros Hc Hr filtered Q firstRun HQ. unfold condition_step_block. unfold bind at 1, lift at 1. rewrite oc_Append_code.
  unfold match_block. case_match eqn:Ee.
  { exists filtered. split; [done|]. by apply already_empty_blocks. }
  destruct (match_scan_block_run c Hc Hr) as (s & Hs & He & Hf). unfold bind at 1. rewrite Hs.
  unfold bind at 1, fail_on_error. rewrite He. cbn [ret]. by apply intersect_blocks.
Qed.

(** What [matchRange] decides about a value of the key. *)
Lemma range_select_value qr l u z value key0 :
  AnyBound qr = OInt64 z -> (forall v, in_bounds l u v = Ok (int_in_ranges conditions (qr_Key qr) v)) ->
  (if decide (qr_Key qr = BlockHeightKey) then parseValueFromPrimaryKey key0 else parseValueFromEventKey key0) = Ok value ->
  (exists o, range_select_block qr l u key0 = Ok o) /\
  (range_select_block qr l u key0 = Ok (Some true) <-> value_in_ranges conditions (qr_Key qr) value = true).
Proof.
  intros Ez Hin Hv. unfold range_select_block, value_in_ranges. rewrite Hv, Ez. pose proof (ParseInt_no_panic (cs value)) as Hnp.
  destruct (ParseInt (cs value)) as [v|e|m]; [|split; [eauto|done]|by destruct (Hnp m)].
  rewrite Hin. cbn [result_bind]. split; [eauto|]. fold (int_in_ranges conditions (qr_Key qr) v). split; congruence.
Qed.

Lemma range_narrows_block qr :
  range_ok conditions (qr_Key qr) qr -> narrows bs height_bytes (range_step_block d) (fun qr bh => ranged_tags conditions (block_tags bh) (qr_Key qr)) qr.
Proof.
  intros Hok filtered Q firstRun HQ. unfold range_step_block. unfold bind at 1, lift at 1. rewrite oc_Append_code. cbn [result_wrap].
  unfold matchRange_block. case_match eqn:Ee.
  { exists filtered. split; [done|]. by apply already_empty_blocks. }
  destruct (range_decides _ _ _ (pbq_ranges _ Hq) Hok) as (l & u & z & El & Eu & Ez & Hin).
  unfold bind at 1, lift at 1. rewrite El. unfold bind at 1, lift at 1. rewrite Eu.
  assert (Hprim : forall bh, bh ∈ bs -> qr_Key qr = BlockHeightKey ->
    (exists o, range_select_block qr l u (kv_base K ++ code [IStr BlockHeightKey; IInt (nh_Height bh)]) = Ok o) /\
    (range_select_block qr l u (kv_base K ++ code [IStr BlockHeightKey; IInt (nh_Height bh)]) = Ok (Some true) <->
     value_in_ranges conditions (qr_Key qr) (dec_bytes (nh_Height bh)) = true)).
  { intros bh Hb Hk. eapply range_select_value; [done|done|]. rewrite decide_True by done. apply parsePrimary_code; [done|by eapply wb_height]. }
  assert (Hevent : forall bh tag typ, bh ∈ bs -> qr_Key qr <> BlockHeightKey ->
    (exists o, range_select_block qr l u (kv_base K ++ code (event_items typ (nh_Height bh) tag)) = Ok o) /\
    (range_select_block qr l u (kv_base K ++ code (event_items typ (nh_Height bh) tag)) = Ok (Some true) <->
     value_in_ranges conditions (qr_Key qr) tag.2 = true)).
  { intros bh tag typ Hb Hk. eapply range_select_value; [done|done|]. rewrite decide_False by done. apply parseEvent_code; [done|by eapply wb_height]. }
  assert (Hprefix : forall bh tag typ, code [IStr (qr_Key qr)] `prefix_of` code (event_items typ (nh_Height bh) tag) -> qr_Key qr = tag.1).
  { intros bh tag typ. apply (code_prefix_key _ tag.1 [IStr tag.2; IInt (nh_Height bh); IStr typ]). }
  destruct (scan_items (code [IStr (qr_Key qr)]) (range_select_block qr l u)) as (s & Hs & He & Hf).
  { intros bh items Hb Hi Hp. apply block_items_elem in Hi as [->|(tag & typ & Ht & -> & _)].
    - apply (code_prefix_key _ _ [IInt (nh_Height bh)]) in Hp. by apply Hprim.
    - apply Hevent; [done|]. rewrite (Hprefix _ _ _ Hp). by apply (wb_reserved _ Hwf bh). }
  unfold bind at 1. rewrite Hs. unfold bind at 1, fail_on_error. rewrite He. cbn [ret]. apply intersect_blocks; [|done].
  eapply found_proper; [|exact Hf]. intros bh Hb. unfold ranged_tags.
  destruct (decide (qr_Key qr = BlockHeightKey)) as [Hk|Hk]; [|by apply items_of_tags; [done..|]; intros; by apply Hevent].
  split.
  - intros (items & Hi & Hp & Hsel). apply block_items_elem in Hi as [->|(tag & typ & Ht & -> & _)].
    + eexists. split_and!; [by left|done|]. by apply Hprim.
    + apply Hprefix in Hp. destruct (wb_reserved _ Hwf bh tag Hb Ht). congruence.
  - intros (tag & Ht & Hkt & Hv). assert (tag = (BlockHeightKey, dec_bytes (nh_Height bh))) as ->.
    { apply elem_of_cons in Ht as [->|Ht]; [done|]. destruct (wb_reserved _ Hwf bh tag Hb Ht). congruence. }
    eexists. split_and!; [by left|apply (code_prefix_key _ _ [IInt (nh_Height bh)]); congruence|by apply Hprim].
Qed.

Lemma fetch_block_run hBzs results :
  (forall h, h ∈ hBzs -> exists bh, bh ∈ bs /\ h = height_bytes bh) ->
  fetch_block d hBzs results None = (Ok (results ++ (int64FromBytes <$> hBzs)), None).
Proof.
  revert results. induction hBzs as [|hBz hBzs IH]; intros results Hall; cbn [fetch_block].
  { by rewrite app_nil_r. }
  destruct (Hall hBz) as (bh & Hb & ->); [by left|]. unfold height_bytes. rewrite int64_roundtrip by (by eapply wb_height).
  unfold bind at 1, lift at 1. rewrite (Has_indexed bs d) by (done || by eapply wb_height).
  rewrite bool_decide_true by (by apply list_elem_of_fmap_2). unfold bind, poll. rewrite IH by (intros; apply Hall; by right).
  csimpl. rewrite int64_roundtrip by (by eapply wb_height). by rewrite <- app_assoc.
Qed.

(** What was found, as heights in order. *)
Lemma fetch_found_blocks m (P : EventDataNewBlockHeader -> Prop) (p : EventDataNewBlockHeader -> bool) :
  found_blocks m P -> (forall bh, bh ∈ bs -> P bh <-> p bh = true) ->
  exists res, fetch_block d (range_map m).*2 [] None = (Ok res, None) /\
              merge_sort Z.le res = merge_sort Z.le (nh_Height <$> filter (fun bh => p bh = true) bs).
Proof.
  intros Hm HPp. destruct (found_values bs height_bytes m P Hm) as [Hnd Hin]. eexists. split.
  { apply fetch_block_run. intros h Hh. apply Hin in Hh. naive_solver. }
  apply (StronglySorted_unique Z.le); [apply StronglySorted_merge_sort; apply _..|]. rewrite !merge_sort_Permutation. cbn [app].
  assert (Hkeys : (range_map m).*2 ≡ₚ height_bytes <$> filter (fun bh => p bh = true) bs).
  { apply NoDup_Permutation; [done| |].
    - apply NoDup_fmap_2_strong; [|apply NoDup_filter, (NoDup_fmap_1 nh_Height), (wb_nodup _ Hwf)].
      intros x y [_ Hx]%list_elem_of_filter [_ Hy]%list_elem_of_filter. by apply height_bytes_inj.
    - intros k. rewrite Hin, list_elem_of_fmap. setoid_rewrite list_elem_of_filter. split.
      + intros (bh & Hb & -> & HP). exists bh. split_and!; [done|by apply HPp|done].
      + intros (bh & -> & Hp & Hb). exists bh. split_and!; [done|done|by apply HPp]. }
  rewrite Hkeys, <- list_fmap_compose. apply reflexive_eq, list_fmap_ext. intros i bh Hi. unfold compose, height_bytes.
  apply list_elem_of_lookup_2, list_elem_of_filter in Hi as [_ Hb]. apply int64_roundtrip. by eapply wb_height.
Qed.

(** C12: [Search] on the block index is equivalent to the reference: for a plain query that
    is not cancelled it returns the heights of exactly the indexed blocks every condition of
    which is satisfied by one of their tags, in increasing order. *)
Theorem block_search_equiv :
  Search_block d (Ok conditions) None =
  (Ok (merge_sort Z.le (nh_Height <$> filter (fun bh => block_matches conditions bh = true) bs)), None).
Proof.
  unfold Search_block. unfold bind at 1, poll. cbn [result_wrap]. unfold bind at 1, lift at 1. unfold bind at 1, lift at 1.
  rewrite (lookForHeight_block_none _ (pbq_height _ Hq)).
  pose proof (LookForRanges_ok conditions (pbq_ranges _ Hq)) as Hok. pose proof (unskipped_spec conditions [] conditions eq_refl) as Hun.
  pose proof (fun bh => tags_match_split conditions (block_tags bh) (pbq_ranges _ Hq)) as Hsplit. pose proof (query_not_empty conditions (pbq_some _ Hq) (pbq_ranges _ Hq)) as Hinit.
  destruct (LookForRanges conditions) as [ranges skip]. simpl in Hok, Hun, Hsplit, Hinit.
  destruct (narrow_all_run bs height_bytes (range_step_block d) (fun qr bh => ranged_tags conditions (block_tags bh) (qr_Key qr)) (range_map ranges).*2 false ∅ (fun _ => True))
    as (f1 & Hr & Hf1); [|done|].
  { intros qr [key Hk]%range_map_values. specialize (Hok key). rewrite Hk in Hok. apply range_narrows_block. by destruct Hok as (<- & ?). }
  cbn [orb] in Hr, Hf1. unfold bind at 1. rewrite Hr.
  edestruct (narrow_all_run bs height_bytes (condition_step_block d) block_sat (unskipped skip 0 conditions)) as (f2 & Hc & Hf2); [|exact Hf1|].
  { rewrite Hun. intros c [Hnr Hc]%list_elem_of_filter. by apply condition_narrows_block. }
  unfold bind at 1. rewrite Hc. rewrite Hinit in Hf2.
  destruct (fetch_found_blocks f2 _ (block_matches conditions) Hf2) as (res & Hfe & Hres); [|unfold bind; by rewrite Hfe, Hres].
  intros bh Hb. unfold block_matches. rewrite <- Hsplit, Hun. setoid_rewrite list_elem_of_filter. setoid_rewrite range_map_values. split.
  - intros [(_ & HA) HB]. split; [|intros c Hc1 Hc2; by apply HB]. intros key qr Hk. specialize (Hok key). rewrite Hk in Hok. destruct Hok as (<- & _). eauto.
  - intros [HA HB]. split; [split; [done|]|naive_solver]. intros qr [key Hk].
    specialize (Hok key). rewrite Hk in Hok. destruct Hok as (-> & _). by eapply HA.
Qed.
End Search.
