(* ===== verification/IndexerService.v ===== *)
(** * IndexerService: indexing what the executor publishes

    Models state/txindex/indexer_service.go and the stores that node/node.go gives it
    ([createAndStartIndexerService]: the transaction index and, under the prefix
    "block_events" of the same store, the block index), and proves that the service follows
    the executor: the events of a block make it index the block and all its transactions,
    and the two indexes do not disturb each other. *)
From stdpp Require Import base gmap strings vector sorting numbers list.
From S2P Require Import Prelude Strconv KVStore Types Serialization Conv Executor Indexer IndexerSpec TxIndex TxIndexSpec BlockIndex BlockIndexSpec.

(** ** Messages *)

(** [EventDataTx] and [EventDataNewBlockHeader] as the two subscriptions deliver them. *)
Definition header_msg (ev : Event) : option EventDataNewBlockHeader :=
  match ev with
  | EventNewBlockHeader header numTxs beginBlock endBlock =>
      Some {| nh_Height := ah_Height header; nh_NumTxs := numTxs;
              nh_ResultBeginBlock := beginBlock; nh_ResultEndBlock := endBlock |}
  | _ => None
  end.

Definition tx_msg (ev : Event) : option TxResult :=
  match ev with
  | EventTx height index tx res => Some {| txr_Height := height; txr_Index := index; txr_Tx := tx; txr_Result := res |}
  | _ => None
  end.

(** ** The service *)

Definition block_events : bytes := lit "block_events".

Section Service.
Context {K : KVStore} {X : TxIndexWire} {OC : OrderedCode}.

(** The loop that takes the transactions of a block from their subscription: [None] when it
    has to wait for more of them. *)
Fixpoint collect_txs (n : nat) (txs : list TxResult) (b : TxBatch) : result (option (TxBatch * list TxResult)) :=
  match n, txs with
  | O, _ => Ok (Some (b, txs))
  | S _, [] => Ok None
  | S n, txResult :: txs => try! b := Add_tx txResult b in collect_txs n txs b
  end.

(** One iteration of the service's loop for a header: the errors of the indexers are
    logged, the messages left in the subscription are returned. *)
Definition handle_header (eventDataHeader : EventDataNewBlockHeader) (txs : list TxResult) : M db (option (list TxResult)) :=
  let! batch := lift (NewTxBatch (nh_NumTxs eventDataHeader)) in
  let! collected := lift (collect_txs (Z.to_nat (nh_NumTxs eventDataHeader)) txs batch) in
  match collected with
  | None => ret None
  | Some (batch, txs) =>
      do! try (Index_block (K := PrefixKV K block_events) eventDataHeader) in
      do! try (AddBatch (K := K) batch) in
      ret (Some txs)
  end.
End Service.

(** ** An event bus that keeps what is published *)

Definition RecordBus : EventBus := {| event_bus := list Event; eb_publish ev := modify (fun evs => evs ++ [ev]) |}.

(** The results of the transactions of a block, the first of which has index [i]. *)
Fixpoint block_results (height : Z) (i : nat) (txs : list bytes) (dtxs : list ResponseDeliverTx) : list TxResult :=
  match txs, dtxs with
  | tx :: txs, dtx :: dtxs =>
      {| txr_Height := height; txr_Index := Z.of_nat i; txr_Tx := tx; txr_Result := dtx |} :: block_results height (S i) txs dtxs
  | _, _ => []
  end.

Definition header_of (blk : ABCIBlock) (resp : ABCIResponses) : EventDataNewBlockHeader :=
  {| nh_Height := ah_Height (ab_Header blk); nh_NumTxs := Z.of_nat (length (ab_Txs blk));
     nh_ResultBeginBlock := rs_BeginBlock resp; nh_ResultEndBlock := rs_EndBlock resp |}.

Definition tx_event (r : TxResult) : Event := EventTx (txr_Height r) (txr_Index r) (txr_Tx r) (txr_Result r).

Lemma publish_txs_record height txs i dtxs evs :
  length dtxs = length (drop i txs) -> (Z.of_nat (length txs) < 2 ^ 32)%Z ->
  publish_txs (EB := RecordBus) height txs i dtxs None evs = (Ok None, evs ++ (tx_event <$> block_results height i (drop i txs) dtxs)).
Proof.
  intros Hl Hmax. revert i evs Hl. induction dtxs as [|dtx dtxs IH]; intros i evs Hl; cbn [publish_txs].
  { destruct (drop i txs); [|done]. by rewrite app_nil_r. }
  destruct (drop i txs) as [|tx rest] eqn:Ed; [done|].
  assert (Hi : txs !! i = Some tx) by (rewrite <- (Nat.add_0_r i), <- lookup_drop, Ed; done).
  assert (Hrest : drop (S i) txs = rest) by (rewrite <- Nat.add_1_r, <- drop_drop, Ed; done).
  assert (Hlt : i < length txs) by (by apply lookup_lt_Some in Hi).
  unfold bind at 1, lift, index. rewrite Hi. unfold bind at 1, publish, bind, try. cbn.
  rewrite IH by (rewrite Hrest; simpl in Hl; lia). rewrite Hrest, <- app_assoc. unfold u32. rewrite Z.mod_small by lia. done.
Qed.

(** What the subscriptions receive of a block. *)
Lemma publish_block_record resp blk height vh evs :
  length (rs_DeliverTxs resp) = length (ab_Txs blk) -> (Z.of_nat (length (ab_Txs blk)) < 2 ^ 32)%Z ->
  exists new, publish_block (EB := RecordBus) resp blk height vh evs = (Ok tt, evs ++ new) /\
    omap header_msg new = [header_of blk resp] /\
    omap tx_msg new = block_results height 0 (ab_Txs blk) (rs_DeliverTxs resp).
Proof.
  intros Hl Hmax. unfold publish_block, bind, publish at 1 2, try. cbn. unfold bind. rewrite publish_txs_record by done.
  rewrite drop_0. cbn. eexists. rewrite <- !app_assoc. split; [reflexivity|].
  rewrite !omap_app. cbn. set (rs := block_results _ _ _ _). clearbody rs. split.
  - assert (E : omap header_msg (tx_event <$> rs) = []) by (induction rs; done). by rewrite E.
  - induction rs as [|r rs IH]; [done|]. csimpl. rewrite IH. by destruct r.
Qed.

Lemma block_results_index height i txs dtxs j r : block_results height i txs dtxs !! j = Some r -> txr_Index r = Z.of_nat (i + j).
Proof.
  revert i txs dtxs. induction j as [|j IH]; intros i [|tx txs] [|dtx dtxs] E; cbn in E; try done; simplify_eq; simpl.
  - by rewrite Nat.add_0_r.
  - apply IH in E. rewrite E. f_equal. lia.
Qed.

Lemma block_results_length height i txs dtxs : length txs = length dtxs -> length (block_results height i txs dtxs) = length txs.
Proof. revert i dtxs. induction txs as [|tx txs IH]; intros i [|dtx dtxs] E; cbn in *; try done. f_equal. apply IH. lia. Qed.

(** Collecting transactions that come in the order of their indexes fills the batch. *)
Lemma collect_txs_run ready rs rest :
  (forall j r, rs !! j = Some r -> txr_Index r = Z.of_nat (length ready + j)) ->
  collect_txs (length rs) (rs ++ rest) {| tb_Ops := (Some <$> ready) ++ replicate (length rs) None |} =
  Ok (Some ({| tb_Ops := Some <$> (ready ++ rs) |}, rest)).
Proof.
  revert ready. induction rs as [|r rs IH]; intros ready Hidx; cbn [length collect_txs app replicate].
  { by rewrite !app_nil_r. }
  pose proof (Hidx 0 r eq_refl) as Hr. rewrite Nat.add_0_r in Hr. change ((r :: rs) ++ rest) with (r :: rs ++ rest). cbv iota beta.
  unfold Add_tx. cbn [tb_Ops].
  rewrite Hr, length_app, length_fmap. cbn [length]. rewrite (proj2 (Z.ltb_lt _ _)) by lia. cbn [result_bind].
  rewrite Nat2Z.id, insert_app_r_alt by (by rewrite length_fmap). rewrite length_fmap, Nat.sub_diag. cbn [insert list_insert].
  assert (E : (Some <$> ready) ++ Some r :: replicate (length rs) None = (Some <$> (ready ++ [r])) ++ replicate (length rs) None)
    by (rewrite fmap_app, <- app_assoc; done).
  rewrite E, IH.
  - rewrite <- app_assoc. done.
  - intros j r' Hj. rewrite length_app. cbn [length]. rewrite (Hidx (S j) r' Hj). f_equal. lia.
Qed.

(** ** Writes that succeed *)

Definition returns {S} (c : M S unit) : Prop := forall s, exists s', c s = (Ok tt, s').

Lemma returns_ret {S} : returns (S := S) (ret tt).
Proof. intros s. eauto. Qed.

Lemma returns_bind {S} (c1 c2 : M S unit) : returns c1 -> returns c2 -> returns (do! c1 in c2).
Proof. intros H1 H2 s. unfold bind. destruct (H1 s) as [s1 ->]. apply H2. Qed.

Lemma returns_wrap {S} msg (c : M S unit) : returns c -> returns (wrap msg c).
Proof. intros H s. unfold wrap. destruct (H s) as [s1 ->]. eauto. Qed.

Lemma returns_for_each {S A} (body : A -> M S unit) l : (forall x, x ∈ l -> returns (body x)) -> returns (for_each body l).
Proof.
  induction l as [|x l IH]; intros H; cbn [for_each]; [apply returns_ret|]. apply forall_cons_elem in H as [Hx Hl].
  apply returns_bind; auto.
Qed.

Lemma returns_batch_set {K : KVStore} `{!KVReliable K} k v : returns (batch_set k v).
Proof. intros b. pose proof (batch_set_ok k v b). destruct (batch_set k v b) as [r b']. simpl in *. subst. eauto. Qed.

Lemma returns_batch {K : KVStore} `{!KVReliable K} (c : M batch unit) : returns c -> returns (with_new_batch c).
Proof.
  intros H d. unfold with_new_batch. destruct (H (kv_new_batch d)) as [b ->]. pose proof (batch_commit_ok b d).
  destruct (batch_commit b d) as [r d']. simpl in *. subst. eauto.
Qed.

(** ** The service follows the executor *)

(** No attribute of the events has the key that the block index reserves. *)
Definition no_reserved (events : list ABCIEvent) : Prop :=
  forall event attr, event ∈ events -> attr ∈ event_Attributes event -> composite event attr <> BlockHeightKey.

Lemma event_tags_composite events tag :
  tag ∈ event_tags events -> exists event attr, event ∈ events /\ attr ∈ event_Attributes event /\ tag.1 = composite event attr.
Proof.
  unfold event_tags. intros (event & Hin & He)%list_elem_of_bind. destruct (length (event_Type event) =? 0)%nat; [by apply elem_of_nil in Hin|].
  apply list_elem_of_bind in Hin as (attr & Hin & Ha). destruct (length (attr_Key attr) =? 0)%nat; [by apply elem_of_nil in Hin|].
  destruct (attr_Index attr); [|by apply elem_of_nil in Hin]. apply list_elem_of_singleton in Hin as ->. eauto 10.
Qed.

Section Follows.
Context {K : KVStore} `{!KVLaws K} `{!KVReliable K} {X : TxIndexWire} `{!TxIndexWireLaws X} {OC : OrderedCode} `{!OrderedCodeLaws OC}.

Abbreviation block_store := (PrefixKV K block_events).
Abbreviation in_block_index := (prefix block_events).

Lemma indexEvents_block_returns {K' : KVStore} `{!KVReliable K'} events typ h : no_reserved events -> returns (indexEvents_block (K := K') events typ h).
Proof.
  intros Hn. apply returns_for_each. intros event He. destruct (length (event_Type event) =? 0)%nat; [apply returns_ret|].
  apply returns_for_each. intros attr Ha. destruct (length (attr_Key attr) =? 0)%nat; [apply returns_ret|].
  rewrite decide_False by (by apply Hn). destruct (attr_Index attr); [|apply returns_ret].
  unfold eventKey. rewrite oc_Append_code. intros b. unfold bind, lift. cbn [result_wrap]. apply returns_batch_set.
Qed.

Lemma Index_block_returns (bh : EventDataNewBlockHeader) :
  no_reserved (bb_Events (nh_ResultBeginBlock bh)) -> no_reserved (eb_Events (nh_ResultEndBlock bh)) ->
  returns (Index_block (K := block_store) bh).
Proof.
  intros Hb He. apply returns_batch. unfold fill_block, heightKey. rewrite oc_Append_code. intros b. unfold bind at 1, lift at 1. cbn [result_wrap].
  revert b. apply returns_bind; [apply returns_batch_set|]. apply returns_bind; apply returns_wrap, indexEvents_block_returns; done.
Qed.

Lemma AddBatch_returns rs : (forall r, r ∈ rs -> exists raw, txresult_marshal r = Ok raw) -> returns (AddBatch {| tb_Ops := Some <$> rs |}).
Proof.
  intros Hm. apply returns_batch, returns_for_each. cbn [tb_Ops]. intros o (r & -> & Hr)%list_elem_of_fmap.
  intros b. unfold bind at 1, lift at 1. cbn [deref]. revert b. unfold index_result. apply returns_bind.
  - unfold indexEvents. apply returns_for_each. intros event _. destruct (length (event_Type event) =? 0)%nat; [apply returns_ret|].
    apply returns_for_each. intros attr _. destruct (length (attr_Key attr) =? 0)%nat; [apply returns_ret|].
    destruct (attr_Index attr); [apply returns_batch_set|apply returns_ret].
  - apply returns_bind; [apply returns_batch_set|]. destruct (Hm r Hr) as [raw Hraw]. intros b. unfold bind, lift. rewrite Hraw. apply returns_batch_set.
Qed.

(** Entries written below the prefix of the block index leave the other keys alone. *)
Lemma block_write_apart kvs m k : ~ in_block_index k -> apply_ops (sets (Datatypes.app block_events) kvs) m !! k = m !! k.
Proof.
  intros Hk. revert m. induction kvs as [|[k' v] kvs IH]; intros m; [done|]. cbn. fold (apply_ops (sets (Datatypes.app block_events) kvs)).
  change (apply_ops (sets (Datatypes.app block_events) kvs) (<[block_events ++ k' := v]> m) !! k = m !! k).
  rewrite IH, lookup_insert_ne; [done|]. intros <-. apply Hk. by exists k'.
Qed.

(** Indexing a block keeps the transaction index. *)
Lemma Index_block_keeps_txs rs bh (d d' : @db K) :
  (forall k, k ∈ (rs ≫= tx_entries).*1 -> ~ in_block_index k) -> tx_indexed rs in_block_index d ->
  Index_block (K := block_store) bh d = (Ok tt, d') -> tx_indexed rs in_block_index d'.
Proof.
  intros Hapart Hd Hr. apply (with_new_batch_below K block_events (blk_entries bh)) in Hr; [|apply fill_block_appends].
  split; intros k v; rewrite Hr.
  - intros Hin. rewrite block_write_apart; [by apply (ti_own _ _ _ Hd)|]. apply Hapart. apply list_elem_of_fmap. by exists (k, v).
  - intros Hv. destruct (decide (in_block_index k)) as [Hk|Hk]; [by right|]. rewrite block_write_apart in Hv by done. by apply (ti_all _ _ _ Hd).
Qed.

(** Indexing transactions keeps the block index. *)
Lemma AddBatch_keeps_blocks rs bs (d d' : @db K) :
  (forall k, k ∈ (rs ≫= tx_entries).*1 -> ~ in_block_index k) -> block_indexed (K := block_store) bs d ->
  AddBatch {| tb_Ops := Some <$> rs |} d = (Ok tt, d') -> block_indexed (K := block_store) bs d'.
Proof.
  intros Hapart Hd Hr. apply AddBatch_run in Hr.
  assert (E : @kv_view block_store _ d' = @kv_view block_store _ d).
  { simpl. unfold compose. by rewrite Hr, sub_map_apply_ops, sub_ops_apart. }
  split; intros k v; rewrite E; [apply (bi_own _ _ Hd)|apply (bi_all _ _ Hd)].
Qed.

(** C20: the indexing service follows the executor: the events that [publishEvents] sends for
    a block make the service index the block and, in one batch, all of its transactions;
    it neither waits nor panics, and both indexes, which share one store, then hold what
    they held before and the new block. *)
Theorem indexer_follows_executor rs bs (d : @db K) resp blk height vh :
  let new := block_results height 0 (ab_Txs blk) (rs_DeliverTxs resp) in
  length (rs_DeliverTxs resp) = length (ab_Txs blk) -> (Z.of_nat (length (ab_Txs blk)) < 2 ^ 32)%Z ->
  no_reserved (bb_Events (rs_BeginBlock resp)) -> no_reserved (eb_Events (rs_EndBlock resp)) ->
  wf_results (rs ++ new) -> wf_blocks (bs ++ [header_of blk resp]) ->
  (forall k, k ∈ ((rs ++ new) ≫= tx_entries).*1 -> ~ in_block_index k) ->
  tx_indexed rs in_block_index d -> block_indexed (K := block_store) bs d ->
  exists evs d', publish_block (EB := RecordBus) resp blk height vh [] = (Ok tt, evs) /\
    omap header_msg evs = [header_of blk resp] /\
    handle_header (header_of blk resp) (omap tx_msg evs) d = (Ok (Some []), d') /\
    tx_indexed (rs ++ new) in_block_index d' /\ block_indexed (K := block_store) (bs ++ [header_of blk resp]) d'.
Proof.
  intros new Hl Hmax Hb He Hwr Hwb Hapart Htx Hbl.
  destruct (publish_block_record resp blk height vh [] Hl Hmax) as (evs & Hpub & Hh & Ht). simpl in Hpub.
  destruct (Index_block_returns (header_of blk resp) Hb He d) as [d1 H1].
  assert (Hapart' : forall l, l ⊆ rs ++ new -> forall k, k ∈ (l ≫= tx_entries).*1 -> ~ in_block_index k).
  { intros l Hsub k (kv & -> & Hin)%list_elem_of_fmap. apply Hapart. apply list_elem_of_fmap. exists kv. split; [done|].
    apply list_elem_of_bind in Hin as (x & Hx & Hin). apply list_elem_of_bind. exists x. auto. }
  destruct (AddBatch_returns new) with (s := d1) as [d2 H2].
  { intros r Hr. destruct (wr_marshal _ Hwr r) as (raw & Hm & _); [apply elem_of_app; by right|eauto]. }
  assert (Hnew : new ⊆ rs ++ new) by (intros x; rewrite elem_of_app; by right).
  assert (Hrs : rs ⊆ rs ++ new) by (intros x; rewrite elem_of_app; by left).
  pose proof (Index_block_keeps_txs rs _ d d1 (Hapart' rs Hrs) Htx H1) as Htx1.
  exists evs, d2. split_and!; [done|done| | |].
  - assert (Hlen : length new = length (ab_Txs blk)) by (by apply block_results_length).
    unfold handle_header. cbn [header_of nh_NumTxs]. unfold NewTxBatch. rewrite (proj2 (Z.ltb_ge _ _)) by lia.
    unfold bind at 1, lift at 1. rewrite Ht, Nat2Z.id, <- Hlen. fold new. unfold bind at 1, lift at 1.
    assert (Hc : collect_txs (length new) new {| tb_Ops := replicate (length new) None |} = Ok (Some ({| tb_Ops := Some <$> new |}, []))).
    { rewrite <- (app_nil_r new) at 2. apply (collect_txs_run [] new []). intros j r. apply (block_results_index height 0). }
    rewrite Hc. unfold bind at 1, try at 1. rewrite H1. rewrite (bind_ok _ _ d1 (inr tt) d2) by (unfold try; by rewrite H2). done.
  - eapply (AddBatch_indexed rs new); [done| |done|exact H2]. intros k Hk Hin. by apply (Hapart' new Hnew k).
  - eapply (AddBatch_keeps_blocks new); [apply (Hapart' new Hnew)| |exact H2]. by eapply Index_block_indexed.
Qed.
End Follows.
