(* ===== verification/IndexRuns.v ===== *)
(** * IndexRuns: the indexers on concrete chains

    Instances of the parameters of the indexers - a wire form of results, orderedcode's
    encoding of strings with integers of a fixed size, an order of maps - and runs on them:
    the hypotheses of the theorems hold, and what queries outside of them return. *)
From stdpp Require Import base gmap strings vector sorting numbers list.
From S2P Require Import Prelude Strconv KVStore Types Serialization Concrete Conv Executor Indexer IndexerSpec TxIndex TxIndexSpec BlockIndex BlockIndexSpec IndexerService.

(** ** Instances *)

#[export] Instance TxResult_codec : Codec TxResult.
Proof.
  refine (iso_codec (fun r => (txr_Height r, txr_Index r, txr_Tx r, txr_Result r)) (fun '(h, i, t, r) => Build_TxResult h i t r) _).
  by intros [].
Defined.

Definition toy_tx_wire : TxIndexWire := {| tx_Hash tx := Byte.xff :: tx; txresult_marshal := enc_ok; txresult_unmarshal := dec_all |}.

#[export] Instance toy_tx_wire_laws : TxIndexWireLaws toy_tx_wire.
Proof. split. apply codec_law_all. Qed.

Definition toy_order : MapOrder := fun V m => map_to_list m.

#[export] Instance toy_order_laws : MapOrderLaws toy_order.
Proof. by split. Qed.

(** Orderedcode's strings: 00 and ff are escaped, 00 01 ends them. *)
Definition escape (b : byte) : bytes :=
  if decide (b = Byte.x00) then [Byte.x00; Byte.xff] else if decide (b = Byte.xff) then [Byte.xff; Byte.x00] else [b].

Definition put_string (s : bytes) : bytes := (s ≫= escape) ++ [Byte.x00; Byte.x01].

Fixpoint take_string (k : bytes) : option (bytes * bytes) :=
  match k with
  | [] => None
  | a :: k =>
      if decide (a = Byte.x00) then
        match k with
        | b :: k => if decide (b = Byte.x01) then Some ([], k)
                    else if decide (b = Byte.xff) then prod_map (cons Byte.x00) id <$> take_string k else None
        | [] => None
        end
      else if decide (a = Byte.xff) then
        match k with
        | b :: k => if decide (b = Byte.x00) then prod_map (cons Byte.xff) id <$> take_string k else None
        | [] => None
        end
      else prod_map (cons a) id <$> take_string k
  end.

Lemma take_escape b k : take_string (escape b ++ k) = prod_map (cons b) id <$> take_string k.
Proof.
  unfold escape. destruct (decide (b = Byte.x00)) as [->|H0]; [done|]. destruct (decide (b = Byte.xff)) as [->|H1]; [done|].
  simpl. by rewrite !decide_False.
Qed.

Lemma take_put_string s rest : take_string (put_string s ++ rest) = Some (s, rest).
Proof.
  unfold put_string. rewrite <- app_assoc. induction s as [|b s IH]; [done|].
  change ((b :: s) ≫= escape) with (escape b ++ (s ≫= escape)). by rewrite <- app_assoc, take_escape, IH.
Qed.

Definition put_item (i : Item) : bytes := match i with IStr s => put_string s | IInt z => be_split 8 (u64 z) end.

Definition take_item (kind : ItemKind) (k : bytes) : option (Item * bytes) :=
  match kind with
  | KStr => prod_map IStr id <$> take_string k
  | KInt => if (8 <=? length k)%nat then Some (IInt (i64 (be_combine (take 8 k))), drop 8 k) else None
  end.

Fixpoint take_items (kinds : list ItemKind) (k : bytes) : option (list Item * bytes) :=
  match kinds with
  | [] => Some ([], k)
  | kind :: kinds => '(i, k) ← take_item kind k; '(items, k) ← take_items kinds k; Some (i :: items, k)
  end.

Definition toy_code : OrderedCode := {|
  oc_Append items := Ok (items ≫= put_item);
  oc_Parse kinds k := match take_items kinds k with Some r => Ok r | None => Err (New "orderedcode: corrupt input") end;
|}.

Lemma take_put_item i rest : item_ok i -> take_item (kind_of i) (put_item i ++ rest) = Some (i, rest).
Proof.
  destruct i as [s|z]; intros Hi; cbn [kind_of put_item take_item]; [by rewrite take_put_string|].
  pose proof (length_be_split 8 (u64 z)) as Hl. rewrite length_app, Hl. cbn [Nat.leb plus].
  rewrite take_app_le, take_ge, drop_app_ge, Hl, Nat.sub_diag, drop_0 by lia. rewrite be_combine_split. unfold item_ok, is_i64 in Hi.
  do 3 f_equal. unfold u64, i64. change (8 * Z.of_nat 8)%Z with 64%Z. rewrite Zmod_mod. destruct (Z.ltb_spec z 0).
  - rewrite <- (Z.mod_add z 1) by lia. rewrite (Z.mod_small (z + 1 * 2 ^ 64)) by lia.
    replace (z + 1 * 2 ^ 64 + 2 ^ 63)%Z with (z + 2 ^ 63 + 1 * 2 ^ 64)%Z by lia. rewrite Z.mod_add, Z.mod_small by lia. lia.
  - rewrite (Z.mod_small z), Z.mod_small by lia. lia.
Qed.

#[export] Instance toy_code_laws : OrderedCodeLaws toy_code.
Proof.
  split.
  - intros items. by eexists.
  - intros i1 i2 k1 k2 [= <-] [= <-]. cbn. by rewrite bind_app.
  - intros items k rest [= <-] Hok. cbn.
    assert (E : take_items (kind_of <$> items) ((items ≫= put_item) ++ rest) = Some (items, rest)); [|by rewrite E].
    induction Hok as [|i items Hi Hok IH]; [done|]. cbn [fmap list_fmap take_items].
    change ((i :: items) ≫= put_item) with (put_item i ++ (items ≫= put_item)). rewrite <- app_assoc, (take_put_item _ _ Hi). simpl. by rewrite IH.
  - intros base s items k Hb [= <-]. cbn. f_equal. unfold put_string. rewrite bind_app, <- !app_assoc.
    assert (E : base ≫= escape = base); [|by rewrite E]. induction Hb as [|b base [H0 H1] Hb IH]; [done|].
    change ((b :: base) ≫= escape) with (escape b ++ (base ≫= escape)). rewrite IH. unfold escape. by rewrite !decide_False.
Qed.

(** ** A small chain *)

#[local] Existing Instance toy_tx_wire.
#[local] Existing Instance toy_order.
#[local] Existing Instance toy_code.

(** The store of the indexers, as the node makes it: under the prefix 02 of the database. *)
Definition index_store : KVStore := PrefixKV MemKV [Byte.x02].
#[local] Existing Instance index_store.

Definition attr (k v : string) : EventAttribute := {| attr_Key := lit k; attr_Value := lit v; attr_Index := true |}.
Definition transfer (to amount : string) : ABCIEvent :=
  {| event_Type := lit "transfer"; event_Attributes := [attr "to" to; attr "amount" amount] |}.
Definition paid (events : list ABCIEvent) : ResponseDeliverTx := {| dtx_Code := 0; dtx_Events := events; dtx_Rest := [] |}.

Definition tx_a : TxResult := {| txr_Height := 1; txr_Index := 0; txr_Tx := [Byte.x01]; txr_Result := paid [transfer "bob" "100"] |}.
Definition tx_b : TxResult := {| txr_Height := 2; txr_Index := 0; txr_Tx := [Byte.x02]; txr_Result := paid [transfer "bob" "30"] |}.
Definition tx_c : TxResult := {| txr_Height := 2; txr_Index := 1; txr_Tx := [Byte.x03]; txr_Result := paid [transfer "eve" "70"] |}.
Definition chain_txs : list TxResult := [tx_a; tx_b; tx_c].

Definition empty_index : @db index_store := (∅ : gmap bytes bytes).
Definition tx_index : @db index_store := (AddBatch {| tb_Ops := Some <$> chain_txs |} empty_index).2.

Definition cond (key : string) (op : Operator) (o : Operand) : Condition := {| c_CompositeKey := lit key; c_Op := op; c_Operand := o |}.

(** transfer.to = 'bob' AND transfer.amount > 50 AND tx.height <= 2 *)
Definition big_payments : list Condition :=
  [cond "transfer.to" OpEqual (OString (lit "bob")); cond "transfer.amount" OpGreater (OInt64 50); cond "tx.height" OpLessEqual (OInt64 2)].

Example big_payments_search : Search_tx tx_index (Ok big_payments) None = (Ok [tx_a], None).
Proof. vm_compute. reflexivity. Qed.

#[global] Instance no_slash_dec s : Decision (no_slash s).
Proof. unfold no_slash. apply _. Defined.
#[global] Instance is_i64_dec z : Decision (is_i64 z).
Proof. unfold is_i64. apply _. Defined.

(** A decidable property of all members of a list, by evaluation. *)
Ltac by_eval := apply (bool_decide_unpack _); vm_compute; exact I.

Lemma chain_wf : wf_results chain_txs.
Proof.
  split.
  - by_eval.
  - by_eval.
  - apply Forall_forall. by_eval.
  - intros r r' t v Hr Hr' Ht.
    assert (H : Forall (fun r => Forall (fun r' => Forall (fun tag => result_hash r <> keyForEvent tag.1 tag.2 r') (tags r')) chain_txs) chain_txs) by by_eval.
    rewrite Forall_forall in H. specialize (H r Hr). rewrite Forall_forall in H. specialize (H r' Hr').
    rewrite Forall_forall in H. exact (H (t, v) Ht).
  - apply Forall_forall. unfold valid_place. by_eval.
  - apply Forall_forall. repeat (apply Forall_cons_2 || apply Forall_nil_2); eexists; (split; [reflexivity|vm_compute; discriminate]).
  - intros r t v Hr Ht. assert (H : Forall (fun r => Forall (fun tag => no_slash tag.1 /\ no_slash tag.2) (tags r)) chain_txs) by by_eval.
    rewrite Forall_forall in H. specialize (H r Hr). rewrite Forall_forall in H. exact (H (t, v) Ht).
  - intros r t v Hr Ht.
    assert (H : Forall (fun r => Forall (fun tag => tag.1 <> TxHeightKey) (event_tags (dtx_Events (txr_Result r)))) chain_txs) by by_eval.
    rewrite Forall_forall in H. specialize (H r Hr). rewrite Forall_forall in H. exact (H (t, v) Ht).
Qed.

Lemma empty_tx_indexed other : tx_indexed [] other empty_index.
Proof. split; intros k v H; [by apply elem_of_nil in H|]. discriminate H. Qed.

Lemma run_eta {S} (x : result unit * S) : x.1 = Ok tt -> x = (Ok tt, x.2).
Proof. destruct x as [r s]. simpl. by intros ->. Qed.

Lemma tx_index_run : AddBatch {| tb_Ops := Some <$> chain_txs |} empty_index = (Ok tt, tx_index).
Proof. apply run_eta. vm_compute. reflexivity. Qed.

Lemma chain_apart k : k ∈ (chain_txs ≫= tx_entries).*1 -> ~ block_events `prefix_of` k.
Proof.
  assert (H : Forall (fun k => ~ block_events `prefix_of` k) (chain_txs ≫= tx_entries).*1) by by_eval.
  rewrite Forall_forall in H. apply H.
Qed.

Lemma tx_index_indexed : tx_indexed chain_txs (prefix block_events) tx_index.
Proof.
  apply (AddBatch_indexed [] chain_txs _ empty_index tx_index); [exact chain_wf| |apply empty_tx_indexed|exact tx_index_run].
  intros k Hk Hin. by apply (chain_apart k).
Qed.

Lemma big_payments_plain : plain_query big_payments.
Proof.
  split.
  - done.
  - split.
    + refine (proj1 (Forall_forall _ big_payments) _). repeat (apply Forall_cons_2 || apply Forall_nil_2); intros H; try discriminate H; eexists;
        (split; [reflexivity|]); split_and!; unfold is_i64; intros; try discriminate; simpl; lia.
    + intros c c' Hc Hc'. unfold big_payments in *. repeat (apply elem_of_cons in Hc as [->|Hc]; [|try by apply elem_of_nil in Hc]);
        repeat (apply elem_of_cons in Hc' as [->|Hc']; [|try by apply elem_of_nil in Hc']); done.
    + intros c c' Hc Hc'. unfold big_payments in *. repeat (apply elem_of_cons in Hc as [->|Hc]; [|try by apply elem_of_nil in Hc]);
        repeat (apply elem_of_cons in Hc' as [->|Hc']; [|try by apply elem_of_nil in Hc']); done.
  - refine (proj1 (Forall_forall _ big_payments) _). by_eval.
  - refine (proj1 (Forall_forall _ big_payments) _). by_eval.
  - refine (proj1 (Forall_forall _ big_payments) _). repeat (apply Forall_cons_2 || apply Forall_nil_2); intros H; try discriminate H. by_eval.
  - refine (proj1 (Forall_forall _ big_payments) _). repeat (apply Forall_cons_2 || apply Forall_nil_2); intros H; discriminate H.
  - refine (proj1 (Forall_forall _ big_payments) _). repeat (apply Forall_cons_2 || apply Forall_nil_2); intros H H'; discriminate.
Qed.

Lemma big_payments_apart c :
  c ∈ big_payments -> (forall r, r ∈ chain_txs -> ~ startKey [c_CompositeKey c] `prefix_of` result_hash r) /\
  (forall k, block_events `prefix_of` k -> ~ startKey [c_CompositeKey c] `prefix_of` k).
Proof.
  assert (H : Forall (fun c => Forall (fun r => ~ startKey [c_CompositeKey c] `prefix_of` result_hash r) chain_txs) big_payments) by by_eval.
  intros Hc. rewrite Forall_forall in H. specialize (H c Hc). rewrite Forall_forall in H. split; [exact H|].
  assert (Hn : Forall (fun c => ~ startKey [c_CompositeKey c] `prefix_of` block_events /\ ~ block_events `prefix_of` startKey [c_CompositeKey c]) big_payments) by by_eval.
  rewrite Forall_forall in Hn. specialize (Hn c Hc). intros k Hk Hp. destruct Hn as [H1 H2].
  by destruct (prefix_weak_total (startKey [c_CompositeKey c]) block_events k Hp Hk).
Qed.

Lemma tx_search_equiv_witness :
  exists res, Search_tx tx_index (Ok big_payments) None = (Ok res, None) /\ res ≡ₚ [tx_a].
Proof.
  refine (tx_search_equiv chain_txs (prefix block_events) tx_index big_payments _ chain_wf tx_index_indexed big_payments_plain big_payments_apart).
  by_eval.
Defined.

(** ** The block index *)

Definition block_header (h : Z) (begin_events end_events : list ABCIEvent) : EventDataNewBlockHeader :=
  {| nh_Height := h; nh_NumTxs := 0; nh_ResultBeginBlock := {| bb_Events := begin_events |};
     nh_ResultEndBlock := {| eb_Events := end_events; eb_Rest := [] |} |}.

Definition mint (amount : string) : ABCIEvent := {| event_Type := lit "mint"; event_Attributes := [attr "amount" amount] |}.

Definition block_a : EventDataNewBlockHeader := block_header 1 [mint "10"] [].
Definition block_b : EventDataNewBlockHeader := block_header 2 [] [mint "25"].
Definition block_c : EventDataNewBlockHeader := block_header 3 [mint "40"] [mint "40"].
Definition chain_blocks : list EventDataNewBlockHeader := [block_a; block_b; block_c].

Definition block_index_store : KVStore := PrefixKV index_store block_events.
Definition index_blocks (d : @db block_index_store) : @db block_index_store :=
  (Index_block (K := block_index_store) block_c (Index_block (K := block_index_store) block_b
     (Index_block (K := block_index_store) block_a d).2).2).2.
Definition block_index : @db block_index_store := index_blocks empty_index.

(** mint.amount >= 20 AND block.height < 3 *)
Definition late_mints : list Condition := [cond "mint.amount" OpGreaterEqual (OInt64 20); cond "block.height" OpLess (OInt64 3)].

Lemma blocks_wf bs : bs `prefix_of` chain_blocks -> wf_blocks bs.
Proof.
  assert (Hall : wf_blocks chain_blocks).
  { split.
    - by_eval.
    - refine (proj1 (Forall_forall _ chain_blocks) _). by_eval.
    - intros bh tag Hb Ht. assert (H : Forall (fun bh => Forall (fun tag => tag.1 <> BlockHeightKey) (begin_tags bh ++ end_tags bh)) chain_blocks) by by_eval.
      rewrite Forall_forall in H. specialize (H bh Hb). rewrite Forall_forall in H. exact (H tag Ht). }
  intros [rest E]. rewrite E in Hall. split.
  - pose proof (wb_nodup _ Hall) as H. rewrite fmap_app in H. by apply NoDup_app in H as [? _].
  - intros bh Hb. apply (wb_height _ Hall). apply elem_of_app. by left.
  - intros bh tag Hb. apply (wb_reserved _ Hall). apply elem_of_app. by left.
Qed.

Lemma block_index_indexed : block_indexed (K := block_index_store) chain_blocks block_index.
Proof.
  apply (Index_block_indexed (K := block_index_store) [block_a; block_b] block_c
           (Index_block (K := block_index_store) block_b (Index_block (K := block_index_store) block_a empty_index).2).2);
    [apply blocks_wf; by exists []| |apply run_eta; vm_compute; reflexivity].
  apply (Index_block_indexed (K := block_index_store) [block_a] block_b (Index_block (K := block_index_store) block_a empty_index).2);
    [apply blocks_wf; by exists [block_c]| |apply run_eta; vm_compute; reflexivity].
  apply (Index_block_indexed (K := block_index_store) [] block_a empty_index);
    [apply blocks_wf; by exists [block_b; block_c]| |apply run_eta; vm_compute; reflexivity].
  split; intros k v H; [by apply elem_of_nil in H|]. discriminate H.
Qed.

Lemma late_mints_plain : plain_block_query late_mints.
Proof.
  split.
  - done.
  - split.
    + refine (proj1 (Forall_forall _ late_mints) _). repeat (apply Forall_cons_2 || apply Forall_nil_2); intros H; try discriminate H; eexists;
        (split; [reflexivity|]); split_and!; unfold is_i64; intros; try discriminate; simpl; lia.
    + intros c c' Hc Hc'. unfold late_mints in *. repeat (apply elem_of_cons in Hc as [->|Hc]; [|try by apply elem_of_nil in Hc]);
        repeat (apply elem_of_cons in Hc' as [->|Hc']; [|try by apply elem_of_nil in Hc']); done.
    + intros c c' Hc Hc'. unfold late_mints in *. repeat (apply elem_of_cons in Hc as [->|Hc]; [|try by apply elem_of_nil in Hc]);
        repeat (apply elem_of_cons in Hc' as [->|Hc']; [|try by apply elem_of_nil in Hc']); done.
  - refine (proj1 (Forall_forall _ late_mints) _). repeat (apply Forall_cons_2 || apply Forall_nil_2); intros H; discriminate H.
  - refine (proj1 (Forall_forall _ late_mints) _). repeat (apply Forall_cons_2 || apply Forall_nil_2); intros H; discriminate H.
Qed.

Lemma block_search_equiv_witness : Search_block (K := block_index_store) block_index (Ok late_mints) None = (Ok [2%Z], None).
Proof.
  refine (eq_trans (block_search_equiv (K := block_index_store) chain_blocks block_index late_mints _ _ block_index_indexed late_mints_plain) _).
  - repeat (apply Forall_cons_2 || apply Forall_nil_2); done.
  - apply blocks_wf. by exists [].
  - vm_compute. reflexivity.
Defined.

(** ** A block through the service *)

Definition second_block : ABCIBlock :=
  let no_id := {| bid_Hash := []; bid_Total := 0; bid_PartHash := [] |} in
  {| ab_Header := {| ah_Version := {| ver_Block := 11; ver_App := 0 |}; ah_Height := 2; ah_Time := 0; ah_LastBlockID := no_id;
       ah_LastCommitHash := []; ah_DataHash := []; ah_ValidatorsHash := []; ah_NextValidatorsHash := []; ah_ConsensusHash := [];
       ah_AppHash := []; ah_LastResultsHash := []; ah_EvidenceHash := []; ah_ProposerAddress := []; ah_ChainID := "rollapp" |};
     ab_Txs := [[Byte.x02]; [Byte.x03]];
     ab_LastCommit := {| ac_Height := 1; ac_Round := 0; ac_BlockID := no_id; ac_Signatures := [] |} |}.

Definition second_responses : ABCIResponses :=
  {| rs_DeliverTxs := [txr_Result tx_b; txr_Result tx_c]; rs_BeginBlock := {| bb_Events := [mint "10"] |};
     rs_EndBlock := {| eb_Events := []; eb_Rest := [] |} |}.

Definition first_index : @db index_store := (AddBatch {| tb_Ops := Some <$> [tx_a] |} empty_index).2.

Lemma first_index_run : AddBatch {| tb_Ops := Some <$> [tx_a] |} empty_index = (Ok tt, first_index).
Proof. apply run_eta. vm_compute. reflexivity. Qed.

Lemma first_apart k : k ∈ ([tx_a] ≫= tx_entries).*1 -> ~ block_events `prefix_of` k.
Proof.
  intros Hk. apply chain_apart. revert k Hk. apply (proj1 (Forall_forall _ _)). by_eval.
Qed.

Lemma indexer_follows_executor_witness :
  exists evs d', publish_block (EB := RecordBus) second_responses second_block 2 [] [] = (Ok tt, evs) /\
    omap header_msg evs = [header_of second_block second_responses] /\
    handle_header (header_of second_block second_responses) (omap tx_msg evs) first_index = (Ok (Some []), d') /\
    tx_indexed chain_txs (prefix block_events) d' /\
    block_indexed (K := block_index_store) [header_of second_block second_responses] d'.
Proof.
  refine (indexer_follows_executor [tx_a] [] first_index second_responses second_block 2 [] eq_refl _ _ _ chain_wf _ chain_apart _ _).
  - done.
  - intros event a He Ha. repeat (apply elem_of_cons in He as [->|He]; [|try by apply elem_of_nil in He]).
    revert a Ha. refine (proj1 (Forall_forall _ _) _). by_eval.
  - intros event a He. by apply elem_of_nil in He.
  - split; [by_eval|refine (proj1 (Forall_forall _ _) _); by_eval|].
    intros bh tag Hb Ht. apply list_elem_of_singleton in Hb as ->. revert tag Ht. refine (proj1 (Forall_forall _ _) _). by_eval.
  - apply (AddBatch_indexed [] [tx_a] _ empty_index); [| |apply empty_tx_indexed|exact first_index_run].
    + by apply (wf_results_prefix [tx_a] [tx_b; tx_c]), chain_wf.
    + intros k Hk Hin. by apply (first_apart k).
  - apply (AddBatch_keeps_blocks [tx_a] [] empty_index); [apply first_apart| |exact first_index_run].
    split; intros k v H; [by apply elem_of_nil in H|]. discriminate H.
Defined.

(** ** Where a search differs from the reference

    The theorems about searches are stated of plain queries and of results without slashes;
    these runs show why. *)

(** A second bound does not reset [IncludeLowerBound]: 30 > 30 is taken for true. *)
Example inclusive_bound_sticks :
  Search_tx tx_index (Ok [cond "transfer.amount" OpGreaterEqual (OInt64 5); cond "transfer.amount" OpGreater (OInt64 30);
                          cond "transfer.amount" OpLess (OInt64 50)]) None = (Ok [tx_b], None).
Proof. vm_compute. reflexivity. Qed.

(** A value with a slash matches its first part, and is not seen by CONTAINS. *)
Definition tx_slash : TxResult :=
  {| txr_Height := 1; txr_Index := 0; txr_Tx := [Byte.x09];
     txr_Result := paid [{| event_Type := lit "transfer"; event_Attributes := [attr "memo" "rent/may"] |}] |}.
Definition slash_index : @db index_store := (AddBatch {| tb_Ops := [Some tx_slash] |} empty_index).2.

Example slash_matches_part :
  Search_tx slash_index (Ok [cond "transfer.memo" OpEqual (OString (lit "rent"))]) None = (Ok [tx_slash], None) /\
  Search_tx slash_index (Ok [cond "transfer.memo" OpContains (OString (lit "rent"))]) None = (Ok [], None).
Proof. vm_compute. done. Qed.

(** An exact height answers a block query whatever the other conditions say. *)
Example exact_height_ignores_conditions :
  Search_block (K := block_index_store) block_index
    (Ok [cond "block.height" OpEqual (OInt64 1); cond "mint.amount" OpEqual (OInt64 999)]) None = (Ok [1%Z], None).
Proof. vm_compute. done. Qed.

(** A bound that is not an integer panics when it is exclusive. *)
Example exclusive_float_bound_panics text :
  Search_tx tx_index (Ok [cond "transfer.amount" OpGreater (OFloat64 text)]) None = (Panic "not implemented", None).
Proof. vm_compute. done. Qed.

(** A search that is cancelled while it narrows returns a result that does not match. *)
Example cancelled_search_mismatches :
  (Search_tx tx_index (Ok [cond "transfer.to" OpExists ONil; cond "transfer.to" OpEqual (OString (lit "eve"))]) (Some 5)).1 = Ok [tx_a].
Proof. vm_compute. reflexivity. Qed.
