(* ===== verification/Node.v ===== *)
(** * Node: the health of the base layers and the chunks of the genesis

    Models the parts of node/node.go that keep state of their own: [BaseLayersHealthStatus]
    with the handlers of the health events that the two layers publish, and the cache of
    the chunked genesis document.  The pubsub server and the JSON encoding are
    parameters. *)
From stdpp Require Import base gmap strings vector sorting numbers list.
From S2P Require Import Prelude Strconv Types.

(** ** Health of the base layers *)

Record BaseLayersHealthStatus := { settlementHealthy : bool; daHealthy : bool }.

Definition setSettlementHealth (isHealthy : bool) (bl : BaseLayersHealthStatus) : BaseLayersHealthStatus :=
  {| settlementHealthy := isHealthy; daHealthy := daHealthy bl |}.
Definition setDAHealth (isHealthy : bool) (bl : BaseLayersHealthStatus) : BaseLayersHealthStatus :=
  {| settlementHealthy := settlementHealthy bl; daHealthy := isHealthy |}.
Definition get_health (bl : BaseLayersHealthStatus) : bool * bool := (settlementHealthy bl, daHealthy bl).

(** The data of a message of the pubsub server: [EventDataSettlementHealthStatus] and
    [EventDataDAHealthStatus]. *)
Inductive LayerMsg :=
| MsgSettlementHealth (Healthy : bool) (Error : option error)
| MsgDAHealth (Healthy : bool) (Error : option error)
| MsgOther.

(** node/events/node.go: [EventDataHealthStatus]. *)
Record EventDataHealthStatus := { eh_Healthy : bool; eh_Error : option error }.

(** [PublishWithEvents] of the pubsub server. *)
Class PubSub := { pubsub : Type; ps_Publish : EventDataHealthStatus -> M pubsub unit }.

(** [json.Marshal] of the genesis document. *)
Class GenesisJSON := { genesis_json : GenesisDoc -> result bytes }.

(** ** The node *)

Definition genesisChunkSize : Z := 16 * 1024 * 1024.
#[global] Arguments genesisChunkSize : simpl never.

Section Node.
Context {P : PubSub} {J : GenesisJSON}.

Record Node := {
  n_genesis : option GenesisDoc;
  n_genChunks : list bytes;                 (* nil before the first use *)
  n_baseLayersHealthStatus : BaseLayersHealthStatus;
  n_pubsubServer : pubsub;
}.

Definition set_genChunks (chunks : list bytes) (n : Node) : Node :=
  {| n_genesis := n_genesis n; n_genChunks := chunks; n_baseLayersHealthStatus := n_baseLayersHealthStatus n;
     n_pubsubServer := n_pubsubServer n |}.
Definition set_health (bl : BaseLayersHealthStatus) (n : Node) : Node :=
  {| n_genesis := n_genesis n; n_genChunks := n_genChunks n; n_baseLayersHealthStatus := bl; n_pubsubServer := n_pubsubServer n |}.
Definition set_pubsub (ps : pubsub) (n : Node) : Node :=
  {| n_genesis := n_genesis n; n_genChunks := n_genChunks n; n_baseLayersHealthStatus := n_baseLayersHealthStatus n;
     n_pubsubServer := ps |}.

(** [if err = PublishWithEvents(...); err != nil { panic(err) }]. *)
Definition publish_health (ev : EventDataHealthStatus) : M Node unit :=
  let! r := try (zoom n_pubsubServer set_pubsub (ps_Publish ev)) in
  match r with inl _ => panic "failed to publish" | inr _ => ret tt end.

Definition healthStatusHandler (err : option error) : M Node unit :=
  let! n := get in
  let '(daHealthy, settlementHealthy) := get_health (n_baseLayersHealthStatus n) in
  if daHealthy && settlementHealthy then publish_health {| eh_Healthy := true; eh_Error := None |}
  else match err with
       | Some e => publish_health {| eh_Healthy := false; eh_Error := Some e |}
       | None => ret tt
       end.

Definition healthStatusEventCallback_node (event : LayerMsg) : M Node unit :=
  match event with
  | MsgSettlementHealth healthy err =>
      do! modify (fun n => set_health (setSettlementHealth healthy (n_baseLayersHealthStatus n)) n) in
      healthStatusHandler err
  | MsgDAHealth healthy err =>
      do! modify (fun n => set_health (setDAHealth healthy (n_baseLayersHealthStatus n)) n) in
      healthStatusHandler err
  | MsgOther => ret tt
  end.

(** What [OnStart] sets before it listens. *)
Definition start_health : BaseLayersHealthStatus := {| settlementHealthy := true; daHealthy := true |}.

(** ** Chunks of the genesis *)

(** [s[lo:hi]] with [0 <= lo <= hi <= len(s)]. *)
Definition slice {A} (s : list A) (lo hi : Z) : list A := take (Z.to_nat (hi - lo)) (drop (Z.to_nat lo) s).

(** [for i := 0; i < len(data); i += genesisChunkSize]: every iteration moves [i], so that
    the length of the data is enough fuel. *)
Fixpoint chunk_loop (fuel : nat) (data : bytes) (i : Z) (genChunks : list bytes) : list bytes :=
  match fuel with
  | O => genChunks
  | S fuel =>
      if (i <? Z.of_nat (length data))%Z then
        let end_ := (i + genesisChunkSize)%Z in
        let end_ := if (Z.of_nat (length data) <? end_)%Z then Z.of_nat (length data) else end_ in
        chunk_loop fuel data (i + genesisChunkSize) (genChunks ++ [base64_EncodeToString (slice data i end_)])
      else genChunks
  end.

Definition initGenesisChunks : M Node unit :=
  let! n := get in
  match n_genChunks n with
  | _ :: _ => ret tt
  | [] =>
      match n_genesis n with
      | None => ret tt
      | Some genesis =>
          let! data := lift (genesis_json genesis) in
          modify (set_genChunks (chunk_loop (length data) data 0 []))
      end
  end.

Definition GetGenesisChunks : M Node (list bytes) :=
  do! initGenesisChunks in
  gets n_genChunks.

(** ** Lemmas: chunks *)

(** Pieces of [data] of the chunk size, from [i] on. *)
Lemma chunk_loop_spec data fuel i acc :
  (0 <= i)%Z -> (Z.of_nat (length data) - i <= Z.of_nat fuel)%Z ->
  exists pieces, chunk_loop fuel data i acc = acc ++ (base64_EncodeToString <$> pieces) /\
    concat pieces = drop (Z.to_nat i) data /\ Forall (fun p => (0 < Z.of_nat (length p) <= genesisChunkSize)%Z) pieces.
Proof.
  revert i acc. induction fuel as [|fuel IH]; intros i acc Hi Hf; cbn [chunk_loop].
  { exists []. rewrite drop_ge by lia. cbn. by rewrite app_nil_r. }
  destruct (Z.ltb_spec i (Z.of_nat (length data))) as [Hlt|Hge].
  2: { exists []. rewrite drop_ge by lia. cbn. by rewrite app_nil_r. }
  assert (Hsize : (0 < genesisChunkSize)%Z) by done.
  set (piece := slice _ _ _). destruct (IH (i + genesisChunkSize)%Z (acc ++ [base64_EncodeToString piece])) as (ps & E & Hc & Hb); [lia|lia|].
  assert (Hp : piece = take (Z.to_nat genesisChunkSize) (drop (Z.to_nat i) data)).
  { unfold piece, slice. destruct (Z.ltb_spec (Z.of_nat (length data)) (i + genesisChunkSize)).
    - rewrite !take_ge; [done| |]; rewrite length_drop; lia.
    - do 2 f_equal. lia. }
  exists (piece :: ps). split_and!.
  - rewrite E, <- app_assoc. done.
  - cbn [concat]. rewrite Hc, Hp. replace (Z.to_nat (i + genesisChunkSize)) with (Z.to_nat i + Z.to_nat genesisChunkSize)%nat by lia.
    rewrite <- drop_drop. apply take_drop.
  - constructor; [|done]. rewrite Hp, length_take, length_drop. lia.
Qed.

Lemma GetGenesisChunks_fresh (n : Node) g data :
  n_genChunks n = [] -> n_genesis n = Some g -> genesis_json g = Ok data ->
  GetGenesisChunks n = (Ok (chunk_loop (length data) data 0 []), set_genChunks (chunk_loop (length data) data 0 []) n).
Proof.
  intros Hc Hg Hj. unfold GetGenesisChunks, initGenesisChunks, bind, get. rewrite Hc, Hg, Hj. done.
Qed.
End Node.
