(* ===== verification/HealthSpec.v ===== *)
(** * HealthSpec: from the health of a layer to the production of blocks

    Theorems about Node.v: the node's status follows what the layers report and the
    production loop of the block manager follows the node's status; the chunks of the
    genesis give the document back. *)
From stdpp Require Import base gmap strings vector sorting numbers list.
From S2P Require Import Prelude Strconv KVStore Types Serialization Store Executor Gossip Layers Manager ManagerLoops Concrete ConcreteNode Node.

(** A pubsub server that keeps what is published. *)
Definition RecordPubSub : PubSub :=
  {| pubsub := list EventDataHealthStatus; ps_Publish ev := modify (fun l => l ++ [ev]) |}.

(** ** The status the layers report *)

(** A layer that is unhealthy says why. *)
Definition says_why (msg : LayerMsg) : Prop :=
  match msg with
  | MsgSettlementHealth healthy err | MsgDAHealth healthy err => healthy = false -> is_Some err
  | MsgOther => True
  end.

Definition reported (bl : BaseLayersHealthStatus) (msg : LayerMsg) : BaseLayersHealthStatus :=
  match msg with
  | MsgSettlementHealth healthy _ => setSettlementHealth healthy bl
  | MsgDAHealth healthy _ => setDAHealth healthy bl
  | MsgOther => bl
  end.

Definition all_healthy (bl : BaseLayersHealthStatus) : bool := settlementHealthy bl && daHealthy bl.

Section Health.
Context {J : GenesisJSON}.
#[local] Existing Instance RecordPubSub.

Lemma publish_health_record ev (n : Node) :
  publish_health ev n = (Ok tt, set_pubsub (n_pubsubServer n ++ [ev]) n).
Proof. done. Qed.

(** A message makes the node publish at most one status, that of all layers; without one
    the status of all layers is what it was, or still unhealthy. *)
Lemma health_callback_run msg (n : Node) :
  exists news, healthStatusEventCallback_node msg n =
    (Ok tt, set_pubsub (n_pubsubServer n ++ news) (set_health (reported (n_baseLayersHealthStatus n) msg) n)) /\
    (says_why msg ->
     let bl := n_baseLayersHealthStatus n in let bl' := reported bl msg in
     (exists err, news = [{| eh_Healthy := all_healthy bl'; eh_Error := err |}]) \/ news = [] /\ all_healthy bl' = all_healthy bl).
Proof.
  assert (H : forall healthy err (n' : Node), n_baseLayersHealthStatus n' = healthy -> exists news,
    healthStatusHandler err n' = (Ok tt, set_pubsub (n_pubsubServer n' ++ news) n') /\
    ((exists err', news = [{| eh_Healthy := all_healthy healthy; eh_Error := err' |}]) \/
     news = [] /\ err = None /\ all_healthy healthy = false)).
  { intros bl err n' <-. unfold healthStatusHandler, bind, get, get_health. fold (all_healthy (n_baseLayersHealthStatus n')).
    destruct (all_healthy (n_baseLayersHealthStatus n')) eqn:Ea; [|destruct err as [e|]].
    - rewrite publish_health_record. eexists [_]. split; [done|]. left. by eexists.
    - rewrite publish_health_record. eexists [_]. split; [done|]. left. by eexists.
    - exists []. rewrite app_nil_r. split; [by destruct n'|]. by right. }
  destruct msg as [healthy err|healthy err|]; cbn [healthStatusEventCallback_node reported].
  3: { exists []. rewrite app_nil_r. split; [by destruct n|]. intros _. by right. }
  - unfold bind, modify. destruct (H _ err (set_health (setSettlementHealth healthy (n_baseLayersHealthStatus n)) n) eq_refl)
      as (news & -> & Hn). exists news. split; [done|]. intros Hwhy. destruct Hn as [?|(-> & -> & Ha)]; [by left|]. right. split; [done|].
    destruct (n_baseLayersHealthStatus n) as [[] []], healthy; simpl in *; try done; by destruct (Hwhy eq_refl).
  - unfold bind, modify. destruct (H _ err (set_health (setDAHealth healthy (n_baseLayersHealthStatus n)) n) eq_refl)
      as (news & -> & Hn). exists news. split; [done|]. intros Hwhy. destruct Hn as [?|(-> & -> & Ha)]; [by left|]. right. split; [done|].
    destruct (n_baseLayersHealthStatus n) as [[] []], healthy; simpl in *; try done; by destruct (Hwhy eq_refl).
Qed.

(** ** The chain of handlers *)

Context {T : Tendermint} {W : Wire} {K : KVStore} {TV : TmValidators} {A : App} {MP : MempoolI}
  {EB : EventBus} {G : GossipWire} {DA : DALayer} {SL : SettlementLayer} {P : P2PClient} {PK : ProposerKey}.
Context (cfg : ManagerConf).

(** A status the node published reaches the manager, whose loop reads it: the state is the
    manager and its loop; [false] when the manager's handler has to wait. *)
Definition deliver_health (ev : EventDataHealthStatus) : M (Manager * ProduceLoop) unit := fun '(m, l) =>
  match healthStatusEventCallback (eh_Healthy ev) m with
  | (Ok true, m) =>
      match ProduceBlockLoop_step cfg l EvHealth m with
      | (Ok l, m) => (Ok tt, (m, l))
      | (Err e, m) => (Err e, (m, l))
      | (Panic msg, m) => (Panic msg, (m, l))
      end
  | (Ok false, m) => (Panic "the handler waits", (m, l))
  | (Err e, m) => (Err e, (m, l))
  | (Panic msg, m) => (Panic msg, (m, l))
  end.

(** A message of a layer, handled by the node, and what the node publishes, by the manager. *)
Definition health_chain (msg : LayerMsg) : M (Node * (Manager * ProduceLoop)) unit := fun '(n, ml) =>
  match healthStatusEventCallback_node msg n with
  | (Ok _, n') =>
      match for_each deliver_health (drop (length (n_pubsubServer n)) (n_pubsubServer n')) ml with
      | (r, ml) => (r, (n', ml))
      end
  | (Err e, n') => (Err e, (n', ml))
  | (Panic m, n') => (Panic m, (n', ml))
  end.

Definition loop_status (healthy : bool) : LoopStatus := if healthy then LoopRunning else LoopStopped.

Lemma deliver_health_run ev m l :
  m_shouldProduceBlocksCh m = None -> pl_status l <> LoopBlocked ->
  exists m' l', deliver_health ev (m, l) = (Ok tt, (m', l')) /\ m_shouldProduceBlocksCh m' = None /\
    pl_status l' = loop_status (eh_Healthy ev).
Proof.
  intros Hch Hl. unfold deliver_health, healthStatusEventCallback, bind, gets, modify. rewrite Hch. cbn.
  unfold ProduceBlockLoop_step. destruct (pl_status l); [| |done]; cbn; do 2 eexists; by split_and!.
Qed.

Lemma health_chain_run msg n m l :
  says_why msg -> m_shouldProduceBlocksCh m = None -> pl_status l = loop_status (all_healthy (n_baseLayersHealthStatus n)) ->
  exists n' m' l', health_chain msg (n, (m, l)) = (Ok tt, (n', (m', l'))) /\
    n_baseLayersHealthStatus n' = reported (n_baseLayersHealthStatus n) msg /\
    m_shouldProduceBlocksCh m' = None /\ pl_status l' = loop_status (all_healthy (n_baseLayersHealthStatus n')).
Proof.
  intros Hw Hch Hl. destruct (health_callback_run msg n) as (news & Hrun & Hnews). unfold health_chain. rewrite Hrun.
  cbn [n_pubsubServer set_pubsub]. rewrite drop_app_length. specialize (Hnews Hw). simpl in Hnews.
  destruct Hnews as [[err ->]|[-> Heq]]; cbn [for_each].
  - destruct (deliver_health_run {| eh_Healthy := all_healthy (reported (n_baseLayersHealthStatus n) msg); eh_Error := err |} m l Hch)
      as (m' & l' & Hd & Hch' & Hl'); [rewrite Hl; by destruct (all_healthy _)|].
    unfold bind. rewrite Hd. do 3 eexists. by split_and!.
  - do 3 eexists. split_and!; [done|done|done|]. simpl. by rewrite Heq.
Qed.


(** The chunks of the genesis are pieces of at most 16 MiB, none of them empty, that decode
    and join to the document; asking again returns the same chunks from the cache. *)
Lemma GetGenesisChunks_pieces (n : Node) g data :
  n_genesis n = Some g -> n_genChunks n = [] -> genesis_json g = Ok data ->
  exists chunks n' pieces, GetGenesisChunks n = (Ok chunks, n') /\
    Forall2 (fun chunk piece => base64_DecodeString chunk = Some piece) chunks pieces /\ concat pieces = data /\
    Forall (fun p => (0 < Z.of_nat (length p) <= genesisChunkSize)%Z) pieces /\
    GetGenesisChunks n' = (Ok chunks, n').
Proof.
  intros Hg Hc Hj. destruct (chunk_loop_spec data (length data) 0 []) as (pieces & Hl & Hcat & Hb); [lia|lia|].
  rewrite (GetGenesisChunks_fresh n g data Hc Hg Hj). rewrite Hl. do 2 eexists. exists pieces. split_and!; [done| |done|done|].
  - apply Forall2_fmap_l, Forall_Forall2_diag, Forall_true. intros p. apply base64_roundtrip.
  - unfold GetGenesisChunks, initGenesisChunks, bind, get. cbn [n_genChunks set_genChunks].
    destruct pieces as [|p pieces]; [|by cbn]. cbn. rewrite Hg, Hj. cbn. unfold modify. cbn. by rewrite Hl.
Qed.
End Health.

(** ** Witnesses *)

Import ToyInstances.

Definition toy_json : GenesisJSON := {| genesis_json g := Ok (lit "{'chain_id':'toy'}") |}.
#[local] Existing Instance toy_json.
#[local] Existing Instance RecordPubSub.

Definition healthy_node : Node :=
  {| n_genesis := Some toy_genesis; n_genChunks := []; n_baseLayersHealthStatus := start_health; n_pubsubServer := [] : @pubsub RecordPubSub |}.

(** Both layers fail, and only one of them recovers. *)
Definition outage : list LayerMsg :=
  [MsgSettlementHealth false (Some (New "hub down")); MsgDAHealth false (Some (New "da down")); MsgSettlementHealth true None].

