(* ===== verification/RPC.v ===== *)
(** * RPC: the client of the RPC interface

    Models rpc/client/client.go: the queries about blocks, transactions and validators with
    their pagination, the search by events, the chunks of the genesis, and the broadcast of
    transactions through the mempool and the gossip network.  The query parser, Merkle
    proofs, libp2p and the event bus are parameters. *)
From stdpp Require Import base gmap strings vector sorting numbers list.
From S2P Require Import Prelude Strconv KVStore Types Serialization Store Conv TxCache CList Mempool Indexer TxIndex BlockIndex Node.

(** ** Pagination *)

Definition defaultPerPage : Z := 30.
Definition maxPerPage : Z := 100.

Definition validatePerPage (perPagePtr : option Z) : Z :=
  match perPagePtr with
  | None => defaultPerPage
  | Some perPage =>
      if (perPage <? 1)%Z then defaultPerPage else if (maxPerPage <? perPage)%Z then maxPerPage else perPage
  end.

(** Go's [/] truncates: with no results and one per page the number of pages is 0. *)
Definition validatePage (pagePtr : option Z) (perPage totalCount : Z) : result Z :=
  if (perPage <? 1)%Z then Panic "zero or negative perPage"
  else
    match pagePtr with
    | None => Ok 1%Z
    | Some page =>
        if (page <=? 0)%Z then Ok 1%Z
        else
          let pages := i64 (Z.quot (i64 (totalCount - 1)) perPage + 1) in
          let pages := if (pages =? 0)%Z then 1%Z else pages in
          if (pages <? page)%Z then Err (New "page should be within range") else Ok page
    end.

Definition validateSkipCount (page perPage : Z) : Z :=
  let skipCount := i64 (i64 (page - 1) * perPage) in
  if (skipCount <? 0)%Z then 0%Z else skipCount.

(** [s[lo:hi]] for a slice without spare capacity. *)
Definition slice_expr {A} (s : list A) (lo hi : Z) : result (list A) :=
  if ((0 <=? lo) && (lo <=? hi) && (hi <=? Z.of_nat (length s)))%Z then Ok (slice s lo hi)
  else Panic "slice bounds out of range".

(** [s[i]] for [i] from [i] on, [n] times. *)
Fixpoint pick {A} (s : list A) (i : Z) (n : nat) : result (list A) :=
  match n with
  | O => Ok []
  | S n =>
      try! x := (if (i <? 0)%Z then Panic "index out of range" else index s (Z.to_nat i)) in
      try! xs := pick s (i + 1) n in
      Ok (x :: xs)
  end.

(** The elements [for i := skipCount; i < skipCount+pageSize; i++] visits, for
    [pageSize := MinInt(perPage, totalCount-skipCount)]; [make] panics for a negative
    capacity. *)
Definition page_of {A} (results : list A) (pagePtr perPagePtr : option Z) : result (list A) :=
  let totalCount := Z.of_nat (length results) in
  let perPage := validatePerPage perPagePtr in
  try! page := validatePage pagePtr perPage totalCount in
  let skipCount := validateSkipCount page perPage in
  let pageSize := Z.min perPage (i64 (totalCount - skipCount)) in
  if (pageSize <? 0)%Z then Panic "makeslice: cap out of range" else pick results skipCount (Z.to_nat pageSize).

(** ** Heights *)

Definition filterMinMax (base height min max limit : Z) : result (Z * Z) :=
  if ((min <? 0) || (max <? 0))%Z then Err (New "height must be greater than zero")
  else
    let min := if (min =? 0)%Z then 1%Z else min in
    let max := if (max =? 0)%Z then height else max in
    let max := Z.min height max in
    let min := Z.max base min in
    let min := Z.max min (i64 (i64 (max - limit) + 1)) in
    if (max <? min)%Z then Err (Wrap "min height can't be greater than max height" (New "invalid request"))
    else Ok (min, max).

(** ** Results *)

Record ResultBlock := { rb_BlockID : BlockID; rb_Block : ABCIBlock }.
Record ResultBlockchainInfo := { rbi_LastHeight : Z; rbi_BlockMetas : list BlockMeta }.
Record ResultBlockResults := {
  rbr_Height : Z;
  rbr_TxsResults : list ResponseDeliverTx;
  rbr_BeginBlockEvents : list ABCIEvent;
  rbr_EndBlockEvents : list ABCIEvent;
  rbr_Updates : bytes;                      (* of the validators and the parameters *)
}.
Record ResultCommit := { rc_Header : ABCIHeader; rc_Commit : ABCICommit; rc_CanonicalCommit : bool }.
Record ResultValidators `{Tendermint} := { rv_BlockHeight : Z; rv_Validators : list Validator; rv_Count : Z; rv_Total : Z }.
Record ResultGenesisChunk := { rgc_ChunkNumber : Z; rgc_TotalChunks : Z; rgc_Data : bytes }.
Record ResultUnconfirmedTxs := { ru_Count : Z; ru_Total : Z; ru_TotalBytes : Z; ru_Txs : list Tx }.
Record ResultBroadcastTx := { rbt_Code : Z; rbt_Data : bytes; rbt_Log : string; rbt_Codespace : string; rbt_Hash : bytes }.

(** [tmquery.New] and [Query.Conditions]. *)
Class QueryParser := {
  query : Type;
  query_New : string -> result query;
  query_Conditions : query -> result (list Condition);
}.

(** [merkle.ProofsFromByteSlices]. *)
Class Merkle := {
  merkle_Proof : Type;
  ProofsFromByteSlices : list bytes -> bytes * list merkle_Proof;
}.

Record TxProof `{Merkle} := { tp_RootHash : bytes; tp_Data : Tx; tp_Proof : merkle_Proof }.
Record ResultTx `{Merkle} := {
  rt_Hash : bytes;
  rt_Height : Z;
  rt_Index : Z;
  rt_TxResult : ResponseDeliverTx;
  rt_Tx : Tx;
  rt_Proof : option TxProof;                (* [None] is the zero proof *)
}.
Record ResultTxSearch `{Merkle} := { rts_Txs : list ResultTx; rts_TotalCount : Z }.
Record ResultBlockSearch := { rbs_Blocks : list ResultBlock; rbs_TotalCount : Z }.

(** ** Blocks *)

Section Blocks.
Context {T : Tendermint} {W : Wire} {K : KVStore} {TB : TmBlock}.

Definition normalizeHeight (s : DefaultStore) (height : option Z) : Z :=
  match height with
  | None => Height s
  | Some h => if (h =? 0)%Z then Height s else u64 h
  end.

Definition block_id (hash : bytes) : BlockID := {| bid_Hash := hash; bid_Total := 1; bid_PartHash := hash |}.

Definition Block_rpc (s : DefaultStore) (height : option Z) : result ResultBlock :=
  let heightValue := normalizeHeight s height in
  try! block := LoadBlock s heightValue in
  let hash := Block_Hash block in
  try! abciBlock := ToABCIBlock block in
  Ok {| rb_BlockID := block_id hash; rb_Block := abciBlock |}.

Definition BlockByHash (s : DefaultStore) (hash : bytes) : result ResultBlock :=
  let h := copy_into zero_hash hash in
  try! block := LoadBlockByHash s h in
  try! abciBlock := ToABCIBlock block in
  Ok {| rb_BlockID := block_id h; rb_Block := abciBlock |}.

Definition BlockResults (s : DefaultStore) (height : option Z) : result ResultBlockResults :=
  let h := match height with None => Height s | Some height => u64 height end in
  try! resp := LoadBlockResponses s h in
  Ok {| rbr_Height := i64 h; rbr_TxsResults := rs_DeliverTxs resp; rbr_BeginBlockEvents := bb_Events (rs_BeginBlock resp);
        rbr_EndBlockEvents := eb_Events (rs_EndBlock resp); rbr_Updates := eb_Rest (rs_EndBlock resp) |}.

Definition Commit_rpc (s : DefaultStore) (height : option Z) : result ResultCommit :=
  let heightValue := normalizeHeight s height in
  try! com := LoadCommit s heightValue in
  try! b := LoadBlock s heightValue in
  let commit := ToABCICommit com (blk_Header b) in
  try! block := ToABCIBlock b in
  Ok {| rc_Header := ab_Header block; rc_Commit := commit; rc_CanonicalCommit := true |}.

Definition Validators_rpc (s : DefaultStore) (heightPtr pagePtr perPagePtr : option Z) : result ResultValidators :=
  let height := normalizeHeight s heightPtr in
  try! validators := result_wrap "failed to load validators for height" (LoadValidators s height) in
  let totalCount := Z.of_nat (length (vs_Validators validators)) in
  let perPage := validatePerPage perPagePtr in
  try! page := validatePage pagePtr perPage totalCount in
  let skipCount := validateSkipCount page perPage in
  try! v := slice_expr (vs_Validators validators) skipCount (i64 (skipCount + Z.min perPage (i64 (totalCount - skipCount)))) in
  Ok {| rv_BlockHeight := i64 height; rv_Validators := v; rv_Count := Z.of_nat (length v); rv_Total := totalCount |}.

(** [for height := maxHeight; height >= minHeight; height--], over the heights. *)
Fixpoint load_metas (s : DefaultStore) (heights : list Z) : result (list BlockMeta) :=
  match heights with
  | [] => Ok []
  | height :: heights =>
      try! block := LoadBlock s (u64 height) in
      try! tmblockmeta := ToABCIBlockMeta block in
      try! metas := load_metas s heights in
      Ok (tmblockmeta :: metas)
  end.

Definition BlockchainInfo (s : DefaultStore) (minHeight maxHeight : Z) : result ResultBlockchainInfo :=
  try! (minHeight, maxHeight) := filterMinMax 0 (i64 (Height s)) minHeight maxHeight 20 in
  try! blocks := load_metas s (reverse (seqZ minHeight (maxHeight - minHeight + 1))) in
  Ok {| rbi_LastHeight := i64 (Height s); rbi_BlockMetas := blocks |}.
End Blocks.

(** ** Status *)

(** What [Status] reads of a validator set and its validators. *)
Class TmValidatorInfo `{Tendermint} := {
  vs_GetByAddress : ValidatorSet -> bytes -> option Validator;
  val_Address : Validator -> bytes;
  val_PubKey : Validator -> bytes;
  val_Power : Validator -> Z;
}.

(** Constants of the build and of the p2p client ([P2P.Info]). *)
Record NodeInfo := {
  ni_P2PProtocol : Z;
  ni_ID : string;
  ni_ListenAddr : string;
  ni_Network : string;
  ni_Version : string;
  ni_Moniker : string;
  ni_RPCAddress : string;
}.

Record ResultStatus := {
  rst_ProtocolVersion : Z * Z * Z;          (* P2P, block, app *)
  rst_NodeInfo : NodeInfo;
  rst_TxIndex : string;
  rst_LatestBlockHash : bytes;
  rst_LatestAppHash : bytes;
  rst_LatestBlockHeight : Z;
  rst_LatestBlockTime : Z;
  rst_ValidatorAddress : bytes;
  rst_ValidatorPubKey : bytes;
  rst_ValidatorVotingPower : Z;
}.

Section Status.
Context {T : Tendermint} {W : Wire} {K : KVStore} {VI : TmValidatorInfo} (info : NodeInfo).

(** [Status]: the state of the store changes with [LoadState], which sets the heights of
    the store to those of the state it reads. *)
Definition Status : M DefaultStore ResultStatus :=
  let! s := get in
  let! latest := lift (result_wrap "failed to find latest block" (LoadBlock s (Height s))) in
  let header := blk_Header latest in
  let! validators := lift (result_wrap "failed to fetch the validator info at latest block" (LoadValidators s (hdr_Height header))) in
  match vs_GetByAddress validators (hdr_ProposerAddress header) with
  | None => fail (New "failed to find proposer in the valSet")
  | Some validator =>
      let! state := wrap "failed to load the last saved state" LoadState in
      ret {| rst_ProtocolVersion := (ni_P2PProtocol info, ver_Block (st_Version state), ver_App (st_Version state));
             rst_NodeInfo := info; rst_TxIndex := "on"; rst_LatestBlockHash := hdr_DataHash header;
             rst_LatestAppHash := hdr_AppHash header; rst_LatestBlockHeight := i64 (hdr_Height header);
             rst_LatestBlockTime := i64 (hdr_Time header); rst_ValidatorAddress := val_Address validator;
             rst_ValidatorPubKey := val_PubKey validator; rst_ValidatorVotingPower := val_Power validator |}
  end.
End Status.

(** ** Transactions *)

Section Txs.
Context {X : TxIndexWire} {MK : Merkle}.

(** types/tx.go: [Txs.Proof], which panics for an index out of range. *)
Definition Txs_Proof (txs : list Tx) (i : Z) : result TxProof :=
  let bzs := tx_Hash <$> txs in
  let '(root, proofs) := ProofsFromByteSlices bzs in
  if (i <? 0)%Z then Panic "index out of range"
  else
    try! data := index txs (Z.to_nat i) in
    try! proof := index proofs (Z.to_nat i) in
    Ok {| tp_RootHash := root; tp_Data := data; tp_Proof := proof |}.

(** [block, _ := LoadBlock(...)]: the block is nil when it cannot be loaded. *)
Definition ignore_error {A} (r : result A) : result (option A) :=
  match r with Ok a => Ok (Some a) | Err _ => Ok None | Panic m => Panic m end.

(** [Tx] reads the transaction index [d] and, for a proof, the block store. *)
Definition Tx_rpc {T : Tendermint} {W : Wire} {K : KVStore} {KI : KVStore} (s : DefaultStore (K := K)) (d : @db KI)
    (hash : bytes) (prove : bool) : result ResultTx :=
  try! res := Get_tx (K := KI) d hash in
  match res with
  | None => Err (New "tx not found")
  | Some res =>
      try! proof :=
        (if prove then
           try! block := ignore_error (LoadBlock s (u64 (txr_Height res))) in
           try! block := deref block in
           try! blockProof := Txs_Proof (data_Txs (blk_Data block)) (txr_Index res) in
           Ok (Some blockProof)
         else Ok None) in
      Ok {| rt_Hash := hash; rt_Height := txr_Height res; rt_Index := txr_Index res; rt_TxResult := txr_Result res;
            rt_Tx := txr_Tx res; rt_Proof := proof |}
  end.

(** ** Searches *)

Context {KI : KVStore} {O : MapOrder} {GO : GoOrder} {QP : QueryParser}.

(** The functions [sort.Slice] is given. *)
Definition tx_desc (a b : TxResult) : bool :=
  if (txr_Height a =? txr_Height b)%Z then (txr_Index b <? txr_Index a)%Z else (txr_Height b <? txr_Height a)%Z.
Definition tx_asc (a b : TxResult) : bool :=
  if (txr_Height a =? txr_Height b)%Z then (txr_Index a <? txr_Index b)%Z else (txr_Height a <? txr_Height b)%Z.

(** [switch orderBy]: the order asked for. *)
Definition order_by {A} (orderBy : string) (desc asc : A -> A -> bool) : result (A -> A -> bool) :=
  if String.eqb orderBy "desc" then Ok desc
  else if String.eqb orderBy "asc" || String.eqb orderBy "" then Ok asc
  else Err (New "expected order_by to be either `asc` or `desc` or empty").

Definition to_ResultTx (r : TxResult) : ResultTx :=
  {| rt_Hash := tx_Hash (txr_Tx r); rt_Height := txr_Height r; rt_Index := txr_Index r; rt_TxResult := txr_Result r;
     rt_Tx := txr_Tx r; rt_Proof := None |}.

Definition TxSearch (d : @db KI) (q : string) (prove : bool) (pagePtr perPagePtr : option Z) (orderBy : string) : M Ctx ResultTxSearch :=
  let! q := lift (query_New q) in
  let! results := Search_tx (K := KI) d (query_Conditions q) in
  let! less := lift (order_by orderBy tx_desc tx_asc) in
  let results := sort_Slice less results in
  let! page := lift (page_of results pagePtr perPagePtr) in
  ret {| rts_Txs := to_ResultTx <$> page; rts_TotalCount := Z.of_nat (length results) |}.

(** The loop that fetches the blocks of a page. *)
Fixpoint load_blocks {T : Tendermint} {W : Wire} {K : KVStore} {TB : TmBlock} (s : DefaultStore (K := K)) (heights : list Z)
    : result (list ResultBlock) :=
  match heights with
  | [] => Ok []
  | h :: heights =>
      try! b := LoadBlock s (u64 h) in
      try! block := ToABCIBlock b in
      try! blocks := load_blocks s heights in
      Ok ({| rb_BlockID := {| bid_Hash := abci_block_hash block; bid_Total := 0; bid_PartHash := [] |}; rb_Block := block |} :: blocks)
  end.

Definition BlockSearch {T : Tendermint} {W : Wire} {K : KVStore} {TB : TmBlock} {OC : OrderedCode} (s : DefaultStore (K := K)) (d : @db KI)
    (q : string) (page perPage : option Z) (orderBy : string) : M Ctx ResultBlockSearch :=
  let! q := lift (query_New q) in
  let! results := Search_block (K := KI) d (query_Conditions q) in
  let! less := lift (order_by orderBy (fun a b => b <? a)%Z Z.ltb) in
  let results := sort_Slice less results in
  let! heights := lift (page_of results page perPage) in
  let! blocks := lift (load_blocks s heights) in
  ret {| rbs_Blocks := blocks; rbs_TotalCount := Z.of_nat (length results) |}.
End Txs.

(** ** The genesis *)

(** [id] is a uint of 64 bits; [int(id)] is negative for the upper half of them. *)
Definition GenesisChunked {P : PubSub} {J : GenesisJSON} (id : Z) : M Node ResultGenesisChunk :=
  let! genChunks := wrap "error while creating chunks of the genesis document" GetGenesisChunks in
  let chunkLen := Z.of_nat (length genChunks) in
  if (chunkLen =? 0)%Z then fail (New "service configuration error, genesis chunks are not initialized")
  else if (chunkLen - 1 <? i64 id)%Z then fail (New "there are fewer chunks")
  else if (chunkLen <=? id)%Z then panic "index out of range"
  else
    let! data := lift (index genChunks (Z.to_nat id)) in
    ret {| rgc_ChunkNumber := i64 id; rgc_TotalChunks := chunkLen; rgc_Data := data |}.

(** ** The mempool *)

Section Broadcast.
Context {TT : TmTx} {AC : AppConnMempool} {TC : TxCache} {GO : GoOrder} {X : TxIndexWire}.

Definition NumUnconfirmedTxs (t : TxMempool) : ResultUnconfirmedTxs :=
  {| ru_Count := Size t; ru_Total := Size t; ru_TotalBytes := SizeBytes t; ru_Txs := [] |}.

Definition UnconfirmedTxs (t : TxMempool) (limitPtr : option Z) : ResultUnconfirmedTxs :=
  let limit := validatePerPage limitPtr in
  let txs := ReapMaxTxs limit t in
  {| ru_Count := Z.of_nat (length txs); ru_Total := Size t; ru_TotalBytes := SizeBytes t; ru_Txs := txs |}.

(** ** Broadcasting *)

(** What the client uses of libp2p ([P2P.GossipTx]) and of the event bus; [cb_WaitTx] is
    the select that waits for the transaction to be in a block. *)
Inductive TxWait := TxIncluded (height : Z) (res : ResponseDeliverTx) | TxSubCancelled (reason : option error) | TxTimedOut.

Class ClientNet := {
  net : Type;
  net_GossipTx : Tx -> M net unit;
  cb_NumClients : net -> Z;
  cb_NumClientSubscriptions : string -> net -> Z;
  cb_SubscribeTx : string -> Tx -> M net unit;
  cb_UnsubscribeTx : string -> Tx -> M net unit;
  cb_WaitTx : Tx -> M net TxWait;
}.
Context {CN : ClientNet}.

Record ClientState := { cs_mempool : TxMempool; cs_net : net }.

Definition on_mempool {A} (c : M TxMempool A) : M ClientState A :=
  zoom cs_mempool (fun t s => {| cs_mempool := t; cs_net := cs_net s |}) c.
Definition on_net {A} (c : M net A) : M ClientState A :=
  zoom cs_net (fun x s => {| cs_mempool := cs_mempool s; cs_net := x |}) c.

(** The errors of a broadcast: of [CheckTx], or another one. *)
Inductive BroadcastError := BroadcastCheckTx (e : CheckTxError) | BroadcastErr (e : error).

Definition BroadcastTxAsync (tx : Tx) : M ClientState (BroadcastError + ResultBroadcastTx) :=
  let! r := on_mempool (CheckTx tx 0) in
  match r with
  | inl e => ret (inl (BroadcastCheckTx e))
  | inr _ =>
      let! err := try (on_net (net_GossipTx tx)) in
      match err with
      | inl e => ret (inl (BroadcastErr (Wrap "tx added to local mempool but failed to gossip" e)))
      | inr _ => ret (inr {| rbt_Code := 0; rbt_Data := []; rbt_Log := ""; rbt_Codespace := ""; rbt_Hash := tx_Hash tx |})
      end
  end.

Definition BroadcastTxSync (tx : Tx) : M ClientState (BroadcastError + ResultBroadcastTx) :=
  let! r := on_mempool (CheckTx tx 0) in
  match r with
  | inl e => ret (inl (BroadcastCheckTx e))
  | inr r =>
      let result := {| rbt_Code := rct_Code r; rbt_Data := rct_Data r; rbt_Log := rct_Log r; rbt_Codespace := rct_Codespace r;
                       rbt_Hash := tx_Hash tx |} in
      if (rct_Code r =? 0)%Z then
        let! err := try (on_net (net_GossipTx tx)) in
        match err with
        | inl e =>
            do! try (on_mempool (RemoveTxByKey (tx_key tx))) in
            ret (inl (BroadcastErr (Wrap "failed to gossip tx" e)))
        | inr _ => ret (inr result)
        end
      else ret (inr result)
  end.

(** ** Waiting for a block *)

Record ResultBroadcastTxCommit := {
  rtc_CheckTx : ResponseCheckTx;
  rtc_DeliverTx : option ResponseDeliverTx;  (* [None] is the zero response *)
  rtc_Hash : bytes;
  rtc_Height : Z;
}.

(** [defer cleanup()]: it runs whatever the body does. *)
Definition defer {S A} (cleanup : M S unit) (body : M S A) : M S A := fun s =>
  match body s with
  | (r, s) => match cleanup s with (Panic m, s) => (Panic m, s) | (_, s) => (r, s) end
  end.

Context (maxClients maxPerClient : Z).

Definition IsSubscriptionAllowed (subscriber : string) (x : net) : option error :=
  if (maxClients <=? cb_NumClients x)%Z then Some (New "max_subscription_clients reached")
  else if (maxPerClient <=? cb_NumClientSubscriptions subscriber x)%Z then Some (New "max_subscriptions_per_client reached")
  else None.

(** The body of [BroadcastTxCommit] between the subscription and its end: the result and
    the error, either of which may be nil. *)
Definition broadcast_and_wait (tx : Tx) : M ClientState (option ResultBroadcastTxCommit * option BroadcastError) :=
  let! r := on_mempool (CheckTx tx 0) in
  match r with
  | inl e => ret (None, Some (BroadcastCheckTx e))
  | inr checkTxRes =>
      let result d h := {| rtc_CheckTx := checkTxRes; rtc_DeliverTx := d; rtc_Hash := tx_Hash tx; rtc_Height := h |} in
      if negb (rct_Code checkTxRes =? 0)%Z then ret (Some (result None 0%Z), None)
      else
        let! err := try (on_net (net_GossipTx tx)) in
        match err with
        | inl e => ret (None, Some (BroadcastErr (Wrap "tx added to local mempool but failure to broadcast" e)))
        | inr _ =>
            let! w := on_net (cb_WaitTx tx) in
            match w with
            | TxIncluded height res => ret (Some (result (Some res) height), None)
            | TxSubCancelled _ => ret (Some (result None 0%Z), Some (BroadcastErr (New "deliverTxSub was cancelled")))
            | TxTimedOut => ret (Some (result None 0%Z), Some (BroadcastErr (New "timed out waiting for tx to be included in a block")))
            end
        end
  end.

Definition BroadcastTxCommit (tx : Tx) : M ClientState (option ResultBroadcastTxCommit * option BroadcastError) :=
  let subscriber := "" in
  let! s := get in
  match IsSubscriptionAllowed subscriber (cs_net s) with
  | Some e => ret (None, Some (BroadcastErr (Wrap "subscription not allowed" e)))
  | None =>
      let! err := try (on_net (cb_SubscribeTx subscriber tx)) in
      match err with
      | inl e => ret (None, Some (BroadcastErr (Wrap "failed to subscribe to tx" e)))
      | inr _ => defer (do! try (on_net (cb_UnsubscribeTx subscriber tx)) in ret tt) (broadcast_and_wait tx)
      end
  end.
End Broadcast.
