(* ===== verification/RPCSpec.v ===== *)
(** * RPCSpec: what the RPC client answers

    Theorems about RPC.v: pages partition the results of a search, the range of
    [BlockchainInfo] is within its limit, the chunks of the genesis can be fetched one by
    one, and what a failed broadcast leaves behind. *)
From stdpp Require Import base gmap strings vector sorting numbers list.
From S2P Require Import Prelude Strconv KVStore Types Serialization Store Conv TxCache CList Mempool MempoolInv Indexer IndexerSpec TxIndex TxIndexSpec BlockIndex BlockIndexSpec Node HealthSpec RPC.

(** ** Pages *)

(** The page [k] (from 0) of a list cut into pages of [p] elements. *)
Definition nth_page {A} (l : list A) (p k : nat) : list A := take p (drop (k * p) l).

(** The number of pages: one even when there is nothing. *)
Definition num_pages (n p : nat) : nat := Nat.max 1 ((n + p - 1) / p).

Lemma pages_join {A} (l : list A) p n : length l <= n * p -> concat (nth_page l p <$> seq 0 n) = l.
Proof.
  assert (H : forall k, concat (nth_page l p <$> seq k n) = take (n * p) (drop (k * p) l)).
  { induction n as [|n IH]; intros k; [done|]. cbn [seq fmap list_fmap concat]. change (list_fmap _ _ (nth_page l p) (seq (S k) n)) with (nth_page l p <$> seq (S k) n).
    rewrite IH. unfold nth_page. replace (S k * p) with (k * p + p) by lia. rewrite <- drop_drop. cbn [Nat.mul].
    by rewrite take_take_drop. }
  intros Hl. rewrite H. simpl. by rewrite drop_0, take_ge.
Qed.

Lemma num_pages_enough n p : 0 < p -> n <= num_pages n p * p.
Proof. intros Hp. unfold num_pages. pose proof (Nat.div_mod_eq (n + p - 1) p). pose proof (Nat.mod_upper_bound (n + p - 1) p). nia. Qed.

Lemma pick_run {A} (s : list A) i n : i + n <= length s -> pick s (Z.of_nat i) n = Ok (take n (drop i s)).
Proof.
  revert i. induction n as [|n IH]; intros i Hi; cbn [pick]; [done|].
  rewrite (proj2 (Z.ltb_ge _ _)) by lia. unfold index. rewrite Nat2Z.id.
  destruct (s !! i) as [x|] eqn:Ex; [|apply lookup_ge_None in Ex; lia]. cbn [result_bind].
  replace (Z.of_nat i + 1)%Z with (Z.of_nat (S i)) by lia. rewrite IH by lia. cbn [result_bind].
  by rewrite (drop_S _ _ _ Ex).
Qed.

Definition per_page (perPagePtr : option Z) : nat := Z.to_nat (validatePerPage perPagePtr).

Lemma validatePerPage_range pp : (1 <= validatePerPage pp <= 100)%Z.
Proof. unfold validatePerPage, defaultPerPage, maxPerPage. destruct pp as [p|]; [|lia]. repeat case_match; lia. Qed.

(** The page asked for, or the first one. *)
Definition page_number (pagePtr : option Z) : Z := match pagePtr with Some p => Z.max 1 p | None => 1%Z end.

Lemma pages_quot n p : (1 <= p)%Z -> (0 <= n < 2 ^ 63)%Z ->
  let pages := i64 (Z.quot (i64 (n - 1)) p + 1) in (if (pages =? 0)%Z then 1%Z else pages) = Z.of_nat (num_pages (Z.to_nat n) (Z.to_nat p)).
Proof.
  intros Hp Hn. cbn zeta. rewrite (i64_small (n - 1)) by (unfold is_i64; lia).
  assert (Hq : ((-1 <= Z.quot (n - 1) p <= n - 1)%Z \/ n = 0%Z /\ (-1 <= Z.quot (n - 1) p <= 0)%Z)).
  { destruct (Z.eq_dec n 0%Z) as [->|Hn0].
    - right. split; [done|]. change (0 - 1)%Z with (- (1))%Z. rewrite Z.quot_opp_l by lia. rewrite Z.quot_div_nonneg by lia.
      assert (0 <= 1 / p <= 1)%Z by (split; [apply Z.div_pos; lia|apply Z.div_le_upper_bound; lia]). lia.
    - left. rewrite Z.quot_div_nonneg by lia. split; [apply Z.le_trans with 0%Z; [lia|apply Z.div_pos; lia]|apply Z.div_le_upper_bound; nia]. }
  rewrite i64_small by (unfold is_i64; lia). unfold num_pages.
  replace (Z.to_nat n + Z.to_nat p - 1) with (Z.to_nat (n + p - 1)) by lia.
  rewrite <- Z2Nat.inj_div by lia. destruct (Z.eq_dec n 0%Z) as [->|Hn0].
  - rewrite (Z.div_small (0 + p - 1)) by lia. change (Z.of_nat (Nat.max 1 (Z.to_nat 0))) with 1%Z. repeat case_match; lia.
  - rewrite Z.quot_div_nonneg in * by lia. replace (n + p - 1)%Z with (n - 1 + 1 * p)%Z by lia. rewrite Z.div_add by lia.
    pose proof (Z.div_pos (n - 1) p). repeat case_match; lia.
Qed.

(** [page_of]: a page, or an error beyond the last one; it never panics. *)
Lemma page_of_run {A} (l : list A) pagePtr perPagePtr :
  (Z.of_nat (length l) < 2 ^ 62)%Z ->
  page_of l pagePtr perPagePtr =
  if bool_decide (page_number pagePtr <= Z.of_nat (num_pages (length l) (per_page perPagePtr)))%Z
  then Ok (nth_page l (per_page perPagePtr) (Z.to_nat (page_number pagePtr - 1)))
  else Err (New "page should be within range").
Proof.
  intros Hl. pose proof (validatePerPage_range perPagePtr) as Hp. unfold page_of, per_page. set (p := validatePerPage perPagePtr) in *.
  set (n := Z.of_nat (length l)) in *.
  assert (Hn : length l = Z.to_nat n) by lia.
  set (pages := num_pages (length l) (Z.to_nat p)).
  assert (Hpages : (Z.of_nat pages * p < n + p + p)%Z).
  { unfold pages, num_pages. pose proof (Nat.div_mod_eq (length l + Z.to_nat p - 1) (Z.to_nat p)). nia. }
  assert (Hv : validatePage pagePtr p n =
    if bool_decide (page_number pagePtr <= Z.of_nat pages)%Z then Ok (page_number pagePtr) else Err (New "page should be within range")).
  { unfold validatePage. rewrite (proj2 (Z.ltb_ge _ _)) by lia.
    assert (1 <= Z.of_nat pages)%Z by (unfold pages, num_pages; lia).
    destruct pagePtr as [page|]; cbn [page_number]; [|by rewrite bool_decide_eq_true_2 by lia].
    destruct (Z.leb_spec page 0); [rewrite Z.max_l, bool_decide_eq_true_2 by lia; done|].
    cbv zeta. rewrite pages_quot by lia. fold n in Hn. rewrite <- Hn. fold pages. rewrite Z.max_r by lia.
    destruct (Z.ltb_spec (Z.of_nat pages) page); case_bool_decide; (done || lia). }
  rewrite Hv. destruct (bool_decide _) eqn:Eb; [|done]. apply bool_decide_eq_true in Eb. cbn [result_bind].
  assert (H1 : (1 <= page_number pagePtr)%Z) by (unfold page_number; case_match; lia).
  set (k := page_number pagePtr) in *. unfold validateSkipCount.
  assert (Hskip : (0 <= (k - 1) * p <= n)%Z).
  { split; [nia|]. destruct (Z.eq_dec k 1%Z) as [->|]; [nia|].
    assert ((Z.of_nat pages - 1) * p <= n)%Z; [|nia]. unfold pages, num_pages.
    pose proof (Nat.div_mod_eq (length l + Z.to_nat p - 1) (Z.to_nat p)). pose proof (Nat.mod_upper_bound (length l + Z.to_nat p - 1) (Z.to_nat p)). nia. }
  assert (Hk : (k - 1 < 2 ^ 63)%Z) by nia.
  rewrite (i64_small (k - 1)) by (unfold is_i64; lia). rewrite (i64_small ((k - 1) * p)) by (unfold is_i64; lia).
  cbv zeta. rewrite (proj2 (Z.ltb_ge ((k - 1) * p) 0)) by lia. rewrite (i64_small (n - (k - 1) * p)) by (unfold is_i64; lia).
  rewrite (proj2 (Z.ltb_ge (Z.min p (n - (k - 1) * p)) 0)) by lia.
  replace ((k - 1) * p)%Z with (Z.of_nat (Z.to_nat (k - 1) * Z.to_nat p)) at 1 by nia.
  rewrite pick_run by nia. unfold nth_page. f_equal.
  destruct (Z.le_ge_cases p (n - (k - 1) * p)).
  - rewrite Z.min_l by lia. done.
  - rewrite Z.min_r by lia. rewrite !take_ge; [done| |]; rewrite length_drop; nia.
Qed.

(** ** Searches *)

Lemma tx_asc_order : weak_order tx_asc.
Proof. split; unfold tx_asc; intros; repeat case_match; lia. Qed.

Lemma tx_desc_order : weak_order tx_desc.
Proof. split; unfold tx_desc; intros; repeat case_match; lia. Qed.

Lemma order_by_weak orderBy less : order_by orderBy tx_desc tx_asc = Ok less -> weak_order less.
Proof. unfold order_by. intros E. repeat case_match; simplify_eq; [apply tx_desc_order|apply tx_asc_order]. Qed.

(** Results at different places are strictly ordered. *)
Lemma order_by_total orderBy less a b :
  order_by orderBy tx_desc tx_asc = Ok less -> (txr_Height a, txr_Index a) <> (txr_Height b, txr_Index b) ->
  less b a = false -> less a b = true.
Proof.
  unfold order_by. intros E Hne. assert (Hne' : txr_Height a <> txr_Height b \/ txr_Index a <> txr_Index b).
  { destruct (Z.eq_dec (txr_Height a) (txr_Height b)); [|by left]. right. congruence. }
  clear Hne. repeat case_match; simplify_eq; unfold tx_desc, tx_asc; repeat case_match; lia.
Qed.

Lemma StronglySorted_strict {A B} (f : A -> B) (R S : A -> A -> Prop) l :
  NoDup (f <$> l) -> (forall a b, f a <> f b -> R a b -> S a b) -> StronglySorted R l -> StronglySorted S l.
Proof.
  intros Hnd HRS. induction 1 as [|a l Hs IH Ha]; [constructor|]. apply NoDup_cons in Hnd as [Hna Hnd]. constructor; [by apply IH|].
  rewrite Forall_forall in Ha |- *. intros b Hb. apply HRS; [|by apply Ha]. intros E. apply Hna. rewrite E. by apply list_elem_of_fmap_2.
Qed.

Section TxSearch.
Context {K : KVStore} `{!KVLaws K} `{!KVIterLaws K} {X : TxIndexWire} `{!TxIndexWireLaws X} {O : MapOrder} `{!MapOrderLaws O}.
Context {GO : GoOrder} `{!GoOrderLaws GO} {QP : QueryParser} {MK : Merkle}.
Context (rs : list TxResult) (other : bytes -> Prop) (d : db) (conditions : list Condition).
Hypotheses (Hbase : no_slash (kv_base K)) (Hwf : wf_results rs) (Hd : tx_indexed rs other d) (Hq : plain_query conditions).
Hypothesis Hapart : forall c, c ∈ conditions ->
  (forall r, r ∈ rs -> ~ startKey [c_CompositeKey c] `prefix_of` result_hash r) /\
  (forall k, other k -> ~ startKey [c_CompositeKey c] `prefix_of` k).

(** The pages of [TxSearch] are the matching transactions: for a plain query there is
    one list of exactly the indexed transactions that match, strictly ordered by height and
    index as asked for, such that every page within range is its part, with the number of
    all results beside it, every other page is refused, and the pages joined, for every
    page size, are the list. *)
Theorem tx_search_pages q query orderBy less :
  query_New q = Ok query -> query_Conditions query = Ok conditions -> order_by orderBy tx_desc tx_asc = Ok less ->
  (Z.of_nat (length rs) < 2 ^ 62)%Z ->
  exists l, l ≡ₚ filter (fun r => tx_matches conditions r = true) rs /\ StronglySorted (fun a b => less a b = true) l /\
    forall perPage, let p := per_page perPage in let pages := num_pages (length l) p in
      concat (nth_page l p <$> seq 0 pages) = l /\
      forall prove page, TxSearch d q prove page perPage orderBy None =
        (if bool_decide (page_number page <= Z.of_nat pages)%Z
         then Ok {| rts_Txs := to_ResultTx <$> nth_page l p (Z.to_nat (page_number page - 1)); rts_TotalCount := Z.of_nat (length l) |}
         else Err (New "page should be within range"), None).
Proof.
  intros Hn Hc Ho Hlen. destruct (Search_tx_run rs other d conditions Hbase Hwf Hd Hq Hapart) as (res & Hres & Hperm).
  pose proof (sort_perm less res) as Hsp. assert (Hlp : sort_Slice less res ≡ₚ filter (fun r => tx_matches conditions r = true) rs) by (by rewrite Hsp).
  exists (sort_Slice less res). split_and!; [done| |].
  - eapply (StronglySorted_strict (fun r => (txr_Height r, txr_Index r))); [| |apply sort_sorted, (order_by_weak _ _ Ho)].
    + rewrite Hlp. eapply sublist_NoDup; [apply (wr_places _ Hwf)|apply fmap_sublist, sublist_filter].
    + intros a b. apply (order_by_total _ _ _ _ Ho).
  - intros perPage p pages. pose proof (validatePerPage_range perPage) as Hp. split.
    + apply pages_join, num_pages_enough. unfold p, per_page. lia.
    + intros prove page. unfold TxSearch. unfold bind at 1, lift at 1. rewrite Hn. unfold bind at 1. rewrite Hc, Hres.
      unfold bind at 1, lift at 1. rewrite Ho. unfold bind, lift. rewrite page_of_run.
      * fold p. fold pages. by destruct (bool_decide _).
      * rewrite Hlp. pose proof (length_filter (fun r => tx_matches conditions r = true) rs). lia.
Qed.
End TxSearch.

(** ** Ranges of blocks *)

Section Info.
Context {T : Tendermint} {W : Wire} {K : KVStore} {TB : TmBlock}.

(** The bounds [filterMinMax] gives for the heights asked for. *)
Definition upper_height (height max : Z) : Z := if (max =? 0)%Z then height else Z.min height max.
Definition lower_height (height min max : Z) : Z := Z.max (if (min =? 0)%Z then 1 else min) (upper_height height max - 19).

Lemma filterMinMax_run height min max :
  (0 <= height < 2 ^ 63)%Z -> (0 <= min)%Z -> (0 <= max)%Z ->
  filterMinMax 0 height min max 20 =
  if (upper_height height max <? lower_height height min max)%Z
  then Err (Wrap "min height can't be greater than max height" (New "invalid request"))
  else Ok (lower_height height min max, upper_height height max).
Proof.
  intros Hh Hmin Hmax. unfold filterMinMax. rewrite (proj2 (Z.ltb_ge min 0)), (proj2 (Z.ltb_ge max 0)) by lia. cbn [orb].
  assert (Hu : Z.min height (if (max =? 0)%Z then height else max) = upper_height height max) by (unfold upper_height; case_match; lia).
  rewrite Hu. assert (0 <= upper_height height max <= height)%Z by (unfold upper_height; case_match; lia).
  rewrite (i64_small (upper_height height max - 20)) by (unfold is_i64; lia). rewrite i64_small by (unfold is_i64; lia).
  assert (Hl : Z.max (Z.max 0 (if (min =? 0)%Z then 1 else min)) (upper_height height max - 20 + 1) = lower_height height min max)
    by (unfold lower_height; destruct (Z.eqb_spec min 0); lia).
  by rewrite Hl.
Qed.

Lemma load_metas_run s heights blocks :
  Forall2 (fun h b => LoadBlock s (u64 h) = Ok b) heights blocks ->
  exists metas, load_metas s heights = Ok metas /\ Forall2 (fun b m => ToABCIBlockMeta b = Ok m) blocks metas.
Proof.
  induction 1 as [|h b heights blocks Hb _ (metas & E & Hm)]; [by exists []|]. cbn [load_metas]. rewrite Hb. cbn. rewrite E. cbn.
  eexists. split; [done|]. by constructor.
Qed.

Lemma load_metas_missing s heights h rest blocks e :
  Forall2 (fun h b => LoadBlock s (u64 h) = Ok b) heights blocks -> LoadBlock s (u64 h) = Err e ->
  load_metas s (heights ++ h :: rest) = Err e.
Proof.
  intros H He. induction H as [|h' b heights blocks Hb _ IH]; cbn [app load_metas]; [by rewrite He|].
  rewrite Hb. cbn [result_bind]. unfold ToABCIBlockMeta, ToABCIBlock. cbn [result_bind]. by rewrite IH.
Qed.

(** [BlockchainInfo] answers for at most twenty heights within the chain, from the
    highest down, with the meta data of the stored blocks; a height of the range whose
    block is gone makes the whole query fail with the error of the store, and negative or
    empty ranges are refused. *)
Theorem blockchain_info_range s min max :
  (0 <= Height s < 2 ^ 63)%Z ->
  let hi := upper_height (Height s) max in let lo := lower_height (Height s) min max in
  let heights := reverse (seqZ lo (hi - lo + 1)) in
  ((min < 0 \/ max < 0)%Z -> exists e, BlockchainInfo s min max = Err e) /\
  ((0 <= min)%Z -> (0 <= max)%Z -> (hi < lo)%Z -> exists e, BlockchainInfo s min max = Err e) /\
  ((0 <= min)%Z -> (0 <= max)%Z -> (lo <= hi)%Z ->
   (1 <= lo /\ hi <= Height s)%Z /\ length heights <= 20 /\
   (forall blocks, Forall2 (fun h b => LoadBlock s h = Ok b) heights blocks ->
      exists metas, BlockchainInfo s min max = Ok {| rbi_LastHeight := Height s; rbi_BlockMetas := metas |} /\
        Forall2 (fun b m => ToABCIBlockMeta b = Ok m) blocks metas) /\
   (forall above h below blocks e, heights = above ++ h :: below ->
      Forall2 (fun h b => LoadBlock s h = Ok b) above blocks -> LoadBlock s h = Err e -> BlockchainInfo s min max = Err e)).
Proof.
  intros Hh hi lo heights. assert (Hi : i64 (Height s) = Height s) by (apply i64_small; unfold is_i64; lia).
  split_and!.
  - intros Hneg. unfold BlockchainInfo, filterMinMax. assert (E : ((min <? 0) || (max <? 0))%Z = true) by lia. rewrite E. by eexists.
  - intros Hmin Hmax Hlt. unfold BlockchainInfo. rewrite Hi, filterMinMax_run by done. fold hi lo.
    rewrite (proj2 (Z.ltb_lt _ _)) by done. by eexists.
  - intros Hmin Hmax Hle. assert (Hb : (1 <= lo /\ hi <= Height s /\ hi - lo < 20)%Z)
      by (unfold lo, hi, lower_height, upper_height; repeat case_match; lia).
    assert (Hrun : BlockchainInfo s min max =
      try! blocks := load_metas s heights in Ok {| rbi_LastHeight := Height s; rbi_BlockMetas := blocks |}).
    { unfold BlockchainInfo. rewrite Hi, filterMinMax_run by done. fold hi lo. rewrite (proj2 (Z.ltb_ge _ _)) by done. done. }
    assert (Hu : forall h, h ∈ heights -> u64 h = h).
    { intros h. unfold heights. rewrite elem_of_reverse, elem_of_seqZ. intros ?. unfold u64. rewrite Z.mod_small; lia. }
    assert (Hconv : forall l blocks, l ⊆ heights -> Forall2 (fun h b => LoadBlock s h = Ok b) l blocks -> Forall2 (fun h b => LoadBlock s (u64 h) = Ok b) l blocks).
    { intros l blocks Hsub. induction 1 as [|h b l bl Hb' _ IH]; constructor.
      - rewrite Hu; [done|]. apply Hsub. by left.
      - apply IH. intros x Hx. apply Hsub. by right. }
    split_and!; [lia|lia|unfold heights; rewrite length_reverse, length_seqZ; lia| |].
    + intros blocks Hf. destruct (load_metas_run s heights blocks) as (metas & Hm & Hmeta); [by apply Hconv|].
      exists metas. by rewrite Hrun, Hm.
    + intros above h below blocks e Ehs Hf He. rewrite Hrun, Ehs.
      rewrite (load_metas_missing s above h below blocks e); [done| |].
      * apply Hconv; [|done]. rewrite Ehs. intros x Hx. apply elem_of_app. by left.
      * rewrite Hu; [done|]. rewrite Ehs. apply elem_of_app. right. by left.
Qed.
End Info.

(** ** Broadcasts that fail *)

Section Broadcast.
Context {TT : TmTx} {AC : AppConnMempool} {TC : TxCache} {GO : GoOrder} `{!GoOrderLaws GO} {X : TxIndexWire} {CN : ClientNet}.

Lemma checkTx_admit_inr tx id t h t' :
  checkTx_admit tx id t = (Ok (inr h), t') ->
  (Z.of_nat (length tx) <= cfg_MaxTxBytes (tm_config t))%Z /\ match tm_preCheck t with Some f => f tx | None => None end = None.
Proof.
  unfold checkTx_admit, bind, get. destruct (Z.ltb_spec (cfg_MaxTxBytes (tm_config t)) (Z.of_nat (length tx))); [done|].
  destruct (match tm_preCheck t with Some f => f tx | None => None end); [done|]. intros _. split; [lia|done].
Qed.

(** A transaction the cache holds and the pool does not is refused. *)
Lemma CheckTx_in_cache tx id t c :
  (Z.of_nat (length tx) <= cfg_MaxTxBytes (tm_config t))%Z -> match tm_preCheck t with Some f => f tx | None => None end = None ->
  conn_Error (tm_conn t) = None -> cache_Push tx (tm_cache t) = (false, c) -> tm_txByKey t !! tx_key tx = None ->
  CheckTx tx id t = (Ok (inl ErrTxInCache), set_cache c t).
Proof.
  intros Hlen Hpre Hconn Hpush Hkey. unfold CheckTx, checkTx_admit. unfold bind at 1 2, get. rewrite (proj2 (Z.ltb_ge _ _)) by done.
  rewrite Hpre, Hconn, Hpush. unfold bind at 1, modify. cbn. by rewrite Hkey.
Qed.

(** A transaction whose gossip failed cannot be sent again: [BroadcastTxSync] takes it
    out of the mempool and reports the failure, but it stays in the mempool's cache, so that
    the next attempt is refused as a duplicate although the pool does not hold it. *)
Theorem gossip_failure_blocks_retry tx (s : ClientState) xs r t1 e x1 c :
  cfg_ok (tm_config (cs_mempool s)) -> mempool_inv (cs_mempool s) xs -> fits (tm_config (cs_mempool s)) xs ->
  CheckTx tx 0 (cs_mempool s) = (Ok (inr r), t1) -> rct_Code r = 0%Z -> net_GossipTx tx (cs_net s) = (Err e, x1) ->
  conn_Error (tm_conn t1) = None -> cache_Push tx (tm_cache t1) = (false, c) ->
  exists s' s'', BroadcastTxSync tx s = (Ok (inl (BroadcastErr (Wrap "failed to gossip tx" e))), s') /\
    tm_txByKey (cs_mempool s') !! tx_key tx = None /\
    BroadcastTxSync tx s' = (Ok (inl (BroadcastCheckTx ErrTxInCache)), s'').
Proof.
  intros Hcfg Hinv Hfits Hcheck Hcode Hgossip Hconn Hpush.
  destruct (CheckTx_ok tx 0 _ xs Hcfg Hinv Hfits) as (t' & r' & xs' & Hrun & Hinv1 & _ & Henv & _). rewrite Hrun in Hcheck.
  injection Hcheck as -> ->.
  assert (Hadm : (Z.of_nat (length tx) <= cfg_MaxTxBytes (tm_config t1))%Z /\ match tm_preCheck t1 with Some f => f tx | None => None end = None).
  { destruct Henv as [-> [-> _] _ _]. unfold CheckTx in Hrun. unfold bind at 1 in Hrun.
    destruct (checkTx_admit tx 0 (cs_mempool s)) as [[[er|h]|er|m] t0] eqn:Ea; [done| |done|done]. by eapply checkTx_admit_inr. }
  assert (Hrem : exists t2 res, try (RemoveTxByKey (tx_key tx)) t1 = (Ok res, t2) /\ same_env t1 t2 /\ tm_cache t2 = tm_cache t1 /\
                   tm_conn t2 = tm_conn t1 /\ tm_txByKey t2 !! tx_key tx = None).
  { unfold RemoveTxByKey, try. destruct (tm_txByKey t1 !! tx_key tx) as [el|] eqn:Ek.
    - rewrite (removeTxByKey_found _ _ _ _ Hinv1 Ek). destruct (mi_key _ _ Hinv1 _ _ Ek) as (w & (ys1 & ys2 & ->)%list_elem_of_split & Hw).
      destruct (removeTxByElement_ok _ _ _ _ _ Hinv1) as (t2 & -> & _ & [He Hc Hn _ Hk _]). eexists t2, _. split_and!; [done..|].
      rewrite Hk, Hw. apply lookup_delete_eq.
    - rewrite (removeTxByKey_missing _ _ Ek). by eexists t1, _; split_and!. }
  destruct Hrem as (t2 & res & Hrem & Henv2 & Hc2 & Hn2 & Hk2).
  exists {| cs_mempool := t2; cs_net := x1 |}, {| cs_mempool := set_cache c t2; cs_net := x1 |}. split_and!; [|done|].
  - unfold BroadcastTxSync. unfold bind at 1, on_mempool at 1, zoom at 1. rewrite Hrun, Hcode. cbn.
    unfold bind at 1, try at 1, on_net, zoom at 1. cbn [cs_net]. rewrite Hgossip. unfold bind, try, on_mempool, zoom. cbn [cs_mempool].
    unfold try in Hrem. destruct (RemoveTxByKey (tx_key tx) t1) as [[a|er|m] t2'] eqn:Er; simplify_eq; done.
  - unfold BroadcastTxSync. unfold bind at 1, on_mempool at 1, zoom at 1. cbn [cs_mempool].
    rewrite (CheckTx_in_cache tx 0 t2 c); [done| | | | |done].
    + rewrite (se_config _ _ Henv2). apply Hadm.
    + rewrite (proj1 (se_hooks _ _ Henv2)). apply Hadm.
    + by rewrite Hn2.
    + by rewrite Hc2.
Qed.
End Broadcast.

(** ** The genesis, chunk by chunk *)

Section Genesis.
Context {J : GenesisJSON}.
#[local] Existing Instance RecordPubSub.

Lemma GenesisChunked_run (n n' : Node) chunks id :
  GetGenesisChunks n = (Ok chunks, n') -> chunks <> [] -> is_u64 id -> (Z.of_nat (length chunks) < 2 ^ 63)%Z ->
  GenesisChunked id n =
  (if (2 ^ 63 <=? id)%Z then Panic "index out of range"
   else match chunks !! Z.to_nat id with
        | Some chunk => Ok {| rgc_ChunkNumber := id; rgc_TotalChunks := Z.of_nat (length chunks); rgc_Data := chunk |}
        | None => Err (New "there are fewer chunks")
        end, n').
Proof.
  intros Hg Hne Hid Hlen. unfold GenesisChunked. rewrite (bind_ok _ _ _ chunks n') by (unfold wrap; by rewrite Hg).
  assert (0 < length chunks) by (destruct chunks; [done|simpl; lia]). rewrite (proj2 (Z.eqb_neq _ _)) by lia. unfold is_u64 in Hid.
  destruct (Z.leb_spec (2 ^ 63) id) as [Hbig|Hsmall].
  - assert (Hi : i64 id = (id - 2 ^ 64)%Z).
    { unfold i64. replace (id + 2 ^ 63)%Z with (id - 2 ^ 63 + 1 * 2 ^ 64)%Z by lia. rewrite Z.mod_add, Z.mod_small by lia. lia. }
    rewrite Hi, (proj2 (Z.ltb_ge _ _)), (proj2 (Z.leb_le _ _)) by lia. done.
  - rewrite (i64_small id) by (unfold is_i64; lia). destruct (chunks !! Z.to_nat id) as [chunk|] eqn:Ec.
    + apply lookup_lt_Some in Ec as Hlt. rewrite (proj2 (Z.ltb_ge _ _)), (proj2 (Z.leb_gt _ _)) by lia. unfold bind, lift, index. by rewrite Ec.
    + apply lookup_ge_None in Ec. by rewrite (proj2 (Z.ltb_lt _ _)) by lia.
Qed.

(** The genesis can be fetched in chunks: the document is cut into pieces of at most
    16 MiB, and [GenesisChunked] returns for each number below the number of pieces, and
    from then on, the piece in base64; beyond them it reports an error, but from 2^63 on it
    panics. *)
Theorem genesis_chunked_roundtrip (n : Node) g data :
  n_genesis n = Some g -> n_genChunks n = [] -> genesis_json g = Ok data -> data <> [] -> (Z.of_nat (length data) < 2 ^ 63)%Z ->
  exists pieces n', concat pieces = data /\ Forall (fun p => (0 < Z.of_nat (length p) <= genesisChunkSize)%Z) pieces /\
    forall id, is_u64 id -> exists r, GenesisChunked id n = (r, n') /\ GenesisChunked id n' = (r, n') /\
      match pieces !! Z.to_nat id with
      | Some piece => exists chunk, r = Ok {| rgc_ChunkNumber := id; rgc_TotalChunks := Z.of_nat (length pieces); rgc_Data := chunk |} /\
                        base64_DecodeString chunk = Some piece
      | None => if (id <? 2 ^ 63)%Z then exists e, r = Err e else exists msg, r = Panic msg
      end.
Proof.
  intros Hg Hc Hj Hne Hlen. destruct (GetGenesisChunks_pieces n g data Hg Hc Hj) as (chunks & n' & pieces & Hrun & Hdec & Hcat & Hb & Hagain).
  exists pieces, n'. split_and!; [done|done|]. intros id Hid. pose proof (Forall2_length _ _ _ Hdec) as Hl.
  assert (Hch : chunks <> []) by (intros ->; apply Forall2_nil_inv_l in Hdec as ->; by apply Hne).
  assert (Hn : length pieces <= length data).
  { rewrite <- Hcat. clear -Hb. induction Hb as [|p ps Hp _ IH]; [done|]. cbn [length concat]. rewrite length_app. lia. }
  eexists. rewrite !(GenesisChunked_run _ n' chunks) by (done || lia). split_and!; [done|done|].
  destruct (pieces !! Z.to_nat id) as [piece|] eqn:Ep.
  - destruct (Forall2_lookup_r _ _ _ _ _ Hdec Ep) as (chunk & -> & Hd). apply lookup_lt_Some in Ep.
    rewrite (proj2 (Z.leb_gt _ _)) by lia. exists chunk. rewrite Hl. done.
  - apply lookup_ge_None in Ep. rewrite lookup_ge_None_2 by lia. destruct (Z.ltb_spec id (2 ^ 63)).
    + rewrite (proj2 (Z.leb_gt _ _)) by lia. by eexists.
    + rewrite (proj2 (Z.leb_le _ _)) by lia. by eexists.
Qed.
End Genesis.

(** ** Status *)

Section Status.
Context {T : Tendermint} {W : Wire} {K : KVStore} {VI : TmValidatorInfo} (info : NodeInfo).

(** [Status] writes nothing to the database, but it sets the heights of the running store to
    those of the saved state. *)
Lemma Status_store s :
  let s' := (Status info s).2 in
  s' = s \/ exists state, LoadState s = (Ok state, s') /\ s' = with_base (st_BaseHeight state) (with_height (st_LastStoreHeight state) s).
Proof.
  cbn zeta. unfold Status, bind, get, lift, wrap, ret, fail.
  destruct (result_wrap _ (LoadBlock s (Height s))) as [latest|e|m]; [|by left..].
  destruct (result_wrap _ (LoadValidators s _)) as [vals|e|m]; [|by left..]. destruct (vs_GetByAddress _ _); [|by left].
  destruct (LoadState s) as [r s'] eqn:E.
  assert (H : s' = s /\ is_ok r = false \/ exists state, r = Ok state /\ s' = with_base (st_BaseHeight state) (with_height (st_LastStoreHeight state) s)).
  { revert E. unfold LoadState. destruct (kv_get (ds_db s) getStateKey) as [blob|e|m]; [|intros [= <- <-]; by left..].
    unfold bind, lift, modify, ret. destruct (result_wrap _ (state_unmarshal blob)) as [pb|e|m]; [|intros [= <- <-]; by left..].
    destruct (result_wrap _ _) as [state|e|m]; intros [= <- <-]; [|by left..]. right. by exists state. }
  destruct H as [[-> Hr]|(state & -> & ->)]; [left; by destruct r|]. right. by exists state.
Qed.
End Status.
