(* ===== verification/RPCRuns.v ===== *)
(** * RPCRuns: the RPC client on concrete nodes *)
From stdpp Require Import base gmap strings vector sorting numbers list.
From S2P Require Import Prelude Strconv KVStore Types Serialization Concrete Store StorePrune StoreSpec Conv Executor Manager ManagerLoops ConcreteNode TxCache CList Mempool MempoolInv MempoolSpec MempoolRuns Indexer IndexerSpec TxIndex TxIndexSpec BlockIndex BlockIndexSpec IndexerService IndexRuns Node HealthSpec RPC RPCSpec.

(** ** Searching *)

Definition toy_parser : QueryParser :=
  {| query := list Condition; query_New s := if String.eqb s "payments" then Ok big_payments else Err (New "parse error"); query_Conditions q := Ok q |}.
Definition toy_merkle : Merkle := {| merkle_Proof := unit; ProofsFromByteSlices bzs := ([], (fun _ => tt) <$> bzs) |}.

#[local] Existing Instance toy_parser.
#[local] Existing Instance toy_merkle.
#[local] Existing Instance toy_tx_wire.
#[local] Existing Instance toy_order.
#[local] Existing Instance insertion_order.

Lemma tx_search_pages_witness :
  exists l, l ≡ₚ [tx_a] /\ StronglySorted (fun a b => tx_desc a b = true) l /\
    forall perPage, let p := per_page perPage in let pages := num_pages (length l) p in
      concat (nth_page l p <$> seq 0 pages) = l /\
      forall prove page, TxSearch (KI := index_store) tx_index "payments" prove page perPage "desc" None =
        (if bool_decide (page_number page <= Z.of_nat pages)%Z
         then Ok {| rts_Txs := to_ResultTx <$> nth_page l p (Z.to_nat (page_number page - 1)); rts_TotalCount := Z.of_nat (length l) |}
         else Err (New "page should be within range"), None).
Proof.
  refine (tx_search_pages (K := index_store) chain_txs (prefix block_events) tx_index big_payments _ chain_wf tx_index_indexed big_payments_plain _
            "payments" big_payments "desc" tx_desc eq_refl eq_refl eq_refl eq_refl).
  - by_eval.
  - apply big_payments_apart.
Defined.

(** ** Blocks *)

Definition toy_tmblock : TmBlock := {| abci_block_hash b := ah_DataHash (ab_Header b); abci_block_size b := 0%Z |}.
#[local] Existing Instance toy.
#[local] Existing Instance toy_wire.
#[local] Existing Instance MemKV.
#[local] Existing Instance toy_tmblock.

(** A store with one block, and the same store with a height whose block is gone. *)
Definition one_block : DefaultStore := (SetHeight 1 (SaveBlock block1 (toy_commit 1) None empty_store).2).
Definition lost_block : DefaultStore := SetHeight 2 one_block.

Lemma blockchain_info_range_witness :
  (exists metas, BlockchainInfo one_block 0 0 = Ok {| rbi_LastHeight := 1; rbi_BlockMetas := metas |} /\
     Forall2 (fun b m => ToABCIBlockMeta b = Ok m) [block1] metas).
Proof.
  destruct (blockchain_info_range one_block 0 0 ltac:(split; vm_compute; congruence)) as (_ & _ & H).
  destruct H as (_ & _ & H & _); [lia|lia|vm_compute; congruence|].
  apply H. assert (E : reverse (seqZ (lower_height (Height one_block) 0 0) (upper_height (Height one_block) 0 - lower_height (Height one_block) 0 0 + 1)) = [1%Z])
    by (vm_compute; reflexivity).
  rewrite E. constructor; [vm_compute; reflexivity|constructor].
Defined.

(** One lost block makes the query for the whole range fail. *)
Example blockchain_info_lost : is_ok (BlockchainInfo lost_block 0 0) = false.
Proof. vm_compute. reflexivity. Qed.

(** A proof for a transaction whose block is gone panics. *)
Example tx_proof_panics :
  Tx_rpc (KI := index_store) lost_block tx_index (result_hash tx_b) true = Panic "nil pointer dereference" /\
  is_ok (Tx_rpc (KI := index_store) lost_block tx_index (result_hash tx_b) false) = true.
Proof. vm_compute. done. Qed.

(** ** Broadcasting *)

(** A network that does not take messages. *)
Definition dead_net : ClientNet := {|
  net := unit;
  net_GossipTx tx := fail (New "no peers");
  cb_NumClients _ := 0%Z;
  cb_NumClientSubscriptions _ _ := 0%Z;
  cb_SubscribeTx _ _ := ret tt;
  cb_UnsubscribeTx _ _ := ret tt;
  cb_WaitTx _ := ret TxTimedOut;
|}.

(** One that records what it is given. *)
Definition open_net : ClientNet := {|
  net := list Tx;
  net_GossipTx tx := modify (cons tx);
  cb_NumClients _ := 0%Z;
  cb_NumClientSubscriptions _ _ := 0%Z;
  cb_SubscribeTx _ _ := ret tt;
  cb_UnsubscribeTx _ _ := ret tt;
  cb_WaitTx _ := ret TxTimedOut;
|}.

Section Sent.
#[local] Existing Instance dead_net.

Definition fresh_client : ClientState :=
  {| cs_mempool := NewTxMempool roomy_cfg (false : @mconn toy_conn) 1 0; cs_net := tt : @net dead_net |}.

Definition accepted_response : ResponseCheckTx := (conn_CheckTx [x01] false (false : @mconn toy_conn)).1.
Definition checked : TxMempool := (CheckTx [x01] 0 (cs_mempool fresh_client)).2.

Lemma roomy_ok : cfg_ok roomy_cfg.
Proof. split; simpl; unfold MaxLength; lia. Qed.

Lemma gossip_failure_blocks_retry_witness :
  exists s' s'', BroadcastTxSync [x01] fresh_client = (Ok (inl (BroadcastErr (Wrap "failed to gossip tx" (New "no peers")))), s') /\
    tm_txByKey (cs_mempool s') !! tx_key [x01] = None /\
    BroadcastTxSync [x01] s' = (Ok (inl (BroadcastCheckTx ErrTxInCache)), s'').
Proof.
  refine (gossip_failure_blocks_retry [x01] fresh_client [] accepted_response checked (New "no peers") tt
            (cache_Push [x01] (tm_cache checked)).2 roomy_ok _ _ _ _ _ _ _).
  - apply mk_mempool_inv.
  - split; vm_compute; congruence.
  - assert (E : (CheckTx [x01] 0 (cs_mempool fresh_client)).1 = Ok (inr accepted_response)) by (vm_compute; reflexivity).
    unfold checked. by destruct (CheckTx [x01] 0 (cs_mempool fresh_client)) as [r t]; simpl in E; subst.
  - reflexivity.
  - reflexivity.
  - vm_compute. reflexivity.
  - assert (E : (cache_Push [x01] (tm_cache checked)).1 = false) by (vm_compute; reflexivity).
    by destruct (cache_Push [x01] (tm_cache checked)) as [b c']; simpl in E; subst.
Defined.
End Sent.

Section Refused.
#[local] Existing Instance open_net.

(** A full mempool with transactions of higher priorities. *)
Definition full_client : ClientState :=
  {| cs_mempool := (for_each mempool_step [OpCheckTx [x02] 0; OpCheckTx [x03] 0; OpCheckTx [x04] 0]
                      (NewTxMempool roomy_cfg (false : @mconn toy_conn) 1 0)).2;
     cs_net := [] : @net open_net |}.

(** A transaction for which the mempool has no room is reported as accepted and gossiped. *)
Example refused_tx_is_gossiped :
  let run := BroadcastTxSync [x01] full_client in
  match run.1 with Ok (inr res) => rbt_Code res = 0%Z | _ => False end /\
  cs_net run.2 = [[x01]] /\ tm_txByKey (cs_mempool run.2) !! tx_key [x01] = None.
Proof. cbv zeta. split_and!; vm_compute; reflexivity. Qed.
End Refused.

(** ** The genesis *)

#[local] Existing Instance toy_json.

Lemma genesis_chunked_roundtrip_witness :
  exists pieces n', concat pieces = lit "{'chain_id':'toy'}" /\
    Forall (fun p => (0 < Z.of_nat (length p) <= genesisChunkSize)%Z) pieces /\
    forall id, is_u64 id -> exists r, GenesisChunked (P := RecordPubSub) id healthy_node = (r, n') /\ GenesisChunked id n' = (r, n') /\
      match pieces !! Z.to_nat id with
      | Some piece => exists chunk, r = Ok {| rgc_ChunkNumber := id; rgc_TotalChunks := Z.of_nat (length pieces); rgc_Data := chunk |} /\
                        base64_DecodeString chunk = Some piece
      | None => if (id <? 2 ^ 63)%Z then exists e, r = Err e else exists msg, r = Panic msg
      end.
Proof.
  refine (genesis_chunked_roundtrip healthy_node toy_genesis (lit "{'chain_id':'toy'}") eq_refl eq_refl eq_refl _ _).
  - discriminate.
  - reflexivity.
Defined.
