(* ===== verification/JSONRPC.v ===== *)
(** * JSONRPC: the handlers of the RPC server

    Models rpc/json (types.go, service.go, handler.go, ws.go): the arguments of the methods
    and their decoding from the query of a URL by reflection, the table of methods, the two
    ways to call one (as a URI and as a JSON-RPC request over HTTP or a websocket), and the
    answers.  The client behind the methods is the interface [RpcClient]; the codec of
    gorilla/rpc, the JSON encoders and the websocket connection are parameters. *)
From stdpp Require Import base gmap strings vector sorting numbers list.
From S2P Require Import Prelude Strconv Url.

(** ** Argument types *)

(** The kinds of the fields of the argument structs: [StrInt] and [StrInt64] are of kind
    int and int64, [types.Tx] and [HexBytes] are byte slices, [types.Evidence] is an
    interface. *)
Inductive Kind := KBool | KInt | KInt64 | KString | KByteSlice | KInterface.
(** A field with its json tag. *)
Record StructField := { sf_Tag : bytes; sf_Kind : Kind }.
Definition field (tag : string) (k : Kind) : StructField := {| sf_Tag := lit tag; sf_Kind := k |}.

Section Args.
Context {evidence : Type}.

Definition kind_type (k : Kind) : Type :=
  match k with
  | KBool => bool
  | KInt | KInt64 => Z
  | KString => string
  | KByteSlice => bytes
  | KInterface => option evidence
  end.

Definition kind_zero (k : Kind) : kind_type k :=
  match k with
  | KBool => false
  | KInt | KInt64 => 0%Z
  | KString => ""
  | KByteSlice => []
  | KInterface => None
  end.

(** A struct, field by field. *)
Fixpoint args_type (fields : list StructField) : Type :=
  match fields with
  | [] => unit
  | f :: fields => kind_type (sf_Kind f) * args_type fields
  end.

(** [reflect.New(argsType)]. *)
Fixpoint args_zero (fields : list StructField) : args_type fields :=
  match fields with
  | [] => tt
  | f :: fields => (kind_zero (sf_Kind f), args_zero fields)
  end.
End Args.
#[global] Arguments kind_type : clear implicits.
#[global] Arguments args_type : clear implicits.

Definition subscribeArgs := [field "query" KString].
Definition unsubscribeArgs := [field "query" KString].
Definition unsubscribeAllArgs : list StructField := [].
Definition healthArgs : list StructField := [].
Definition statusArgs : list StructField := [].
Definition netInfoArgs : list StructField := [].
Definition blockchainInfoArgs := [field "minHeight" KInt64; field "maxHeight" KInt64].
Definition genesisArgs : list StructField := [].
Definition genesisChunkedArgs := [field "chunk" KInt].
Definition blockArgs := [field "height" KInt64].
Definition blockByHashArgs := [field "hash" KByteSlice].
Definition blockResultsArgs := [field "height" KInt64].
Definition commitArgs := [field "height,omitempty" KInt64].
Definition checkTxArgs := [field "tx" KByteSlice].
Definition txArgs := [field "hash" KByteSlice; field "prove" KBool].
Definition txSearchArgs :=
  [field "query" KString; field "prove" KBool; field "page" KInt; field "per_page" KInt; field "order_by" KString].
Definition blockSearchArgs := [field "query" KString; field "page" KInt; field "per_page" KInt; field "order_by" KString].
Definition validatorsArgs := [field "height" KInt64; field "page" KInt; field "per_page" KInt].
Definition dumpConsensusStateArgs : list StructField := [].
Definition getConsensusStateArgs : list StructField := [].
Definition consensusParamsArgs := [field "height" KInt64].
Definition unconfirmedTxsArgs := [field "limit" KInt].
Definition numUnconfirmedTxsArgs : list StructField := [].
Definition broadcastTxCommitArgs := [field "tx" KByteSlice].
Definition broadcastTxSyncArgs := [field "tx" KByteSlice].
Definition broadcastTxAsyncArgs := [field "tx" KByteSlice].
Definition ABCIQueryArgs := [field "path" KString; field "data" KByteSlice; field "height" KInt64; field "prove" KBool].
Definition ABCIInfoArgs : list StructField := [].
Definition broadcastEvidenceArgs := [field "evidence" KInterface].

(** ** Integers in JSON *)

(** What [json.Unmarshal] stores in an empty interface: a number is a float64. *)
Inductive json_value :=
| JNull
| JBool (b : bool)
| JFloat64 (literal : bytes)
| JString (s : bytes)
| JArray (l : list json_value)
| JObject (l : list (bytes * json_value)).

(** The cases [int] and [int64] of the switch have no value to match. *)
Definition unmarshalStrInt64 (json_Unmarshal : bytes -> result json_value) (b : bytes) : result Z :=
  try! i := json_Unmarshal b in
  match i with
  | JString v => ParseInt (cs v)
  | _ => Err (New "json: unsupported value")
  end.

(** ** Decoding a query by reflection *)

Section Decode.
Context {evidence : Type}.
#[local] Abbreviation kind_type := (kind_type evidence).
#[local] Abbreviation args_type := (args_type evidence).

(** [strings.Split(tag, ",")[0]] and [strings.Contains(tag, "omitempty")]. *)
Definition comma : byte := x2c.
Definition field_name (f : StructField) : bytes := (Cut comma (sf_Tag f)).1.
Fixpoint Contains (s sub : bytes) : bool :=
  bool_decide (sub `prefix_of` s) || match s with [] => false | _ :: s => Contains s sub end.
Definition isRequired (f : StructField) : bool := negb (Contains (sf_Tag f) (lit "omitempty")).

Definition setBoolParam (rawVal : bytes) : result bool := ParseBool rawVal.
Definition setIntParam (rawVal : bytes) : result Z := ParseInt (cs rawVal).
Definition setByteSliceParam (rawVal : bytes) : result bytes := hex_DecodeString rawVal.

(** The switch on the kind of a field. *)
Definition set_field (k : Kind) (rawVal : bytes) : result (kind_type k) :=
  match k with
  | KBool => setBoolParam rawVal
  | KInt | KInt64 => setIntParam rawVal
  | KString => Ok (String.string_of_list_byte rawVal)
  | KByteSlice => setByteSliceParam rawVal
  | KInterface => Err (New "unknown type")
  end.

Definition E_PARSE : Z := -32700.
Definition E_INVALID_REQ : Z := -32600.
Definition E_NO_METHOD : Z := -32601.
Definition E_INTERNAL : Z := -32603.
Definition StatusOK : Z := 200.
Definition StatusBadRequest : Z := 400.
Definition StatusInternalServerError : Z := 500.
Definition StatusServiceUnavailable : Z := 503.

(** A request refused before the method is called, with its code. *)
Definition refusal : Type := Z * error.

(** [for i := 0; i < NumField(); i++]: the fields in turn, until one is refused. *)
Fixpoint decode_fields (fields : list StructField) (values : Values) : result (refusal + args_type fields) :=
  match fields with
  | [] => Ok (inr tt)
  | f :: fields =>
      let name := field_name f in
      if isRequired f && negb (Has values name) then Ok (inl (E_INVALID_REQ, New "missing param"))
      else
        match (if isRequired f || Has values name then set_field (sf_Kind f) (Get values name) else Ok (kind_zero (sf_Kind f))) with
        | Err e => Ok (inl (E_PARSE, Wrap "failed to parse param" e))
        | Panic m => Panic m
        | Ok v =>
            try! rest := decode_fields fields values in
            match rest with
            | inl refused => Ok (inl refused)
            | inr args => Ok (inr (v, args))
            end
        end
  end.
End Decode.

(** ** The service *)

(** A request: where it comes from, the query of its URL and its body. *)
Record Request := { r_RemoteAddr : string; r_Path : bytes; r_RawQuery : bytes; r_Body : bytes }.

(** The client that the methods call (rpc/client), with the event bus it embeds, the query
    parser, and the JSON encoding of its results. *)
Class RpcClient := {
  client : Type;
  evidence : Type;
  any : Type;
  tmquery : Type;
  subscription : Type;
  tmquery_New : string -> result tmquery;
  c_IsSubscriptionAllowed : string -> M client unit;
  c_EventBus_Subscribe : string -> tmquery -> Z -> M client subscription;
  c_EventBus_UnsubscribeAll : string -> M client unit;
  c_ResultSubscribe : any;
  c_emptyResult : any;
  c_Unsubscribe : string -> string -> M client unit;
  c_UnsubscribeAll : string -> M client unit;
  c_Health : M client any;
  c_Status : M client any;
  c_NetInfo : M client any;
  c_BlockchainInfo : Z -> Z -> M client any;
  c_Genesis : M client any;
  c_GenesisChunked : Z -> M client any;
  c_Block : option Z -> M client any;
  c_BlockByHash : bytes -> M client any;
  c_BlockResults : option Z -> M client any;
  c_Commit : option Z -> M client any;
  c_CheckTx : bytes -> M client any;
  c_Tx : bytes -> bool -> M client any;
  c_TxSearch : string -> bool -> option Z -> option Z -> string -> M client any;
  c_BlockSearch : string -> option Z -> option Z -> string -> M client any;
  c_Validators : option Z -> option Z -> option Z -> M client any;
  c_DumpConsensusState : M client any;
  c_ConsensusState : M client any;
  c_ConsensusParams : option Z -> M client any;
  c_UnconfirmedTxs : option Z -> M client any;
  c_NumUnconfirmedTxs : M client any;
  c_BroadcastTxCommit : bytes -> M client any;
  c_BroadcastTxSync : bytes -> M client any;
  c_BroadcastTxAsync : bytes -> M client any;
  c_ABCIQueryWithOptions : string -> bytes -> Z -> bool -> M client any;
  c_ABCIInfo : M client any;
  c_BroadcastEvidence : option evidence -> M client any;
  tmjson_Marshal : any -> result bytes;
}.

Section Service.
Context {C : RpcClient}.
#[local] Abbreviation args_type := (args_type evidence).

(** The goroutine of a subscription: what it listens to and where it answers.  A websocket
    connection is known by its number; [None] is the nil connection of plain HTTP. *)
Record SubRoutine := { sr_sub : subscription; sr_query : string; sr_ws : option nat; sr_id : bytes }.

Record Service := { sv_client : client; sv_subs : list SubRoutine }.
Definition on_client {A} (c : M client A) : M Service A :=
  zoom sv_client (fun x s => {| sv_client := x; sv_subs := sv_subs s |}) c.
(** [go func() {...}()]. *)
Definition spawn (r : SubRoutine) : M Service unit :=
  modify (fun s => {| sv_client := sv_client s; sv_subs := sv_subs s ++ [r] |}).

Definition subBufferSize : Z := 100.

Definition service_Subscribe (req : Request) (args : args_type subscribeArgs) (wsConn : option nat) (subscriptionID : bytes) : M Service any :=
  let '(Query, _) := args in
  let addr := r_RemoteAddr req in
  do! wrap "subscription not allowed" (on_client (c_IsSubscriptionAllowed addr)) in
  let! q := lift (result_wrap "failed to parse query" (tmquery_New Query)) in
  let! sub := wrap "failed to subscribe" (on_client (c_EventBus_Subscribe addr q subBufferSize)) in
  do! spawn {| sr_sub := sub; sr_query := Query; sr_ws := wsConn; sr_id := subscriptionID |} in
  ret c_ResultSubscribe.

Definition service_Unsubscribe (req : Request) (args : args_type unsubscribeArgs) : M Service any :=
  let '(Query, _) := args in
  do! wrap "failed to unsubscribe" (on_client (c_Unsubscribe (r_RemoteAddr req) Query)) in
  ret c_emptyResult.
Definition service_UnsubscribeAll (req : Request) (args : args_type unsubscribeAllArgs) : M Service any :=
  do! wrap "failed to unsubscribe all" (on_client (c_UnsubscribeAll (r_RemoteAddr req))) in
  ret c_emptyResult.
Definition service_Health (req : Request) (args : args_type healthArgs) : M Service any := on_client c_Health.
Definition service_Status (req : Request) (args : args_type statusArgs) : M Service any := on_client c_Status.
Definition service_NetInfo (req : Request) (args : args_type netInfoArgs) : M Service any := on_client c_NetInfo.
Definition service_BlockchainInfo (req : Request) (args : args_type blockchainInfoArgs) : M Service any :=
  let '(MinHeight, (MaxHeight, _)) := args in on_client (c_BlockchainInfo MinHeight MaxHeight).
Definition service_Genesis (req : Request) (args : args_type genesisArgs) : M Service any := on_client c_Genesis.
(** [uint(args.ID)]. *)
Definition service_GenesisChunked (req : Request) (args : args_type genesisChunkedArgs) : M Service any :=
  let '(ID, _) := args in on_client (c_GenesisChunked (u64 ID)).
(** The heights and pages are passed as pointers to the fields, never nil. *)
Definition service_Block (req : Request) (args : args_type blockArgs) : M Service any :=
  let '(Height, _) := args in on_client (c_Block (Some Height)).
Definition service_BlockByHash (req : Request) (args : args_type blockByHashArgs) : M Service any :=
  let '(Hash, _) := args in on_client (c_BlockByHash Hash).
Definition service_BlockResults (req : Request) (args : args_type blockResultsArgs) : M Service any :=
  let '(Height, _) := args in on_client (c_BlockResults (Some Height)).
Definition service_Commit (req : Request) (args : args_type commitArgs) : M Service any :=
  let '(Height, _) := args in on_client (c_Commit (Some Height)).
Definition service_CheckTx (req : Request) (args : args_type checkTxArgs) : M Service any :=
  let '(Tx, _) := args in on_client (c_CheckTx Tx).
Definition service_Tx (req : Request) (args : args_type txArgs) : M Service any :=
  let '(Hash, (Prove, _)) := args in on_client (c_Tx Hash Prove).
Definition service_TxSearch (req : Request) (args : args_type txSearchArgs) : M Service any :=
  let '(Query, (Prove, (Page, (PerPage, (OrderBy, _))))) := args in
  on_client (c_TxSearch Query Prove (Some Page) (Some PerPage) OrderBy).
Definition service_BlockSearch (req : Request) (args : args_type blockSearchArgs) : M Service any :=
  let '(Query, (Page, (PerPage, (OrderBy, _)))) := args in
  on_client (c_BlockSearch Query (Some Page) (Some PerPage) OrderBy).
Definition service_Validators (req : Request) (args : args_type validatorsArgs) : M Service any :=
  let '(Height, (Page, (PerPage, _))) := args in on_client (c_Validators (Some Height) (Some Page) (Some PerPage)).
Definition service_DumpConsensusState (req : Request) (args : args_type dumpConsensusStateArgs) : M Service any :=
  on_client c_DumpConsensusState.
Definition service_GetConsensusState (req : Request) (args : args_type getConsensusStateArgs) : M Service any :=
  on_client c_ConsensusState.
Definition service_ConsensusParams (req : Request) (args : args_type consensusParamsArgs) : M Service any :=
  let '(Height, _) := args in on_client (c_ConsensusParams (Some Height)).
Definition service_UnconfirmedTxs (req : Request) (args : args_type unconfirmedTxsArgs) : M Service any :=
  let '(Limit, _) := args in on_client (c_UnconfirmedTxs (Some Limit)).
Definition service_NumUnconfirmedTxs (req : Request) (args : args_type numUnconfirmedTxsArgs) : M Service any :=
  on_client c_NumUnconfirmedTxs.
Definition service_BroadcastTxCommit (req : Request) (args : args_type broadcastTxCommitArgs) : M Service any :=
  let '(Tx, _) := args in on_client (c_BroadcastTxCommit Tx).
Definition service_BroadcastTxSync (req : Request) (args : args_type broadcastTxSyncArgs) : M Service any :=
  let '(Tx, _) := args in on_client (c_BroadcastTxSync Tx).
Definition service_BroadcastTxAsync (req : Request) (args : args_type broadcastTxAsyncArgs) : M Service any :=
  let '(Tx, _) := args in on_client (c_BroadcastTxAsync Tx).
Definition service_ABCIQuery (req : Request) (args : args_type ABCIQueryArgs) : M Service any :=
  let '(Path, (Data, (Height, (Prove, _)))) := args in on_client (c_ABCIQueryWithOptions Path Data Height Prove).
Definition service_ABCIInfo (req : Request) (args : args_type ABCIInfoArgs) : M Service any := on_client c_ABCIInfo.
Definition service_BroadcastEvidence (req : Request) (args : args_type broadcastEvidenceArgs) : M Service any :=
  let '(Evidence, _) := args in on_client (c_BroadcastEvidence Evidence).

(** ** Methods *)

(** A method of two arguments, or of four with the websocket connection and the id. *)
Inductive fn (args : Type) :=
| Fn2 (f : Request -> args -> M Service any)
| Fn4 (f : Request -> args -> option nat -> bytes -> M Service any).
#[global] Arguments Fn2 {args} f.
#[global] Arguments Fn4 {args} f.

Record method := { m_argsType : list StructField; m_fn : fn (args_type m_argsType) }.
Definition m_ws (m : method) : bool := match m_fn m with Fn2 _ => false | Fn4 _ => true end.
Definition newMethod {fields} (f : fn (args_type fields)) : method := {| m_argsType := fields; m_fn := f |}.

(** [m.Call]: reflection panics when the number of arguments is not that of the method. *)
Definition Call (m : method) (req : Request) (args : args_type (m_argsType m)) (ws : option (option nat * bytes)) : M Service any :=
  match m_fn m, ws with
  | Fn2 f, None => f req args
  | Fn4 f, Some (wsConn, id) => f req args wsConn id
  | Fn2 _, Some _ => panic "reflect: Call with too many input arguments"
  | Fn4 _, None => panic "reflect: Call with too few input arguments"
  end.

Definition methods : list (string * method) :=
  [("subscribe", newMethod (fields := subscribeArgs) (Fn4 service_Subscribe));
   ("unsubscribe", newMethod (fields := unsubscribeArgs) (Fn2 service_Unsubscribe));
   ("unsubscribe_all", newMethod (fields := unsubscribeAllArgs) (Fn2 service_UnsubscribeAll));
   ("health", newMethod (fields := healthArgs) (Fn2 service_Health));
   ("status", newMethod (fields := statusArgs) (Fn2 service_Status));
   ("net_info", newMethod (fields := netInfoArgs) (Fn2 service_NetInfo));
   ("blockchain", newMethod (fields := blockchainInfoArgs) (Fn2 service_BlockchainInfo));
   ("genesis", newMethod (fields := genesisArgs) (Fn2 service_Genesis));
   ("genesis_chunked", newMethod (fields := genesisChunkedArgs) (Fn2 service_GenesisChunked));
   ("block", newMethod (fields := blockArgs) (Fn2 service_Block));
   ("block_by_hash", newMethod (fields := blockByHashArgs) (Fn2 service_BlockByHash));
   ("block_results", newMethod (fields := blockResultsArgs) (Fn2 service_BlockResults));
   ("commit", newMethod (fields := commitArgs) (Fn2 service_Commit));
   ("check_tx", newMethod (fields := checkTxArgs) (Fn2 service_CheckTx));
   ("tx", newMethod (fields := txArgs) (Fn2 service_Tx));
   ("tx_search", newMethod (fields := txSearchArgs) (Fn2 service_TxSearch));
   ("block_search", newMethod (fields := blockSearchArgs) (Fn2 service_BlockSearch));
   ("validators", newMethod (fields := validatorsArgs) (Fn2 service_Validators));
   ("dump_consensus_state", newMethod (fields := dumpConsensusStateArgs) (Fn2 service_DumpConsensusState));
   ("consensus_state", newMethod (fields := getConsensusStateArgs) (Fn2 service_GetConsensusState));
   ("consensus_params", newMethod (fields := consensusParamsArgs) (Fn2 service_ConsensusParams));
   ("unconfirmed_txs", newMethod (fields := unconfirmedTxsArgs) (Fn2 service_UnconfirmedTxs));
   ("num_unconfirmed_txs", newMethod (fields := numUnconfirmedTxsArgs) (Fn2 service_NumUnconfirmedTxs));
   ("broadcast_tx_commit", newMethod (fields := broadcastTxCommitArgs) (Fn2 service_BroadcastTxCommit));
   ("broadcast_tx_sync", newMethod (fields := broadcastTxSyncArgs) (Fn2 service_BroadcastTxSync));
   ("broadcast_tx_async", newMethod (fields := broadcastTxAsyncArgs) (Fn2 service_BroadcastTxAsync));
   ("abci_query", newMethod (fields := ABCIQueryArgs) (Fn2 service_ABCIQuery));
   ("abci_info", newMethod (fields := ABCIInfoArgs) (Fn2 service_ABCIInfo));
   ("broadcast_evidence", newMethod (fields := broadcastEvidenceArgs) (Fn2 service_BroadcastEvidence))].

(** [s.methods[name]]. *)
Fixpoint find_method (name : string) (l : list (string * method)) : option method :=
  match l with
  | [] => None
  | (n, m) :: l => if String.eqb n name then Some m else find_method name l
  end.

(** ** Calling a method by its URI *)

Record response := { resp_Version : string; resp_Result : option bytes; resp_Error : option (Z * error); resp_ID : bytes }.

Definition encodeAndWriteResponse (result : option any) (errResult : option error) (statusCode : Z) : Prelude.result response :=
  let resp r e := {| resp_Version := "2.0"; resp_Result := r; resp_Error := e; resp_ID := lit "-1" |} in
  match errResult, result with
  | Some e, _ => Ok (resp None (Some (statusCode, e)))
  | None, None => Ok (resp (Some (lit "null")) None)
  | None, Some result =>
      match tmjson_Marshal result with
      | Ok bytes => Ok (resp (Some bytes) None)
      | Err e => Ok (resp None (Some (E_INTERNAL, e)))
      | Panic m => Panic m
      end
  end.

Definition newHandler (m : method) (r : Request) : M Service response :=
  let '(values, err) := ParseQuery (r_RawQuery r) in
  match err with
  | Some e => lift (encodeAndWriteResponse None (Some e) E_PARSE)
  | None =>
      let! args := lift (decode_fields (m_argsType m) values) in
      match args with
      | inl (code, e) => lift (encodeAndWriteResponse None (Some e) code)
      | inr args =>
          let! rets := try (Call m r args None) in
          match rets with
          | inl e => lift (encodeAndWriteResponse None (Some e) E_INTERNAL)
          | inr result => lift (encodeAndWriteResponse (Some result) None StatusOK)
          end
      end
  end.

(** ** JSON-RPC requests *)

(** The codec of gorilla/rpc ([json2.NewCodec]): an error of [Method] is its own, with a
    message, or another one. *)
Inductive method_error := Json2Error (Message : string) | OtherError (e : error).
Definition method_err (e : method_error) : error := match e with Json2Error m => New m | OtherError e => e end.

Class RpcCodec := {
  codec_request : Type;
  cr_NewRequest : Request -> codec_request;
  cr_Method : codec_request -> string * option method_error;
  cr_ReadRequest : forall fields, codec_request -> result (args_type fields);
  cr_ID : codec_request -> result bytes;
}.
Context {CD : RpcCodec}.

(** What is written to the client: nothing, or by [WriteError] or [WriteResponse] of the
    codec. *)
Inductive Reply :=
| NoReply
| WriteError (status : Z) (e : option error)
| WriteResponse (raw : bytes).

Definition serveJSONRPCforWS (r : Request) (wsConn : option nat) : M Service Reply :=
  let codecReq := cr_NewRequest r in
  let '(name, err) := cr_Method codecReq in
  match err with
  | Some err =>
      match err with
      | Json2Error Message =>
          if String.eqb name "" && String.eqb Message "EOF" then ret NoReply
          else ret (WriteError StatusBadRequest (Some (method_err err)))
      | OtherError e => ret (WriteError StatusBadRequest (Some e))
      end
  | None =>
      match find_method name methods with
      | None => ret (WriteError E_NO_METHOD None)
      | Some methodSpec =>
          match cr_ReadRequest (m_argsType methodSpec) codecReq with
          | Panic m => panic m
          | Err errRead => ret (WriteError StatusBadRequest (Some errRead))
          | Ok args =>
              let call ws :=
                let! rets := try (Call methodSpec r args ws) in
                match rets with
                | inl errResult => ret (WriteError StatusBadRequest (Some errResult))
                | inr result =>
                    match tmjson_Marshal result with
                    | Ok raw => ret (WriteResponse raw)
                    | Err err => ret (WriteError StatusInternalServerError (Some err))
                    | Panic m => panic m
                    end
                end in
              if m_ws methodSpec then
                match cr_ID codecReq with
                | Ok rpcID => call (Some (wsConn, rpcID))
                | Err err => ret (WriteError StatusBadRequest (Some err))
                | Panic m => panic m
                end
              else call None
          end
      end
  end.

Definition serveJSONRPC (r : Request) : M Service Reply := serveJSONRPCforWS r None.

(** ** Websockets *)

(** [rpctypes.JSONRPCIntID] and [JSONRPCStringID]. *)
Inductive rpc_id := IntID (z : Z) | StringID (s : bytes).

(** The events of a subscription and the encoding of the message that carries one. *)
Class EventJSON := { event : Type; event_json : rpc_id -> string -> event -> option bytes }.
Context {EJ : EventJSON}.

(** What is sent on the queue of a connection. *)
Inductive Frame := ReplyFrame (r : Reply) | EventFrame (b : bytes).

(** One message of a subscription in its goroutine: the connection and the frame. *)
Definition sub_message (r : SubRoutine) (msg : event) : option (nat * Frame) :=
  let id := match ParseInt (cs (sr_id r)) with Ok z => IntID z | _ => StringID (sr_id r) end in
  match event_json id (sr_query r) msg, sr_ws r with
  | Some jsonBytes, Some ws => Some (ws, EventFrame jsonBytes)
  | _, _ => None
  end.

(** What [NextReader] returns: a message of text with its body, another one, the end of the
    connection as a [CloseError], or another error. *)
Inductive WsInput := WsText (body : bytes) | WsBinary | WsCloseError | WsError (e : error).

(** One iteration of the loop of [wsHandler] for connection [ws] from [addr]: the frames
    for the queue, and whether the loop goes on. *)
Definition ws_step (ws : nat) (addr : string) (i : WsInput) : M Service (list Frame * bool) :=
  match i with
  | WsCloseError =>
      do! try (on_client (c_EventBus_UnsubscribeAll addr)) in
      ret ([], false)
  | WsError _ => ret ([], false)
  | WsBinary => ret ([], true)
  | WsText body =>
      let req := {| r_RemoteAddr := addr; r_Path := []; r_RawQuery := []; r_Body := body |} in
      let! reply := serveJSONRPCforWS req (Some ws) in
      ret ([ReplyFrame reply], true)
  end.

(** The loop, over the messages that arrive. *)
Fixpoint wsHandler (ws : nat) (addr : string) (inputs : list WsInput) : M Service (list Frame) :=
  match inputs with
  | [] => ret []
  | i :: inputs =>
      let! (frames, go_on) := ws_step ws addr i in
      if go_on then let! rest := wsHandler ws addr inputs in ret (frames ++ rest) else ret frames
  end.

(** ** Routing *)

(** The answer to an HTTP request. *)
Inductive HttpReply :=
| CodecReply (r : Reply)
| UriReply (r : response)
| Upgrade                                     (* to a websocket *)
| TextReply (status : Z) (body : error).

(** [ServeHTTP]: the mux looks for the path among the registered ones, [/] takes the
    rest. *)
Definition ServeHTTP (r : Request) : M Service HttpReply :=
  if decide (r_Path r = lit "/websocket") then ret Upgrade
  else
    match r_Path r with
    | x2f :: name =>
        match find_method (String.string_of_list_byte name) methods with
        | Some m => let! resp := newHandler m r in ret (UriReply resp)
        | None => let! reply := serveJSONRPC r in ret (CodecReply reply)
        end
    | _ => let! reply := serveJSONRPC r in ret (CodecReply reply)
    end.
End Service.
