(* ===== verification/RPCServer.v ===== *)
(** * RPCServer: the server in front of the handlers

    Models rpc/server.go, rpc/middleware and rpc/sharedtypes: the health status of the
    server, the middleware that answers 503 while the node is unhealthy, the registry of
    middlewares, and the handler that [startRPC] serves.  Theorems: requests follow the
    health of the base layers; a method called by its URI gets the arguments that the
    client encoded; what the handlers refuse. *)
From stdpp Require Import base gmap strings vector sorting numbers list.
From S2P Require Import Prelude Strconv Url Types Node HealthSpec JSONRPC.

(** ** Health status of the server *)

Record HealthStatus := { hs_IsHealthy : bool; hs_Error : option error }.

(** The statuses of the servers of the process, known by their numbers, and the service. *)
Record ServerState `{RpcClient} := { ss_health : list HealthStatus; ss_service : Service }.

Section Server.
Context {C : RpcClient} {CD : RpcCodec} {EJ : EventJSON}.

Definition HealthStatus_Set (p : nat) (isHealthy : bool) (err : option error) : M ServerState unit :=
  modify (fun s => {| ss_health := <[p := {| hs_IsHealthy := isHealthy; hs_Error := err |}]> (ss_health s); ss_service := ss_service s |}).
Definition HealthStatus_Get (p : nat) : M ServerState (bool * option error) :=
  let! h := read (fun s => deref (ss_health s !! p)) in
  ret (hs_IsHealthy h, hs_Error h).

(** [NewServer]: a new status, healthy. *)
Definition NewServer : M ServerState nat :=
  let! s := get in
  do! put {| ss_health := ss_health s ++ [{| hs_IsHealthy := true; hs_Error := None |}]; ss_service := ss_service s |} in
  ret (length (ss_health s)).

Definition healthStatusEventCallback_server (p : nat) (eventData : EventDataHealthStatus) : M ServerState unit :=
  HealthStatus_Set p (eh_Healthy eventData) (eh_Error eventData).

(** ** Middlewares *)

Definition Handler : Type := Request -> M ServerState HttpReply.
Definition HandlerFunc : Type := Handler -> Handler.
Record Middleware := { mw_Handler : HandlerFunc }.

Definition status (healthStatus : nat) (h : Handler) : Handler := fun r =>
  let! (isHealthy, err) := HealthStatus_Get healthStatus in
  if negb isHealthy then
    let err := match err with None => New "node is unhealthy" | Some e => Wrap "node is unhealthy" e end in
    ret (TextReply StatusServiceUnavailable err)
  else h r.

Definition NewStatusMiddleware (healthStatus : nat) : Middleware := {| mw_Handler := status healthStatus |}.

(** The registry is one for the process. *)
Abbreviation Registry := (list Middleware).
Definition Register (r : Registry) (m : Middleware) : Registry := r ++ [m].
Definition GetRegistered (r : Registry) : list Middleware := r.

(** [for i := len(m) - 1; i >= 0; i--]: the first registered is the outermost. *)
Definition Handle (r : Registry) (h : Handler) : Handler :=
  foldl (fun finalHandler m => mw_Handler m finalHandler) h (reverse (GetRegistered r)).

(** ** Starting the server *)

Definition json_handler : Handler := fun r =>
  zoom ss_service (fun sv s => {| ss_health := ss_health s; ss_service := sv |}) (ServeHTTP r).

(** [startRPC]: what is served, if anything, and the registry.  [net.Listen] and the CORS
    handler, if enabled, are parameters. *)
Definition startRPC (ListenAddress : bytes) (net_Listen : bytes -> bytes -> result unit) (cors : option HandlerFunc)
    (healthStatus : nat) (reg : Registry) : result (option Handler * Registry) :=
  if decide (ListenAddress = []) then Ok (None, reg)
  else
    match cut_at (lit "://") ListenAddress with
    | None => Err (New "invalid RPC listen address: expecting tcp://host:port")
    | Some (proto, addr) =>                   (* [strings.SplitN(ListenAddress, ..., 2)] *)
        try! _ := net_Listen proto addr in
        let handler := match cors with None => json_handler | Some c => c json_handler end in
        let reg := Register reg (NewStatusMiddleware healthStatus) in
        Ok (Some (Handle reg handler), reg)
    end.

(** ** Lemmas: middlewares *)

Lemma Handle_cons m r h : Handle (m :: r) h = mw_Handler m (Handle r h).
Proof. unfold Handle, GetRegistered. rewrite reverse_cons, foldl_app. done. Qed.

Lemma status_run p h r s hs :
  ss_health s !! p = Some hs ->
  status p h r s = if hs_IsHealthy hs then h r s
                   else (Ok (TextReply StatusServiceUnavailable
                          (match hs_Error hs with None => New "node is unhealthy" | Some e => Wrap "node is unhealthy" e end)), s).
Proof. intros Hp. unfold status, HealthStatus_Get, bind, read. rewrite Hp. cbn. by destruct (hs_IsHealthy hs). Qed.

(** Behind the middlewares of several servers a request is handled when all of them are
    healthy. *)
Lemma Handle_all_healthy ps h r s :
  Forall (fun p => exists hs, ss_health s !! p = Some hs /\ hs_IsHealthy hs = true) ps ->
  Handle (NewStatusMiddleware <$> ps) h r s = h r s.
Proof.
  induction ps as [|p ps IH]; intros Hps; [done|]. apply Forall_cons in Hps as [(hs & Hp & Hh) Hps].
  rewrite fmap_cons, Handle_cons. cbn [mw_Handler NewStatusMiddleware]. rewrite (status_run p _ r s hs Hp), Hh. by apply IH.
Qed.

Lemma Handle_unhealthy ps p h r s hs :
  p ∈ ps -> Forall (fun p => is_Some (ss_health s !! p)) ps -> ss_health s !! p = Some hs -> hs_IsHealthy hs = false ->
  exists e, Handle (NewStatusMiddleware <$> ps) h r s = (Ok (TextReply StatusServiceUnavailable e), s).
Proof.
  intros Hin Hall Hp Hh. induction ps as [|q ps IH]; [by apply elem_of_nil in Hin|].
  apply Forall_cons in Hall as [[hq Hq] Hall]. rewrite fmap_cons, Handle_cons. cbn [mw_Handler NewStatusMiddleware].
  rewrite (status_run q _ r s hq Hq). destruct (hs_IsHealthy hq) eqn:E; [|by eexists].
  apply IH; [|done]. apply elem_of_cons in Hin as [->|Hin]; [congruence|done].
Qed.

(** ** Requests follow the health of the layers *)

Section Follow.
Context {J : GenesisJSON} (p : nat).
#[local] Existing Instance RecordPubSub.

(** A message of a layer, handled by the node, and what the node publishes, by the server. *)
Definition rpc_health_chain (msg : LayerMsg) : M (Node * ServerState) unit := fun '(n, s) =>
  match healthStatusEventCallback_node msg n with
  | (Ok _, n') =>
      match for_each (healthStatusEventCallback_server p) (drop (length (n_pubsubServer n)) (n_pubsubServer n')) s with
      | (r, s) => (r, (n', s))
      end
  | (Err e, n') => (Err e, (n', s))
  | (Panic m, n') => (Panic m, (n', s))
  end.

(** The server shows the health of both layers. *)
Definition shows_health (bl : BaseLayersHealthStatus) (s : ServerState) : Prop :=
  exists hs, ss_health s !! p = Some hs /\ hs_IsHealthy hs = all_healthy bl.

Lemma rpc_health_chain_run msg n s :
  says_why msg -> shows_health (n_baseLayersHealthStatus n) s ->
  exists n' s', rpc_health_chain msg (n, s) = (Ok tt, (n', s')) /\
    n_baseLayersHealthStatus n' = reported (n_baseLayersHealthStatus n) msg /\
    ss_service s' = ss_service s /\ shows_health (n_baseLayersHealthStatus n') s'.
Proof.
  intros Hw (hs & Hp & Hh). destruct (health_callback_run msg n) as (news & Hrun & Hnews). unfold rpc_health_chain. rewrite Hrun.
  cbn [n_pubsubServer set_pubsub]. rewrite drop_app_length. specialize (Hnews Hw). simpl in Hnews.
  destruct Hnews as [[err ->]|[-> Heq]]; cbn [for_each]; do 2 eexists; (split_and!; [reflexivity|done|done|]).
  - eexists. split; [cbn; apply list_lookup_insert_eq; by eapply lookup_lt_Some|done].
  - exists hs. split; [done|]. simpl. by rewrite Heq.
Qed.

Lemma rpc_health_chain_runs msgs n s :
  Forall says_why msgs -> shows_health (n_baseLayersHealthStatus n) s ->
  exists n' s', for_each rpc_health_chain msgs (n, s) = (Ok tt, (n', s')) /\ ss_service s' = ss_service s /\
    shows_health (foldl reported (n_baseLayersHealthStatus n) msgs) s'.
Proof.
  revert n s. induction msgs as [|msg msgs IH]; intros n s Hwhy Hs; cbn [for_each foldl]; [by do 2 eexists|].
  apply Forall_cons_1 in Hwhy as [Hw Hwhy].
  destruct (rpc_health_chain_run msg n s Hw Hs) as (n1 & s1 & H1 & Hb & Hsv & Hs1). unfold bind. rewrite H1.
  destruct (IH n1 s1 Hwhy Hs1) as (n' & s' & Hr & Hsv' & Hs'). rewrite Hr. do 2 eexists.
  split_and!; [done|congruence|by rewrite <- Hb].
Qed.
End Follow.

(** C18: the RPC server follows the health of the base layers: when it is started on a valid
    address, as the first one of the process, then after any reports of the layers in which
    an unhealthy layer says why, a request reaches the handlers when both layers were
    healthy in their last report, and is answered with status 503 otherwise, whatever it
    asks for and without touching the service. *)
Theorem rpc_follows_health {J : GenesisJSON} addr listen h reg msgs n s s0 p :
  NewServer s0 = (Ok p, s) -> startRPC addr listen None p [] = Ok (Some h, reg) ->
  n_baseLayersHealthStatus n = start_health -> Forall says_why msgs ->
  exists n' s', for_each (rpc_health_chain p) msgs (n, s) = (Ok tt, (n', s')) /\ ss_service s' = ss_service s0 /\
    forall r, if all_healthy (foldl reported start_health msgs) then h r s' = json_handler r s'
              else exists e, h r s' = (Ok (TextReply StatusServiceUnavailable e), s').
Proof.
  intros Hnew Hstart Hn Hwhy. unfold NewServer, bind, get, put in Hnew. cbn in Hnew. injection Hnew as Hp Hs.
  assert (Hh : h = Handle (NewStatusMiddleware <$> [p]) json_handler).
  { unfold startRPC in Hstart. destruct (decide (addr = [])); [done|]. destruct (cut_at (lit "://") addr) as [[proto a]|]; [|done].
    destruct (listen proto a); [|done..]. cbn in Hstart. by injection Hstart as <- _. }
  destruct (rpc_health_chain_runs p msgs n s Hwhy) as (n' & s' & Hr & Hsv & hs & Hl & Hhs).
  { exists {| hs_IsHealthy := true; hs_Error := None |}. rewrite Hn, <- Hs, <- Hp. split; [|done]. cbn. by apply list_lookup_middle. }
  rewrite Hn in Hhs. exists n', s'. split_and!; [done|by rewrite Hsv, <- Hs|]. intros r. rewrite Hh, <- Hhs.
  destruct (hs_IsHealthy hs) eqn:E.
  - apply Handle_all_healthy. apply Forall_singleton. by exists hs.
  - apply (Handle_unhealthy [p] p _ r s' hs); [by left|by apply Forall_singleton; exists hs|done|done].
Qed.
End Server.

(** ** Calling a method by its URI *)

Section Uri.
Context {C : RpcClient} {CD : RpcCodec} {EJ : EventJSON}.
#[local] Abbreviation args_type := (args_type evidence).
#[local] Abbreviation kind_type := (kind_type evidence).

(** How a client writes a value of each kind; there is no text for an interface. *)
Definition kind_text (k : Kind) : kind_type k -> option bytes :=
  match k with
  | KBool => fun b => Some (FormatBool b)
  | KInt | KInt64 => fun z => Some (dec_bytes z)
  | KString => fun s => Some (String.list_byte_of_string s)
  | KByteSlice => fun b => Some (hex_EncodeToString b)
  | KInterface => fun _ => None
  end.

(** Integers are within 64 bits. *)
Definition in_range (k : Kind) : kind_type k -> Prop :=
  match k with KInt | KInt64 => is_i64 | _ => fun _ => True end.

(** The query of a client for the arguments, in the order of the fields. *)
Fixpoint args_values (fields : list StructField) : args_type fields -> option Values :=
  match fields with
  | [] => fun _ => Some []
  | f :: fields => fun '(v, args) =>
      match kind_text (sf_Kind f) v, args_values fields args with
      | Some text, Some values => Some ((field_name f, text) :: values)
      | _, _ => None
      end
  end.
Fixpoint args_in_range (fields : list StructField) : args_type fields -> Prop :=
  match fields with
  | [] => fun _ => True
  | f :: fields => fun '(v, args) => in_range (sf_Kind f) v /\ args_in_range fields args
  end.

(** What is written of the outcome of a call. *)
Definition answer (call : M Service any) : M Service response :=
  let! rets := try call in
  match rets with
  | inl e => lift (encodeAndWriteResponse None (Some e) E_INTERNAL)
  | inr result => lift (encodeAndWriteResponse (Some result) None StatusOK)
  end.

Lemma Has_Get (values : Values) k x : NoDup values.*1 -> (k, x) ∈ values -> Has values k = true /\ Get values k = x.
Proof.
  intros Hnd Hin. split.
  { apply bool_decide_eq_true, list_elem_of_fmap. by exists (k, x). }
  induction values as [|[k' x'] values IH]; [by apply elem_of_nil in Hin|].
  rewrite fmap_cons in Hnd. apply NoDup_cons in Hnd as [Hk Hnd]. cbn [Get]. apply elem_of_cons in Hin as [Hin|Hin].
  - injection Hin as <- <-. by rewrite decide_True.
  - rewrite decide_False; [by apply IH|]. intros ->. apply Hk, list_elem_of_fmap. by exists (k, x).
Qed.

Lemma set_field_text k v text : in_range k v -> kind_text k v = Some text -> set_field k text = Ok v.
Proof.
  destruct k; simpl; intros Hr Ht; simplify_eq.
  - apply ParseBool_FormatBool.
  - by apply dec_bytes_parse.
  - by apply dec_bytes_parse.
  - by rewrite String.string_of_list_byte_of_string.
  - apply hex_roundtrip.
Qed.

Lemma decode_fields_encoded fields (args : args_type fields) vals values :
  args_in_range fields args -> args_values fields args = Some vals -> vals ⊆ values -> NoDup values.*1 ->
  decode_fields fields values = Ok (inr args).
Proof.
  revert vals. induction fields as [|f fields IH]; intros vals Hr Hv Hsub Hnd; [by destruct args|].
  destruct args as [v args]. destruct Hr as [Hr Hrs]. cbn [args_values] in Hv.
  destruct (kind_text (sf_Kind f) v) as [text|] eqn:Ht; [|done]. destruct (args_values fields args) as [rest|] eqn:Ha; [|done].
  injection Hv as <-. destruct (Has_Get values (field_name f) text Hnd) as [Hh Hg]; [apply Hsub; by left|].
  cbn [decode_fields]. rewrite Hh, Hg, andb_false_r, orb_true_r. rewrite (set_field_text _ v text) by done.
  rewrite (IH args rest); [done|done|done| |done]. intros kv Hkv. apply Hsub. by right.
Qed.

(** The names of the fields of every method are distinct and not empty. *)
Definition good_fields (fields : list StructField) : Prop :=
  NoDup (field_name <$> fields) /\ Forall (fun f => field_name f <> []) fields.
#[local] Instance good_fields_dec fields : Decision (good_fields fields).
Proof. apply _. Defined.

Lemma methods_good : Forall (fun nm => good_fields (m_argsType nm.2)) methods.
Proof. repeat (apply Forall_cons; split; [apply (bool_decide_eq_true_1 (good_fields _)); vm_compute; reflexivity|]). apply Forall_nil. done. Qed.

Lemma args_values_names fields (args : args_type fields) vals : args_values fields args = Some vals -> vals.*1 = field_name <$> fields.
Proof.
  revert vals. induction fields as [|f fields IH]; intros vals; cbn [args_values]; [by intros [= <-]|].
  destruct args as [v args]. destruct (kind_text (sf_Kind f) v), (args_values fields args) eqn:E; intros [= <-]. csimpl.
  f_equal. by apply (IH args).
Qed.

Lemma newHandler_encoded m r (args : args_type (m_argsType m)) vals :
  good_fields (m_argsType m) -> args_in_range _ args -> args_values _ args = Some vals -> r_RawQuery r = Encode vals ->
  newHandler m r = answer (Call m r args None).
Proof.
  intros [Hnd Hne] Hr Hv Hq. pose proof (args_values_names _ _ _ Hv) as Hnames.
  unfold newHandler. rewrite Hq, ParseQuery_Encode.
  2: { apply (proj1 (Forall_fmap fst (fun k => k <> []) vals)). rewrite Hnames. by apply Forall_fmap. }
  unfold bind at 1. unfold lift at 1. rewrite (decode_fields_encoded _ args vals); [done|done|done|done|by rewrite Hnames].
Qed.

Lemma find_method_in name m l : NoDup l.*1 -> (name, m) ∈ l -> find_method name l = Some m.
Proof.
  induction l as [|[n m'] l IH]; intros Hnd Hin; [by apply elem_of_nil in Hin|].
  rewrite fmap_cons in Hnd. apply NoDup_cons in Hnd as [Hn Hnd]. cbn [find_method]. apply elem_of_cons in Hin as [Hin|Hin].
  - injection Hin as <- <-. by rewrite String.eqb_refl.
  - rewrite (proj2 (String.eqb_neq _ _)); [by apply IH|]. intros ->. apply Hn, list_elem_of_fmap. by exists (name, m).
Qed.

(** Decoding does not panic, so that the handler panics only where the method does. *)
Lemma decode_fields_no_panic fields values m : decode_fields (evidence := evidence) fields values <> Panic m.
Proof.
  induction fields as [|f fields IH]; [done|]. cbn [decode_fields]. destruct (_ && _); [done|].
  assert (H : forall k raw, set_field (evidence := evidence) k raw <> Panic m).
  { intros [] raw; simpl; try done; [unfold setBoolParam, ParseBool; by repeat case_decide| | |];
      first [apply ParseInt_no_panic|apply hex_DecodeString_no_panic]. }
  specialize (H (sf_Kind f) (Get values (field_name f))).
  destruct (_ || _); [destruct (set_field _ _); [|done|congruence]|]; (destruct (decode_fields fields values) as [[]| |]; simpl; congruence).
Qed.

(** C26: a method called by its URI gets the arguments of the client: for every method of the
    table and arguments that can be written in a URL (integers within 64 bits, any strings
    and bytes, no interfaces), a request with the encoded arguments at the path of the
    method is answered with the outcome of calling the method with exactly these arguments
    and no websocket. *)
Theorem uri_call_roundtrip name m r (args : args_type (m_argsType m)) vals :
  (name, m) ∈ methods -> args_in_range _ args -> args_values _ args = Some vals ->
  r_Path r = lit "/" ++ lit name -> r_RawQuery r = Encode vals ->
  ServeHTTP r = (let! resp := answer (Call m r args None) in ret (UriReply resp)).
Proof.
  intros Hin Hr Hv Hp Hq. pose proof (proj1 (Forall_forall _ _) methods_good _ Hin) as Hgood.
  assert (Hnd : NoDup (methods.*1)) by (apply (bool_decide_eq_true_1 (NoDup _)); vm_compute; reflexivity).
  unfold ServeHTTP. rewrite decide_False.
  2: { rewrite Hp. intros E. apply (app_inv_head (lit "/") (lit name) (lit "websocket")) in E.
       apply (f_equal String.string_of_list_byte) in E. unfold lit in E. rewrite !String.string_of_list_byte_of_string in E. subst name.
       assert (H : "websocket" ∈ methods.*1) by (apply list_elem_of_fmap; by exists ("websocket", m)).
       assert (Hno : "websocket" ∉ methods.*1) by (apply (bool_decide_eq_true_1 (_ ∉ _)); vm_compute; reflexivity). done. }
  rewrite Hp. change (lit "/" ++ lit name) with (x2f :: lit name). cbv iota beta.
  unfold lit at 1. rewrite String.string_of_list_byte_of_string, (find_method_in name m methods Hnd Hin).
  by rewrite (newHandler_encoded m r args vals Hgood Hr Hv Hq).
Qed.
End Uri.
