(* ===== verification/RPCNode.v ===== *)
(** * RPCNode: the RPC client as the interface of the handlers

    The rest of rpc/client/client.go - the application, the peers, the genesis and the
    subscriptions - and the whole client as an instance of [RpcClient], so that the
    handlers of JSONRPC.v run on the node's store, indexes and mempool. *)
From stdpp Require Import base gmap strings vector sorting numbers list.
From S2P Require Import Prelude Strconv KVStore Types Serialization Store Conv Executor TxCache CList Mempool Indexer TxIndex BlockIndex Node RPC JSONRPC.

(** ** Peers (p2p/client.go) *)

(** A connection of libp2p. *)
Record Conn := { conn_RemotePeer : string; conn_Outbound : bool; conn_Opened : Z; conn_RemoteMultiaddr : string }.

Record PeerConnection := {
  pc_ListenAddr : string;
  pc_Network : string;
  pc_DefaultNodeID : string;
  pc_IsOutbound : bool;
  pc_Duration : Z;
  pc_RemoteIP : string;
}.

Definition Peers (ListenAddress chainID : string) (now : Z) (conns : list Conn) : list PeerConnection :=
  (fun conn =>
     {| pc_ListenAddr := ListenAddress; pc_Network := chainID; pc_DefaultNodeID := conn_RemotePeer conn;
        pc_IsOutbound := conn_Outbound conn; pc_Duration := i64 (now - conn_Opened conn); pc_RemoteIP := conn_RemoteMultiaddr conn |}) <$> conns.

Record ResultNetInfo := { rni_Listening : bool; rni_Listeners : list string; rni_NPeers : Z; rni_Peers : list PeerConnection }.

(** What the client sees of libp2p: the host's addresses and connections, and the clock. *)
Record P2PView := { pv_Addrs : list string; pv_Conns : list Conn; pv_ListenAddress : string; pv_chainID : string; pv_now : Z }.

Definition NetInfo (v : P2PView) : ResultNetInfo :=
  let peers := Peers (pv_ListenAddress v) (pv_chainID v) (pv_now v) (pv_Conns v) in
  {| rni_Listening := true; rni_Listeners := pv_Addrs v; rni_NPeers := Z.of_nat (length peers); rni_Peers := peers |}.

(** ** The application and the event bus *)

Record RequestQuery := { rq_Path : string; rq_Data : bytes; rq_Height : Z; rq_Prove : bool }.

(** The query connection of the application, and a piece of evidence. *)
Class QueryConn := {
  qconn : Type;
  ResponseQuery : Type;
  q_InfoSync : M qconn ResponseInfo;
  q_QuerySync : RequestQuery -> M qconn ResponseQuery;
}.
Class TmEvidence := { Evidence : Type; Evidence_Hash : Evidence -> bytes }.

(** The subscriptions of the event bus (Tendermint's pubsub). *)
Class ClientBus `{ClientNet} `{QueryParser} := {
  bus_sub : Type;
  bus_Subscribe : string -> query -> Z -> M net bus_sub;
  bus_Unsubscribe : string -> query -> M net unit;
  bus_UnsubscribeAll : string -> M net unit;
}.

Section Client.
Context {T : Tendermint} {W : Wire} {K : KVStore} {TB : TmBlock} {VI : TmValidatorInfo}.
Context {X : TxIndexWire} {MK : Merkle} {KI : KVStore} {O : MapOrder} {GO : GoOrder} {QP : QueryParser} {OC : OrderedCode}.
Context {P : PubSub} {J : GenesisJSON}.
Context {TT : TmTx} {AC : AppConnMempool} {TC : TxCache} {CN : ClientNet}.
Context {Q : QueryConn} {E : TmEvidence} {CB : ClientBus}.
Context (info : NodeInfo) (maxClients maxPerClient : Z).

(** What the client's node holds. *)
Record RpcNode := {
  rn_store : DefaultStore (K := K);
  rn_node : Node;
  rn_client : ClientState;
  rn_txs : @db KI;
  rn_blocks : @db KI;
  rn_query : qconn;
  rn_p2p : P2PView;
}.

Definition on_store {A} (c : M (DefaultStore (K := K)) A) : M RpcNode A :=
  zoom rn_store (fun x s => {| rn_store := x; rn_node := rn_node s; rn_client := rn_client s; rn_txs := rn_txs s; rn_blocks := rn_blocks s;
                               rn_query := rn_query s; rn_p2p := rn_p2p s |}) c.
Definition on_node {A} (c : M Node A) : M RpcNode A :=
  zoom rn_node (fun x s => {| rn_store := rn_store s; rn_node := x; rn_client := rn_client s; rn_txs := rn_txs s; rn_blocks := rn_blocks s;
                              rn_query := rn_query s; rn_p2p := rn_p2p s |}) c.
Definition on_state {A} (c : M ClientState A) : M RpcNode A :=
  zoom rn_client (fun x s => {| rn_store := rn_store s; rn_node := rn_node s; rn_client := x; rn_txs := rn_txs s; rn_blocks := rn_blocks s;
                                rn_query := rn_query s; rn_p2p := rn_p2p s |}) c.
Definition on_query {A} (c : M qconn A) : M RpcNode A :=
  zoom rn_query (fun x s => {| rn_store := rn_store s; rn_node := rn_node s; rn_client := rn_client s; rn_txs := rn_txs s;
                               rn_blocks := rn_blocks s; rn_query := x; rn_p2p := rn_p2p s |}) c.
(** A search with the context of its request, which nobody cancels. *)
Definition with_ctx {A} (c : RpcNode -> M Ctx A) : M RpcNode A := fun s => ((c s None).1, s).

Definition ABCIInfo : M RpcNode ResponseInfo := on_query q_InfoSync.
Definition ABCIQueryWithOptions (path : string) (data : bytes) (height : Z) (prove : bool) : M RpcNode ResponseQuery :=
  on_query (q_QuerySync {| rq_Path := path; rq_Data := data; rq_Height := height; rq_Prove := prove |}).
(** [rpcclient.DefaultABCIQueryOptions] is height 0 without a proof. *)
Definition ABCIQuery (path : string) (data : bytes) : M RpcNode ResponseQuery := ABCIQueryWithOptions path data 0 false.

(** [CheckTx] goes to the application's connection, not through the mempool. *)
Definition CheckTx_rpc (tx : Tx) : M ClientState ResponseCheckTx :=
  on_mempool
    (let! t := get in
     let '(res, conn) := conn_CheckTx tx false (tm_conn t) in
     do! modify (set_conn conn) in
     match conn_Error conn with Some e => fail e | None => ret res end).

Definition Genesis : M RpcNode (option GenesisDoc) := on_node (gets n_genesis).

Definition ErrConsensusStateNotAvailable : error := New "consensus state not available in Dymint".
Definition DumpConsensusState {A} : M RpcNode A := fail ErrConsensusStateNotAvailable.
Definition ConsensusState {A} : M RpcNode A := fail ErrConsensusStateNotAvailable.

(** The parameters of the genesis, at any height. *)
Definition ConsensusParams_rpc (height : option Z) : M RpcNode (Z * ConsensusParams) :=
  let! s := get in
  let! genesis := lift (deref (n_genesis (rn_node s))) in
  let BlockHeight := i64 (normalizeHeight (rn_store s) height) in
  let! params := lift (deref (gd_ConsensusParams genesis)) in
  ret (BlockHeight, params).

Definition BroadcastEvidence (evidence : option Evidence) : M RpcNode bytes :=
  let! e := lift (deref evidence) in
  ret (Evidence_Hash e).

Definition Unsubscribe (subscriber q : string) : M RpcNode unit :=
  let! q := lift (result_wrap "failed to parse query" (query_New q)) in
  on_state (on_net (bus_Unsubscribe subscriber q)).

(** ** Errors of the mempool as errors of the client *)

Definition CheckTxError_error (e : CheckTxError) : error :=
  match e with
  | ErrTxTooLarge _ _ => New "Tx too large"
  | ErrPreCheck (Some e) => e
  | ErrPreCheck None => New "pre-check"
  | ErrTxInCache => New "tx already exists in cache"
  | ErrMempoolIsFull _ _ _ _ => New "mempool is full"
  | ErrConn e => e
  end.
Definition BroadcastError_error (e : BroadcastError) : error :=
  match e with BroadcastCheckTx e => CheckTxError_error e | BroadcastErr e => e end.

(** The error of a broadcast as the error of its call. *)
Definition or_error {S A} (c : M S (BroadcastError + A)) : M S A :=
  let! r := c in
  match r with inl e => fail (BroadcastError_error e) | inr a => ret a end.
Definition commit_or_error {S A} (c : M S (option A * option BroadcastError)) : M S (option A) :=
  let! (r, e) := c in
  match e with Some e => fail (BroadcastError_error e) | None => ret r end.

(** ** The instance *)

Inductive RpcResult :=
| RHealth
| RSubscribe
| REmpty
| RStatus (r : ResultStatus)
| RNetInfo (r : ResultNetInfo)
| RBlockchainInfo (r : ResultBlockchainInfo)
| RGenesis (r : option GenesisDoc)
| RGenesisChunk (r : ResultGenesisChunk)
| RBlock (r : ResultBlock)
| RBlockResults (r : ResultBlockResults)
| RCommit (r : ResultCommit)
| RCheckTx (r : ResponseCheckTx)
| RTx (r : ResultTx)
| RTxSearch (r : ResultTxSearch)
| RBlockSearch (r : ResultBlockSearch)
| RValidators (r : ResultValidators)
| RConsensusParams (r : Z * ConsensusParams)
| RUnconfirmedTxs (r : ResultUnconfirmedTxs)
| RBroadcastTxCommit (r : option ResultBroadcastTxCommit)
| RBroadcastTx (r : ResultBroadcastTx)
| RABCIQuery (r : ResponseQuery)
| RABCIInfo (r : ResponseInfo)
| RBroadcastEvidence (hash : bytes).

Definition fmap_M {S A B} (f : A -> B) (c : M S A) : M S B := let! a := c in ret (f a).
Definition from_store {A} (f : A -> RpcResult) (c : DefaultStore (K := K) -> result A) : M RpcNode RpcResult := fmap_M f (on_store (read c)).

Context (marshal : RpcResult -> result bytes).

Definition NodeClient : RpcClient := {|
  client := RpcNode;
  evidence := Evidence;
  any := RpcResult;
  tmquery := query;
  subscription := bus_sub;
  tmquery_New := query_New;
  c_IsSubscriptionAllowed addr := on_state (on_net (fun x => (match IsSubscriptionAllowed maxClients maxPerClient addr x with
                                                              | Some e => Err e | None => Ok tt end, x)));
  c_EventBus_Subscribe addr q cap := on_state (on_net (bus_Subscribe addr q cap));
  c_EventBus_UnsubscribeAll addr := on_state (on_net (bus_UnsubscribeAll addr));
  c_ResultSubscribe := RSubscribe;
  c_emptyResult := REmpty;
  c_Unsubscribe := Unsubscribe;
  c_UnsubscribeAll addr := on_state (on_net (bus_UnsubscribeAll addr));
  c_Health := ret RHealth;
  c_Status := fmap_M RStatus (on_store (Status (K := K) info));
  c_NetInfo := fmap_M RNetInfo (gets (fun s => NetInfo (rn_p2p s)));
  c_BlockchainInfo min max := from_store RBlockchainInfo (fun s => BlockchainInfo s min max);
  c_Genesis := fmap_M RGenesis Genesis;
  c_GenesisChunked id := fmap_M RGenesisChunk (on_node (GenesisChunked id));
  c_Block h := from_store RBlock (fun s => Block_rpc s h);
  c_BlockByHash hash := from_store RBlock (fun s => BlockByHash s hash);
  c_BlockResults h := from_store RBlockResults (fun s => BlockResults s h);
  c_Commit h := from_store RCommit (fun s => Commit_rpc s h);
  c_CheckTx tx := fmap_M RCheckTx (on_state (CheckTx_rpc tx));
  c_Tx hash prove := fmap_M RTx (read (fun s => Tx_rpc (rn_store s) (rn_txs s) hash prove));
  c_TxSearch q prove page perPage orderBy := fmap_M RTxSearch (with_ctx (fun s => TxSearch (rn_txs s) q prove page perPage orderBy));
  c_BlockSearch q page perPage orderBy :=
    fmap_M RBlockSearch (with_ctx (fun s => BlockSearch (rn_store s) (rn_blocks s) q page perPage orderBy));
  c_Validators h page perPage := from_store RValidators (fun s => Validators_rpc s h page perPage);
  c_DumpConsensusState := DumpConsensusState;
  c_ConsensusState := ConsensusState;
  c_ConsensusParams h := fmap_M RConsensusParams (ConsensusParams_rpc h);
  c_UnconfirmedTxs limit := fmap_M RUnconfirmedTxs (on_state (on_mempool (gets (fun t => UnconfirmedTxs t limit))));
  c_NumUnconfirmedTxs := fmap_M RUnconfirmedTxs (on_state (on_mempool (gets NumUnconfirmedTxs)));
  c_BroadcastTxCommit tx := fmap_M RBroadcastTxCommit (on_state (commit_or_error (BroadcastTxCommit maxClients maxPerClient tx)));
  c_BroadcastTxSync tx := fmap_M RBroadcastTx (on_state (or_error (BroadcastTxSync tx)));
  c_BroadcastTxAsync tx := fmap_M RBroadcastTx (on_state (or_error (BroadcastTxAsync tx)));
  c_ABCIQueryWithOptions path data h prove := fmap_M RABCIQuery (ABCIQueryWithOptions path data h prove);
  c_ABCIInfo := fmap_M RABCIInfo ABCIInfo;
  c_BroadcastEvidence e := fmap_M RBroadcastEvidence (BroadcastEvidence e);
  tmjson_Marshal := marshal;
|}.
End Client.

(** ** Subscriptions of the client *)

Section Events.
Context {CN : ClientNet} {QP : QueryParser} {CB : ClientBus}.
Context {event : Type}.

(** [ctypes.ResultEvent]: the query and the event; [er_outc] is the channel given out. *)
Inductive RoutineStatus := RoutineRunning | RoutineBlocked | RoutineReturned.
Record EventsRoutine := {
  er_sub : bus_sub;
  er_subscriber : string;
  er_query : query;
  er_cap : nat;
  er_outc : list (query * event);
  er_status : RoutineStatus;
}.

Definition Subscribe (subscriber q : string) (outCapacity : list Z) : M net EventsRoutine :=
  let! q := lift (result_wrap "failed to parse query" (query_New q)) in
  let outCap := match outCapacity with [] => 1%Z | cap :: _ => cap end in
  (* [SubscribeUnbuffered] for a capacity that is not positive *)
  let! sub := wrap "failed to subscribe" (bus_Subscribe subscriber q (if (0 <? outCap)%Z then outCap else 0)) in
  if (outCap <? 0)%Z then panic "makechan: size out of range"
  else ret {| er_sub := sub; er_subscriber := subscriber; er_query := q; er_cap := Z.to_nat outCap; er_outc := []; er_status := RoutineRunning |}.

(** [resubscribe], over what [IsRunning] returns in each attempt: [None] while it is still
    trying, [Some None] when the client was stopped. *)
Fixpoint resubscribe (subscriber : string) (q : query) (running : list bool) : M net (option (option bus_sub)) :=
  match running with
  | [] => ret None
  | false :: _ => ret (Some None)
  | true :: running =>
      let! r := try (bus_Subscribe subscriber q 1) in
      match r with inr sub => ret (Some (Some sub)) | inl _ => resubscribe subscriber q running end
  end.

Inductive RoutineInput :=
| EvMsg (msg : event)
| EvCancelled (unsubscribed : bool) (running : list bool)
| EvQuit.

Definition set_outc (out : list (query * event)) (r : EventsRoutine) : EventsRoutine :=
  {| er_sub := er_sub r; er_subscriber := er_subscriber r; er_query := er_query r; er_cap := er_cap r; er_outc := out; er_status := er_status r |}.
Definition set_status (st : RoutineStatus) (r : EventsRoutine) : EventsRoutine :=
  {| er_sub := er_sub r; er_subscriber := er_subscriber r; er_query := er_query r; er_cap := er_cap r; er_outc := er_outc r; er_status := st |}.
Definition set_sub (sub : bus_sub) (r : EventsRoutine) : EventsRoutine :=
  {| er_sub := sub; er_subscriber := er_subscriber r; er_query := er_query r; er_cap := er_cap r; er_outc := er_outc r; er_status := er_status r |}.

(** One iteration of [eventsRoutine]: with an unbuffered channel it waits for the reader,
    with a full one the event is dropped. *)
Definition eventsRoutine_step (i : RoutineInput) (r : EventsRoutine) : M net EventsRoutine :=
  match er_status r, i with
  | RoutineRunning, EvMsg msg =>
      let result := (er_query r, msg) in
      if (er_cap r =? 0)%nat then ret (set_status RoutineBlocked (set_outc [result] r))
      else if (length (er_outc r) <? er_cap r)%nat then ret (set_outc (er_outc r ++ [result]) r)
      else ret r
  | RoutineRunning, EvCancelled true _ => ret (set_status RoutineReturned r)
  | RoutineRunning, EvCancelled false running =>
      let! sub := resubscribe (er_subscriber r) (er_query r) running in
      match sub with
      | Some (Some sub) => ret (set_sub sub r)
      | Some None => ret (set_status RoutineReturned r)
      | None => ret (set_status RoutineBlocked r)
      end
  | RoutineRunning, EvQuit => ret (set_status RoutineReturned r)
  | _, _ => ret r
  end.

(** The reader takes the oldest event; a routine that waited for it goes on. *)
Definition receive (r : EventsRoutine) : option (query * event) * EventsRoutine :=
  match er_outc r with
  | [] => (None, r)
  | e :: out =>
      let r := set_outc out r in
      (Some e, if (er_cap r =? 0)%nat then match er_status r with RoutineBlocked => set_status RoutineRunning r | _ => r end else r)
  end.

(** Events that arrive one after another, without reads in between. *)
Definition offer (msgs : list event) (r : EventsRoutine) : M net EventsRoutine :=
  foldl (fun c msg => let! r := c in eventsRoutine_step (EvMsg msg) r) (ret r) msgs.

Lemma offer_run msgs r c x :
  (0 < er_cap r)%nat -> er_status r = RoutineRunning -> (length (er_outc r) <= er_cap r)%nat -> c x = (Ok r, x) ->
  foldl (fun c msg => let! r := c in eventsRoutine_step (EvMsg msg) r) c msgs x =
  (Ok (set_outc (er_outc r ++ (pair (er_query r) <$> take (er_cap r - length (er_outc r)) msgs)) r), x).
Proof.
  revert r c. induction msgs as [|m msgs IH]; intros r c Hc Hr Hl Hrun; cbn [foldl].
  { rewrite take_nil, fmap_nil, app_nil_r, Hrun. by destruct r. }
  assert (Hstep : eventsRoutine_step (EvMsg m) r x =
    (Ok (if (length (er_outc r) <? er_cap r)%nat then set_outc (er_outc r ++ [(er_query r, m)]) r else r), x)).
  { unfold eventsRoutine_step. rewrite Hr. rewrite (proj2 (Nat.eqb_neq _ _)) by lia. by destruct (_ <? _)%nat. }
  destruct (Nat.ltb_spec (length (er_outc r)) (er_cap r)) as [Hlt|Hge].
  - rewrite (IH (set_outc (er_outc r ++ [(er_query r, m)]) r)); [|done|done|cbn; rewrite length_app; simpl; lia|].
    + cbn. rewrite length_app, <- app_assoc. simpl. destruct (er_cap r - length (er_outc r))%nat as [|k] eqn:Ek; [lia|].
      replace (er_cap r - (length (er_outc r) + 1))%nat with k by lia. done.
    + unfold bind. by rewrite Hrun.
  - rewrite (IH r); [|done|done|done|unfold bind; by rewrite Hrun].
    replace (er_cap r - length (er_outc r))%nat with 0%nat by lia. done.
Qed.

(** A buffered routine never waits for its reader: it keeps the first events that fit and
    drops the others. *)
Lemma offer_buffered msgs r x :
  (0 < er_cap r)%nat -> er_status r = RoutineRunning -> (length (er_outc r) <= er_cap r)%nat ->
  offer msgs r x = (Ok (set_outc (er_outc r ++ (pair (er_query r) <$> take (er_cap r - length (er_outc r)) msgs)) r), x).
Proof. intros. by apply offer_run. Qed.
End Events.
