(* ===== verification/RPCServerRuns.v ===== *)
(** * RPCServerRuns: the RPC server on a concrete node

    An instance of the client of RPCNode.v with a codec that reads the name of a method
    and quoted integers, the witnesses of the theorems of RPCServer.v, and what requests
    at the edges do. *)
From stdpp Require Import base gmap strings vector sorting numbers list.
From S2P Require Import Prelude Strconv Url KVStore Types Serialization Concrete Store StorePrune StoreSpec Conv Executor Manager ManagerLoops ConcreteNode TxCache CList Mempool MempoolInv MempoolSpec MempoolRuns Indexer IndexerSpec TxIndex TxIndexSpec BlockIndex BlockIndexSpec IndexRuns Node HealthSpec RPC RPCSpec RPCRuns JSONRPC RPCServer RPCNode.

#[local] Existing Instance toy_parser.
#[local] Existing Instance toy_merkle.
#[local] Existing Instance toy_tx_wire.
#[local] Existing Instance toy_order.
#[local] Existing Instance insertion_order.
#[local] Existing Instance toy_code.
#[local] Existing Instance toy_tmblock.
#[local] Existing Instance toy.
#[local] Existing Instance toy_wire.
#[local] Existing Instance MemKV.
#[local] Existing Instance toy_json.
#[local] Existing Instance RecordPubSub.

(** ** Instances *)

(** A network whose event bus keeps the subscribers with their queries. *)
Definition bus_net : ClientNet := {|
  net := list (string * list Condition);
  net_GossipTx tx := ret tt;
  cb_NumClients x := Z.of_nat (length (remove_dups x.*1));
  cb_NumClientSubscriptions a x := Z.of_nat (length (filter (fun s => s.1 = a) x));
  cb_SubscribeTx _ _ := ret tt;
  cb_UnsubscribeTx _ _ := ret tt;
  cb_WaitTx _ := ret TxTimedOut;
|}.
#[local] Existing Instance bus_net.

Definition toy_bus : ClientBus := {|
  bus_sub := nat;
  bus_Subscribe a q _ := (fun (x : @net bus_net) => (Ok (length x), x ++ [(a, q)]) : result nat * @net bus_net);
  bus_Unsubscribe a _ := modify (filter (fun s : string * list Condition => s.1 <> a) : @net bus_net -> @net bus_net);
  bus_UnsubscribeAll a := modify (filter (fun s : string * list Condition => s.1 <> a) : @net bus_net -> @net bus_net);
|}.
#[local] Existing Instance toy_bus.

Definition toy_query : QueryConn := {|
  qconn := unit; ResponseQuery := bytes; q_InfoSync := ret {| inf_LastBlockHeight := 1; inf_LastBlockAppHash := [] |};
  q_QuerySync req := ret (rq_Data req);
|}.
#[local] Existing Instance toy_query.
Definition toy_evidence : TmEvidence := {| Evidence := bytes; Evidence_Hash e := e |}.
#[local] Existing Instance toy_evidence.
Definition toy_validator_info : TmValidatorInfo (H := toy) :=
  {| vs_GetByAddress _ _ := None; val_Address _ := []; val_PubKey _ := []; val_Power _ := 0%Z |}.
#[local] Existing Instance toy_validator_info.
Definition toy_info : NodeInfo :=
  {| ni_P2PProtocol := 0; ni_ID := "id"; ni_ListenAddr := ""; ni_Network := "toy"; ni_Version := ""; ni_Moniker := ""; ni_RPCAddress := "" |}.

(** The name of the result stands for its JSON. *)
Definition toy_marshal (r : RpcResult) : result bytes :=
  Ok (match r with
      | RBlock b => lit "block at " ++ dec_bytes (ah_Height (ab_Header (rb_Block b)))
      | RSubscribe => lit "{}"
      | RCheckTx r => lit "code " ++ dec_bytes (rct_Code r)
      | _ => lit "other"
      end).
#[local] Instance toy_client : RpcClient := NodeClient (KI := index_store) toy_info 1 1 toy_marshal.

(** [json.Unmarshal] of strings without escapes and of numbers. *)
Definition toy_unmarshal (b : bytes) : result json_value :=
  match b with
  | x22 :: s => let '(v, _) := Cut x22 s in Ok (JString v)
  | [] => Err (New "unexpected end of JSON input")
  | _ => Ok (JFloat64 b)
  end.

(** A body is the name of the method, and the JSON of its first argument if that is an
    integer; an empty body is the end of the input. *)
Fixpoint toy_read (fields : list StructField) (raw : bytes) : result (args_type evidence fields) :=
  match fields with
  | [] => Ok tt
  | {| sf_Tag := _; sf_Kind := k |} :: fields =>
      match k return result (kind_type evidence k * args_type evidence fields) with
      | KInt | KInt64 =>
          try! v := (if decide (raw = []) then Ok 0%Z else unmarshalStrInt64 toy_unmarshal raw) in
          Ok (v, args_zero fields)
      | k => Ok (kind_zero k, args_zero fields)
      end
  end.
Definition toy_codec : RpcCodec := {|
  codec_request := bytes;
  cr_NewRequest := r_Body;
  cr_Method b := match b with
                 | [] => ("", Some (Json2Error "EOF"))
                 | _ => (String.string_of_list_byte (Cut x20 b).1, None)
                 end;
  cr_ReadRequest fields b := toy_read fields (Cut x20 b).2;
  cr_ID b := Ok (lit "7");
|}.
#[local] Existing Instance toy_codec.
#[local] Instance toy_events : EventJSON := {| event := bytes; event_json id q e := Some e |}.

(** ** A node with one block *)

Definition served_node : RpcNode (K := MemKV) (KI := index_store) := {|
  rn_store := one_block;
  rn_node := healthy_node;
  rn_client := {| cs_mempool := NewTxMempool roomy_cfg (false : @mconn toy_conn) 1 0; cs_net := [] : @net bus_net |};
  rn_txs := tx_index;
  rn_blocks := tx_index;
  rn_query := tt : @qconn toy_query;
  rn_p2p := {| pv_Addrs := []; pv_Conns := []; pv_ListenAddress := ""; pv_chainID := "toy"; pv_now := 0 |};
|}.
Definition service : Service := {| sv_client := served_node : @client toy_client; sv_subs := [] |}.
Definition server0 : ServerState := {| ss_health := []; ss_service := service |}.

Definition uri (path query : string) : Request :=
  {| r_RemoteAddr := "peer"; r_Path := lit path; r_RawQuery := lit query; r_Body := [] |}.
Definition rpc (body : bytes) : Request := {| r_RemoteAddr := "peer"; r_Path := lit "/"; r_RawQuery := []; r_Body := body |}.
Definition listen_ok (proto addr : bytes) : result unit := Ok tt.

(** ** Witnesses *)

Definition served : Handler := Handle [NewStatusMiddleware 0] json_handler.

Lemma rpc_follows_health_witness :
  exists n' s', for_each (rpc_health_chain 0) outage (healthy_node, (NewServer server0).2) = (Ok tt, (n', s')) /\
    forall r, exists e, served r s' = (Ok (TextReply StatusServiceUnavailable e), s').
Proof.
  destruct (rpc_follows_health (lit "tcp://0.0.0.0:26657") listen_ok served [NewStatusMiddleware 0] outage healthy_node
              (NewServer server0).2 server0 0 eq_refl eq_refl eq_refl) as (n' & s' & Hr & _ & Hh).
  - repeat constructor; try done; intros _; by eexists.
  - by exists n', s'.
Defined.

Lemma uri_call_roundtrip_witness :
  ServeHTTP (uri "/blockchain" "minHeight=-1&maxHeight=20") =
  (let! resp := answer (service_BlockchainInfo (uri "/blockchain" "minHeight=-1&maxHeight=20") ((-1)%Z, (20%Z, tt))) in ret (UriReply resp)).
Proof.
  refine (uri_call_roundtrip "blockchain" (newMethod (fields := blockchainInfoArgs) (Fn2 service_BlockchainInfo))
            (uri "/blockchain" "minHeight=-1&maxHeight=20") ((-1)%Z, (20%Z, tt))
            [(lit "minHeight", lit "-1"); (lit "maxHeight", lit "20")] _ _ _ _ _).
  - unfold methods. do 6 right. left.
  - repeat split; unfold is_i64; lia.
  - vm_compute. reflexivity.
  - reflexivity.
  - vm_compute. reflexivity.
Defined.

(** ** Requests at the edges *)

(** Height 0 is the latest block for [block], but not for [block_results]. *)
Example block_height_zero :
  match (ServeHTTP (uri "/block" "height=0") service).1 with
  | Ok (UriReply r) => resp_Result r = Some (lit "block at 1") | _ => False end /\
  match (ServeHTTP (uri "/block_results" "height=0") service).1 with
  | Ok (UriReply r) => exists e, resp_Error r = Some (E_INTERNAL, e) | _ => False end.
Proof. split; vm_compute; [reflexivity|by eexists]. Qed.

(** A negative number of a chunk of the genesis panics, as does a subscription by URI. *)
Example genesis_chunk_panics : exists m, (ServeHTTP (uri "/genesis_chunked" "chunk=-1") service).1 = Panic m.
Proof. vm_compute. by eexists. Qed.
Example subscribe_uri_panics :
  (ServeHTTP (uri "/subscribe" "query=payments") service).1 = Panic "reflect: Call with too few input arguments".
Proof. vm_compute. reflexivity. Qed.

(** Missing and malformed parameters are refused before the method is called. *)
Example refused_params :
  (match (ServeHTTP (uri "/block" "") service).1 with Ok (UriReply r) => fst <$> resp_Error r | _ => None end,
   match (ServeHTTP (uri "/block" "height=1x") service).1 with Ok (UriReply r) => fst <$> resp_Error r | _ => None end,
   match (ServeHTTP (uri "/block" "height=1;x") service).1 with Ok (UriReply r) => fst <$> resp_Error r | _ => None end) =
  (Some E_INVALID_REQ, Some E_PARSE, Some E_PARSE).
Proof. vm_compute. reflexivity. Qed.

(** An integer is accepted in quotes only. *)
Example unquoted_integers :
  (ServeHTTP (rpc (lit "block " ++ [x22; x31; x22])) service).1 = Ok (CodecReply (WriteResponse (lit "block at 1"))) /\
  match (ServeHTTP (rpc (lit "block 1")) service).1 with
  | Ok (CodecReply (WriteError status (Some e))) => status = StatusBadRequest /\ e = New "json: unsupported value" | _ => False end.
Proof. split; vm_compute; [reflexivity|done]. Qed.

(** An unknown method is reported with a nil error. *)
Example unknown_method : (ServeHTTP (rpc (lit "nope")) service).1 = Ok (CodecReply (WriteError E_NO_METHOD None)).
Proof. vm_compute. reflexivity. Qed.

(** A websocket that is closed loses its subscriptions, one whose connection breaks keeps
    them, and with them its place among the clients: here the next client is refused. *)
Definition subscribed : Service := {| sv_client := sv_client service;
  sv_subs := [{| sr_sub := 0%nat : @subscription toy_client; sr_query := "payments"; sr_ws := Some 0%nat; sr_id := lit "7" |}] |}.
Definition peers_on_bus (s : Service) : list string := (cs_net (rn_client (sv_client s : RpcNode (K := MemKV) (KI := index_store)))).*1.
Definition with_peer (s : Service) : Service := {|
  sv_client := (on_state (K := MemKV) (KI := index_store) (on_net (bus_Subscribe "peer" [] 100)) (sv_client s : RpcNode (K := MemKV) (KI := index_store))).2 : @client toy_client;
  sv_subs := sv_subs s |}.

Example broken_websocket :
  peers_on_bus (wsHandler 0 "peer" [WsCloseError] (with_peer subscribed)).2 = [] /\
  peers_on_bus (wsHandler 0 "peer" [WsError (New "connection reset")] (with_peer subscribed)).2 = ["peer"] /\
  (service_Subscribe (uri "" "") ("payments", tt) None [] (with_peer subscribed)).1 =
    Err (Wrap "subscription not allowed" (New "max_subscription_clients reached")).
Proof. split_and!; vm_compute; reflexivity. Qed.

(** [check_tx] asks the application, and leaves the mempool as it was. *)
Example check_tx_not_added :
  let run := ServeHTTP (uri "/check_tx" "tx=01") service in
  match run.1 with Ok (UriReply r) => resp_Result r = Some (lit "code 0") | _ => False end /\
  Size (cs_mempool (rn_client (sv_client run.2 : RpcNode (K := MemKV) (KI := index_store)))) = 0%Z.
Proof. cbv zeta. split; vm_compute; reflexivity. Qed.
