(* ===== verification/P2P.v ===== *)
(** * P2P: addresses, topics and validators of the p2p client

    Models conv/addr.go, conv/config.go and conv/crypto.go (the configuration that comes
    from Tendermint), p2p/client.go and the gossiper of p2p/gossip.go.  Multiaddresses,
    keys and libp2p (host, pubsub, DHT and discovery) are parameters.  Theorems: the seeds
    of the configuration are the peers the DHT starts from; which validator a message on a
    topic reaches. *)
From stdpp Require Import base gmap strings vector sorting numbers list.
From S2P Require Import Prelude Strconv Url Types Serialization Gossip RPCNode.

(** ** Addresses (conv/addr.go) *)

(** The multiaddr library and [peer.AddrInfoFromP2pAddr]. *)
Class Multiaddr := {
  maddr : Type;
  AddrInfo : Type;
  NewMultiaddr : bytes -> result maddr;
  ma_String : maddr -> bytes;
  ma_Encapsulate : maddr -> maddr -> maddr;
  AddrInfoFromP2pAddr : maddr -> result AddrInfo;
}.
(** An address is read back from its text. *)
Class MultiaddrLaws (MA : Multiaddr) := { ma_String_parse m : NewMultiaddr (ma_String m) = Ok m }.

Definition at_sign : byte := x40.
Definition colon : byte := x3a.
Definition comma : byte := x2c.

Section Addresses.
Context {MA : Multiaddr}.

Definition errInvalidAddress : error := New "invalid address format, expected [protocol://][<NODE_ID>@]<IPv4>:<PORT>".

Definition GetMultiAddr (addr : bytes) : result maddr :=
  let '(proto, addr) := match Split addr (lit "://") with [proto; addr] => (proto, addr) | _ => (lit "tcp", addr) end in
  try! (p2pID, addr) :=
    match cut_at [at_sign] addr with
    | Some (id, addr) => try! p2pID := NewMultiaddr (lit "/p2p/" ++ id) in Ok (Some p2pID, addr)
    | None => Ok (None, addr)
    end in
  match Split addr [colon] with
  | [ip; port] =>
      try! maddr := NewMultiaddr (lit "/ip4/" ++ ip ++ lit "/" ++ proto ++ lit "/" ++ port) in
      Ok (match p2pID with Some id => ma_Encapsulate maddr id | None => maddr end)
  | _ => Err errInvalidAddress
  end.

(** ** Configuration (conv/config.go) *)

Record P2PConfig := { p2p_ListenAddress : bytes; p2p_Seeds : bytes }.
Record RPCConfig := {
  rpc_ListenAddress : bytes;
  rpc_CORSAllowedOrigins : list bytes;
  rpc_CORSAllowedMethods : list bytes;
  rpc_CORSAllowedHeaders : list bytes;
  rpc_MaxOpenConnections : Z;
  rpc_TLSCertFile : bytes;
  rpc_TLSKeyFile : bytes;
}.
(** The part of [config.NodeConfig] that is translated, and that of Tendermint's. *)
Record NodeConfig := { nc_RootDir : bytes; nc_DBPath : bytes; nc_P2P : P2PConfig; nc_RPC : RPCConfig }.
Record TmConfig := { tc_RootDir : bytes; tc_DBPath : bytes; tc_P2P : option P2PConfig; tc_RPC : option RPCConfig }.

Definition set_p2p (p : P2PConfig) (c : NodeConfig) : NodeConfig :=
  {| nc_RootDir := nc_RootDir c; nc_DBPath := nc_DBPath c; nc_P2P := p; nc_RPC := nc_RPC c |}.

(** [for i, seed := range seeds]. *)
Fixpoint translate_seeds (seeds : list bytes) : result (list bytes) :=
  match seeds with
  | [] => Ok []
  | seed :: seeds =>
      try! seed := (if decide (seed = []) then Ok [] else try! addr := GetMultiAddr seed in Ok (ma_String addr)) in
      try! seeds := translate_seeds seeds in
      Ok (seed :: seeds)
  end.

Definition translateAddresses : M NodeConfig unit :=
  let! conf := gets nc_P2P in
  do! (if decide (p2p_ListenAddress conf = []) then ret tt
       else
         let! addr := lift (GetMultiAddr (p2p_ListenAddress conf)) in
         modify (fun c => set_p2p {| p2p_ListenAddress := ma_String addr; p2p_Seeds := p2p_Seeds (nc_P2P c) |} c)) in
  let! seeds := lift (translate_seeds (Split (p2p_Seeds conf) [comma])) in
  modify (fun c => set_p2p {| p2p_ListenAddress := p2p_ListenAddress (nc_P2P c); p2p_Seeds := Join seeds [comma] |} c).

Definition GetNodeConfig (tmConf : option TmConfig) : M NodeConfig unit :=
  match tmConf with
  | None => fail (New "tendermint config is nil but required to populate Dymint config")
  | Some tm =>
      do! modify (fun c => {| nc_RootDir := tc_RootDir tm; nc_DBPath := tc_DBPath tm; nc_P2P := default (nc_P2P c) (tc_P2P tm);
                              nc_RPC := default (nc_RPC c) (tc_RPC tm) |}) in
      translateAddresses
  end.

(** ** Keys (conv/crypto.go) *)

(** A node key with the type and bytes of its private key; the unmarshalling of libp2p. *)
Definition GetNodeKey {privKey} (UnmarshalEd25519PrivateKey : bytes -> result privKey) (nodeKey : option (option (string * bytes))) : result privKey :=
  match nodeKey with
  | None | Some None => Err (New "key can't be nil")
  | Some (Some (type, data)) =>
      if String.eqb type "ed25519" then result_wrap "node private key unmarshaling error" (UnmarshalEd25519PrivateKey data)
      else Err (New "unsupported key type")
  end.

(** ** Seeds (p2p/client.go) *)

(** [for _, s := range seeds]: what cannot be parsed is logged and skipped. *)
Definition seed_info (s : bytes) : option AddrInfo :=
  match NewMultiaddr s with
  | Ok maddr => match AddrInfoFromP2pAddr maddr with Ok info => Some info | _ => None end
  | _ => None
  end.
Definition getSeedAddrInfo (seedStr : bytes) : list AddrInfo :=
  if decide (seedStr = []) then [] else omap seed_info (Split seedStr [comma]).
End Addresses.

(** ** The client *)

Definition txTopicSuffix : bytes := lit "-tx".
Definition headerTopicSuffix : bytes := lit "-header".
Definition blockTopicSuffix : bytes := lit "-block".
Definition DefaultListenAddress : bytes := lit "/ip4/0.0.0.0/tcp/7676".
Definition peerLimit : Z := 60.

Section Client.
Context {MA : Multiaddr} {S : Type}.

(** A validator, which may be nil. *)
Definition GossipValidator : Type := GossipMessage -> M S bool.

(** libp2p as the client uses it: [lp_validators] is the validator of a topic.  The
    background activity of the DHT and of discovery is inside of the calls. *)
Class Libp2p := {
  libp2p : Type;
  key : Type;
  lp_New : maddr -> key -> M libp2p unit;
  lp_ID : libp2p -> bytes;
  lp_NewGossipSub : M libp2p unit;
  lp_Join : bytes -> M libp2p unit;
  lp_SubscribeTopic : bytes -> M libp2p unit;
  lp_RegisterTopicValidator : bytes -> GossipValidator -> M libp2p unit;
  lp_UnregisterTopicValidator : bytes -> M libp2p unit;
  lp_CancelSubscription : bytes -> libp2p -> libp2p;
  lp_CloseTopic : bytes -> M libp2p unit;
  lp_Publish : bytes -> bytes -> M libp2p unit;
  lp_validators : libp2p -> bytes -> option GossipValidator;
  lp_DHT : list AddrInfo -> M libp2p unit;
  lp_Bootstrap : M libp2p unit;
  lp_RefreshRoutingTable : M libp2p unit;
  lp_Advertise : bytes -> M libp2p unit;
  lp_FindPeers : bytes -> Z -> M libp2p (list AddrInfo);
  lp_Connect : AddrInfo -> M libp2p unit;
  lp_CloseDHT : M libp2p unit;
  lp_CloseHost : M libp2p unit;
}.
Context {LP : Libp2p}.

Record Client := {
  cl_ListenAddress : bytes;
  cl_Seeds : bytes;
  cl_chainID : bytes;
  cl_privKey : key;
  cl_txValidator : option GossipValidator;
  cl_headerValidator : option GossipValidator;
  cl_blockValidator : option GossipValidator;
}.

Definition NewClient (conf : P2PConfig) (privKey : option key) (chainID : bytes) : result Client :=
  match privKey with
  | None => Err (New "private key not provided")
  | Some k =>
      Ok {| cl_ListenAddress := if decide (p2p_ListenAddress conf = []) then DefaultListenAddress else p2p_ListenAddress conf;
            cl_Seeds := p2p_Seeds conf; cl_chainID := chainID; cl_privKey := k;
            cl_txValidator := None; cl_headerValidator := None; cl_blockValidator := None |}
  end.

Definition SetTxValidator (val : GossipValidator) (c : Client) : Client :=
  {| cl_ListenAddress := cl_ListenAddress c; cl_Seeds := cl_Seeds c; cl_chainID := cl_chainID c; cl_privKey := cl_privKey c;
     cl_txValidator := Some val; cl_headerValidator := cl_headerValidator c; cl_blockValidator := cl_blockValidator c |}.
Definition SetHeaderValidator (val : GossipValidator) (c : Client) : Client :=
  {| cl_ListenAddress := cl_ListenAddress c; cl_Seeds := cl_Seeds c; cl_chainID := cl_chainID c; cl_privKey := cl_privKey c;
     cl_txValidator := cl_txValidator c; cl_headerValidator := Some val; cl_blockValidator := cl_blockValidator c |}.
Definition SetBlockValidator (val : GossipValidator) (c : Client) : Client :=
  {| cl_ListenAddress := cl_ListenAddress c; cl_Seeds := cl_Seeds c; cl_chainID := cl_chainID c; cl_privKey := cl_privKey c;
     cl_txValidator := cl_txValidator c; cl_headerValidator := cl_headerValidator c; cl_blockValidator := Some val |}.

Definition getNamespace (c : Client) : bytes := cl_chainID c.
Definition getTxTopic (c : Client) : bytes := getNamespace c ++ txTopicSuffix.
Definition getHeaderTopic (c : Client) : bytes := getNamespace c ++ headerTopicSuffix.
Definition getBlockTopic (c : Client) : bytes := getNamespace c ++ blockTopicSuffix.

(** Calling a validator: a nil one panics. *)
Definition call_validator (v : option GossipValidator) : GossipValidator := fun msg =>
  match v with Some v => v msg | None => panic "nil pointer dereference" end.

(** [NewGossiper] with the option [WithValidator]: the topic stands for the gossiper. *)
Definition NewGossiper (topicStr : bytes) (validator : option GossipValidator) : M libp2p unit :=
  do! lp_Join topicStr in
  do! lp_SubscribeTopic topicStr in
  let! ownID := gets lp_ID in
  lp_RegisterTopicValidator topicStr (wrapValidator ownID (call_validator validator)).

Definition setupGossiping (c : Client) : M libp2p unit :=
  do! lp_NewGossipSub in
  do! NewGossiper (getTxTopic c) (cl_txValidator c) in
  do! NewGossiper (getHeaderTopic c) (cl_headerValidator c) in
  NewGossiper (getBlockTopic c) (cl_blockValidator c).

Definition setupDHT (c : Client) : M libp2p unit :=
  do! wrap "failed to create DHT" (lp_DHT (getSeedAddrInfo (cl_Seeds c))) in
  wrap "failed to bootstrap DHT" lp_Bootstrap.

(** [tryConnect] logs an error. *)
Definition tryConnect (peer : AddrInfo) : M libp2p unit := do! try (lp_Connect peer) in ret tt.
Definition findPeers (c : Client) : M libp2p unit :=
  let! peers := lp_FindPeers (getNamespace c) peerLimit in
  for_each tryConnect peers.
Definition peerDiscovery (c : Client) : M libp2p unit :=
  do! lp_RefreshRoutingTable in
  do! lp_Advertise (getNamespace c) in
  findPeers c.

Definition startWithHost (c : Client) : M libp2p unit :=
  do! setupGossiping c in
  do! setupDHT c in
  peerDiscovery c.

Definition listen (c : Client) : M libp2p unit :=
  let! maddr := lift (NewMultiaddr (cl_ListenAddress c)) in
  lp_New maddr (cl_privKey c).

Definition Start (c : Client) : M libp2p unit :=
  do! listen c in
  startWithHost c.

Definition GossipTx (c : Client) (tx : bytes) : M libp2p unit := lp_Publish (getTxTopic c) tx.
Definition GossipHeader (c : Client) (headerBytes : bytes) : M libp2p unit := lp_Publish (getHeaderTopic c) headerBytes.
Definition GossipBlock (c : Client) (blockBytes : bytes) : M libp2p unit := lp_Publish (getBlockTopic c) blockBytes.

(** [multierr.Combine] of calls: all of them run, the errors are joined. *)
Fixpoint combine_errors (calls : list (M libp2p unit)) : M libp2p (option error) :=
  match calls with
  | [] => ret None
  | call :: calls =>
      let! r := try call in
      let! rest := combine_errors calls in
      ret (multierr_append (match r with inl e => Some e | inr _ => None end) rest)
  end.

Definition Gossiper_Close (topic : bytes) : M libp2p unit :=
  let! err := try (lp_UnregisterTopicValidator topic) in
  do! modify (lp_CancelSubscription topic) in
  let! errs := combine_errors [lift (match err with inl e => Err e | inr _ => Ok tt end); lp_CloseTopic topic] in
  match errs with Some e => fail e | None => ret tt end.

Definition Close (c : Client) : M libp2p unit :=
  let! errs := combine_errors [Gossiper_Close (getTxTopic c); Gossiper_Close (getHeaderTopic c); Gossiper_Close (getBlockTopic c);
                               lp_CloseDHT; lp_CloseHost] in
  match errs with Some e => fail e | None => ret tt end.

(** What the pubsub does with a message on a topic. *)
Definition deliver (x : libp2p) (topic : bytes) (msg : GossipMessage) : M S bool :=
  match lp_validators x topic with Some v => v msg | None => ret true end.
End Client.
#[global] Arguments GossipValidator : clear implicits.
#[global] Arguments Libp2p {MA} S.
