(* ===== verification/P2PSpec.v ===== *)
(** * P2PSpec: theorems about the p2p client

    The addresses of the configuration, the topics, and which validator a message
    reaches. *)
From stdpp Require Import base gmap strings vector sorting numbers list.
From S2P Require Import Prelude Strconv Url Types Serialization Gossip P2P.

Definition slash : byte := x2f.

(** ** Addresses *)

Section Addresses.
Context {MA : Multiaddr}.

(** The parts of an address in the documented form. *)
Record addr_parts := { ap_proto : option bytes; ap_id : option bytes; ap_ip : bytes; ap_port : bytes }.
Definition plain (s : bytes) : Prop := colon ∉ s /\ at_sign ∉ s /\ slash ∉ s.
Definition plain_parts (a : addr_parts) : Prop :=
  from_option plain True (ap_proto a) /\ from_option plain True (ap_id a) /\ plain (ap_ip a) /\ plain (ap_port a).

(** [[protocol://][<NODE_ID>@]<IPv4>:<PORT>]. *)
Definition addr_host (a : addr_parts) : bytes :=
  match ap_id a with Some id => id ++ [at_sign] | None => [] end ++ ap_ip a ++ [colon] ++ ap_port a.
Definition addr_text (a : addr_parts) : bytes :=
  match ap_proto a with Some proto => proto ++ lit "://" | None => [] end ++ addr_host a.
(** Its multiaddress. *)
Definition addr_maddr (a : addr_parts) : result maddr :=
  try! id := match ap_id a with Some id => try! m := NewMultiaddr (lit "/p2p/" ++ id) in Ok (Some m) | None => Ok None end in
  try! m := NewMultiaddr (lit "/ip4/" ++ ap_ip a ++ lit "/" ++ default (lit "tcp") (ap_proto a) ++ lit "/" ++ ap_port a) in
  Ok (match id with Some id => ma_Encapsulate m id | None => m end).

Lemma addr_host_no_slash a : plain_parts a -> slash ∉ addr_host a.
Proof.
  intros (_ & Hid & (_ & _ & Hip) & (_ & _ & Hport)). unfold addr_host. rewrite !not_elem_of_app.
  split_and!; [|done| |done]; [destruct (ap_id a) as [id|]; simpl in Hid; [rewrite not_elem_of_app; split; [apply Hid|]|]|];
    rewrite ?not_elem_of_cons; try (split; [discriminate|]); apply not_elem_of_nil.
Qed.

Lemma split_proto a :
  plain_parts a -> match Split (addr_text a) (lit "://") with [proto; addr] => (proto, addr) | _ => (lit "tcp", addr_text a) end =
  (default (lit "tcp") (ap_proto a), addr_host a).
Proof.
  intros Ha. pose proof (addr_host_no_slash a Ha) as Hs. destruct Ha as (Hproto & _). unfold addr_text.
  assert (Hin : slash ∈ lit "://") by (vm_compute; right; left).
  destruct (ap_proto a) as [proto|]; simpl in Hproto.
  - unfold Split. destruct (length _) as [|n] eqn:En; [rewrite !length_app in En; cbn in En; lia|]. cbn [split_fuel].
    rewrite <- app_assoc. change (lit "://" ++ addr_host a) with (colon :: (lit "//" ++ addr_host a)).
    change (lit "://") with (colon :: lit "//"). rewrite cut_at_found by apply Hproto. change (colon :: lit "//") with (lit "://").
    destruct n; cbn [split_fuel]; [done|]. by rewrite (cut_at_none slash).
  - rewrite app_nil_l. by rewrite (Split_none slash).
Qed.

(** An address of the documented form is translated part by part. *)
Lemma GetMultiAddr_format a : plain_parts a -> GetMultiAddr (addr_text a) = addr_maddr a.
Proof.
  intros Ha. unfold GetMultiAddr. rewrite split_proto by done. cbv beta iota.
  destruct Ha as (_ & Hid & (Hipc & Hipa & _) & (Hpc & Hpa & _)).
  assert (Hat : at_sign ∉ ap_ip a ++ [colon] ++ ap_port a).
  { rewrite !not_elem_of_app, not_elem_of_cons. split_and!; [done|discriminate|apply not_elem_of_nil|done]. }
  assert (Hsplit : Split (ap_ip a ++ [colon] ++ ap_port a) [colon] = [ap_ip a; ap_port a]).
  { apply (Split_Join colon [ap_ip a; ap_port a]); [done|]. by repeat constructor. }
  unfold addr_host, addr_maddr. destruct (ap_id a) as [id|]; simpl in Hid.
  - rewrite <- app_assoc. change ([at_sign] ++ ap_ip a ++ [colon] ++ ap_port a) with (at_sign :: [] ++ (ap_ip a ++ [colon] ++ ap_port a)).
    rewrite cut_at_found by apply Hid. cbv beta iota. destruct (NewMultiaddr (lit "/p2p/" ++ id)); [|done..].
    cbn [result_bind]. by rewrite Hsplit.
  - rewrite app_nil_l, (cut_at_none at_sign); [|by left|done]. cbn [result_bind]. by rewrite Hsplit.
Qed.

(** ** Seeds *)

Lemma translate_seeds_run seeds ms :
  Forall2 (fun s m => s <> [] /\ GetMultiAddr s = Ok m) seeds ms -> translate_seeds seeds = Ok (ma_String <$> ms).
Proof.
  induction 1 as [|s m seeds ms [Hs Hm] _ IH]; [done|]. cbn [translate_seeds]. rewrite decide_False by done.
  rewrite Hm. cbn [result_bind]. by rewrite IH.
Qed.

Context {ML : MultiaddrLaws MA}.

Lemma seed_info_String m : seed_info (ma_String m) = match AddrInfoFromP2pAddr m with Ok info => Some info | _ => None end.
Proof. unfold seed_info. by rewrite ma_String_parse. Qed.

Lemma getSeedAddrInfo_Join ms :
  ms <> [] -> Forall (fun m => comma ∉ ma_String m /\ ma_String m <> []) ms ->
  getSeedAddrInfo (Join (ma_String <$> ms) [comma]) =
  omap (fun m => match AddrInfoFromP2pAddr m with Ok info => Some info | _ => None end) ms.
Proof.
  intros Hms Hc. unfold getSeedAddrInfo. rewrite decide_False.
  2: { destruct ms as [|m [|m2 ms]]; [done| |]; apply Forall_cons in Hc as [[_ Hne] _]; cbn; [done|]. by destruct (ma_String m). }
  rewrite Split_Join.
  - clear Hms. induction ms as [|m ms IH]; [done|]. apply Forall_cons in Hc as [_ Hc]. cbn. rewrite seed_info_String, IH by done. done.
  - by destruct ms.
  - apply Forall_fmap. eapply Forall_impl; [exact Hc|]. by intros m [? _].
Qed.

(** The seeds of Tendermint's configuration are what the DHT starts from: when all of
    them are addresses of the documented form (protocol, node id, IPv4 and port, the first
    two optional) whose multiaddresses are valid and contain no comma, the translation of
    the configuration succeeds, the client's seeds are exactly the peers of those addresses
    that name one, in order, and the listen address is that of the configuration. *)
Theorem seeds_reach_dht tm p la lm seeds ms conf :
  tc_P2P tm = Some p -> p2p_ListenAddress p = addr_text la -> plain_parts la -> addr_maddr la = Ok lm ->
  p2p_Seeds p = Join (addr_text <$> seeds) [comma] -> seeds <> [] ->
  Forall (fun s => plain_parts s /\ comma ∉ addr_text s) seeds -> Forall2 (fun s m => addr_maddr s = Ok m) seeds ms ->
  Forall (fun m => comma ∉ ma_String m /\ ma_String m <> []) ms ->
  exists conf', GetNodeConfig (Some tm) conf = (Ok tt, conf') /\
    NewMultiaddr (p2p_ListenAddress (nc_P2P conf')) = Ok lm /\
    getSeedAddrInfo (p2p_Seeds (nc_P2P conf')) = omap (fun m => match AddrInfoFromP2pAddr m with Ok info => Some info | _ => None end) ms.
Proof.
  intros Hp Hla Hlp Hlm Hse Hne Hps Hms Hc.
  assert (Hnil : forall a, addr_text a <> []).
  { intros a E. apply (f_equal length) in E. unfold addr_text, addr_host in E. rewrite !length_app in E. cbn in E. lia. }
  assert (Hsplit : Split (p2p_Seeds p) [comma] = addr_text <$> seeds).
  { rewrite Hse. apply Split_Join; [by destruct seeds|]. apply Forall_fmap. eapply Forall_impl; [exact Hps|]. by intros s [_ ?]. }
  assert (Htr : translate_seeds (addr_text <$> seeds) = Ok (ma_String <$> ms)).
  { apply translate_seeds_run, Forall2_fmap_l. clear - Hnil Hps Hms. induction Hms as [|s m seeds ms Hm _ IH]; [constructor|].
    apply Forall_cons in Hps as [[Hs _] Hps]. constructor; [|by apply IH]. split; [apply Hnil|]. by rewrite GetMultiAddr_format. }
  unfold GetNodeConfig, translateAddresses, bind, modify, gets. rewrite Hp. cbn [default from_option id nc_P2P]. unfold id. rewrite Hla, decide_False by apply Hnil.
  rewrite GetMultiAddr_format, Hlm by done. unfold lift. rewrite Hsplit, Htr. cbn [set_p2p nc_P2P p2p_ListenAddress p2p_Seeds].
  eexists. split_and!; [reflexivity|apply ma_String_parse|]. cbn [set_p2p nc_P2P p2p_Seeds]. apply getSeedAddrInfo_Join; [|done].
  destruct Hms; [done|discriminate].
Qed.
End Addresses.

(** ** Topics *)

(** The three kinds of messages. *)
Inductive topic_kind := TopicTx | TopicHeader | TopicBlock.
Definition topic (chainID : bytes) (k : topic_kind) : bytes :=
  chainID ++ match k with TopicTx => txTopicSuffix | TopicHeader => headerTopicSuffix | TopicBlock => blockTopicSuffix end.

(** Topics of different chains or of different kinds differ. *)
Lemma topic_inj chain k chain' k' : topic chain k = topic chain' k' -> chain = chain' /\ k = k'.
Proof.
  unfold topic. intros E.
  assert (Hk : k = k').
  { apply (f_equal last) in E. destruct k, k'; try done; rewrite !last_app in E; vm_compute in E; discriminate E. }
  split; [|done]. subst k'. by apply app_inv_tail in E.
Qed.

(** ** Which validator a message reaches *)

Section Gossip.
Context {MA : Multiaddr} {S : Type} {LP : Libp2p S}.

(** A call that leaves the identity and the validators as they are, whatever it returns. *)
Definition keeps {A} (c : M libp2p A) : Prop :=
  forall x, lp_ID (c x).2 = lp_ID x /\ forall t, lp_validators (c x).2 t = lp_validators x t.

(** Only [RegisterTopicValidator] sets a validator, that of its topic. *)
Class Libp2pLaws := {
  keeps_Join t : keeps (lp_Join t);
  keeps_SubscribeTopic t : keeps (lp_SubscribeTopic t);
  keeps_DHT seeds : keeps (lp_DHT seeds);
  keeps_Bootstrap : keeps lp_Bootstrap;
  keeps_Refresh : keeps lp_RefreshRoutingTable;
  keeps_Advertise ns : keeps (lp_Advertise ns);
  keeps_FindPeers ns n : keeps (lp_FindPeers ns n);
  keeps_Connect p : keeps (lp_Connect p);
  lp_Register_spec t v x x' : lp_RegisterTopicValidator t v x = (Ok tt, x') ->
    lp_ID x' = lp_ID x /\ lp_validators x' t = Some v /\ forall t', t' <> t -> lp_validators x' t' = lp_validators x t';
}.
Context {LL : Libp2pLaws}.

Lemma keeps_bind {A B} (c : M libp2p A) (k : A -> M libp2p B) : keeps c -> (forall a, keeps (k a)) -> keeps (bind c k).
Proof.
  intros Hc Hk x. unfold bind. specialize (Hc x). destruct (c x) as [[a|e|m] x1]; [|done..]. specialize (Hk a x1).
  destruct Hc as [H1 H2], Hk as [H3 H4]. split; [by rewrite H3|]. intros t. by rewrite H4.
Qed.
Lemma keeps_ret {A} (a : A) : keeps (ret a).
Proof. done. Qed.
Lemma keeps_wrap {A} msg (c : M libp2p A) : keeps c -> keeps (wrap msg c).
Proof. intros Hc x. specialize (Hc x). unfold wrap. by destruct (c x) as [[] ?]. Qed.
Lemma keeps_try {A} (c : M libp2p A) : keeps c -> keeps (try c).
Proof. intros Hc x. specialize (Hc x). unfold try. by destruct (c x) as [[] ?]. Qed.
Lemma keeps_for_each {A} (body : A -> M libp2p unit) l : (forall a, keeps (body a)) -> keeps (for_each body l).
Proof. intros Hb. induction l as [|a l IH]; cbn [for_each]; [apply keeps_ret|]. by apply keeps_bind. Qed.

Lemma keeps_rest (c : Client) : keeps (do! setupDHT c in peerDiscovery c).
Proof.
  assert (Hc : forall p, keeps (tryConnect p)) by (intros p; apply keeps_bind; [apply keeps_try, keeps_Connect|intros; apply keeps_ret]).
  apply keeps_bind; [apply keeps_bind; [apply keeps_wrap, keeps_DHT|intros _; apply keeps_wrap, keeps_Bootstrap]|intros _].
  apply keeps_bind; [apply keeps_Refresh|intros _]. apply keeps_bind; [apply keeps_Advertise|intros _].
  apply keeps_bind; [apply keeps_FindPeers|intros ps]. by apply keeps_for_each.
Qed.

Lemma NewGossiper_run t v x x' :
  NewGossiper t v x = (Ok tt, x') ->
  lp_ID x' = lp_ID x /\ lp_validators x' t = Some (wrapValidator (lp_ID x) (call_validator v)) /\
  forall t', t' <> t -> lp_validators x' t' = lp_validators x t'.
Proof.
  unfold NewGossiper. intros H. apply bind_inv_ok in H as (u1 & x1 & H1 & H). apply bind_inv_ok in H as (u2 & x2 & H2 & H).
  apply bind_inv_ok in H as (own & x3 & H3 & H). injection H3 as <- <-.
  pose proof (keeps_Join t x) as [I1 V1]. rewrite H1 in I1, V1. pose proof (keeps_SubscribeTopic t x1) as [I2 V2]. rewrite H2 in I2, V2.
  simpl in I1, V1, I2, V2. apply lp_Register_spec in H as (I3 & V3 & V3'). rewrite I2, I1 in I3, V3. split_and!; [done|done|].
  intros t' Ht. by rewrite V3', V2, V1.
Qed.

(** After the start every topic has the validator of the client, wrapped. *)
Lemma Start_validators (c : Client) x x' :
  Start c x = (Ok tt, x') ->
  lp_validators x' (topic (cl_chainID c) TopicTx) = Some (wrapValidator (lp_ID x') (call_validator (cl_txValidator c))) /\
  lp_validators x' (topic (cl_chainID c) TopicHeader) = Some (wrapValidator (lp_ID x') (call_validator (cl_headerValidator c))) /\
  lp_validators x' (topic (cl_chainID c) TopicBlock) = Some (wrapValidator (lp_ID x') (call_validator (cl_blockValidator c))).
Proof.
  unfold Start, startWithHost. intros H. apply bind_inv_ok in H as (u0 & x0 & _ & H). apply bind_inv_ok in H as (u & x1 & Hg & H).
  pose proof (keeps_rest c x1) as [Ir Vr]. rewrite H in Ir, Vr. simpl in Ir, Vr. rewrite !Vr, Ir. clear H Ir Vr.
  unfold setupGossiping in Hg. apply bind_inv_ok in Hg as (u1 & y0 & _ & H). apply bind_inv_ok in H as ([] & y1 & H1 & H).
  apply bind_inv_ok in H as ([] & y2 & H2 & H3). destruct u.
  apply NewGossiper_run in H1 as (I1 & V1 & N1), H2 as (I2 & V2 & N2), H3 as (I3 & V3 & N3).
  change (getTxTopic c) with (topic (cl_chainID c) TopicTx) in *. change (getHeaderTopic c) with (topic (cl_chainID c) TopicHeader) in *.
  change (getBlockTopic c) with (topic (cl_chainID c) TopicBlock) in *.
  split_and!.
  - rewrite N3, N2, V1 by (intros E; apply topic_inj in E as [_ E]; done). by rewrite I3, I2, I1.
  - rewrite N3, V2 by (intros E; apply topic_inj in E as [_ E]; done). by rewrite I3, I2.
  - by rewrite V3, I3.
Qed.

(** C29: which validator a message reaches once the client of a node has started: the node
    sets the validators of transactions and of blocks, so a message of another peer on the
    topic of transactions is decided by the first and one on the topic of blocks by the
    second, the node's own messages pass unhandled; but the validator of headers is never
    set, and any message of another peer on the topic of headers makes the node panic. *)
Theorem gossip_reaches_validators conf k chainID txv blockv (c0 : Client) x x' :
  NewClient conf (Some k) chainID = Ok c0 -> Start (SetBlockValidator blockv (SetTxValidator txv c0)) x = (Ok tt, x') ->
  forall msg,
    (gm_From msg = lp_ID x' -> forall kind, deliver x' (topic chainID kind) msg = ret true) /\
    (gm_From msg <> lp_ID x' ->
       deliver x' (topic chainID TopicTx) msg = txv msg /\ deliver x' (topic chainID TopicBlock) msg = blockv msg /\
       deliver x' (topic chainID TopicHeader) msg = panic "nil pointer dereference").
Proof.
  intros Hn Hs msg. injection Hn as <-. apply Start_validators in Hs as (Ht & Hh & Hb). 
  cbn [cl_chainID cl_txValidator cl_headerValidator cl_blockValidator SetBlockValidator SetTxValidator] in Ht, Hh, Hb.
  unfold deliver. split.
  - intros Hown []; rewrite ?Ht, ?Hh, ?Hb; unfold wrapValidator; by rewrite decide_True.
  - intros Hother. rewrite Ht, Hh, Hb. unfold wrapValidator. by rewrite !decide_False.
Qed.
End Gossip.
