(* ===== verification/P2PRuns.v ===== *)
(** * P2PRuns: the p2p client on a concrete network

    Instances of the multiaddr library and of libp2p, and the witnesses of P2PSpec.v. *)
From stdpp Require Import base gmap strings vector sorting numbers list.
From S2P Require Import Prelude Strconv Url Types Serialization Gossip P2P P2PSpec.

(** An address is its text after the first slash; the peer follows [p2p/]. *)
Definition text_maddr : Multiaddr := {|
  maddr := bytes;
  AddrInfo := bytes;
  NewMultiaddr s := match s with x2f :: m => Ok m | _ => Err (New "failed to parse multiaddr") end;
  ma_String m := slash :: m;
  ma_Encapsulate m id := m ++ slash :: id;
  AddrInfoFromP2pAddr m := match cut_at (lit "p2p/") m with Some (_, id) => Ok id | None => Err (New "invalid p2p multiaddr") end;
|}.
#[local] Existing Instance text_maddr.
#[local] Instance text_maddr_laws : MultiaddrLaws text_maddr.
Proof. by split. Qed.

(** A host with the validators of its topics; the state of the node is what was handled. *)
Definition handled : Type := list bytes.
Definition toy_libp2p : Libp2p handled := {|
  libp2p := bytes * (bytes -> option (GossipValidator handled));
  key := bytes;
  lp_New _ k := modify (fun x => (k, x.2));
  lp_ID x := x.1;
  lp_NewGossipSub := modify (fun x => (x.1, fun _ => None));
  lp_Join _ := ret tt;
  lp_SubscribeTopic _ := ret tt;
  lp_RegisterTopicValidator t v := modify (fun x => (x.1, fun t' => if decide (t' = t) then Some v else x.2 t'));
  lp_UnregisterTopicValidator t := modify (fun x => (x.1, fun t' => if decide (t' = t) then None else x.2 t'));
  lp_CancelSubscription _ x := x;
  lp_CloseTopic _ := ret tt;
  lp_Publish _ _ := ret tt;
  lp_validators x := x.2;
  lp_DHT _ := ret tt;
  lp_Bootstrap := ret tt;
  lp_RefreshRoutingTable := ret tt;
  lp_Advertise _ := ret tt;
  lp_FindPeers _ _ := ret [];
  lp_Connect _ := ret tt;
  lp_CloseDHT := ret tt;
  lp_CloseHost := fail (New "already closed");
|}.
#[local] Existing Instance toy_libp2p.
#[local] Instance toy_libp2p_laws : Libp2pLaws.
Proof.
  split; try done. intros t v x x' H. injection H as <-. cbn. split_and!; [done|by rewrite decide_True|].
  intros t' Ht. by rewrite decide_False.
Qed.

(** ** Witnesses *)

Definition seed1 : addr_parts :=
  {| ap_proto := None; ap_id := Some (lit "peer1"); ap_ip := lit "10.0.0.1"; ap_port := lit "7676" |}.
Definition seed2 : addr_parts := {| ap_proto := Some (lit "udp"); ap_id := None; ap_ip := lit "10.0.0.2"; ap_port := lit "7676" |}.
Definition listening : addr_parts := {| ap_proto := Some (lit "tcp"); ap_id := None; ap_ip := lit "0.0.0.0"; ap_port := lit "26656" |}.
Definition tm_p2p : P2PConfig :=
  {| p2p_ListenAddress := lit "tcp://0.0.0.0:26656"; p2p_Seeds := lit "peer1@10.0.0.1:7676,udp://10.0.0.2:7676" |}.
Definition tm_config : TmConfig := {| tc_RootDir := []; tc_DBPath := []; tc_P2P := Some tm_p2p; tc_RPC := None |}.
Definition empty_config : NodeConfig := {|
  nc_RootDir := []; nc_DBPath := []; nc_P2P := {| p2p_ListenAddress := []; p2p_Seeds := [] |};
  nc_RPC := {| rpc_ListenAddress := []; rpc_CORSAllowedOrigins := []; rpc_CORSAllowedMethods := []; rpc_CORSAllowedHeaders := [];
               rpc_MaxOpenConnections := 0; rpc_TLSCertFile := []; rpc_TLSKeyFile := [] |} |}.

#[local] Instance plain_dec s : Decision (plain s).
Proof. apply _. Defined.
#[local] Instance plain_parts_dec a : Decision (plain_parts a).
Proof. unfold plain_parts. destruct (ap_proto a), (ap_id a); simpl; apply _. Defined.

Lemma seeds_reach_dht_witness :
  exists conf', GetNodeConfig (Some tm_config) empty_config = (Ok tt, conf') /\
    NewMultiaddr (p2p_ListenAddress (nc_P2P conf')) = Ok (lit "ip4/0.0.0.0/tcp/26656") /\
    getSeedAddrInfo (p2p_Seeds (nc_P2P conf')) = [lit "peer1"].
Proof.
  refine (seeds_reach_dht tm_config tm_p2p listening (lit "ip4/0.0.0.0/tcp/26656") [seed1; seed2]
            [lit "ip4/10.0.0.1/tcp/7676/p2p/peer1"; lit "ip4/10.0.0.2/udp/7676"] empty_config eq_refl eq_refl _ _ _ _ _ _ _).
  - apply (bool_decide_eq_true_1 (plain_parts _)). vm_compute. reflexivity.
  - vm_compute. reflexivity.
  - vm_compute. reflexivity.
  - discriminate.
  - repeat constructor; apply (bool_decide_eq_true_1 _); vm_compute; reflexivity.
  - repeat constructor.
  - repeat constructor; try discriminate; apply (bool_decide_eq_true_1 (_ ∉ _)); vm_compute; reflexivity.
Defined.

(** A default listen address, already a multiaddress, is refused by the translation. *)
Example default_address_refused : GetMultiAddr DefaultListenAddress = Err errInvalidAddress.
Proof. vm_compute. reflexivity. Qed.

Definition keep_tx : GossipValidator handled := fun msg => do! modify (cons (gm_Data msg)) in ret true.
Definition refuse_block : GossipValidator handled := fun msg => ret false.
Definition node_client : Client := {|
  cl_ListenAddress := lit "/ip4/0.0.0.0/tcp/26656"; cl_Seeds := []; cl_chainID := lit "rollapp"; cl_privKey := (lit "me" : @key _ _ toy_libp2p);
  cl_txValidator := None; cl_headerValidator := None; cl_blockValidator := None |}.
Definition started := (Start (SetBlockValidator refuse_block (SetTxValidator keep_tx node_client)) ([], fun _ => None)).2.

Lemma gossip_reaches_validators_witness :
  let msg := {| gm_Data := lit "junk"; gm_From := lit "other" |} in
  deliver started (lit "rollapp-tx") msg [] = (Ok true, [lit "junk"]) /\
  deliver started (lit "rollapp-header") msg [] = (Panic "nil pointer dereference", []).
Proof.
  cbv zeta. destruct (gossip_reaches_validators {| p2p_ListenAddress := lit "/ip4/0.0.0.0/tcp/26656"; p2p_Seeds := [] |} (lit "me" : @key _ _ toy_libp2p) (lit "rollapp")
    keep_tx refuse_block node_client ([], fun _ => None) started eq_refl eq_refl {| gm_Data := lit "junk"; gm_From := lit "other" |}) as [_ H].
  destruct H as (Ht & _ & Hh); [vm_compute; discriminate|].
  change (lit "rollapp-tx") with (topic (lit "rollapp") TopicTx). change (lit "rollapp-header") with (topic (lit "rollapp") TopicHeader).
  rewrite Ht, Hh. split; reflexivity.
Defined.

(** Closing runs every step and reports the errors of all of them. *)
Example close_reports : (Close node_client started).1 = Err (New "already closed").
Proof. vm_compute. reflexivity. Qed.
