(* ===== verification/LayerStart.v ===== *)
(** * LayerStart: the configuration and the start of the layer clients

    Models [Init], the options and the defaults of the Celestia, Avail and gRPC clients
    (da/celestia/celestia.go and config.go, da/avail/avail.go, da/grpc/grpc.go), and of the mock
    settlement client (settlement/mock/mock.go).  The JSON decoder, the clients of the
    networks and the key files are parameters; a [float64] is what those parameters give. *)
From stdpp Require Import base gmap strings vector sorting numbers list.
From S2P Require Import Prelude Strconv KVStore Types Layers Settlement Dymension HubEvents.

Definition second : Z := 1000000000.

(** ** Celestia *)

Section Celestia.
(** What the client uses of encoding/json, the Tendermint RPC client and go-cnc. *)
Context {float namespace rpc cnc : Type}.

(** [celestia.Config]. *)
Record CelestiaConf := {
  ccf_BaseURL : string;
  ccf_AppNodeURL : string;
  ccf_Timeout : Z;
  ccf_Fee : Z;
  ccf_GasPrices : float;
  ccf_GasAdjustment : float;
  ccf_GasLimit : Z;
  ccf_NamespaceIDStr : bytes;
  ccf_NamespaceID : option namespace;
}.

Record CelestiaLibs := {
  clb_json : bytes -> result CelestiaConf;           (* onto a zero configuration *)
  clb_zero : float -> bool;                          (* == 0 *)
  clb_defaultGasAdjustment : float;                  (* 1.3 *)
  clb_NamespaceIDSize : nat;
  clb_New : Z -> bytes -> result namespace;          (* cnc.New *)
  clb_rpc : string -> result rpc;                    (* httprpcclient.New *)
  clb_client : string -> Z -> result cnc;            (* cnc.NewClient with the timeout *)
}.
Context (L : CelestiaLibs).

(** [DataAvailabilityLayerClient]; durations in nanoseconds. *)
Record CelestiaClient := {
  ccl_config : CelestiaConf;
  ccl_RPCClient : rpc;
  ccl_client : cnc;
  ccl_txPollingRetryDelay : Z;
  ccl_txPollingAttempts : Z;
  ccl_submitRetryDelay : Z;
}.

Definition namespaceVersion : Z := 0.
Definition defaultTxPollingRetryDelay : Z := 20 * second.
Definition defaultSubmitRetryDelay : Z := 10 * second.
Definition defaultTxPollingAttempts : Z := 5.

Definition set_NamespaceID (n : namespace) (c : CelestiaConf) : CelestiaConf :=
  {| ccf_BaseURL := ccf_BaseURL c; ccf_AppNodeURL := ccf_AppNodeURL c; ccf_Timeout := ccf_Timeout c; ccf_Fee := ccf_Fee c;
     ccf_GasPrices := ccf_GasPrices c; ccf_GasAdjustment := ccf_GasAdjustment c; ccf_GasLimit := ccf_GasLimit c;
     ccf_NamespaceIDStr := ccf_NamespaceIDStr c; ccf_NamespaceID := Some n |}.
Definition set_GasAdjustment (x : float) (c : CelestiaConf) : CelestiaConf :=
  {| ccf_BaseURL := ccf_BaseURL c; ccf_AppNodeURL := ccf_AppNodeURL c; ccf_Timeout := ccf_Timeout c; ccf_Fee := ccf_Fee c;
     ccf_GasPrices := ccf_GasPrices c; ccf_GasAdjustment := x; ccf_GasLimit := ccf_GasLimit c;
     ccf_NamespaceIDStr := ccf_NamespaceIDStr c; ccf_NamespaceID := ccf_NamespaceID c |}.

(** Zeros in front up to the size of a namespace; [make] panics on a negative length. *)
Definition pad_namespace (bs : bytes) : result bytes :=
  if decide (length bs = clb_NamespaceIDSize L) then Ok bs
  else if decide (clb_NamespaceIDSize L < length bs) then Panic "makeslice: len out of range"
  else Ok (replicate (clb_NamespaceIDSize L - length bs) Byte.x00 ++ bs).

Definition InitNamespaceID (c : CelestiaConf) : result CelestiaConf :=
  try! namespaceBytes := hex_DecodeString (ccf_NamespaceIDStr c) in
  try! namespaceBytes := pad_namespace namespaceBytes in
  try! n := clb_New L namespaceVersion namespaceBytes in
  Ok (set_NamespaceID n c).

(** An option changes the client. *)
Definition Init_celestia (config : bytes) (options : list (CelestiaClient -> CelestiaClient)) : result CelestiaClient :=
  if decide (length config <= 0) then Err (New "config is empty")
  else
    try! c := clb_json L config in
    try! c := InitNamespaceID c in
    if negb (clb_zero L (ccf_GasPrices c)) && negb (ccf_Fee c =? 0)%Z then Err (New "can't set both gas prices and fee")
    else if (ccf_Fee c =? 0)%Z && clb_zero L (ccf_GasPrices c) then Err (New "fee or gas prices must be set")
    else
      let c := if clb_zero L (ccf_GasAdjustment c) then set_GasAdjustment (clb_defaultGasAdjustment L) c else c in
      try! r := clb_rpc L (ccf_AppNodeURL c) in
      try! n := clb_client L (ccf_BaseURL c) (ccf_Timeout c) in
      Ok (foldl (fun cl apply => apply cl)
            {| ccl_config := c; ccl_RPCClient := r; ccl_client := n; ccl_txPollingRetryDelay := defaultTxPollingRetryDelay;
               ccl_txPollingAttempts := defaultTxPollingAttempts; ccl_submitRetryDelay := defaultSubmitRetryDelay |} options).

Definition WithCNCClient (n : cnc) (c : CelestiaClient) : CelestiaClient :=
  {| ccl_config := ccl_config c; ccl_RPCClient := ccl_RPCClient c; ccl_client := n; ccl_txPollingRetryDelay := ccl_txPollingRetryDelay c;
     ccl_txPollingAttempts := ccl_txPollingAttempts c; ccl_submitRetryDelay := ccl_submitRetryDelay c |}.
Definition WithRPCClient (r : rpc) (c : CelestiaClient) : CelestiaClient :=
  {| ccl_config := ccl_config c; ccl_RPCClient := r; ccl_client := ccl_client c; ccl_txPollingRetryDelay := ccl_txPollingRetryDelay c;
     ccl_txPollingAttempts := ccl_txPollingAttempts c; ccl_submitRetryDelay := ccl_submitRetryDelay c |}.
Definition WithTxPollingRetryDelay (t : Z) (c : CelestiaClient) : CelestiaClient :=
  {| ccl_config := ccl_config c; ccl_RPCClient := ccl_RPCClient c; ccl_client := ccl_client c; ccl_txPollingRetryDelay := t;
     ccl_txPollingAttempts := ccl_txPollingAttempts c; ccl_submitRetryDelay := ccl_submitRetryDelay c |}.
Definition WithTxPollingAttempts (n : Z) (c : CelestiaClient) : CelestiaClient :=
  {| ccl_config := ccl_config c; ccl_RPCClient := ccl_RPCClient c; ccl_client := ccl_client c; ccl_txPollingRetryDelay := ccl_txPollingRetryDelay c;
     ccl_txPollingAttempts := n; ccl_submitRetryDelay := ccl_submitRetryDelay c |}.
Definition WithSubmitRetryDelay (t : Z) (c : CelestiaClient) : CelestiaClient :=
  {| ccl_config := ccl_config c; ccl_RPCClient := ccl_RPCClient c; ccl_client := ccl_client c; ccl_txPollingRetryDelay := ccl_txPollingRetryDelay c;
     ccl_txPollingAttempts := ccl_txPollingAttempts c; ccl_submitRetryDelay := t |}.

(** A client that [Init] returned has exactly one source of fees, a namespace of the right
    size made of the configured bytes, and a gas adjustment. *)
Lemma Init_celestia_ok config c :
  Init_celestia config [] = Ok c -> clb_zero L (clb_defaultGasAdjustment L) = false ->
  (ccf_Fee (ccl_config c) = 0%Z <-> clb_zero L (ccf_GasPrices (ccl_config c)) = false) /\
  clb_zero L (ccf_GasAdjustment (ccl_config c)) = false /\
  exists bs k n, hex_DecodeString (ccf_NamespaceIDStr (ccl_config c)) = Ok bs /\
    clb_New L namespaceVersion (replicate k Byte.x00 ++ bs) = Ok n /\ k + length bs = clb_NamespaceIDSize L /\
    ccf_NamespaceID (ccl_config c) = Some n.
Proof.
  unfold Init_celestia, InitNamespaceID. intros H Hd. case_decide; [done|].
  destruct (clb_json L config) as [c0| |]; cbn -[hex_DecodeString] in H; [|done..].
  destruct (hex_DecodeString (ccf_NamespaceIDStr c0)) as [bs| |] eqn:Eh; cbn in H; [|done..].
  destruct (pad_namespace bs) as [bs'| |] eqn:Ep; cbn in H; [|done..].
  destruct (clb_New L namespaceVersion bs') as [n| |] eqn:En; cbn in H; [|done..].
  destruct (clb_zero L (ccf_GasPrices c0)) eqn:Eg, (Z.eqb_spec (ccf_Fee c0) 0) as [Ef|Ef]; cbn in H; try done;
    destruct (clb_rpc _ _); cbn in H; try done; destruct (clb_client _ _ _); cbn in H; try done; simplify_eq; cbn;
    (split; [destruct (clb_zero L (ccf_GasAdjustment c0)); cbn; rewrite Eg; naive_solver|]);
    (split; [destruct (clb_zero L (ccf_GasAdjustment c0)) eqn:Ea; cbn; done|]);
    (unfold pad_namespace in Ep; repeat case_decide; simplify_eq;
     [exists bs', 0, n|exists bs, (clb_NamespaceIDSize L - length bs), n];
     destruct (clb_zero L (ccf_GasAdjustment c0)); cbn; split_and!; try done; lia).
Qed.
End Celestia.

(** ** Avail *)

Section Avail.
Context {api : Type}.

(** [avail.Config]. *)
Record AvailConf := { avf_Seed : string; avf_ApiURL : string; avf_AppID : Z; avf_Tip : Z }.
Definition zero_AvailConf : AvailConf := {| avf_Seed := ""; avf_ApiURL := ""; avf_AppID := 0; avf_Tip := 0 |}.

Record AvailClient := {
  avc_config : AvailConf;
  avc_client : option api;
  avc_txInclusionTimeout : Z;
  avc_batchRetryDelay : Z;
  avc_batchRetryAttempts : Z;
}.

Definition defaultTxInculsionTimeout : Z := 100 * second.
Definition defaultBatchRetryDelay : Z := 10 * second.
Definition defaultBatchRetryAttempts : Z := 10.

Definition WithClient_avail (a : api) (c : AvailClient) : AvailClient :=
  {| avc_config := avc_config c; avc_client := Some a; avc_txInclusionTimeout := avc_txInclusionTimeout c;
     avc_batchRetryDelay := avc_batchRetryDelay c; avc_batchRetryAttempts := avc_batchRetryAttempts c |}.
Definition WithTxInclusionTimeout (t : Z) (c : AvailClient) : AvailClient :=
  {| avc_config := avc_config c; avc_client := avc_client c; avc_txInclusionTimeout := t;
     avc_batchRetryDelay := avc_batchRetryDelay c; avc_batchRetryAttempts := avc_batchRetryAttempts c |}.
Definition WithBatchRetryDelay_avail (t : Z) (c : AvailClient) : AvailClient :=
  {| avc_config := avc_config c; avc_client := avc_client c; avc_txInclusionTimeout := avc_txInclusionTimeout c;
     avc_batchRetryDelay := t; avc_batchRetryAttempts := avc_batchRetryAttempts c |}.
Definition WithBatchRetryAttempts_avail (n : Z) (c : AvailClient) : AvailClient :=
  {| avc_config := avc_config c; avc_client := avc_client c; avc_txInclusionTimeout := avc_txInclusionTimeout c;
     avc_batchRetryDelay := avc_batchRetryDelay c; avc_batchRetryAttempts := n |}.

(** [json] decodes onto a zero configuration; [NewSubstrateAPI] connects. *)
Definition Init_avail (json : bytes -> result AvailConf) (NewSubstrateAPI : string -> result api)
    (config : bytes) (options : list (AvailClient -> AvailClient)) : result AvailClient :=
  try! conf := (if decide (0 < length config) then json config else Ok zero_AvailConf) in
  let c := foldl (fun cl apply => apply cl)
             {| avc_config := conf; avc_client := None; avc_txInclusionTimeout := defaultTxInculsionTimeout;
                avc_batchRetryDelay := defaultBatchRetryDelay; avc_batchRetryAttempts := defaultBatchRetryAttempts |} options in
  match avc_client c with
  | Some _ => Ok c
  | None => try! a := NewSubstrateAPI (avf_ApiURL (avc_config c)) in Ok (WithClient_avail a c)
  end.

(** A client that [Init] returned has a connection. *)
Lemma Init_avail_connected json new config options c : Init_avail json new config options = Ok c -> is_Some (avc_client c).
Proof.
  unfold Init_avail. destruct (if decide _ then _ else _) as [conf| |]; cbn; [|done..]. set (c0 := foldl _ _ _).
  destruct (avc_client c0) as [a|] eqn:E; [intros [= <-]; by rewrite E|].
  destruct (new _) as [a| |]; cbn; [|done..]. intros [= <-]. by eexists.
Qed.
End Avail.

(** ** gRPC *)

Section Grpc.
Context {conn : Type}.

Record GrpcConf := { gcf_Host : string; gcf_Port : Z }.
Definition DefaultConfig_grpc : GrpcConf := {| gcf_Host := "127.0.0.1"; gcf_Port := 7980 |}.

Definition Init_grpc (json : bytes -> result GrpcConf) (config : bytes) : result GrpcConf :=
  if decide (length config = 0) then Ok DefaultConfig_grpc else json config.

Definition Start_grpc (Dial : string -> result conn) (c : GrpcConf) : result conn :=
  Dial (gcf_Host c ++ ":" ++ String.string_of_list_ascii (FormatInt (gcf_Port c)))%string.
End Grpc.

(** ** The mock settlement client *)

Section MockSettlement.
Context {T : Tendermint} {K : KVStore} {J : SLJson}.

(** The stores, the random key and the key file. *)
Class MockSettlementDeps := {
  ms_in_memory : result db;                            (* NewDefaultInMemoryKVStore: an error panics *)
  ms_open : string -> string -> string -> result db;   (* NewDefaultKVStore *)
  ms_GenerateKey : result bytes;                       (* a new Ed25519 public key *)
  ms_LoadOrGenNodeKey : string -> result bytes;        (* the public key of a key file *)
  ms_Join : string -> string -> string;
  ms_decode : bytes -> result PubKey;                  (* the key of a hex text *)
}.
Context {D : MockSettlementDeps}.

Definition kvStoreDBName : string := "settlement".

Definition opened (r : result db) : result db := match r with Ok d => Ok d | _ => Panic "failed to open the database" end.

(** The store and the hex text of the proposer's key. *)
Definition initConfig (conf : SLConfig) : result (db * bytes) :=
  if decide (sc_KeyringHomeDir conf = "") then
    try! slstore := opened ms_in_memory in
    if decide (sc_ProposerPubKey conf <> "") then Ok (slstore, lit (sc_ProposerPubKey conf))
    else try! key := ms_GenerateKey in Ok (slstore, hex_EncodeToString key)
  else
    try! slstore := opened (ms_open (sc_KeyringHomeDir conf) "data" kvStoreDBName) in
    try! key := ms_LoadOrGenNodeKey (ms_Join (sc_KeyringHomeDir conf) "config/priv_validator_key.json") in
    Ok (slstore, hex_EncodeToString key).

Definition newHubClient_mock (conf : SLConfig) : result MockHub :=
  try! (slstore, proposer) := initConfig conf in
  newHubClient (ms_decode proposer) slstore.

(** [LayerClient.Init] of the mock. *)
Definition LayerClient_Init_mock (conf : SLConfig)
    (options : list (@BaseLayerClient T MockHubClient -> @BaseLayerClient T MockHubClient)) : result (@BaseLayerClient T MockHubClient) :=
  try! hubClientMock := newHubClient_mock conf in
  let b := {| bl_latestHeight := 0; bl_sequencersList := []; bl_RollappID := sc_RollappID conf;
              bl_client := hubClientMock : @hub T MockHubClient; bl_emitted := [] |} in
  match Init_base (H := MockHubClient) (foldl (fun b option => option b) b options) with
  | (Ok _, b) => Ok b
  | (Err e, _) => Err e
  | (Panic m, _) => Panic m
  end.
End MockSettlement.
