(* ===== verification/NodeStart.v ===== *)
(** * NodeStart: building, starting and stopping a node

    Models [NewNode], [OnStart], [OnStop] and [createAndStartIndexerService] of node/node.go
    with the registries of the two layers (da/registry, settlement/registry), the checks and
    defaults of the configuration (config/config.go, config/defaults.go), the choice of the
    database (store/kv.go), the start of the settlement client (settlement/base.go) and of the
    manager's loops (block/manager.go), and the loop over a subscription (utils/events.go).
    The components are the interfaces the node holds them by; which services run is part of
    the state. *)
From stdpp Require Import base gmap strings vector sorting numbers list.
From S2P Require Import Prelude Strconv KVStore Types Serialization Concrete Store StoreSpec Conv Executor Gossip Layers Manager ManagerLoops ConcreteNode Settlement Dymension HubEvents Url P2P.

(** ** Configuration *)

(** [config.NodeConfig]; the fields translated from Tendermint's are those of P2P.v. *)
Record Config := {
  cf_base : NodeConfig;
  cf_Aggregator : bool;
  cf_BlockManagerConfig : BlockManagerConfig;
  cf_DALayer : string;
  cf_DAConfig : string;
  cf_SettlementLayer : string;
  cf_SettlementConfig : SLConfig;
  cf_Instrumentation : option (bool * string);   (* Prometheus, PrometheusListenAddr *)
}.

Definition NodeConfig_Validate (c : Config) : result unit :=
  try! _ := BlockManagerConfig_Validate (cf_BlockManagerConfig c) in
  if negb (bool_decide (cf_SettlementLayer c = "mock")) then SLConfig_Validate (cf_SettlementConfig c) else Ok tt.

Definition DefaultHomeDir : string := "sequencer_keys".
Definition DefaultChainID : string := "dymint-testnet".
Definition Millisecond : Z := 1000000.
Definition Second : Z := 1000 * Millisecond.

(** [DefaultConfig]; [join] is [filepath.Join]. *)
Definition DefaultConfig (join : string -> string -> string) (home chainId : string) : Config :=
  let keyringDir := join (if bool_decide (home = "") then "/tmp" else home) DefaultHomeDir in
  let chainId := if bool_decide (chainId = "") then DefaultChainID else chainId in
  {| cf_base := {| nc_RootDir := []; nc_DBPath := []; nc_P2P := {| p2p_ListenAddress := DefaultListenAddress; p2p_Seeds := [] |};
                   nc_RPC := {| rpc_ListenAddress := []; rpc_CORSAllowedOrigins := []; rpc_CORSAllowedMethods := [];
                                rpc_CORSAllowedHeaders := []; rpc_MaxOpenConnections := 0; rpc_TLSCertFile := []; rpc_TLSKeyFile := [] |} |};
     cf_Aggregator := true;
     cf_BlockManagerConfig := {| bc_BlockTime := 200 * Millisecond; bc_EmptyBlocksMaxTime := 3 * Second;
                                 bc_BatchSubmitMaxTime := 30 * Second; bc_NamespaceID := "000000000000ffff";
                                 bc_BlockBatchSize := 500; bc_BlockBatchMaxSizeBytes := 500000 |};
     cf_DALayer := "mock"; cf_DAConfig := ""; cf_SettlementLayer := "mock";
     cf_SettlementConfig := {| sc_KeyringBackend := "test"; sc_NodeAddress := "http://127.0.0.1:36657"; sc_KeyringHomeDir := keyringDir;
                               sc_DymAccountName := "sequencer"; sc_RollappID := chainId; sc_GasLimit := 0;
                               sc_GasPrices := "0.025udym"; sc_GasFees := ""; sc_ProposerPubKey := "" |};
     cf_Instrumentation := Some (false, ":2112") |}.

(** The default configuration is one that the node accepts. *)
Example default_config_valid : NodeConfig_Validate (DefaultConfig (fun a b => a ++ "/" ++ b)%string "" "") = Ok tt.
Proof. reflexivity. Qed.

(** ** Registries *)

Inductive DAKind := DAMock | DAGrpc | DACelestia | DAAvail.
Inductive SLKind := SLMock | SLDymension.
#[global] Instance DAKind_eq_dec : EqDecision DAKind.
Proof. solve_decision. Defined.
#[global] Instance SLKind_eq_dec : EqDecision SLKind.
Proof. solve_decision. Defined.

(** The maps from a name to the constructor of a client. *)
Definition da_clients : gmap string DAKind :=
  list_to_map [("mock", DAMock); ("grpc", DAGrpc); ("celestia", DACelestia); ("avail", DAAvail)].
Definition sl_clients : gmap string SLKind := list_to_map [("mock", SLMock); ("dymension", SLDymension)].

Definition da_GetClient (name : string) : option DAKind := da_clients !! name.
Definition sl_GetClient (client : string) : option SLKind := sl_clients !! client.
Definition da_RegisteredClients : list string := (map_to_list da_clients).*1.
Definition sl_RegisteredClients : list string := (map_to_list sl_clients).*1.

(** ** A subscription (utils/events.go) *)

Inductive SubSelect (E : Type) := SubDone | SubEvent (event : E) | SubCancelled.
Arguments SubDone {E}.
Arguments SubEvent {E} event.
Arguments SubCancelled {E}.

(** What the select receives, in order: [true] when the loop has returned. *)
Fixpoint handle_events {S E} (callback : E -> M S unit) (sels : list (SubSelect E)) : M S bool :=
  match sels with
  | [] => ret false
  | SubDone :: _ | SubCancelled :: _ => ret true
  | SubEvent event :: sels => do! callback event in handle_events callback sels
  end.

Definition SubscribeAndHandleEvents {S E} (subscribe : M S unit) (callback : E -> M S unit) (sels : list (SubSelect E)) : M S bool :=
  let! r := try subscribe in
  match r with inl _ => panic "failed to subscribe" | inr _ => handle_events callback sels end.

Definition SubmitEventOrPanic {S} (publish : M S unit) : M S unit :=
  let! r := try publish in
  match r with inl _ => panic "failed to publish" | inr _ => ret tt end.

(** ** The node *)

(** What a node starts. *)
Inductive Service :=
| SvcProxyApp | SvcEventBus | SvcDB | SvcIndexer                        (* by NewNode *)
| SvcP2P | SvcPubSub | SvcDA | SvcSettlement | SvcPrometheus | SvcHealthListeners
| SvcProduceBlockLoop | SvcSubmitLoop | SvcRetriveLoop | SvcSyncTargetLoop | SvcNodeHealthHandler | SvcApplyBlockLoop.
#[global] Instance Service_eq_dec : EqDecision Service.
Proof. solve_decision. Defined.

Definition mainPrefix : bytes := [Byte.x00].
Definition dalcPrefix : bytes := [Byte.x01].
Definition indexerPrefix : bytes := [Byte.x02].

Section Start.
Context {T : Tendermint} {W : Wire} (K0 : KVStore).
(** The store of the blocks is the part of the database under its prefix. *)
#[local] Instance mainKV : KVStore := PrefixKV K0 mainPrefix.
Context {TV : TmValidators} {A : App} {MP : MempoolI}
  {EB : EventBus} {G : GossipWire} {DA : DALayer} {SL : SettlementLayer} {P : P2PClient} {PK : ProposerKey}.

(** The constructors and the lifecycle of the components, and what the libraries do. *)
Class NodeDeps := {
  nd_ProxyApp_Start : result app;
  nd_EventBus_Start : result event_bus;
  nd_Join : bytes -> bytes -> bytes;                                 (* filepath.Join *)
  nd_IsAbs : bytes -> bool;                                          (* filepath.IsAbs *)
  nd_badger_Open : option bytes -> result (@db K0);                  (* a path, or in memory *)
  nd_DA_Init : DAKind -> string -> result dalc;
  nd_SL_Init : SLKind -> SLConfig -> result slc;
  nd_Indexer_Start : result unit;                                    (* IndexerService.Start *)
  nd_NewTxMempool : app -> mempool;
  nd_P2P_NewClient : P2PConfig -> string -> result p2pc;
  nd_hex_decode : string -> result bytes;
  nd_P2P_Start : result unit;
  nd_PubSub_Start : result unit;
  nd_PubSub_Stop : result unit;
  nd_grpc_Dial : result unit;
  nd_grpc_Close : result unit;
  nd_StartEventListener : result unit;                               (* of the Dymension hub client *)
  nd_StopEventListener : result unit;
  nd_P2P_Close : result unit;
}.
Context {ND : NodeDeps}.

(** The services that run. *)
Definition Running : Type := list Service.
Definition started (svc : Service) : M Running unit := modify (fun l => l ++ [svc]).
Definition stopped (svc : Service) : M Running unit := modify (filter (fun s => s <> svc)).

(** ** The database (store/kv.go) *)

Definition rootify (rootDir dbPath : bytes) : bytes := if nd_IsAbs dbPath then dbPath else nd_Join rootDir dbPath.

(** [if err != nil { panic(err) }]. *)
Definition open_or_panic (path : option bytes) : M Running (@db K0) :=
  match nd_badger_Open path with
  | Ok d => do! started SvcDB in ret d
  | _ => panic "failed to open the database"
  end.
Definition NewDefaultInMemoryKVStore : M Running (@db K0) := open_or_panic None.
Definition NewDefaultKVStore (rootDir dbPath dbName : bytes) : M Running (@db K0) :=
  open_or_panic (Some (nd_Join (rootify rootDir dbPath) dbName)).

(** ** Construction *)

Record NodeObject := {
  no_conf : Config;
  no_dalc : DAKind;
  no_settlementlc : SLKind;
  no_managerConf : ManagerConf;
  no_manager : Manager;
}.

Definition createAndStartIndexerService : M Running unit :=
  do! lift nd_Indexer_Start in
  started SvcIndexer.

(** The settlement configuration of a mock layer: the keys are in the root directory. *)
Definition settlement_config (conf : Config) : SLConfig :=
  let c := cf_SettlementConfig conf in
  if bool_decide (cf_SettlementLayer conf = "mock") then
    {| sc_KeyringBackend := sc_KeyringBackend c; sc_NodeAddress := sc_NodeAddress c;
       sc_KeyringHomeDir := String.string_of_list_byte (nc_RootDir (cf_base conf));
       sc_DymAccountName := sc_DymAccountName c; sc_RollappID := sc_RollappID c; sc_GasLimit := sc_GasLimit c;
       sc_GasPrices := sc_GasPrices c; sc_GasFees := sc_GasFees c; sc_ProposerPubKey := sc_ProposerPubKey c |}
  else c.

Definition with_settlement_config (c : SLConfig) (conf : Config) : Config :=
  {| cf_base := cf_base conf; cf_Aggregator := cf_Aggregator conf; cf_BlockManagerConfig := cf_BlockManagerConfig conf;
     cf_DALayer := cf_DALayer conf; cf_DAConfig := cf_DAConfig conf; cf_SettlementLayer := cf_SettlementLayer conf;
     cf_SettlementConfig := c; cf_Instrumentation := cf_Instrumentation conf |}.

Definition NewNode (conf : Config) (genesis : GenesisDoc) : M Running NodeObject :=
  let! proxyApp := wrap "error starting proxy app connections" (lift nd_ProxyApp_Start) in
  do! started SvcProxyApp in
  let! eventBus := lift nd_EventBus_Start in
  do! started SvcEventBus in
  let base := cf_base conf in
  let! baseKV := if decide (nc_RootDir base = [] /\ nc_DBPath base = []) then NewDefaultInMemoryKVStore
                 else NewDefaultKVStore (nc_RootDir base) (nc_DBPath base) (lit "dymint") in
  let s := New_store (K := mainKV) baseKV in
  let! (dak, dalc) := match da_GetClient (cf_DALayer conf) with
               | None => fail (New ("couldn't get data availability client named '" ++ cf_DALayer conf ++ "'"))
               | Some kind =>
                   let! c := wrap "data availability layer client initialization error" (lift (nd_DA_Init kind (cf_DAConfig conf))) in
                   ret (kind, c)
               end in
  let slConf := settlement_config conf in
  let! (slk, settlementlc) := match sl_GetClient (cf_SettlementLayer conf) with
                       | None => fail (New ("couldn't get settlement client named '" ++ cf_SettlementLayer conf ++ "'"))
                       | Some kind =>
                           let! c := wrap "settlement layer client initialization error" (lift (nd_SL_Init kind slConf)) in
                           ret (kind, c)
                       end in
  do! createAndStartIndexerService in
  let mp := nd_NewTxMempool proxyApp in
  let! p2pClient := lift (nd_P2P_NewClient (nc_P2P base) (gd_ChainID genesis)) in
  let parts := {| pt_store := s; pt_exec := {| ee_app := proxyApp; ee_mempool := mp; ee_eventBus := Some eventBus |};
                  pt_dalc := dalc; pt_settlement := settlementlc; pt_p2p := p2pClient |} in
  let! (managerConf, manager) :=
    wrap "BlockManager initialization error" (lift (NewManager nd_hex_decode (cf_BlockManagerConfig conf) genesis parts).1) in
  ret {| no_conf := with_settlement_config slConf conf; no_dalc := dak; no_settlementlc := slk; no_managerConf := managerConf;
         no_manager := manager |}.

(** ** The clients of the layers *)

(** The mock launches a goroutine that advances its height for ever, and that [Stop] does
    not end. *)
Definition Start_mockda : M Running unit := started SvcDA.
Definition Stop_mockda : M Running unit := ret tt.
Definition Start_grpcda : M Running unit := do! lift nd_grpc_Dial in started SvcDA.
Definition Stop_grpcda : M Running unit := do! lift nd_grpc_Close in stopped SvcDA.
Definition Start_celestia : M Running unit := started SvcDA.
(** The pubsub server that it stops is the node's. *)
Definition Stop_celestia : M Running unit :=
  do! lift nd_PubSub_Stop in
  do! stopped SvcPubSub in
  stopped SvcDA.
Definition Start_avail : M Running unit := started SvcDA.
Definition Stop_avail : M Running unit := stopped SvcDA.

Definition Start_da (kind : DAKind) : M Running unit :=
  match kind with DAMock => Start_mockda | DAGrpc => Start_grpcda | DACelestia => Start_celestia | DAAvail => Start_avail end.
Definition Stop_da (kind : DAKind) : M Running unit :=
  match kind with DAMock => Stop_mockda | DAGrpc => Stop_grpcda | DACelestia => Stop_celestia | DAAvail => Stop_avail end.

(** The hub client of the mock has nothing to start. *)
Definition hub_Start (kind : SLKind) : result unit := match kind with SLMock => Ok tt | SLDymension => nd_StartEventListener end.
Definition hub_Stop (kind : SLKind) : result unit := match kind with SLMock => Ok tt | SLDymension => nd_StopEventListener end.

(** ** Starting and stopping *)

(** [BaseLayerClient.Start]: its handler has subscribed before the hub client starts. *)
Definition Start_base (kind : SLKind) : M Running unit :=
  do! started SvcSettlement in
  lift (hub_Start kind).

(** [BaseLayerClient.Stop]: the handler goes on when the hub client does not stop. *)
Definition Stop_base (kind : SLKind) : M Running unit :=
  do! lift (hub_Stop kind) in
  stopped SvcSettlement.

(** [Manager.Start] and [EventListener]: the goroutines of the manager. *)
Definition Manager_Start (isAggregator : bool) : M Running unit :=
  do! (if isAggregator then do! started SvcProduceBlockLoop in started SvcSubmitLoop else ret tt) in
  do! started SvcRetriveLoop in
  do! started SvcSyncTargetLoop in
  do! started SvcNodeHealthHandler in
  started SvcApplyBlockLoop.

Definition OnStart (n : NodeObject) : M Running unit :=
  do! wrap "error while starting P2P client" (lift nd_P2P_Start) in
  do! started SvcP2P in
  do! wrap "error while starting pubsub server" (lift nd_PubSub_Start) in
  do! started SvcPubSub in
  do! wrap "error while starting data availability layer client" (Start_da (no_dalc n)) in
  do! wrap "error while starting settlement layer client" (Start_base (no_settlementlc n)) in
  do! started SvcPrometheus in
  do! started SvcHealthListeners in
  Manager_Start (cf_Aggregator (no_conf n)).

(** Errors are only logged. *)
Definition OnStop (n : NodeObject) : M Running unit :=
  do! try (Stop_da (no_dalc n)) in
  do! try (Stop_base (no_settlementlc n)) in
  do! try (do! lift nd_P2P_Close in stopped SvcP2P) in
  ret tt.

(** ** Lifecycle *)

Definition new_services : list Service := [SvcProxyApp; SvcEventBus; SvcDB; SvcIndexer].
Definition start_services : list Service := [SvcP2P; SvcPubSub; SvcDA; SvcSettlement].
Definition manager_services (isAggregator : bool) : list Service :=
  (if isAggregator then [SvcProduceBlockLoop; SvcSubmitLoop] else []) ++
  [SvcRetriveLoop; SvcSyncTargetLoop; SvcNodeHealthHandler; SvcApplyBlockLoop].

(** The services run so far are the first ones of [svcs]. *)
Definition some_of (svcs l0 l : Running) : Prop := exists k, l = l0 ++ take k svcs.

Lemma lift_step {B C} (r : result B) (k : B -> M Running C) (Q : C -> Running -> Prop) (E : Running -> Prop) X :
  E X -> (forall b, r = Ok b -> triple (eq X) (k b) Q E) -> triple (eq X) (bind (lift r) k) Q E.
Proof. intros HE Hk l <-. unfold bind, lift. destruct r; [by apply Hk|done..]. Qed.

Lemma wrap_step {B C} msg (r : result B) (k : B -> M Running C) (Q : C -> Running -> Prop) (E : Running -> Prop) X :
  E X -> (forall b, r = Ok b -> triple (eq X) (k b) Q E) -> triple (eq X) (bind (wrap msg (lift r)) k) Q E.
Proof. intros HE Hk l <-. unfold bind, wrap, lift. destruct r; [by apply Hk|done..]. Qed.

Lemma started_step {C} svc (k : unit -> M Running C) (Q : C -> Running -> Prop) (E : Running -> Prop) X :
  triple (eq (X ++ [svc])) (k tt) Q E -> triple (eq X) (bind (started svc) k) Q E.
Proof. intros Hk l <-. by apply Hk. Qed.

Lemma ret_step {B C} (b : B) (k : B -> M Running C) (Q : C -> Running -> Prop) (E : Running -> Prop) X :
  triple (eq X) (k b) Q E -> triple (eq X) (bind (ret b) k) Q E.
Proof. intros Hk l <-. by apply Hk. Qed.

Lemma assoc_step {B C D} (c : M Running B) (f : B -> M Running C) (k : C -> M Running D) (P1 : Running -> Prop) (Q : D -> Running -> Prop) E :
  triple P1 (bind c (fun b => bind (f b) k)) Q E -> triple P1 (bind (bind c f) k) Q E.
Proof. intros H l Hl. specialize (H l Hl). unfold bind in *. by destruct (c l) as [[] ?]. Qed.

Lemma started_run svc l : started svc l = (Ok tt, l ++ [svc]).
Proof. done. Qed.

Ltac some_prefix k := exists k; by rewrite <- ?app_assoc.

(** The path of the database of a node. *)
Definition db_path (conf : Config) : option bytes :=
  let base := cf_base conf in
  if decide (nc_RootDir base = [] /\ nc_DBPath base = []) then None
  else Some (nd_Join (rootify (nc_RootDir base) (nc_DBPath base)) (lit "dymint")).

(** What a new node is made of. *)
Record assembled (conf : Config) (genesis : GenesisDoc) (n : NodeObject) : Prop := {
  as_parts : exists app bus d dal sl p2p,
    nd_ProxyApp_Start = Ok app /\ nd_EventBus_Start = Ok bus /\ nd_badger_Open (db_path conf) = Ok d /\
    da_GetClient (cf_DALayer conf) = Some (no_dalc n) /\ nd_DA_Init (no_dalc n) (cf_DAConfig conf) = Ok dal /\
    sl_GetClient (cf_SettlementLayer conf) = Some (no_settlementlc n) /\
    nd_SL_Init (no_settlementlc n) (settlement_config conf) = Ok sl /\
    nd_P2P_NewClient (nc_P2P (cf_base conf)) (gd_ChainID genesis) = Ok p2p /\
    (NewManager nd_hex_decode (cf_BlockManagerConfig conf) genesis
       {| pt_store := New_store (K := mainKV) d;
          pt_exec := {| ee_app := app; ee_mempool := nd_NewTxMempool app; ee_eventBus := Some bus |};
          pt_dalc := dal; pt_settlement := sl; pt_p2p := p2p |}).1 = Ok (no_managerConf n, no_manager n);
  as_conf : no_conf n = with_settlement_config (settlement_config conf) conf;
}.

Lemma open_step {C} path (k : @db K0 -> M Running C) (Q : C -> Running -> Prop) (E : Running -> Prop) X :
  E X -> (forall d, nd_badger_Open path = Ok d -> triple (eq (X ++ [SvcDB])) (k d) Q E) -> triple (eq X) (bind (open_or_panic path) k) Q E.
Proof. intros HE Hk l <-. unfold bind, open_or_panic. destruct (nd_badger_Open path) eqn:Eo; [by apply Hk|done..]. Qed.

Lemma NewNode_triple conf genesis l0 :
  triple (eq l0) (NewNode conf genesis)
    (fun n l => l = l0 ++ new_services /\ assembled conf genesis n) (some_of new_services l0).
Proof.
  unfold NewNode. apply wrap_step; [exists 0; by rewrite app_nil_r|intros app Eapp]. apply started_step.
  apply lift_step; [some_prefix 1|intros bus Ebus]. apply started_step.
  assert (Hopen : forall k (Q : NodeObject -> Running -> Prop) E X, E X ->
    (forall d, nd_badger_Open (db_path conf) = Ok d -> triple (eq (X ++ [SvcDB])) (k d) Q E) ->
    triple (eq X) (bind (if decide (nc_RootDir (cf_base conf) = [] /\ nc_DBPath (cf_base conf) = []) then NewDefaultInMemoryKVStore
                 else NewDefaultKVStore (nc_RootDir (cf_base conf)) (nc_DBPath (cf_base conf)) (lit "dymint")) k) Q E).
  { intros k Q E X HE Hk. unfold db_path in Hk. case_decide; by apply open_step. }
  apply Hopen; [some_prefix 2|intros d Ed]. clear Hopen.
  destruct (da_GetClient (cf_DALayer conf)) as [dak|] eqn:Eda; [|intros l <-; some_prefix 3].
  apply assoc_step, wrap_step; [some_prefix 3|intros dal Edal]. apply ret_step.
  destruct (sl_GetClient (cf_SettlementLayer conf)) as [slk|] eqn:Esl; [|intros l <-; some_prefix 3].
  apply assoc_step, wrap_step; [some_prefix 3|intros sl Esli]. apply ret_step.
  apply assoc_step, lift_step; [some_prefix 3|intros _ _]. apply started_step.
  apply lift_step; [some_prefix 4|intros p2p Ep2p]. apply wrap_step; [some_prefix 4|intros [mc m] Em].
  apply triple_ret. intros l <-. split; [by rewrite <- !app_assoc|]. split; [|done]. eauto 20.
Qed.

Lemma Start_da_step {C} msg kind (k : unit -> M Running C) (Q : C -> Running -> Prop) (E : Running -> Prop) X :
  E X -> triple (eq (X ++ [SvcDA])) (k tt) Q E -> triple (eq X) (bind (wrap msg (Start_da kind)) k) Q E.
Proof.
  intros HE Hk l <-. destruct kind; unfold bind, wrap; cbn; try by apply Hk.
  unfold Start_grpcda, bind, lift. destruct nd_grpc_Dial; [by apply Hk|done..].
Qed.

Lemma OnStart_triple n l0 :
  triple (eq l0) (OnStart n)
    (fun _ l => l = l0 ++ start_services ++ [SvcPrometheus; SvcHealthListeners] ++ manager_services (cf_Aggregator (no_conf n)))
    (some_of start_services l0).
Proof.
  unfold OnStart. apply wrap_step; [exists 0; by rewrite app_nil_r|intros _ _]. apply started_step.
  apply wrap_step; [some_prefix 1|intros _ _]. apply started_step. apply Start_da_step; [some_prefix 2|].
  intros l <-. unfold bind at 1, wrap, Start_base, bind at 1. rewrite started_run. unfold lift.
  destruct (hub_Start (no_settlementlc n)) as [[]|e|msg]; [|some_prefix 4..].
  cbn. unfold modify. destruct (cf_Aggregator (no_conf n)); cbn; unfold modify; cbn; by rewrite <- !app_assoc.
Qed.

(** What [OnStop] may stop. *)
Definition may_stop (kind : DAKind) : list Service :=
  match kind with
  | DAMock => [SvcSettlement; SvcP2P]
  | DACelestia => [SvcDA; SvcPubSub; SvcSettlement; SvcP2P]
  | DAGrpc | DAAvail => [SvcDA; SvcSettlement; SvcP2P]
  end.

Lemma OnStop_keeps n l svc : svc ∉ may_stop (no_dalc n) -> svc ∈ l -> svc ∈ (OnStop n l).2.
Proof.
  intros Hn Hin. assert (Hp : preserves (fun l => svc ∈ l) (OnStop n)); [|by apply Hp].
  assert (Hs : forall x, x ∈ may_stop (no_dalc n) -> preserves (fun l => svc ∈ l) (stopped x)).
  { intros x Hx. apply preserves_modify. intros l1 H1. apply list_elem_of_filter. split; [|done]. by intros ->. }
  unfold OnStop, Stop_base, Stop_da, Stop_mockda, Stop_grpcda, Stop_celestia, Stop_avail.
  apply preserves_bind; [apply preserves_try|intros _].
  { destruct (no_dalc n); repeat (apply preserves_bind; [|intros _]); auto with go_inv; apply Hs; set_solver. }
  assert (Hss : SvcSettlement ∈ may_stop (no_dalc n)) by (destruct (no_dalc n); set_solver).
  assert (Hsp : SvcP2P ∈ may_stop (no_dalc n)) by (destruct (no_dalc n); set_solver).
  repeat (apply preserves_bind; [apply preserves_try, preserves_bind; [apply preserves_lift|by intros; apply Hs]|intros _]).
  apply preserves_ret.
Qed.


(** ** The three stores *)

(** A write of the data availability client, of the transaction indexer or of the block indexer. *)
Inductive foreign_write : @db K0 -> @db K0 -> Prop :=
| write_da d d' : kv_step (PrefixKV K0 dalcPrefix) d d' -> foreign_write d d'
| write_txs d d' : kv_step (PrefixKV K0 indexerPrefix) d d' -> foreign_write d d'
| write_blocks d d' : kv_step (PrefixKV (PrefixKV K0 indexerPrefix) (lit "block_events")) d d' -> foreign_write d d'.

Lemma foreign_write_view `{!KVLaws K0} d d' :
  rtc foreign_write d d' -> forall k, @kv_get mainKV d' k = @kv_get mainKV d k.
Proof.
  assert (Hpre : forall x y : Byte.byte, x <> y -> ~ [x] `prefix_of` [y]) by (by intros x y Hn [l [= E]]).
  induction 1 as [|d d1 d2 Hw _ IH]; intros k; [done|]. rewrite IH. apply (kv_get_isolated K0).
  destruct Hw as [d d1 H|d d1 H|d d1 H%kv_step_nested]; [apply (kv_step_isolated K0 dalcPrefix)|apply (kv_step_isolated K0 indexerPrefix)..];
    (done || by apply Hpre).
Qed.

(** C24: the components of a node share one database and do not disturb one another: whatever
    the data availability client, the transaction indexer and the block indexer write,
    alone or in batches, in any order and failing or not, every block, commit, response and
    validator set of the block store of the node, and the state a restart would load, are
    what they were. *)
Theorem node_stores_isolated `{!KVLaws K0} (n : NodeObject) d' (h : Z) :
  rtc foreign_write (ds_db (m_store (no_manager n))) d' ->
  let s := m_store (no_manager n) in
  let s' := with_db (K := mainKV) d' s in
  LoadBlock s' h = LoadBlock s h /\ LoadCommit s' h = LoadCommit s h /\
  LoadBlockResponses s' h = LoadBlockResponses s h /\ LoadValidators s' h = LoadValidators s h /\
  (LoadState s').1 = (LoadState s).1.
Proof.
  intros Hw. pose proof (foreign_write_view _ _ Hw) as Hg. cbn [m_store]. set (s := m_store (no_manager n)) in *.
  assert (Hi : loadHashFromIndex (with_db (K := mainKV) d' s) h = loadHashFromIndex s h) by (unfold loadHashFromIndex; cbn [ds_db with_db]; by rewrite Hg).
  unfold LoadBlock, LoadCommit, LoadBlockByHash, LoadCommitByHash, LoadBlockResponses, LoadValidators, LoadState. rewrite Hi.
  cbn [ds_db with_db]. split_and!; try (by rewrite Hg).
  - destruct (loadHashFromIndex s h); [|done..]. cbn [result_wrap result_bind]. by rewrite Hg.
  - destruct (loadHashFromIndex s h); [|done..]. cbn [result_wrap result_bind]. by rewrite Hg.
  - rewrite Hg. destruct (@kv_get mainKV (ds_db s) getStateKey); [|done..]. unfold bind, lift.
    destruct (result_wrap _ (state_unmarshal a)); [|done..]. by destruct (result_wrap _ (State_FromProto a0)).
Qed.
End Start.

(** ** A concrete node *)

Section NodeRun.
Import ToyInstances.
#[local] Existing Instance mainKV.

Definition toy_deps : NodeDeps MemKV := {|
  nd_ProxyApp_Start := Ok ((0%Z, 0%Z) : @app toy_app);
  nd_EventBus_Start := Ok ([] : @event_bus toy_events);
  nd_Join a b := a ++ lit "/" ++ b;
  nd_IsAbs p := bool_decide (head p = Some Byte.x2f);
  nd_badger_Open _ := Ok (∅ : gmap bytes bytes);
  nd_DA_Init _ _ := Ok ([] : @dalc toy_da);
  nd_SL_Init _ _ := Ok ([] : @slc toy toy_sl);
  nd_Indexer_Start := Ok tt;
  nd_NewTxMempool _ := ([] : @mempool toy_mempool);
  nd_P2P_NewClient _ _ := Ok ([] : @p2pc toy_p2p);
  nd_hex_decode _ := Ok [];
  nd_P2P_Start := Ok tt;
  nd_PubSub_Start := Ok tt;
  nd_PubSub_Stop := Ok tt;
  nd_grpc_Dial := Ok tt;
  nd_grpc_Close := Ok tt;
  nd_StartEventListener := Ok tt;
  nd_StopEventListener := Err (New "not connected");
  nd_P2P_Close := Ok tt;
|}.
#[local] Existing Instance toy_deps.

Definition toy_config : Config := DefaultConfig (fun a b => a ++ "/" ++ b)%string "" "".
Definition toy_new_node : result (NodeObject MemKV) * Running := NewNode MemKV toy_config toy_genesis [].

(** A sequencer with the layers of these names. *)
Definition named_config (da sl : string) : Config :=
  {| cf_base := cf_base toy_config; cf_Aggregator := true; cf_BlockManagerConfig := cf_BlockManagerConfig toy_config;
     cf_DALayer := da; cf_DAConfig := ""; cf_SettlementLayer := sl; cf_SettlementConfig := cf_SettlementConfig toy_config;
     cf_Instrumentation := None |}.
Definition left_running (da sl : string) : option (list Service) :=
  match NewNode MemKV (named_config da sl) toy_genesis [] with
  | (Ok n, l) => Some (OnStop MemKV n (OnStart MemKV n l).2).2
  | _ => None
  end.

(** On Celestia the pubsub server has stopped, and the settlement client, whose hub client
    did not stop, goes on without it. *)
Example celestia_node_stops :
  left_running "celestia" "dymension" =
  Some [SvcProxyApp; SvcEventBus; SvcDB; SvcIndexer; SvcSettlement; SvcPrometheus; SvcHealthListeners; SvcProduceBlockLoop;
        SvcSubmitLoop; SvcRetriveLoop; SvcSyncTargetLoop; SvcNodeHealthHandler; SvcApplyBlockLoop].
Proof. vm_compute. reflexivity. Qed.

(** An unknown layer: the node is not made, and three services run. *)
Example unknown_layer_leaks :
  NewNode MemKV (named_config "eigen" "mock") toy_genesis []
  = (Err (New "couldn't get data availability client named 'eigen'"), [SvcProxyApp; SvcEventBus; SvcDB]).
Proof. reflexivity. Qed.

Lemma node_stores_isolated_witness :
  exists n, toy_new_node.1 = Ok n /\
    let s := m_store (no_manager MemKV n) in
    (LoadState (with_db (K := mainKV MemKV)
      (snd (@kv_set (PrefixKV MemKV dalcPrefix) [Byte.x07] [Byte.x08] (ds_db s : gmap bytes bytes))) s)).1 = (LoadState s).1.
Proof.
  destruct (is_ok_run toy_new_node) as [n E]; [vm_compute; reflexivity|].
  exists n. split; [rewrite E; reflexivity|].
  refine (proj2 (proj2 (proj2 (proj2 (node_stores_isolated MemKV n _ 0 (rtc_once _ _ (write_da MemKV _ _ _))))))).
  exact (step_set (PrefixKV MemKV dalcPrefix) [Byte.x07] [Byte.x08] (ds_db (m_store (no_manager MemKV n)))).
Defined.
End NodeRun.
