(* ===== verification/LoadTime.v ===== *)
(** * LoadTime: the payloads of the load test and its report

    Models test/loadtime: the transactions it makes (payload/payload.go and the client of cmd/load), the report on the
    blocks of a node (report/report.go) and its table (cmd/report/main.go).  The protobuf
    codec of a payload, the source of random bytes, the sizes that can be allocated, the
    quotient in floating point and the standard deviation are parameters. *)
From stdpp Require Import base gmap strings vector sorting numbers list.
From S2P Require Import Prelude Strconv KVStore Types Serialization Concrete Store StoreSpec ConcreteNode.

(** ** Payloads *)

(** [loadtime.Payload]; the zero time is [None], another one the nanoseconds since 1970. *)
Record Payload := {
  pl_Connections : Z;
  pl_Rate : Z;
  pl_Size : Z;
  pl_Time : option Z;
  pl_Id : bytes;
  pl_Padding : bytes;
}.

Definition keyPrefix : bytes := lit "a=".
Definition maxPayloadSize : Z := 4 * 1024 * 1024.

Definition with_Padding (b : bytes) (p : Payload) : Payload :=
  {| pl_Connections := pl_Connections p; pl_Rate := pl_Rate p; pl_Size := pl_Size p; pl_Time := pl_Time p;
     pl_Id := pl_Id p; pl_Padding := b |}.
Definition with_Time (t : option Z) (p : Payload) : Payload :=
  {| pl_Connections := pl_Connections p; pl_Rate := pl_Rate p; pl_Size := pl_Size p; pl_Time := t;
     pl_Id := pl_Id p; pl_Padding := pl_Padding p |}.

Class PayloadCodec := {
  pl_Marshal : Payload -> result bytes;
  pl_Unmarshal : bytes -> result Payload;
  pl_EncodedSize : Payload -> Z;          (* Size() *)
}.

(** What protobuf promises of a payload with a time. *)
Class PayloadLaws (C : PayloadCodec) := {
  pl_roundtrip p b : is_Some (pl_Time p) -> pl_Marshal p = Ok b -> pl_Unmarshal b = Ok p;
}.

Section Payload.
Context {C : PayloadCodec}.

Definition CalculateUnpaddedSize (p : Payload) : result Z :=
  if decide (length (pl_Padding p) <> 1) then Err (New "expected length of padding to be 1")
  else
    try! b := pl_Marshal p in
    Ok (Z.of_nat (length (hex_EncodeToString b)) + Z.of_nat (length keyPrefix))%Z.

(** [make([]byte, n)] of at most [maxAlloc] bytes, filled by [rand.Read]. *)
Definition random_bytes (maxAlloc : Z) (rand : nat -> result bytes) (n : Z) : result bytes :=
  if (maxAlloc <? n)%Z then Panic "makeslice: len out of range" else rand (Z.to_nat n).

(** [NewBytes] on the payload it is given a pointer to; [now] is [time.Now()]. *)
Definition NewBytes (maxAlloc : Z) (rand : nat -> result bytes) (now : Z) : M Payload bytes :=
  do! modify (with_Padding [Byte.x00]) in
  do! modify (fun p => match pl_Time p with None => with_Time (Some now) p | Some _ => p end) in
  let! us := read CalculateUnpaddedSize in
  let! p := get in
  if (maxPayloadSize <? pl_EncodedSize p)%Z then fail (New "configured size is too large")
  else
    let pSize := i64 (pl_Size p) in
    if (pSize <? us)%Z then fail (New "configured size not large enough to fit unpadded transaction")
    else
      let! padding := lift (random_bytes maxAlloc rand ((pSize - us) / 2)) in
      do! modify (with_Padding padding) in
      let! b := read pl_Marshal in
      ret (keyPrefix ++ hex_EncodeToString b).

(** [bytes.TrimPrefix]. *)
Definition TrimPrefix (b prefix : bytes) : bytes :=
  if decide (take (length prefix) b = prefix) then drop (length prefix) b else b.

Definition FromBytes (b : bytes) : result Payload :=
  let trH := TrimPrefix b keyPrefix in
  if decide (b = trH) then Err (New "payload bytes missing key prefix 'a='")
  else try! trB := hex_DecodeString trH in pl_Unmarshal trB.

(** The largest size of a payload without padding. *)
Definition MaxUnpaddedSize (now : Z) : result Z :=
  CalculateUnpaddedSize {| pl_Connections := 2 ^ 64 - 1; pl_Rate := 2 ^ 64 - 1; pl_Size := 2 ^ 64 - 1;
                           pl_Time := Some now; pl_Id := []; pl_Padding := [Byte.x00] |}.

(** ** The client that generates load (cmd/load/main.go) *)

(** [loadtest.Config]: the fields read; they are [int]s. *)
Record LoadConfig := { lc_Connections : Z; lc_Rate : Z; lc_Size : Z }.
Record ClientFactory := { cf_ID : bytes }.
Record TxGenerator := { tg_id : bytes; tg_conns : Z; tg_rate : Z; tg_size : Z }.

Definition ValidateConfig (now : Z) (cfg : LoadConfig) : result unit :=
  try! psb := MaxUnpaddedSize now in
  if (lc_Size cfg <? psb)%Z then Err (New "payload size exceeds configured size") else Ok tt.

Definition NewClient_load (f : ClientFactory) (cfg : LoadConfig) : result TxGenerator :=
  Ok {| tg_id := cf_ID f; tg_conns := u64 (lc_Connections cfg); tg_rate := u64 (lc_Rate cfg); tg_size := u64 (lc_Size cfg) |}.

Definition GenerateTx (maxAlloc : Z) (rand : nat -> result bytes) (now : Z) (c : TxGenerator) : result bytes :=
  (NewBytes maxAlloc rand now {| pl_Connections := tg_conns c; pl_Rate := tg_rate c; pl_Size := tg_size c; pl_Time := None;
                                 pl_Id := tg_id c; pl_Padding := [] |}).1.

Lemma TrimPrefix_app prefix b : TrimPrefix (prefix ++ b) prefix = b.
Proof. unfold TrimPrefix. by rewrite take_app_length, drop_app_length, decide_True. Qed.

(** The payload whose size is measured. *)
Definition measured (now : Z) (p : Payload) : Payload :=
  with_Padding [Byte.x00] (with_Time (Some (default now (pl_Time p))) p).

Lemma measured_eq now p :
  (match pl_Time (with_Padding [Byte.x00] p) with
   | None => with_Time (Some now) (with_Padding [Byte.x00] p) | Some _ => with_Padding [Byte.x00] p end) = measured now p.
Proof. unfold measured, with_Padding, with_Time. by destruct p as [? ? ? [t|] ? ?]. Qed.

(** [NewBytes] on every outcome. *)
Lemma NewBytes_run maxAlloc rand now p r p' :
  NewBytes maxAlloc rand now p = (r, p') ->
  match CalculateUnpaddedSize (measured now p) with
  | Ok us =>
      if (maxPayloadSize <? pl_EncodedSize (measured now p))%Z || (i64 (pl_Size p) <? us)%Z then exists e, r = Err e
      else
        match random_bytes maxAlloc rand ((i64 (pl_Size p) - us) / 2) with
        | Ok padding =>
            p' = with_Padding padding (measured now p) /\
            match pl_Marshal p' with Ok b => r = Ok (keyPrefix ++ hex_EncodeToString b) | Err e => r = Err e | Panic m => r = Panic m end
        | Err e => r = Err e
        | Panic m => r = Panic m
        end
  | Err e => r = Err e
  | Panic m => r = Panic m
  end.
Proof.
  unfold NewBytes. rewrite (bind_ok _ _ p tt (with_Padding [Byte.x00] p)) by done.
  rewrite (bind_ok _ _ (with_Padding [Byte.x00] p) tt (measured now p)) by (unfold modify; by rewrite measured_eq).
  unfold bind at 1, read. destruct (CalculateUnpaddedSize (measured now p)) as [us|e|m]; [|by intros [= <- _]..].
  rewrite (bind_ok _ _ _ (measured now p) (measured now p)) by done. change (pl_Size (measured now p)) with (pl_Size p).
  destruct (maxPayloadSize <? _)%Z; [intros [= <- _]; by eexists|]. destruct (i64 (pl_Size p) <? us)%Z; [intros [= <- _]; by eexists|].
  unfold bind at 1, lift. destruct (random_bytes _ _ _) as [padding|e|m]; [|by intros [= <- _]..].
  unfold bind, modify. destruct (pl_Marshal (with_Padding padding (measured now p))) as [b|e|m] eqn:E; intros [= <- <-]; by rewrite E.
Qed.
End Payload.

Section PayloadSpec.
Context {C : PayloadCodec} `{!PayloadLaws C}.

(** A transaction of the load test carries its payload: what [NewBytes] returned,
    [FromBytes] reads back as the payload that [NewBytes] left in its argument - the
    connections, rate, size and id it was given, its time or else the time of the call, and
    as many random bytes of padding as half of what the configured size leaves. *)
Theorem payload_roundtrip maxAlloc rand now p b p' :
  (forall n bs, rand n = Ok bs -> length bs = n) ->
  NewBytes maxAlloc rand now p = (Ok b, p') ->
  FromBytes b = Ok p' /\
  exists us padding, CalculateUnpaddedSize (measured now p) = Ok us /\ p' = with_Padding padding (measured now p) /\
    (us <= i64 (pl_Size p))%Z /\ Z.of_nat (length padding) = ((i64 (pl_Size p) - us) / 2)%Z.
Proof.
  intros Hrand Hr%NewBytes_run. destruct (CalculateUnpaddedSize _) as [us|e|m]; [|done..].
  destruct (maxPayloadSize <? _)%Z; cbn in Hr; [by destruct Hr|]. destruct (Z.ltb_spec (i64 (pl_Size p)) us) as [|Hle]; [by destruct Hr|].
  destruct (random_bytes _ _ _) as [padding|e|m] eqn:Ep; [|done..]. destruct Hr as [-> Hr].
  destruct (pl_Marshal _) as [b'|e|m] eqn:Em; [|done..]. assert (b = keyPrefix ++ hex_EncodeToString b') as -> by (injection Hr as E; exact E). split.
  - unfold FromBytes. rewrite TrimPrefix_app. rewrite decide_False; [|intros E%(f_equal length); rewrite length_app in E; cbn in E; lia].
    rewrite hex_roundtrip. cbn. apply pl_roundtrip in Em; [done|]. by eexists.
  - exists us, padding. split_and!; [done..|]. unfold random_bytes in Ep. destruct (maxAlloc <? _)%Z; [done|]. apply Hrand in Ep as ->.
    rewrite Z2Nat.id; [done|]. apply Z.div_pos; lia.
Qed.

(** A transaction of the client tells the run it belongs to: the identifier of the factory, the
    parameters of the configuration and the time it was made. *)
Lemma load_tx_read_back maxAlloc rand now f cfg c b :
  (forall n bs, rand n = Ok bs -> length bs = n) -> NewClient_load f cfg = Ok c -> GenerateTx maxAlloc rand now c = Ok b ->
  exists p, FromBytes b = Ok p /\ pl_Id p = cf_ID f /\ pl_Connections p = u64 (lc_Connections cfg) /\ pl_Rate p = u64 (lc_Rate cfg) /\
            pl_Size p = u64 (lc_Size cfg) /\ pl_Time p = Some now.
Proof.
  intros Hrand [= <-] Hg. unfold GenerateTx in Hg. cbn [tg_id tg_conns tg_rate tg_size] in Hg.
  set (p0 := {| pl_Connections := _ |}) in Hg. destruct (NewBytes maxAlloc rand now p0) as [r p'] eqn:E. cbn in Hg. subst r.
  apply payload_roundtrip in E as (Hf & us & padding & _ & -> & _); [|done]. exists (with_Padding padding (measured now p0)). by split_and!.
Qed.

(** The guard against payloads of more than [maxPayloadSize] bytes looks at the encoding
    without its padding: any configured size up to what can be allocated passes it. *)
Lemma size_guard_ineffective maxAlloc rand now p us padding b :
  CalculateUnpaddedSize (measured now p) = Ok us -> (pl_EncodedSize (measured now p) <= maxPayloadSize)%Z ->
  (us <= i64 (pl_Size p))%Z -> random_bytes maxAlloc rand ((i64 (pl_Size p) - us) / 2) = Ok padding ->
  pl_Marshal (with_Padding padding (measured now p)) = Ok b ->
  (NewBytes maxAlloc rand now p).1 = Ok (keyPrefix ++ hex_EncodeToString b).
Proof.
  intros Hus Hsz Hle Hp Hm. destruct (NewBytes maxAlloc rand now p) as [r p'] eqn:E. apply NewBytes_run in E. rewrite Hus, Hp in E.
  rewrite (proj2 (Z.ltb_ge _ _)), (proj2 (Z.ltb_ge _ _)) in E by done. destruct E as [-> E]. by rewrite Hm in E.
Qed.
End PayloadSpec.

(** ** Reports *)

Definition UUID : Type := bytes.

Record DataPoint := { dp_Duration : Z; dp_BlockTime : Z; dp_Hash : bytes }.

Record Report := {
  rp_ID : UUID;
  rp_Rate : Z;
  rp_Connections : Z;
  rp_Size : Z;
  rp_Max : Z;
  rp_Min : Z;
  rp_Avg : Z;
  rp_StdDev : Z;
  rp_NegativeCount : Z;
  rp_TPS : Z;
  rp_All : list DataPoint;
  rp_sum : Z;
}.

Record Reports := { rs_s : gmap UUID Report; rs_l : list Report; rs_errorCount : Z }.
Definition no_reports : Reports := {| rs_s := ∅; rs_l := []; rs_errorCount := 0 |}.

Definition MaxInt64 : Z := 2 ^ 63 - 1.

(** [payloadData] without an error. *)
Record PayloadData := { pd_id : UUID; pd_l : Z; pd_bt : Z; pd_hash : bytes; pd_connections : Z; pd_rate : Z; pd_size : Z }.

Definition new_report (d : PayloadData) : Report :=
  {| rp_ID := pd_id d; rp_Rate := pd_rate d; rp_Connections := pd_connections d; rp_Size := pd_size d; rp_Max := 0; rp_Min := MaxInt64;
     rp_Avg := 0; rp_StdDev := 0; rp_NegativeCount := 0; rp_TPS := 0; rp_All := []; rp_sum := 0 |}.

Definition add_point (d : PayloadData) (r : Report) : Report :=
  let l := pd_l d in
  {| rp_ID := rp_ID r; rp_Rate := rp_Rate r; rp_Connections := rp_Connections r; rp_Size := rp_Size r;
     rp_Max := if (rp_Max r <? l)%Z then l else rp_Max r;
     rp_Min := if (l <? rp_Min r)%Z then l else rp_Min r;
     rp_Avg := rp_Avg r; rp_StdDev := rp_StdDev r;
     rp_NegativeCount := if (l <? 0)%Z then i64 (rp_NegativeCount r + 1) else rp_NegativeCount r;
     rp_TPS := rp_TPS r;
     rp_All := rp_All r ++ [{| dp_Duration := l; dp_BlockTime := pd_bt d; dp_Hash := pd_hash d |}];
     rp_sum := i64 (rp_sum r + l) |}.

Definition addDataPoint (d : PayloadData) (rs : Reports) : Reports :=
  let r := match rs_s rs !! pd_id d with Some r => r | None => new_report d end in
  {| rs_s := <[pd_id d := add_point d r]> (rs_s rs); rs_l := rs_l rs; rs_errorCount := rs_errorCount rs |}.

Definition addError (rs : Reports) : Reports :=
  {| rs_s := rs_s rs; rs_l := rs_l rs; rs_errorCount := i64 (rs_errorCount rs + 1) |}.

Section Report.
(** [uint64(float64(currentTx) / blockTimeDifference.Seconds())], and [stat.StdDev]. *)
Context (quotient : Z -> Z -> Z) (StdDev : list Z -> Z).

(** The number of transactions of each block time. *)
Definition count_blocks (l : list DataPoint) : gmap Z Z :=
  foldl (fun blocks v => <[dp_BlockTime v := (default 0%Z (blocks !! dp_BlockTime v) + 1)%Z]> blocks) ∅ l.

(** [Time.Sub]: a difference that is no [Duration] saturates. *)
Definition time_Sub (t u : Z) : Z := Z.max (- 2 ^ 63) (Z.min MaxInt64 (t - u)).

(** The inner loop from the block at [blockTime]. *)
Fixpoint window (blocks : gmap Z Z) (blockTime currentTx TPS : Z) (rest : list Z) : Z :=
  match rest with
  | [] => TPS
  | nextBlockTime :: rest =>
      let currentTx := (currentTx + default 0%Z (blocks !! nextBlockTime))%Z in
      let difference := time_Sub nextBlockTime blockTime in
      let TPS := if (1000000000 <? difference)%Z then
                   let currentTPS := quotient currentTx difference in
                   if (TPS <? currentTPS)%Z then currentTPS else TPS
                 else TPS in
      window blocks blockTime currentTx TPS rest
  end.

Fixpoint windows (blocks : gmap Z Z) (TPS : Z) (blockTimes : list Z) : Z :=
  match blockTimes with
  | [] => TPS
  | blockTime :: rest => windows blocks (window blocks blockTime (default 0%Z (blocks !! blockTime)) TPS rest) rest
  end.

Definition calculateTPS (l : list DataPoint) : Z :=
  let blocks := count_blocks l in
  windows blocks 0 (merge_sort Z.le (map_to_list blocks).*1).

Definition calculate (r : Report) : Report :=
  if decide (length (rp_All r) = 0) then
    {| rp_ID := rp_ID r; rp_Rate := rp_Rate r; rp_Connections := rp_Connections r; rp_Size := rp_Size r; rp_Max := rp_Max r; rp_Min := 0;
       rp_Avg := rp_Avg r; rp_StdDev := rp_StdDev r; rp_NegativeCount := rp_NegativeCount r; rp_TPS := rp_TPS r; rp_All := rp_All r; rp_sum := rp_sum r |}
  else
    {| rp_ID := rp_ID r; rp_Rate := rp_Rate r; rp_Connections := rp_Connections r; rp_Size := rp_Size r; rp_Max := rp_Max r; rp_Min := rp_Min r;
       rp_Avg := Z.quot (rp_sum r) (Z.of_nat (length (rp_All r))); rp_StdDev := StdDev (dp_Duration <$> rp_All r);
       rp_NegativeCount := rp_NegativeCount r; rp_TPS := calculateTPS (rp_All r); rp_All := rp_All r; rp_sum := rp_sum r |}.

(** [calculateAll] appends the reports to the list in the order of an iteration over the
    map, any order. *)
Definition calculateAll (rs : Reports) : Reports :=
  {| rs_s := rs_s rs; rs_l := calculate <$> (map_to_list (rs_s rs)).*2; rs_errorCount := rs_errorCount rs |}.
End Report.

(** ** From the blocks of a store *)

Section Generate.
Context {T : Tendermint} {W : Wire} {K : KVStore} {C : PayloadCodec} (quotient : Z -> Z -> Z) (StdDev : list Z -> Z) (tx_hash : Tx -> bytes).

(** The producer: every transaction from the base height to the store's with the time of its
    block; a block that is missing panics. *)
Fixpoint collect (s : DefaultStore) (heights : list Z) : result (list (Tx * Z)) :=
  match heights with
  | [] => Ok []
  | i :: heights =>
      match LoadBlock s i with
      | Ok cur =>
          try! rest := collect s heights in
          Ok (((fun tx => (tx, i64 (hdr_Time (blk_Header cur)))) <$> data_Txs (blk_Data cur)) ++ rest)
      | _ => Panic "failed to load block"
      end
  end.

(** A worker: [None] when the transaction is no payload.  The zero time is further away than
    a [Duration] can say. *)
Definition work (b : Tx * Z) : result (option PayloadData) :=
  match FromBytes b.1 with
  | Ok p =>
      if decide (length (pl_Id p) < 16) then Panic "cannot convert slice to array: length too short"
      else Ok (Some {| pd_id := take 16 (pl_Id p); pd_l := match pl_Time p with Some t => time_Sub b.2 t | None => MaxInt64 end;
                       pd_bt := b.2; pd_hash := tx_hash b.1; pd_connections := pl_Connections p; pd_rate := pl_Rate p;
                       pd_size := pl_Size p |})
  | Err _ => Ok None
  | Panic m => Panic m
  end.

Fixpoint work_all (l : list (Tx * Z)) : result (list (option PayloadData)) :=
  match l with [] => Ok [] | b :: l => try! d := work b in try! rest := work_all l in Ok (d :: rest) end.

(** The consumer, on what the workers sent in the order it arrived. *)
Definition consume (rs : Reports) (d : option PayloadData) : Reports :=
  match d with None => addError rs | Some d => addDataPoint d rs end.

Definition report_on (arrived : list (option PayloadData)) : Reports :=
  calculateAll quotient StdDev (foldl consume no_reports arrived).

(** [GenerateFromBlockStore] of the store from height [base] on; [arrive] is the order in
    which the sixteen workers happen to deliver. *)
Definition GenerateFromBlockStore (arrive : list (option PayloadData) -> list (option PayloadData)) (base : Z) (s : DefaultStore)
    : result Reports :=
  try! txs := collect s (seqZ base (Height s - base + 1)) in
  try! pds := work_all txs in
  Ok (report_on (arrive pds)).
End Generate.

(** ** The order of the workers *)

(** Reports that agree on everything but the order of the points. *)
Record report_eqv (r r' : Report) : Prop := {
  eq_ID : rp_ID r = rp_ID r';
  eq_Rate : rp_Rate r = rp_Rate r';
  eq_Connections : rp_Connections r = rp_Connections r';
  eq_Size : rp_Size r = rp_Size r';
  eq_Max : rp_Max r = rp_Max r';
  eq_Min : rp_Min r = rp_Min r';
  eq_Avg : rp_Avg r = rp_Avg r';
  eq_NegativeCount : rp_NegativeCount r = rp_NegativeCount r';
  eq_TPS : rp_TPS r = rp_TPS r';
  eq_All : rp_All r ≡ₚ rp_All r';
  eq_sum : rp_sum r = rp_sum r';
}.
#[global] Instance report_eqv_equivalence : Equivalence report_eqv.
Proof.
  split.
  - by intros r.
  - intros r r' []. by split.
  - intros r1 r2 r3 [] []. split; try congruence. by etrans.
Qed.

Record reports_eqv (rs rs' : Reports) : Prop := {
  eq_s : forall id, option_Forall2 report_eqv (rs_s rs !! id) (rs_s rs' !! id);
  eq_errorCount : rs_errorCount rs = rs_errorCount rs';
}.
#[global] Instance reports_eqv_equivalence : Equivalence reports_eqv.
Proof.
  split.
  - intros rs. by split.
  - intros rs rs' [H ?]. split; [|done]. intros id. by symmetry.
  - intros rs1 rs2 rs3 [H1 ?] [H2 ?]. split; [|congruence]. intros id. etrans; [apply H1|apply H2].
Qed.

#[global] Instance add_point_proper d : Proper (report_eqv ==> report_eqv) (add_point d).
Proof.
  intros r r' [? ? ? ? Hmax Hmin ? Hneg ? Hall Hsum]. split; cbn; rewrite ?Hmax, ?Hmin, ?Hneg, ?Hsum; try done. by apply Permutation_app_tail.
Qed.

#[global] Instance consume_proper : Proper (reports_eqv ==> eq ==> reports_eqv) consume.
Proof.
  intros rs rs' [Hs He] d ? <-. destruct d as [d|]; cbn; [|by split; cbn; [|rewrite He]]. split; [|done]. cbn. intros id.
  destruct (decide (id = pd_id d)) as [->|Hne]; [|rewrite !lookup_insert_ne by done; apply Hs]. rewrite !lookup_insert_eq. constructor. f_equiv.
  by destruct (Hs (pd_id d)).
Qed.

Lemma add_point_comm d1 d2 r : report_eqv (add_point d1 (add_point d2 r)) (add_point d2 (add_point d1 r)).
Proof.
  split; cbn; try done.
  - repeat case_match; lia.
  - repeat case_match; lia.
  - by destruct (pd_l d1 <? 0)%Z, (pd_l d2 <? 0)%Z.
  - rewrite <- !app_assoc. f_equiv. apply Permutation_swap.
  - rewrite !i64_add_l. f_equal. lia.
Qed.

(** Payloads with one id were made by one experiment. *)
Definition same_experiment (d1 d2 : PayloadData) : Prop :=
  pd_id d1 = pd_id d2 -> pd_connections d1 = pd_connections d2 /\ pd_rate d1 = pd_rate d2 /\ pd_size d1 = pd_size d2.

Lemma consume_comm o1 o2 rs :
  (forall d1 d2, o1 = Some d1 -> o2 = Some d2 -> same_experiment d1 d2) ->
  reports_eqv (consume (consume rs o2) o1) (consume (consume rs o1) o2).
Proof.
  intros Hsame. destruct o1 as [d1|], o2 as [d2|]; [|done..]. specialize (Hsame d1 d2 eq_refl eq_refl). split; [|done]. cbn. intros id.
  destruct (decide (pd_id d1 = pd_id d2)) as [E|Hne].
  - destruct (Hsame E) as (Hc & Hr & Hz). rewrite E, !lookup_insert_eq, !insert_insert_eq.
    destruct (decide (id = pd_id d2)) as [->|]; [|by rewrite !lookup_insert_ne]. rewrite !lookup_insert_eq. constructor.
    rewrite add_point_comm. by destruct (rs_s rs !! pd_id d2); [|unfold new_report; rewrite E, Hc, Hr, Hz].
  - rewrite (lookup_insert_ne (rs_s rs) (pd_id d2) (pd_id d1)), (lookup_insert_ne (rs_s rs) (pd_id d1) (pd_id d2)) by congruence. by rewrite insert_insert_ne.
Qed.

Lemma foldl_reverse {A B} (f : B -> A -> B) b l : foldl f b l = foldr (fun a b => f b a) b (reverse l).
Proof. induction l as [|a l IH] using rev_ind; [done|]. by rewrite foldl_snoc, reverse_snoc, IH. Qed.

Lemma consume_permutation l1 l2 rs :
  l1 ≡ₚ l2 -> (forall d1 d2, Some d1 ∈ l1 -> Some d2 ∈ l1 -> same_experiment d1 d2) ->
  reports_eqv (foldl consume rs l1) (foldl consume rs l2).
Proof.
  intros Hp Hsame. rewrite !foldl_reverse. apply (foldr_permutation reports_eqv).
  - intros o rs1 rs2 H. by apply consume_proper.
  - intros j1 o1 j2 o2 rs1 _ H1%list_elem_of_lookup_2 H2%list_elem_of_lookup_2. rewrite elem_of_reverse in H1, H2. apply consume_comm.
    intros d1 d2 -> ->. by apply Hsame.
  - by rewrite !reverse_Permutation.
Qed.

(** The rate looks at the number of transactions of each block only. *)
Lemma count_blocks_permutation l1 l2 : l1 ≡ₚ l2 -> count_blocks l1 = count_blocks l2.
Proof.
  intros Hp. unfold count_blocks. rewrite !foldl_reverse. apply (foldr_permutation eq).
  - intros v b1 b2 ->. done.
  - intros j1 v1 j2 v2 b _ _ _. destruct (decide (dp_BlockTime v1 = dp_BlockTime v2)) as [->|Hne]; [by rewrite !lookup_insert_eq|].
    rewrite (lookup_insert_ne b (dp_BlockTime v2) (dp_BlockTime v1)), (lookup_insert_ne b (dp_BlockTime v1) (dp_BlockTime v2)) by congruence.
    by rewrite insert_insert_ne.
  - by rewrite !reverse_Permutation.
Qed.

Lemma calculate_eqv quotient StdDev r r' : report_eqv r r' -> report_eqv (calculate quotient StdDev r) (calculate quotient StdDev r').
Proof.
  intros [? ? ? ? ? ? ? ? ? Hall Hsum]. unfold calculate. rewrite (Permutation_length Hall). case_decide; split; cbn; try done.
  - by rewrite Hsum.
  - unfold calculateTPS. by rewrite (count_blocks_permutation _ _ Hall).
Qed.

(** The reports of the list are those of the map, calculated. *)
Lemma elem_of_reports quotient StdDev rs r :
  r ∈ rs_l (calculateAll quotient StdDev rs) <-> exists i r0, rs_s rs !! i = Some r0 /\ r = calculate quotient StdDev r0.
Proof.
  cbn. rewrite list_elem_of_fmap. setoid_rewrite list_elem_of_fmap. split.
  - intros (r0 & -> & [i ?] & -> & Hin). exists i. eexists. split; [by apply elem_of_map_to_list|done].
  - intros (i & r0 & Hi%elem_of_map_to_list & ->). exists r0. split; [done|]. by exists (i, r0).
Qed.

Section GenerateSpec.
Context {T : Tendermint} {W : Wire} {K : KVStore} {C : PayloadCodec} (quotient : Z -> Z -> Z) (StdDev : list Z -> Z) (tx_hash : Tx -> bytes).

(** Reading the blocks in parallel does not change the report: in whatever order the
    workers deliver the decoded transactions, when the payloads of an experiment carry one
    configuration, the report counts the same errors and lists, for the same experiments,
    the same minimum, maximum and average latency, the same number of negative latencies,
    the same rate and the same points, up to their order. *)
Theorem report_order_irrelevant arrive base s txs pds :
  collect s (seqZ base (Height s - base + 1)) = Ok txs -> work_all tx_hash txs = Ok pds ->
  (forall d1 d2, Some d1 ∈ pds -> Some d2 ∈ pds -> same_experiment d1 d2) ->
  (forall l, arrive l ≡ₚ l) ->
  exists rs rs', GenerateFromBlockStore quotient StdDev tx_hash arrive base s = Ok rs /\
    GenerateFromBlockStore quotient StdDev tx_hash id base s = Ok rs' /\
    rs_errorCount rs = rs_errorCount rs' /\
    (forall r, r ∈ rs_l rs -> exists r', r' ∈ rs_l rs' /\ report_eqv r r') /\
    (forall r', r' ∈ rs_l rs' -> exists r, r ∈ rs_l rs /\ report_eqv r r').
Proof.
  intros Hc Hw Hsame Harr. unfold GenerateFromBlockStore. rewrite Hc. cbn [result_bind]. rewrite Hw. cbn [result_bind].
  eexists _, _. split; [done|]. split; [done|].
  destruct (consume_permutation (arrive pds) pds no_reports (Harr pds)) as [Hs He].
  { intros d1 d2. rewrite !Harr. apply Hsame. }
  split; [done|]. split; intros r (i & r0 & Hi & ->)%elem_of_reports; specialize (Hs i); unfold id in *; rewrite Hi in Hs; inversion Hs; subst.
  all: eexists; split; [apply elem_of_reports; by eexists _, _|by apply calculate_eqv].
Qed.
End GenerateSpec.

(** ** The table of the report command *)

Section Table.
Context (uuid_String : UUID -> bytes).

Definition upper_digit (n : Z) : byte := byte_of_Z (if (n <? 10)%Z then 48 + n else 55 + n)%Z.
(** [%X]. *)
Definition upper_hex (src : bytes) : bytes :=
  src ≫= fun b => [upper_digit (Z.shiftr (Z_of_byte b) 4); upper_digit (Z.land (Z_of_byte b) 15)].

Definition table_header : list bytes := lit <$> ["experiment_id"; "block_time"; "duration_ns"; "tx_hash"; "connections"; "rate"; "size"].

Definition table_row (r : Report) (v : DataPoint) : list bytes :=
  [uuid_String (rp_ID r); dec_bytes (dp_BlockTime v); dec_bytes (dp_Duration v); upper_hex (dp_Hash v);
   dec_bytes (i64 (rp_Connections r)); dec_bytes (i64 (rp_Rate r)); dec_bytes (i64 (rp_Size r))].

(** [res[i] = row]. *)
Definition write_row (i : nat) (row : list bytes) (res : list (list bytes)) : result (list (list bytes)) :=
  if decide (i < length res) then Ok (<[i := row]> res) else Panic "index out of range".

Fixpoint write_points (r : Report) (i : nat) (all : list DataPoint) (res : list (list bytes)) : result (list (list bytes)) :=
  match all with [] => Ok res | v :: all => try! res := write_row i (table_row r v) res in write_points r (S i) all res end.

Fixpoint write_reports (offset : nat) (rs : list Report) (res : list (list bytes)) : result (list (list bytes)) :=
  match rs with
  | [] => Ok res
  | r :: rs => try! res := write_points r offset (rp_All r) res in write_reports (offset + length (rp_All r)) rs res
  end.

Definition toCSVRecords (rs : list Report) : result (list (list bytes)) :=
  let total := foldl (fun total v => total + length (rp_All v)) 0 rs in
  try! res := write_row 0 table_header (replicate (total + 1) []) in
  write_reports 1 rs res.

(** Rows written into the free places behind the ones written before. *)
Lemma write_points_ok r all pre free :
  length all <= length free ->
  write_points r (length pre) all (pre ++ free) = Ok (pre ++ (table_row r <$> all) ++ drop (length all) free).
Proof.
  revert pre free. induction all as [|v all IH]; intros pre [|f free] Hl; cbn in *; [done|done|lia|].
  unfold write_row. rewrite decide_True by (rewrite length_app; cbn; lia). cbn.
  rewrite insert_app_r_alt, Nat.sub_diag by lia. cbn.
  replace (S (length pre)) with (length (pre ++ [table_row r v])) by (rewrite length_app; cbn; lia).
  rewrite (cons_middle (table_row r v) pre free), (app_assoc pre [_] free), IH by lia. by rewrite <- app_assoc.
Qed.

Lemma write_reports_ok rs pre free :
  length (rs ≫= rp_All) <= length free ->
  write_reports (length pre) rs (pre ++ free)
  = Ok (pre ++ (rs ≫= fun r => table_row r <$> rp_All r) ++ drop (length (rs ≫= rp_All)) free).
Proof.
  revert pre free. induction rs as [|r rs IH]; intros pre free Hl; cbn; [done|]. cbn in Hl. rewrite length_app in Hl.
  rewrite write_points_ok by lia. cbn.
  replace (length pre + length (rp_All r)) with (length (pre ++ (table_row r <$> rp_All r))) by (rewrite length_app, length_fmap; lia).
  rewrite (app_assoc pre (table_row r <$> rp_All r)), IH by (rewrite length_drop; lia). by rewrite drop_drop, length_app, <- !app_assoc.
Qed.

(** The table has the header and one row for each point, in the order of the reports. *)
Lemma toCSVRecords_ok rs : toCSVRecords rs = Ok (table_header :: (rs ≫= fun r => table_row r <$> rp_All r)).
Proof.
  assert (Ht : forall n, foldl (fun total v => total + length (rp_All v)) n rs = n + length (rs ≫= rp_All)).
  { induction rs as [|r rs IH]; intros n; cbn; [lia|]. rewrite IH, length_app. lia. }
  unfold toCSVRecords. rewrite Ht, Nat.add_1_r. cbn. unfold write_row. rewrite decide_True by (cbn; lia). cbn.
  etrans; [apply (write_reports_ok rs [table_header]); rewrite length_replicate; lia|]. cbn [Datatypes.app].
  rewrite drop_ge by (rewrite length_replicate; lia). by rewrite app_nil_r.
Qed.
End Table.

(** ** Concrete payloads *)

Definition toy_payload_codec : Codec Payload.
Proof.
  refine (iso_codec (fun p => (pl_Connections p, (pl_Rate p, (pl_Size p, (pl_Time p, (pl_Id p, pl_Padding p))))))
    (fun '(a, (b, (c, (d, (e, f))))) => {| pl_Connections := a; pl_Rate := b; pl_Size := c; pl_Time := d; pl_Id := e; pl_Padding := f |}) _).
  by intros [].
Defined.
#[local] Existing Instance toy_payload_codec.
#[local] Instance toy_codec : PayloadCodec := {|
  pl_Marshal := enc_ok; pl_Unmarshal := dec_all; pl_EncodedSize p := Z.of_nat (length (enc p)) |}.
#[local] Instance toy_payload_laws : PayloadLaws toy_codec.
Proof. split. intros p b _ E. by apply (codec_law_all p b). Qed.

Definition toy_id : bytes := replicate 16 Byte.x07.
Definition toy_payload (t : Z) : Payload :=
  {| pl_Connections := 1; pl_Rate := 10; pl_Size := 200; pl_Time := Some t; pl_Id := toy_id; pl_Padding := [] |}.
Definition toy_rand (n : nat) : result bytes := Ok (replicate n Byte.x2a).
Definition toy_tx (t : Z) : Tx := get_ok [] (NewBytes (2 ^ 40) toy_rand 0 (toy_payload t)).1.

Lemma payload_roundtrip_witness :
  exists p', FromBytes (toy_tx 5) = Ok p' /\ pl_Id p' = toy_id /\ pl_Time p' = Some 5%Z.
Proof.
  destruct (payload_roundtrip (2 ^ 40) toy_rand 0 (toy_payload 5) (toy_tx 5) (NewBytes (2 ^ 40) toy_rand 0 (toy_payload 5)).2) as [E (us & padding & _ & Ep & _)].
  - intros n bs [= <-]. apply length_replicate.
  - vm_compute. reflexivity.
  - eexists. split; [exact E|]. rewrite Ep. split; reflexivity.
Defined.

Import ToyInstances.

(** A block with two payloads and another transaction. *)
Definition loaded_store : DefaultStore :=
  SetHeight 1 (SaveBlock (toy_block 1 [toy_tx 5; [Byte.x01]; toy_tx 9]) (toy_commit 1) None empty_store).2.
Definition toy_txs : list (Tx * Z) := get_ok [] (collect loaded_store [1%Z]).
Definition toy_pds : list (option PayloadData) := get_ok [] (work_all (fun tx => tx) toy_txs).

Lemma report_order_irrelevant_witness :
  exists rs rs', GenerateFromBlockStore Z.quot (fun _ => 0%Z) (fun tx => tx) reverse 1 loaded_store = Ok rs /\
    GenerateFromBlockStore Z.quot (fun _ => 0%Z) (fun tx => tx) id 1 loaded_store = Ok rs' /\
    rs_errorCount rs = rs_errorCount rs' /\ (forall r, r ∈ rs_l rs -> exists r', r' ∈ rs_l rs' /\ report_eqv r r').
Proof.
  destruct (report_order_irrelevant Z.quot (fun _ => 0%Z) (fun tx => tx) reverse 1 loaded_store toy_txs toy_pds) as (rs & rs' & E1 & E2 & E3 & E4 & _).
  - vm_compute. reflexivity.
  - vm_compute. reflexivity.
  - intros d1 d2 H1 H2 _. unfold toy_pds in H1, H2. vm_compute in H1, H2.
    repeat (apply elem_of_cons in H1 as [H1|H1]; [|]); try (apply elem_of_nil in H1; done); simplify_eq;
    repeat (apply elem_of_cons in H2 as [H2|H2]; [|]); try (apply elem_of_nil in H2; done); simplify_eq; split_and!; reflexivity.
  - apply reverse_Permutation.
  - exists rs, rs'. split_and!; [exact E1|exact E2|exact E3|exact E4].
Defined.

(** Three transactions: one is no payload, the two others have latencies of -5 and -9; the
    maximum starts at 0. *)
Example toy_report :
  match GenerateFromBlockStore Z.quot (fun _ => 0%Z) (fun tx => tx) id 1 loaded_store with
  | Ok rs => Some (rs_errorCount rs, (fun r => (rp_Max r, rp_Min r, rp_Avg r)) <$> rs_l rs)
  | _ => None
  end = Some (1%Z, [(0, -9, -7)%Z]).
Proof. vm_compute. reflexivity. Qed.
