(* ===== verification/CelestiaMock.v ===== *)
(** * CelestiaMock: the server that stands for a Celestia node

    Models da/celestia/mock: the shares of a message (messages.go) and the handlers of the
    server over the mock client of data availability (server.go).  The JSON encoding of
    requests and answers is the parameter [PFBJson]; an answer is the value it encodes. *)
From stdpp Require Import base gmap strings vector sorting numbers list.
From S2P Require Import Prelude Strconv KVStore Types Serialization Concrete WireSpec Store StoreSpec Conv Executor Gossip Layers Manager ManagerLoops ConcreteNode DA DASpec.

(** ** Shares *)

Definition shareSize : nat := 256.
Definition namespaceSize : nat := 8.
Definition msgShareSize : nat := shareSize - namespaceSize.

Record NamespacedShare := { ns_Share : bytes; ns_ID : bytes }.

Definition zeroPadIfNecessary (share : bytes) (width : nat) : bytes :=
  if decide (length share < width) then share ++ replicate (width - length share) Byte.x00 else share.

(** [binary.MaxVarintLen64] bytes hold every length. *)
Definition marshalDelimited (data : bytes) : bytes := PutUvarint 10 (u64 (Z.of_nat (length data))) ++ data.

(** [for len(rawData) > 0]: [None] when the fuel runs out. *)
Fixpoint split_loop (fuel : nat) (rawData nid : bytes) : option (list NamespacedShare) :=
  if decide (0 < length rawData) then
    match fuel with
    | O => None
    | S fuel =>
        let n := min msgShareSize (length rawData) in
        let share := {| ns_Share := zeroPadIfNecessary (nid ++ take n rawData) shareSize; ns_ID := nid |} in
        cons share <$> split_loop fuel (drop n rawData) nid
    end
  else Some [].

(** Slicing past the end of the data panics. *)
Definition splitMessage (rawData nid : bytes) : result (list NamespacedShare) :=
  if decide (length rawData < msgShareSize) then Panic "slice bounds out of range"
  else
    let first := {| ns_Share := nid ++ take msgShareSize rawData; ns_ID := nid |} in
    match split_loop (length rawData) (drop msgShareSize rawData) nid with
    | Some shares => Ok (first :: shares)
    | None => Panic "out of fuel"
    end.

Definition appendToShares (shares : list NamespacedShare) (nid rawData : bytes) : result (list NamespacedShare) :=
  if decide (length rawData <= msgShareSize) then
    Ok (shares ++ [{| ns_Share := zeroPadIfNecessary (nid ++ rawData) shareSize; ns_ID := nid |}])
  else try! more := splitMessage rawData nid in Ok (shares ++ more).

(** What the shares hold, read as Celestia's clients do: the namespace of each one cut off. *)
Definition share_contents (shares : list NamespacedShare) : bytes := shares ≫= fun s => drop namespaceSize (ns_Share s).

(** A share of a namespace, of the right size. *)
Definition share_ok (nid : bytes) (s : NamespacedShare) : Prop :=
  length (ns_Share s) = shareSize /\ ns_ID s = nid /\ nid `prefix_of` ns_Share s.

Section Shares.
Context (nid : bytes) (Hnid : length nid = namespaceSize).

Lemma pad_share data :
  length data <= msgShareSize ->
  share_ok nid {| ns_Share := zeroPadIfNecessary (nid ++ data) shareSize; ns_ID := nid |} /\
  drop namespaceSize (zeroPadIfNecessary (nid ++ data) shareSize) = data ++ replicate (msgShareSize - length data) Byte.x00.
Proof.
  unfold msgShareSize, shareSize, namespaceSize in *. intros Hd. unfold zeroPadIfNecessary. rewrite length_app, Hnid.
  case_decide as Hl.
  - split; [split_and!; cbn; [rewrite !length_app, length_replicate, Hnid; unfold shareSize; lia|done|rewrite <- app_assoc; by eexists]|].
    rewrite <- app_assoc, <- Hnid, drop_app_length, Hnid. done.
  - assert (length data = 248) as -> by lia.
    split; [split_and!; cbn; [rewrite length_app, Hnid; unfold shareSize; lia|done|by eexists]|].
    rewrite <- Hnid at 1. rewrite drop_app_length. cbn. by rewrite app_nil_r.
Qed.

Lemma split_loop_ok fuel rawData :
  length rawData <= fuel ->
  exists shares k, split_loop fuel rawData nid = Some shares /\ Forall (share_ok nid) shares /\
    share_contents shares = rawData ++ replicate k Byte.x00 /\ k < msgShareSize.
Proof.
  revert rawData. induction fuel as [|fuel IH]; intros rawData Hf; cbn [split_loop]; case_decide as Hl.
  - lia.
  - exists [], 0. destruct rawData; [|cbn in *; lia]. split_and!; [done|constructor|done|unfold msgShareSize, shareSize, namespaceSize; lia].
  - set (n := min msgShareSize (length rawData)). assert (Hm : msgShareSize = 248) by done.
    destruct (IH (drop n rawData)) as (shares & k & -> & Hs & Hc & Hk); [rewrite length_drop; lia|].
    destruct (pad_share (take n rawData)) as [Hok Hd]; [rewrite length_take; lia|]. cbn [fmap option_fmap option_map].
    destruct (decide (msgShareSize <= length rawData)) as [Hge|Hlt].
    + eexists _, k. split_and!; [done|by constructor| |done]. cbn [share_contents mbind list_bind ns_Share]. fold (share_contents shares). rewrite Hd, Hc.
      rewrite length_take, app_assoc. replace (msgShareSize - _) with 0 by lia. rewrite app_nil_r. by rewrite (take_drop n rawData).
    + assert (n = length rawData) as En by lia. rewrite En, drop_all in *. eexists _, (msgShareSize - length rawData).
      assert (shares = []) as ->. { destruct shares as [|s shares]; [done|]. exfalso. apply Forall_cons in Hs as [(Hsz & _) _].
        cbn in Hc. apply (f_equal length) in Hc. rewrite length_app, length_drop, Hsz, length_replicate in Hc. unfold msgShareSize, shareSize, namespaceSize in *. lia. }
      split_and!; [done|by constructor| |lia]. cbn [share_contents mbind list_bind ns_Share]. rewrite Hd, app_nil_r, firstn_all. done.
  - exists [], 0. destruct rawData; [|cbn in *; lia]. split_and!; [done|constructor|done|unfold msgShareSize, shareSize, namespaceSize; lia].
Qed.

(** The shares of a message are of one size and hold the message and zeros behind it, fewer
    than fill a share (unless the message is empty). *)
Lemma appendToShares_ok shares rawData :
  exists more k, appendToShares shares nid rawData = Ok (shares ++ more) /\ Forall (share_ok nid) more /\
    share_contents more = rawData ++ replicate k Byte.x00 /\ k <= msgShareSize.
Proof.
  unfold appendToShares. case_decide as Hl.
  - destruct (pad_share rawData Hl) as [Hok Hd]. eexists [_], (msgShareSize - length rawData). split_and!; [done|by constructor| |lia].
    cbn [share_contents mbind list_bind ns_Share]. by rewrite Hd, app_nil_r.
  - unfold splitMessage. rewrite decide_False by lia.
    destruct (split_loop_ok (length rawData) (drop msgShareSize rawData)) as (more & k & -> & Hs & Hc & Hk); [rewrite length_drop; lia|].
    destruct (pad_share (take msgShareSize rawData)) as [Hok Hd]; [rewrite length_take; lia|].
    assert (Hp : zeroPadIfNecessary (nid ++ take msgShareSize rawData) shareSize = nid ++ take msgShareSize rawData).
    { unfold zeroPadIfNecessary. rewrite decide_False; [done|]. rewrite length_app, length_take. unfold msgShareSize, shareSize, namespaceSize in *. lia. }
    rewrite Hp in Hok, Hd. cbn [result_bind]. eexists _, k. split_and!; [done|by constructor| |lia].
    cbn [share_contents mbind list_bind ns_Share]. fold (share_contents more). rewrite Hd, Hc, app_assoc. f_equal.
    rewrite length_take. replace (msgShareSize - _) with 0 by lia. rewrite app_nil_r. apply take_drop.
Qed.
End Shares.

(** ** The server *)

Inductive Answer :=
| AnsError (msg : string)                                  (* status 500 *)
| AnsTx (height code : Z) (rawLog : string)
| AnsShares (shares : list bytes) (height : Z)
| AnsData (data : list bytes) (height : Z).

Class PFBJson {T : Tendermint} := {
  pj_request : bytes -> result bytes;                      (* the field Data of a SubmitPFBRequest *)
  pj_batch : Batch -> result bytes;                        (* json.Marshal of a batch *)
}.

(** The routes of [getHandler]; the namespace of a path is not looked at. *)
Inductive Request := ReqSubmit (body : bytes) | ReqShares (height : chars) | ReqData (height : chars).

Section Server.
Context {T : Tendermint} {W : Wire} {K : KVStore} {J : PFBJson} (sha1 : bytes -> bytes).

(** [writeError] and return. *)
Definition or_error {A} (r : result A) (k : A -> M MockDA Answer) : M MockDA Answer :=
  match r with Ok a => k a | Err e => ret (AnsError (error_text e)) | Panic msg => panic msg end.

Definition submit (body : bytes) : M MockDA Answer :=
  or_error (pj_request body) (fun text =>
  or_error (hex_DecodeString text) (fun batchData =>
  or_error (Batch_UnmarshalBinary batchData) (fun batch =>
  let! res := SubmitBatch_mock sha1 batch in
  let code := if decide (dr_Code res = StatusSuccess) then 0%Z else 3%Z in
  ret (AnsTx (i64 (dr_DAHeight res)) code (dr_Message res))))).

Definition nid : bytes := [Byte.x01; Byte.x02; Byte.x03; Byte.x04; Byte.x05; Byte.x06; Byte.x07; Byte.x08].

(** The loop over the batches: an error ends it. *)
Fixpoint share_loop (batches : list (option Batch)) (nShares : list NamespacedShare) : result (list NamespacedShare) :=
  match batches with
  | [] => Ok nShares
  | batch :: batches =>
      try! batch := deref batch in
      try! blob := pj_batch batch in
      try! nShares := appendToShares nShares nid (marshalDelimited blob) in
      share_loop batches nShares
  end.

Fixpoint data_loop (batches : list (option Batch)) : result (list bytes) :=
  match batches with
  | [] => Ok []
  | batch :: batches =>
      try! batch := deref batch in
      try! blob := Batch_MarshalBinary batch in
      try! rest := data_loop batches in
      Ok (blob :: rest)
  end.

(** [parseHeight], [RetrieveBatches] and what both handlers do with its result. *)
Definition with_batches (height : chars) (k : Z -> list (option Batch) -> M MockDA Answer) : M MockDA Answer :=
  or_error (ParseUint height) (fun height =>
  let! res := RetrieveBatches_mock height in
  if decide (dr_Code (drr_Base res) = StatusSuccess) then k (dr_DAHeight (drr_Base res)) (drr_Batches res)
  else ret (AnsError (dr_Message (drr_Base res)))).

Definition shares (height : chars) : M MockDA Answer :=
  with_batches height (fun h batches => or_error (share_loop batches []) (fun s => ret (AnsShares (ns_Share <$> s) h))).

Definition data (height : chars) : M MockDA Answer :=
  with_batches height (fun h batches => or_error (data_loop batches) (fun d => ret (AnsData d h))).

Definition handle (r : Request) : M MockDA Answer :=
  match r with ReqSubmit body => submit body | ReqShares h => shares h | ReqData h => data h end.
End Server.

Section ServerSpec.
Context {T : Tendermint} {W : Wire} `{!WireLaws W} {K : KVStore} `{!KVLaws K} `{!KVReliable K} `{!KVIterLaws K} {J : PFBJson} (sha1 : bytes -> bytes).

(** The mock server keeps what it is sent: after a request that submits the hexadecimal
    text of a batch, whose answer names a height, and once the layer has moved on, the data of
    that height are exactly the bytes of the batch, and its shares, all of one size and of the
    server's namespace, hold the JSON text of the batch behind its length, then zeros. *)
Theorem celestia_mock_roundtrip (m : MockDA) body batch blob js r :
  let h := md_daHeight m in
  let hash := sha1 (uint64ToBinary (bt_EndHeight batch)) in
  pj_request body = Ok (hex_EncodeToString blob) -> Batch_MarshalBinary batch = Ok blob -> pj_batch batch = Ok js ->
  Forall (fun blk => data_Evidence (blk_Data blk) = []) (bt_Blocks batch) ->
  (forall k, is_Some (kv_view (md_dalcKV m) !! k) -> ~ uint64ToBinary h `prefix_of` k) ->
  ~ uint64ToBinary h `prefix_of` hash -> is_u64 h -> is_u64 (h + (r mod 10 + 1)) ->
  exists m1 m2 s k, handle sha1 (ReqSubmit body) m = (Ok (AnsTx (i64 h) 0 "OK"), m1) /\
    updateDAHeight r m1 = (Ok tt, m2) /\
    handle sha1 (ReqData (FormatUint h)) m2 = (Ok (AnsData [blob] 0), m2) /\
    handle sha1 (ReqShares (FormatUint h)) m2 = (Ok (AnsShares (ns_Share <$> s) 0), m2) /\
    Forall (share_ok nid) s /\ share_contents s = marshalDelimited js ++ replicate k Byte.x00 /\ k <= msgShareSize.
Proof.
  intros h hash Hreq Hb Hjs Hev Hfree Hhash Hh Hn.
  destruct (mock_da_roundtrip sha1 m batch blob r Hb Hev Hfree Hhash Hh Hn) as (m1 & m2 & Hs & _ & Hu & Hr).
  destruct (appendToShares_ok nid eq_refl [] (marshalDelimited js)) as (more & k & Ha & Hok & Hc & Hk).
  exists m1, m2, more, k. split_and!; [|done| | |done..].
  - cbn [handle]. unfold submit, or_error. rewrite Hreq, hex_roundtrip, (batch_marshal_roundtrip _ _ Hev Hb). by rewrite (bind_ok _ _ _ _ _ Hs).
  - cbn [handle]. unfold data, with_batches, or_error. rewrite ParseUint_FormatUint by done. rewrite (bind_ok _ _ _ _ _ Hr).
    cbn [drr_Base dr_Code drr_Batches dr_DAHeight]. rewrite decide_True by done. cbn [data_loop deref result_bind]. by rewrite Hb.
  - cbn [handle]. unfold shares, with_batches, or_error. rewrite ParseUint_FormatUint by done. rewrite (bind_ok _ _ _ _ _ Hr).
    cbn [drr_Base dr_Code drr_Batches dr_DAHeight]. rewrite decide_True by done. cbn [share_loop deref result_bind]. rewrite Hjs. cbn [result_bind]. by rewrite Ha.
Qed.
End ServerSpec.

(** ** A concrete server *)

Import ToyInstances.

#[local] Instance toy_json : PFBJson := {| pj_request b := Ok b; pj_batch _ := Ok (replicate 300 Byte.x7b) |}.

Lemma celestia_mock_roundtrip_witness :
  exists m1 m2, handle toy_sha1 (ReqSubmit (hex_EncodeToString (enc (Batch_ToProto toy_batch)))) toy_mock = (Ok (AnsTx 1 0 "OK"), m1) /\
    handle toy_sha1 (ReqData (FormatUint 1)) m2 = (Ok (AnsData [enc (Batch_ToProto toy_batch)] 0), m2).
Proof.
  destruct (celestia_mock_roundtrip toy_sha1 toy_mock (hex_EncodeToString (enc (Batch_ToProto toy_batch))) toy_batch
    (enc (Batch_ToProto toy_batch)) (replicate 300 Byte.x7b) 7) as (m1 & m2 & s & k & H1 & _ & H2 & _).
  - reflexivity.
  - reflexivity.
  - reflexivity.
  - repeat constructor.
  - intros k [v Hk]. discriminate Hk.
  - intros [l Hl]. discriminate Hl.
  - done.
  - done.
  - exists m1, m2. split; [exact H1|exact H2].
Defined.
