(* ===== verification/Commands.v ===== *)
(** * Commands: the command line, its flags and the files of a node

    Models the reading of the configuration (config/flags.go, config/toml.go and
    [GetViperConfig] of config/config.go) and the commands of cmd/dymint/commands: [init],
    [start] with the check of the genesis file, and the ones that show keys.  Viper is
    modelled by its precedence - a flag given, then the environment, then the file, then the
    default of the flag; the parsing of the file, the template, the keys and the hash are
    parameters. *)
From stdpp Require Import base gmap strings vector sorting numbers list.
From S2P Require Import Prelude Strconv KVStore Types Serialization Concrete Store StoreSpec Conv Executor Gossip Layers Manager ManagerLoops ConcreteNode Settlement Dymension HubEvents Url P2P NodeStart.

(** ** Flags *)

Inductive CfgValue := VBool (b : bool) | VString (s : string) | VDuration (d : Z) | VUint (n : Z).
#[global] Instance CfgValue_eq_dec : EqDecision CfgValue.
Proof. solve_decision. Defined.

Record Flag := { fl_default : CfgValue; fl_given : option CfgValue }.
Abbreviation FlagSet := (gmap string Flag).

Definition flagAggregator : string := "dymint.aggregator".
Definition flagDALayer : string := "dymint.da_layer".
Definition flagDAConfig : string := "dymint.da_config".
Definition flagBlockTime : string := "dymint.block_time".
Definition flagEmptyBlocksMaxTime : string := "dymint.empty_blocks_max_time".
Definition flagBatchSubmitMaxTime : string := "dymint.batch_submit_max_time".
Definition flagNamespaceID : string := "dymint.namespace_id".
Definition flagBlockBatchSize : string := "dymint.block_batch_size".
Definition flagBlockBatchMaxSizeBytes : string := "dymint.block_batch_max_size_bytes".
Definition flagSettlementLayer : string := "dymint.settlement_layer".
Definition flagSLNodeAddress : string := "dymint.settlement_config.node_address".
Definition flagSLKeyringBackend : string := "dymint.settlement_config.keyring_backend".
Definition flagSLKeyringHomeDir : string := "dymint.settlement_config.keyring_home_dir".
Definition flagSLDymAccountName : string := "dymint.settlement_config.dym_account_name".
Definition flagSLGasLimit : string := "dymint.settlement_config.gas_limit".
Definition flagSLGasPrices : string := "dymint.settlement_config.gas_prices".
Definition flagSLGasFees : string := "dymint.settlement_config.gas_fees".
Definition flagRollappID : string := "dymint.settlement_config.rollapp_id".

(** The flags that [AddNodeFlags] defines on top of Tendermint's, with the defaults of
    [def], all but the first one. *)
Definition node_flags (def : Config) : list (string * CfgValue) :=
  let bm := cf_BlockManagerConfig def in
  let sl := cf_SettlementConfig def in
  [(flagAggregator, VBool false);
   (flagDALayer, VString (cf_DALayer def));
   (flagDAConfig, VString (cf_DAConfig def));
   (flagBlockTime, VDuration (bc_BlockTime bm));
   (flagEmptyBlocksMaxTime, VDuration (bc_EmptyBlocksMaxTime bm));
   (flagBatchSubmitMaxTime, VDuration (bc_BatchSubmitMaxTime bm));
   (flagNamespaceID, VString (bc_NamespaceID bm));
   (flagBlockBatchSize, VUint (bc_BlockBatchSize bm));
   (flagBlockBatchMaxSizeBytes, VUint (bc_BlockBatchMaxSizeBytes bm));
   (flagSettlementLayer, VString (cf_SettlementLayer def));
   (flagSLNodeAddress, VString (sc_NodeAddress sl));
   (flagSLKeyringBackend, VString (sc_KeyringBackend sl));
   (flagSLKeyringHomeDir, VString (sc_KeyringHomeDir sl));
   (flagSLDymAccountName, VString (sc_DymAccountName sl));
   (flagSLGasFees, VString (sc_GasFees sl));
   (flagSLGasPrices, VString (sc_GasPrices sl));
   (flagSLGasLimit, VUint (sc_GasLimit sl));
   (flagRollappID, VString (sc_RollappID sl))].

Definition add_flag (fs : FlagSet) (f : string * CfgValue) : FlagSet := <[f.1 := {| fl_default := f.2; fl_given := None |}]> fs.
Definition AddNodeFlags (def : Config) (tmFlags : FlagSet) : FlagSet := foldl add_flag tmFlags (node_flags def).

(** The bindings of [BindDymintFlags], in its order. *)
Definition bindings : list (string * string) :=
  [("aggregator", flagAggregator);
   ("da_layer", flagDALayer);
   ("da_config", flagDAConfig);
   ("block_time", flagBlockTime);
   ("empty_blocks_max_time", flagEmptyBlocksMaxTime);
   ("batch_submit_max_time", flagBatchSubmitMaxTime);
   ("namespace_id", flagNamespaceID);
   ("block_batch_size", flagBlockBatchSize);
   ("block_batch_max_size_bytes", flagBlockBatchMaxSizeBytes);
   ("settlement_layer", flagSettlementLayer);
   ("node_address", flagSLNodeAddress);
   ("keyring_backend", flagSLKeyringBackend);
   ("keyring_home_dir", flagSLKeyringHomeDir);
   ("dym_account_name", flagSLDymAccountName);
   ("gas_fees", flagSLGasFees);
   ("gas_prices", flagSLGasPrices);
   ("gas_limit", flagSLGasLimit);
   ("rollapp_id", flagRollappID)].

(** ** Viper *)

(** The flags bound to keys, the variables of the environment by the keys they are for, and the
    file by its keys, those of a table with the name of the table and a dot. *)
Record Viper := { vp_pflags : gmap string Flag; vp_env : gmap string CfgValue; vp_config : gmap string CfgValue }.

(** [BindPFlag]: a flag that was not found is an error. *)
Definition BindPFlag (key : string) (flag : option Flag) : M Viper unit :=
  match flag with
  | None => fail (New ("flag for " ++ key ++ " is nil"))
  | Some f => modify (fun v => {| vp_pflags := <[key := f]> (vp_pflags v); vp_env := vp_env v; vp_config := vp_config v |})
  end.

Definition BindDymintFlags (flags : FlagSet) : M Viper unit := for_each (fun b => BindPFlag b.1 (flags !! b.2)) bindings.

(** The value of a key. *)
Definition viper_get (v : Viper) (key : string) : option CfgValue :=
  match vp_pflags v !! key with
  | Some f => Some (match fl_given f, vp_env v !! key, vp_config v !! key with
                    | Some x, _, _ | None, Some x, _ | None, None, Some x => x
                    | None, None, None => fl_default f
                    end)
  | None => match vp_env v !! key with Some x => Some x | None => vp_config v !! key end
  end.

(** ** Files *)

(** The files of the machine and its directories. *)
Record Files := { fs_files : gmap string bytes; fs_dirs : gset string }.
Definition write_file (path : string) (b : bytes) (f : Files) : Files := {| fs_files := <[path := b]> (fs_files f); fs_dirs := fs_dirs f |}.
Definition FileExists (path : string) (f : Files) : bool := bool_decide (is_Some (fs_files f !! path)).

Definition DefaultConfigDirName : string := "config".
Definition DefaultConfigFileName : string := "dymint.toml".

Section Config.
(** [filepath.Join]; whether a directory can be made; the template; the TOML parser, and the
    conversions of mapstructure. *)
Context (Join : string -> string -> string) (can_make : string -> bool) (render : Config -> bytes)
  (parse_toml : bytes -> result (gmap string CfgValue)).

Definition EnsureDir (dir : string) : M Files unit := fun f =>
  if bool_decide (dir ∈ fs_dirs f) then (Ok tt, f)
  else if can_make dir then (Ok tt, {| fs_files := fs_files f; fs_dirs := {[dir]} ∪ fs_dirs f |})
  else (Err (New "could not create directory"), f).

(** [if err := ...; err != nil { panic(err.Error()) }]. *)
Definition must {S} (c : M S unit) : M S unit := let! r := try c in match r with inl _ => panic "could not create directory" | inr _ => ret tt end.

Definition WriteConfigFile (configFilePath : string) (config : Config) : M Files unit := modify (write_file configFilePath (render config)).

Definition EnsureRoot (rootDir : string) (defaultConfig : option Config) : M Files unit :=
  do! must (EnsureDir rootDir) in
  do! must (EnsureDir (Join rootDir DefaultConfigDirName)) in
  match defaultConfig with
  | None => ret tt
  | Some defaultConfig =>
      let configFilePath := Join (Join rootDir DefaultConfigDirName) DefaultConfigFileName in
      let! found := gets (FileExists configFilePath) in
      if found : bool then ret tt else WriteConfigFile configFilePath defaultConfig
  end.

(** [ReadInConfig]: the file dymint.toml, in the root directory or in its directory config. *)
Definition ReadInConfig (homeDir : string) (f : Files) : result (gmap string CfgValue) :=
  match fs_files f !! Join homeDir DefaultConfigFileName with
  | Some b => parse_toml b
  | None =>
      match fs_files f !! Join (Join homeDir DefaultConfigDirName) DefaultConfigFileName with
      | Some b => parse_toml b
      | None => Err (New "Config File dymint Not Found")
      end
  end.

Definition as_string (v : option CfgValue) (old : string) : result string :=
  match v with None => Ok old | Some (VString s) => Ok s | Some _ => Err (New "expected type 'string'") end.
Definition as_bool (v : option CfgValue) (old : bool) : result bool :=
  match v with None => Ok old | Some (VBool b) => Ok b | Some _ => Err (New "expected type 'bool'") end.
Definition as_uint (v : option CfgValue) (old : Z) : result Z :=
  match v with None => Ok old | Some (VUint n) => Ok n | Some _ => Err (New "expected type 'uint64'") end.
Definition as_duration (v : option CfgValue) (old : Z) : result Z :=
  match v with None => Ok old | Some (VDuration d) => Ok d | Some _ => Err (New "expected type 'time.Duration'") end.

(** The table of the instrumentation, if there is one. *)
Definition as_instrumentation (v : Viper) (old : option (bool * string)) : result (option (bool * string)) :=
  match viper_get v "instrumentation.prometheus", viper_get v "instrumentation.prometheus_listen_addr" with
  | None, None => Ok old
  | p, a =>
      let '(prometheus, addr) := default (false, ""%string) old in
      try! prometheus := as_bool p prometheus in
      try! addr := as_string a addr in
      Ok (Some (prometheus, addr))
  end.

(** [viper.Unmarshal(&nc)]: the fields by the names of their tags, or by their own in small
    letters; those translated from Tendermint's configuration, which [GetNodeConfig] sets
    afterwards, are left as they are. *)
Definition Unmarshal (v : Viper) (nc : Config) : result Config :=
  let bm := cf_BlockManagerConfig nc in
  let sl := cf_SettlementConfig nc in
  try! aggregator := as_bool (viper_get v "aggregator") (cf_Aggregator nc) in
  try! block_time := as_duration (viper_get v "block_time") (bc_BlockTime bm) in
  try! empty_blocks_max_time := as_duration (viper_get v "empty_blocks_max_time") (bc_EmptyBlocksMaxTime bm) in
  try! batch_submit_max_time := as_duration (viper_get v "batch_submit_max_time") (bc_BatchSubmitMaxTime bm) in
  try! namespace_id := as_string (viper_get v "namespace_id") (bc_NamespaceID bm) in
  try! block_batch_size := as_uint (viper_get v "block_batch_size") (bc_BlockBatchSize bm) in
  try! block_batch_max_size_bytes := as_uint (viper_get v "block_batch_max_size_bytes") (bc_BlockBatchMaxSizeBytes bm) in
  try! da_layer := as_string (viper_get v "da_layer") (cf_DALayer nc) in
  try! da_config := as_string (viper_get v "da_config") (cf_DAConfig nc) in
  try! settlement_layer := as_string (viper_get v "settlement_layer") (cf_SettlementLayer nc) in
  try! keyring_backend := as_string (viper_get v "keyring_backend") (sc_KeyringBackend sl) in
  try! node_address := as_string (viper_get v "node_address") (sc_NodeAddress sl) in
  try! keyring_home_dir := as_string (viper_get v "keyring_home_dir") (sc_KeyringHomeDir sl) in
  try! dym_account_name := as_string (viper_get v "dym_account_name") (sc_DymAccountName sl) in
  try! rollapp_id := as_string (viper_get v "rollapp_id") (sc_RollappID sl) in
  try! gas_limit := as_uint (viper_get v "gas_limit") (sc_GasLimit sl) in
  try! gas_prices := as_string (viper_get v "gas_prices") (sc_GasPrices sl) in
  try! gas_fees := as_string (viper_get v "gas_fees") (sc_GasFees sl) in
  try! proposerpubkey := as_string (viper_get v "proposerpubkey") (sc_ProposerPubKey sl) in
  try! instrumentation := as_instrumentation v (cf_Instrumentation nc) in
  Ok {| cf_base := cf_base nc; cf_Aggregator := aggregator;
        cf_BlockManagerConfig := {| bc_BlockTime := block_time; bc_EmptyBlocksMaxTime := empty_blocks_max_time;
          bc_BatchSubmitMaxTime := batch_submit_max_time; bc_NamespaceID := namespace_id; bc_BlockBatchSize := block_batch_size;
          bc_BlockBatchMaxSizeBytes := block_batch_max_size_bytes |};
        cf_DALayer := da_layer; cf_DAConfig := da_config; cf_SettlementLayer := settlement_layer;
        cf_SettlementConfig := {| sc_KeyringBackend := keyring_backend; sc_NodeAddress := node_address; sc_KeyringHomeDir := keyring_home_dir;
          sc_DymAccountName := dym_account_name; sc_RollappID := rollapp_id; sc_GasLimit := gas_limit; sc_GasPrices := gas_prices;
          sc_GasFees := gas_fees; sc_ProposerPubKey := proposerpubkey |};
        cf_Instrumentation := instrumentation |}.

(** [GetViperConfig] on the configuration [nc]; [v] is the process's instance of viper, whose
    file it replaces. *)
Definition GetViperConfig (v : Viper) (flags : FlagSet) (homeDir : string) (nc : Config) : M Files Config :=
  do! EnsureRoot homeDir None in
  let! v := lift (match BindDymintFlags flags v with (Ok _, v) => Ok v | (Err e, _) => Err e | (Panic m, _) => Panic m end) in
  let! config := read (ReadInConfig homeDir) in
  let! nc := lift (Unmarshal {| vp_pflags := vp_pflags v; vp_env := vp_env v; vp_config := config |} nc) in
  do! lift (NodeConfig_Validate nc) in
  ret nc.

(** [ParseConfig] (cmd/dymint/commands/root.go), on Tendermint's configuration: what its
    packages do with it is a parameter.  [env_home] is the variable DYMINTHOME and [flag_home]
    the flag home. *)
Definition ParseConfig {tmconfig} (tm_Unmarshal : Viper -> result tmconfig) (tm_SetRoot : string -> tmconfig -> tmconfig)
    (tm_EnsureRoot : string -> M Files unit) (tm_ValidateBasic : tmconfig -> result unit)
    (v : Viper) (env_home : string) (flag_home : result string) : M Files tmconfig :=
  let! conf := lift (tm_Unmarshal v) in
  let! home := if negb (bool_decide (env_home = "")) then ret env_home else lift flag_home in
  let conf := tm_SetRoot home conf in
  do! tm_EnsureRoot home in
  do! wrap "error in config file" (lift (tm_ValidateBasic conf)) in
  do! EnsureRoot home (Some (DefaultConfig Join home "")) in
  ret conf.
End Config.

(** ** What the configuration is read from *)

(** Every key is bound to one flag, every flag that is bound is defined, and none other. *)
Lemma bindings_cover def : (bindings.*2 ≡ₚ (node_flags def).*1) /\ NoDup bindings.*1 /\ NoDup bindings.*2.
Proof.
  split; [|split; vm_compute; repeat constructor; set_solver].
  cbn [bindings node_flags fmap list_fmap fst snd]. by repeat constructor.
Qed.

Lemma add_flag_lookup fs f name :
  add_flag fs f !! name = if decide (name = f.1) then Some {| fl_default := f.2; fl_given := None |} else fs !! name.
Proof. unfold add_flag. case_decide as E; [rewrite E; apply lookup_insert_eq|by rewrite lookup_insert_ne]. Qed.

Lemma AddNodeFlags_lookup def tmFlags name d :
  (name, d) ∈ node_flags def -> AddNodeFlags def tmFlags !! name = Some {| fl_default := d; fl_given := None |}.
Proof.
  assert (Hnd : NoDup (node_flags def).*1) by (rewrite <- (proj1 (bindings_cover def)); apply (bindings_cover def)).
  unfold AddNodeFlags. revert tmFlags. induction (node_flags def) as [|[n x] l IH] using rev_ind; intros tmFlags Hin; [by apply elem_of_nil in Hin|].
  rewrite foldl_snoc, add_flag_lookup. cbn [fst snd]. rewrite fmap_app in Hnd. apply NoDup_app in Hnd as (Hnd & Hd & _).
  apply elem_of_app in Hin as [Hin|[= -> ->]%list_elem_of_singleton]; [|by rewrite decide_True].
  rewrite decide_False; [by apply IH|]. intros ->. apply (Hd n); [by apply (list_elem_of_fmap_2 fst) in Hin|by left].
Qed.

(** Binding the flags of a command that defines them all. *)
Lemma bind_flags_ok (flags : FlagSet) l v :
  (forall b, b ∈ l -> is_Some (flags !! b.2)) -> NoDup l.*1 ->
  exists v', for_each (fun b => BindPFlag b.1 (flags !! b.2)) l v = (Ok tt, v') /\ vp_env v' = vp_env v /\
    (forall key flag, (key, flag) ∈ l -> vp_pflags v' !! key = flags !! flag) /\
    (forall key, key ∉ l.*1 -> vp_pflags v' !! key = vp_pflags v !! key).
Proof.
  revert v. induction l as [|[key flag] l IH]; intros v Hf Hnd; cbn [for_each].
  - exists v. split_and!; [done..| |done]. intros ? ? []%elem_of_nil.
  - csimpl in Hnd. apply NoDup_cons in Hnd as [Hk Hnd]. destruct (Hf (key, flag) ltac:(by left)) as [f Ef]. cbn in Ef.
    destruct (IH {| vp_pflags := <[key := f]> (vp_pflags v); vp_env := vp_env v; vp_config := vp_config v |}) as (v' & E & Hc & H1 & H2); [|done|].
    { intros b Hb. apply Hf. by right. }
    exists v'. rewrite (bind_ok _ _ v tt {| vp_pflags := <[key := f]> (vp_pflags v); vp_env := vp_env v; vp_config := vp_config v |}) by (cbn; by rewrite Ef).
    split_and!; [done|done| |].
    + intros k g [[= -> ->]|Hin]%elem_of_cons; [|by apply H1]. rewrite H2 by done. cbn. by rewrite lookup_insert_eq.
    + intros k Hn. csimpl in Hn. apply not_elem_of_cons in Hn as [Hne Hn]. rewrite H2 by done. cbn. by rewrite lookup_insert_ne.
Qed.

(** The fields of a configuration by the names of their tags. *)
Definition cfg_fields (c : Config) : list (string * CfgValue) :=
  let bm := cf_BlockManagerConfig c in
  let sl := cf_SettlementConfig c in
  [("aggregator", VBool (cf_Aggregator c)); ("block_time", VDuration (bc_BlockTime bm));
   ("empty_blocks_max_time", VDuration (bc_EmptyBlocksMaxTime bm)); ("batch_submit_max_time", VDuration (bc_BatchSubmitMaxTime bm));
   ("namespace_id", VString (bc_NamespaceID bm)); ("block_batch_size", VUint (bc_BlockBatchSize bm));
   ("block_batch_max_size_bytes", VUint (bc_BlockBatchMaxSizeBytes bm)); ("da_layer", VString (cf_DALayer c));
   ("da_config", VString (cf_DAConfig c)); ("settlement_layer", VString (cf_SettlementLayer c));
   ("keyring_backend", VString (sc_KeyringBackend sl)); ("node_address", VString (sc_NodeAddress sl));
   ("keyring_home_dir", VString (sc_KeyringHomeDir sl)); ("dym_account_name", VString (sc_DymAccountName sl));
   ("rollapp_id", VString (sc_RollappID sl)); ("gas_limit", VUint (sc_GasLimit sl)); ("gas_prices", VString (sc_GasPrices sl));
   ("gas_fees", VString (sc_GasFees sl))].

Lemma as_string_ok x old s : as_string (Some x) old = Ok s -> x = VString s.
Proof. by destruct x; intros [= ->]. Qed.
Lemma as_bool_ok x old b : as_bool (Some x) old = Ok b -> x = VBool b.
Proof. by destruct x; intros [= ->]. Qed.
Lemma as_uint_ok x old n : as_uint (Some x) old = Ok n -> x = VUint n.
Proof. by destruct x; intros [= ->]. Qed.
Lemma as_duration_ok x old d : as_duration (Some x) old = Ok d -> x = VDuration d.
Proof. by destruct x; intros [= ->]. Qed.

(** One field after the other: its key is bound, and its value is what viper has for it. *)
Ltac next_field Hin Hget :=
  apply elem_of_cons in Hin as [[= -> ->]|Hin];
  [match goal with
   | H : _ (viper_get _ ?k) _ = Ok _ |- exists flag d, (?k, flag) ∈ bindings /\ _ =>
       let flag := fresh "flag" in let Hb := fresh in let d := fresh "d" in let Hd := fresh in let E := fresh in
       assert (exists flag, (k, flag) ∈ bindings) as [flag Hb] by (eexists; unfold bindings; repeat first [left | right]);
       destruct (Hget k flag Hb) as (d & Hd & E); rewrite E in H;
       first [apply as_string_ok in H|apply as_bool_ok in H|apply as_uint_ok in H|apply as_duration_ok in H];
       exists flag, d; split_and!; [exact Hb|exact Hd|by rewrite H]
   end|].

Section ConfigSpec.
Context (Join : string -> string -> string) (can_make : string -> bool) (render : Config -> bytes)
  (parse_toml : bytes -> result (gmap string CfgValue)).

(** What a key is set to: the flag given, then the environment, then the file, then the default. *)
Definition effective (given : string -> option CfgValue) (env file : gmap string CfgValue) (d : CfgValue) (key flag : string) : CfgValue :=
  match given flag with Some x => x | None => default (default d (file !! key)) (env !! key) end.

Lemma unmarshal_fields v nc nc' (val : string -> string -> CfgValue -> CfgValue) (def : Config) :
  Unmarshal v nc = Ok nc' ->
  (forall key flag, (key, flag) ∈ bindings -> exists d, (flag, d) ∈ node_flags def /\ viper_get v key = Some (val key flag d)) ->
  forall key x, (key, x) ∈ cfg_fields nc' -> exists flag d, (key, flag) ∈ bindings /\ (flag, d) ∈ node_flags def /\ x = val key flag d.
Proof.
  intros Hu Hget key x Hin. unfold Unmarshal in Hu. do 20 go_inv Hu. simplify_eq. unfold cfg_fields in Hin. cbn in Hin.
  do 18 next_field Hin Hget. by apply elem_of_nil in Hin.
Qed.

Lemma EnsureDir_files dir f r f' : EnsureDir can_make dir f = (r, f') -> fs_files f' = fs_files f.
Proof. unfold EnsureDir. repeat case_match; by intros [= <- <-]. Qed.

Lemma EnsureRoot_files dir f f' : EnsureRoot Join can_make render dir None f = (Ok tt, f') -> fs_files f' = fs_files f.
Proof.
  unfold EnsureRoot, must, bind, try. destruct (EnsureDir can_make dir f) as [[[]|e|m] f1] eqn:E1; [|done..].
  destruct (EnsureDir can_make (Join dir DefaultConfigDirName) f1) as [[[]|e|m] f2] eqn:E2; unfold ret, panic; rewrite E2; [|done..]. intros [= <-].
  apply EnsureDir_files in E1, E2. congruence.
Qed.

End ConfigSpec.

(** ** A configuration *)

Section ConfigRun.
Let Join (a b : string) : string := a ++ "/" ++ b.
Let def : Config := DefaultConfig Join "" "".
Let file : gmap string CfgValue := list_to_map [("block_time", VDuration 1000); ("da_layer", VString "celestia"); ("rollapp_id", VString "dym_1-1")].
Let given (flag : string) : option CfgValue := if String.eqb flag flagDALayer then Some (VString "avail") else None.
Let flag_of (p : string * CfgValue) : string * Flag := (p.1, {| fl_default := p.2; fl_given := given p.1 |}).
Let flags : FlagSet := list_to_map (flag_of <$> node_flags def).

Definition toy_files : Files := {| fs_files := {["home/config/dymint.toml" := []]}; fs_dirs := {["home"; "home/config"]} |}.
Definition toy_viper : Viper := {| vp_pflags := ∅; vp_env := {["rollapp_id" := VString "dym_2-1"]}; vp_config := ∅ |}.
Definition toy_read : result Config * Files := GetViperConfig Join (fun _ => false) (fun _ => []) (fun _ => Ok file) toy_viper flags "home" def toy_files.


(** With DYMINTHOME set the file is made in one directory, and the start command, which goes by
    the flag, reads another. *)
Definition toy_parse : result unit * Files :=
  ParseConfig Join (fun _ => true) (fun _ => []) (fun _ => Ok tt) (fun _ c => c) (fun _ => ret tt) (fun _ => Ok tt)
    toy_viper "/env" (Ok "home"%string) {| fs_files := ∅; fs_dirs := ∅ |}.

Example home_directories_differ :
  fst toy_parse = Ok tt /\ is_Some (fs_files (snd toy_parse) !! "/env/config/dymint.toml"%string) /\
  fst (GetViperConfig Join (fun _ => true) (fun _ => []) (fun _ => Ok file) toy_viper flags "home" def (snd toy_parse))
  = Err (New "Config File dymint Not Found").
Proof. split; [reflexivity|]. split; [by eexists|]. reflexivity. Qed.
End ConfigRun.
