(* ===== verification/NodeCommands.v ===== *)
(** * NodeCommands: init, start and the commands that show keys

    Models cmd/dymint/commands: [init] (init.go), [start] (start.go), [show-node-id] and
    [show-sequencer].  The keys, the genesis document and their files are Tendermint's: a class
    of what they do, with the laws the commands rely on.  The node that [start] runs is the one
    of NodeStart.v, and the RPC server the one of RPCServer.v. *)
From stdpp Require Import base gmap strings vector sorting numbers list.
From S2P Require Import Prelude Strconv Node HealthSpec JSONRPC RPCServer RPCServerRuns P2P P2PRuns KVStore Types Serialization Concrete Store StoreSpec Conv Executor Gossip Layers Manager ManagerLoops ConcreteNode Settlement Dymension HubEvents Url NodeStart Commands.

(** ** The files of Tendermint's configuration *)

Record TmFiles := {
  tf_Genesis : string;                        (* config.Genesis *)
  tf_PrivValidatorKeyFile : string;
  tf_PrivValidatorStateFile : string;
  tf_NodeKeyFile : string;
  tf_GenesisFile : string;
}.

(** A private key by its type and bytes; a node key may hold none. *)
Definition TmPrivKey : Type := string * bytes.
Definition TmNodeKey : Type := option TmPrivKey.

(** privval, p2p and types of Tendermint.  [kf_LoadFilePV] ends the process, a panic here, when
    a file is missing or bad. *)
Class KeyFiles := {
  PV : Type;                                                    (* privval.FilePV *)
  kf_key_json : PV -> bytes;
  kf_state_json : PV -> bytes;
  kf_LoadFilePV : bytes -> option bytes -> result PV;
  kf_node_key_json : TmNodeKey -> bytes;
  kf_parse_node_key : bytes -> result TmNodeKey;
  kf_priv : PV -> TmPrivKey;
  kf_GetPubKey : PV -> result bytes;
  kf_pubkey_json : bytes -> result bytes;
  kf_parse_genesis : bytes -> result GenesisDoc;
  kf_sha256 : bytes -> bytes;
  kf_can_write : string -> bool;
}.

(** What a run takes from the random source and the clock: the keys it may generate, and the
    genesis document for a validator. *)
Record Fresh `{KeyFiles} := { fr_pv : PV; fr_node_key : TmPrivKey; fr_genesis : bytes -> bytes }.

Class KeyLaws (KF : KeyFiles) := {
  kf_load_saved pv : kf_LoadFilePV (kf_key_json pv) (Some (kf_state_json pv)) = Ok pv;
  kf_load_no_state key : exists msg, kf_LoadFilePV key None = Panic msg;
  (** The file of a validator's key has the field of a node key. *)
  kf_parse_pv pv : kf_parse_node_key (kf_key_json pv) = Ok (Some (kf_priv pv));
}.

Section Init.
Context {KF : KeyFiles}.

Definition write (path : string) (b : bytes) (e : error) : M Files unit :=
  if kf_can_write path then modify (write_file path b) else fail e.

Definition LoadNodeKey (path : string) : M Files TmNodeKey :=
  let! b := read (fun f => match fs_files f !! path with Some b => Ok b | None => Err (New "no such file") end) in
  lift (kf_parse_node_key b).

(** [p2p.LoadOrGenNodeKey]. *)
Definition LoadOrGenNodeKey (fresh : TmPrivKey) (path : string) : M Files TmNodeKey :=
  let! found := gets (FileExists path) in
  if found : bool then LoadNodeKey path
  else
    do! write path (kf_node_key_json (Some fresh)) (New "could not write the node key") in
    ret (Some fresh).

(** [pv.Save()]: it panics when a file cannot be written. *)
Definition must_write (path : string) (b : bytes) : M Files unit :=
  if kf_can_write path then modify (write_file path b) else panic "could not save the private validator".
Definition save_pv (c : TmFiles) (pv : PV) : M Files unit :=
  do! must_write (tf_PrivValidatorKeyFile c) (kf_key_json pv) in
  must_write (tf_PrivValidatorStateFile c) (kf_state_json pv).

(** The private validator, loaded or generated. *)
Definition init_pv (fresh : Fresh) (c : TmFiles) : M Files PV :=
  let! found := gets (FileExists (tf_PrivValidatorKeyFile c)) in
  if found : bool then
    read (fun f => match fs_files f !! tf_PrivValidatorKeyFile c with
                   | Some key => kf_LoadFilePV key (fs_files f !! tf_PrivValidatorStateFile c)
                   | None => Panic "no such file"
                   end)
  else do! save_pv c (fr_pv fresh) in ret (fr_pv fresh).

Definition init_node_key (fresh : Fresh) (c : TmFiles) : M Files unit :=
  let! found := gets (FileExists (tf_NodeKeyFile c)) in
  if found : bool then ret tt else do! LoadOrGenNodeKey (fr_node_key fresh) (tf_NodeKeyFile c) in ret tt.

Definition init_genesis (fresh : Fresh) (c : TmFiles) (pv : PV) : M Files unit :=
  let! found := gets (FileExists (tf_GenesisFile c)) in
  if found : bool then ret tt
  else
    let! pubKey := wrap "can't get pubkey" (lift (kf_GetPubKey pv)) in
    write (tf_GenesisFile c) (fr_genesis fresh pubKey) (New "could not write the genesis file").

Definition InitFilesWithConfig (fresh : Fresh) (c : TmFiles) : M Files unit :=
  let! pv := init_pv fresh c in
  do! init_node_key fresh c in
  init_genesis fresh c pv.

(** ** Showing keys (show_node_id.go, show_sequencer.go) *)

(** What is printed; [host_id] is the identifier of a libp2p host with the key. *)
Definition showNodeID {privKey} (unmarshal : bytes -> result privKey) (host_id : privKey -> result bytes) (c : TmFiles) : M Files bytes :=
  let! nodeKey := LoadNodeKey (tf_NodeKeyFile c) in
  let! signingKey := lift (GetNodeKey unmarshal (Some nodeKey)) in
  lift (host_id signingKey).

Definition showSequencer (c : TmFiles) : M Files bytes :=
  let keyFilePath := tf_PrivValidatorKeyFile c in
  let! key := read (fun f => match fs_files f !! keyFilePath with
                             | Some key => Ok key
                             | None => Err (New ("sequencer file " ++ keyFilePath ++ " does not exist"))
                             end) in
  let! pv := read (fun f => kf_LoadFilePV key (fs_files f !! tf_PrivValidatorStateFile c)) in
  let! pubKey := wrap "can't get pubkey" (lift (kf_GetPubKey pv)) in
  wrap "failed to marshal sequencer pubkey" (lift (kf_pubkey_json pubKey)).

(** ** The genesis hash (start.go) *)

(** The variable that the check compares with; nothing assigns it. *)
Definition genesisHash : bytes := [].

Definition checkGenesisHash (genesisHash : bytes) (c : TmFiles) : M Files unit :=
  if bool_decide (genesisHash = []) || bool_decide (tf_Genesis c = "") then ret tt
  else
    let! b := read (fun f => match fs_files f !! tf_GenesisFile c with
                             | Some b => Ok b
                             | None => Err (Wrap "can't open genesis file" (New "no such file"))
                             end) in
    if bool_decide (genesisHash = kf_sha256 b) then ret tt
    else fail (New ("--genesis_hash does not match the hash of " ++ tf_GenesisFile c)).
End Init.

(** ** dymint start *)

(** The goroutines of the RPC server. *)
Inductive RpcPart := RpcHealthHandler | RpcListener.

Record Process := { ps_files : Files; ps_running : Running; ps_rpc : list RpcPart }.
Definition on_files {A} (c : M Files A) : M Process A :=
  zoom ps_files (fun f p => {| ps_files := f; ps_running := ps_running p; ps_rpc := ps_rpc p |}) c.
Definition on_node {A} (c : M Running A) : M Process A :=
  zoom ps_running (fun l p => {| ps_files := ps_files p; ps_running := l; ps_rpc := ps_rpc p |}) c.
Definition rpc_part (x : RpcPart) : M Process unit :=
  modify (fun p => {| ps_files := ps_files p; ps_running := ps_running p; ps_rpc := ps_rpc p ++ [x] |}).

Section Start.
Context {KF : KeyFiles} {MA : Multiaddr} {RC : RpcClient} {CD : RpcCodec} {EJ : EventJSON}.
Context {T : Tendermint} {W : Wire} (K0 : KVStore).
#[local] Instance startKV : KVStore := mainKV K0.
Context {TV : TmValidators} {A : App} {MP : MempoolI}
  {EB : EventBus} {G : GossipWire} {DA : DALayer} {SL : SettlementLayer} {P : P2PClient} {PK : ProposerKey}.

(** The node for a pair of keys: what the libraries do may depend on them. *)
Context {privKey : Type} (unmarshal : bytes -> result privKey) (deps : privKey -> privKey -> NodeDeps K0)
  (net_Listen : bytes -> bytes -> result unit) (cors : option HandlerFunc).

(** [rpc.NewServer(dymintNode, tmConfig.RPC, logger).Start()]: [OnStart] launches the handler of
    health events, and then listens. *)
Definition start_server (conf : option RPCConfig) (healthStatus : nat) (reg : list Middleware) : M Process unit :=
  do! rpc_part RpcHealthHandler in
  let! conf := lift (deref conf) in
  let! (handler, _) := lift (startRPC (rpc_ListenAddress conf) net_Listen cors healthStatus reg) in
  match handler with None => ret tt | Some _ => rpc_part RpcListener end.

Definition with_base (base : NodeConfig) (conf : Config) : Config :=
  {| cf_base := base; cf_Aggregator := cf_Aggregator conf; cf_BlockManagerConfig := cf_BlockManagerConfig conf;
     cf_DALayer := cf_DALayer conf; cf_DAConfig := cf_DAConfig conf; cf_SettlementLayer := cf_SettlementLayer conf;
     cf_SettlementConfig := cf_SettlementConfig conf; cf_Instrumentation := cf_Instrumentation conf |}.

(** Until [select {}]: the keys the node runs with, and the node. *)
Definition startInProcess (fresh : Fresh) (c : TmFiles) (config : Config) (tmConfig : TmConfig) : M Process (privKey * privKey * NodeObject K0) :=
  let! nodeKey := wrap ("failed to load or gen node key " ++ tf_NodeKeyFile c)
                       (on_files (LoadOrGenNodeKey (fr_node_key fresh) (tf_NodeKeyFile c))) in
  let! privValKey := on_files (LoadOrGenNodeKey (kf_priv (fr_pv fresh)) (tf_PrivValidatorKeyFile c)) in
  let! p2pKey := lift (GetNodeKey unmarshal (Some nodeKey)) in
  let! signingKey := lift (GetNodeKey unmarshal (Some privValKey)) in
  let! genesis := on_files (read (fun f => match fs_files f !! tf_GenesisFile c with
                                           | Some b => kf_parse_genesis b
                                           | None => Err (New "couldn't read GenesisDoc file")
                                           end)) in
  let! base := lift (match GetNodeConfig (Some tmConfig) (cf_base config) with
                     | (Ok _, base) => Ok base | (Err e, _) => Err e | (Panic m, _) => Panic m
                     end) in
  let! node := on_node (NewNode (ND := deps p2pKey signingKey) K0 (with_base base config) genesis) in
  do! start_server (tc_RPC tmConfig) 0 [] in
  do! on_node (OnStart (ND := deps p2pKey signingKey) K0 node) in
  ret (p2pKey, signingKey, node).

(** [RunE] of the command. *)
Definition run_node (fresh : Fresh) (c : TmFiles) (config : Config) (tmConfig : TmConfig) : M Process (privKey * privKey * NodeObject K0) :=
  do! on_files (checkGenesisHash genesisHash c) in
  startInProcess fresh c config tmConfig.
End Start.

(** ** What init keeps *)

(** The files of [m] are there, as they were. *)
Definition holds (m : gmap string bytes) (f : Files) : Prop := m ⊆ fs_files f.

Section InitSpec.
Context {KF : KeyFiles} {KL : KeyLaws KF}.

Lemma FileExists_true p f : FileExists p f = true <-> is_Some (fs_files f !! p).
Proof. apply bool_decide_eq_true. Qed.
Lemma FileExists_false p f : FileExists p f = false <-> fs_files f !! p = None.
Proof. unfold FileExists. rewrite bool_decide_eq_false. symmetry. apply eq_None_not_Some. Qed.

Lemma holds_write m p b f : m !! p = None -> holds m f -> holds m (write_file p b f).
Proof. intros Hp Hf. by apply insert_subseteq_r. Qed.

Lemma preserves_write m p b e : m !! p = None -> preserves (holds m) (write p b e).
Proof. intros Hp f Hf. unfold write. case_match; [by apply holds_write|done]. Qed.
Lemma preserves_must_write m p b : m !! p = None -> preserves (holds m) (must_write p b).
Proof. intros Hp f Hf. unfold must_write. case_match; [by apply holds_write|done]. Qed.

(** Code that runs when a file is missing. *)
Lemma preserves_if_missing {A} m p (c1 c2 : M Files A) :
  preserves (holds m) c1 -> (m !! p = None -> preserves (holds m) c2) ->
  preserves (holds m) (let! found := gets (FileExists p) in if found : bool then c1 else c2).
Proof.
  intros H1 H2 f Hf. cbn. destruct (FileExists p f) eqn:E; [by apply H1|].
  apply FileExists_false in E. apply H2; [by apply (lookup_weaken_None _ _ _ E)|done].
Qed.

Lemma LoadOrGenNodeKey_holds m fresh p : preserves (holds m) (LoadOrGenNodeKey fresh p).
Proof.
  apply preserves_if_missing; [intros f Hf; unfold LoadNodeKey, read, lift, bind; by repeat case_match; simplify_eq|].
  intros Hp. apply preserves_bind; [by apply preserves_write|]. intros _. apply preserves_ret.
Qed.

Lemma InitFiles_holds m fresh c :
  (m !! tf_PrivValidatorKeyFile c = None -> m !! tf_PrivValidatorStateFile c = None) ->
  preserves (holds m) (InitFilesWithConfig fresh c).
Proof.
  intros Hm. apply preserves_bind; [|intros pv; apply preserves_bind; [|intros _]]; apply preserves_if_missing.
  - apply preserves_read.
  - intros Hk. apply preserves_bind; [|intros _; apply preserves_ret].
    apply preserves_bind; [by apply preserves_must_write|]. intros _. apply preserves_must_write; auto.
  - apply preserves_ret.
  - intros _. apply preserves_bind; [apply LoadOrGenNodeKey_holds|]. intros _. apply preserves_ret.
  - apply preserves_ret.
  - intros Hg. apply preserves_bind; [apply preserves_wrap, preserves_lift|]. intros pk. by apply preserves_write.
Qed.

(** The files of a node are four different ones. *)
Definition distinct_files (c : TmFiles) : Prop :=
  NoDup [tf_PrivValidatorKeyFile c; tf_PrivValidatorStateFile c; tf_NodeKeyFile c; tf_GenesisFile c].

(** The machine is ready: a validator's key that loads, a node key and a genesis file. *)
Record ready (c : TmFiles) (pv : PV) (f : Files) : Prop := {
  rd_pv : exists key, fs_files f !! tf_PrivValidatorKeyFile c = Some key /\ kf_LoadFilePV key (fs_files f !! tf_PrivValidatorStateFile c) = Ok pv;
  rd_node_key : is_Some (fs_files f !! tf_NodeKeyFile c);
  rd_genesis : is_Some (fs_files f !! tf_GenesisFile c);
}.

Lemma init_ready c pv f fresh : ready c pv f -> InitFilesWithConfig fresh c f = (Ok tt, f).
Proof.
  intros [(key & Hk & Hl) Hn Hg]. unfold InitFilesWithConfig, init_pv, init_node_key, init_genesis, bind, gets, read.
  rewrite (proj2 (FileExists_true _ _)) by (by eexists). rewrite Hk, Hl.
  rewrite (proj2 (FileExists_true _ _)) by done. cbn. by rewrite (proj2 (FileExists_true _ _)).
Qed.

Lemma init_pv_ok fresh c f pv f' :
  tf_PrivValidatorKeyFile c <> tf_PrivValidatorStateFile c -> init_pv fresh c f = (Ok pv, f') ->
  exists key, fs_files f' !! tf_PrivValidatorKeyFile c = Some key /\ kf_LoadFilePV key (fs_files f' !! tf_PrivValidatorStateFile c) = Ok pv /\
    (fs_files f !! tf_PrivValidatorKeyFile c = None -> pv = fr_pv fresh /\ key = kf_key_json pv).
Proof.
  intros Hne. unfold init_pv, save_pv, must_write, bind, gets, read. destruct (FileExists _ f) eqn:E.
  - apply FileExists_true in E as [key Hk]. rewrite Hk. intros [= Hl <-]. exists key. by rewrite Hk.
  - apply FileExists_false in E. destruct (kf_can_write (tf_PrivValidatorKeyFile c)); cbn; [|done]. destruct (kf_can_write (tf_PrivValidatorStateFile c)); cbn; [|done]. intros [= <- <-]. exists (kf_key_json (fr_pv fresh)). cbn.
    rewrite lookup_insert_ne, lookup_insert_eq, lookup_insert_eq by done. split_and!; [done|apply kf_load_saved|done].
Qed.

Lemma init_node_key_ok fresh c f f' :
  init_node_key fresh c f = (Ok tt, f') ->
  is_Some (fs_files f' !! tf_NodeKeyFile c) /\ forall p, p <> tf_NodeKeyFile c -> fs_files f' !! p = fs_files f !! p.
Proof.
  unfold init_node_key, LoadOrGenNodeKey, write, bind, gets. destruct (FileExists _ f) eqn:E.
  - intros [= <-]. by apply FileExists_true in E.
  - rewrite E. destruct (kf_can_write (tf_NodeKeyFile c)); cbn; [|done]. intros [= <-]. cbn. rewrite lookup_insert_eq. split; [by eexists|]. intros p Hp. by rewrite lookup_insert_ne.
Qed.

Lemma init_genesis_ok fresh c pv f f' :
  init_genesis fresh c pv f = (Ok tt, f') ->
  is_Some (fs_files f' !! tf_GenesisFile c) /\ forall p, p <> tf_GenesisFile c -> fs_files f' !! p = fs_files f !! p.
Proof.
  unfold init_genesis, write, wrap, lift, bind, gets. destruct (FileExists _ f) eqn:E.
  - intros [= <-]. by apply FileExists_true in E.
  - destruct (kf_GetPubKey pv) as [pk|e|m]; [|done..]. case_match; [|done]. intros [= <-]. cbn. rewrite lookup_insert_eq.
    split; [by eexists|]. intros p Hp. by rewrite lookup_insert_ne.
Qed.

(** What init leaves when it succeeds. *)
Lemma init_makes_ready fresh c f f' :
  distinct_files c -> InitFilesWithConfig fresh c f = (Ok tt, f') ->
  exists pv, ready c pv f' /\
    (fs_files f !! tf_PrivValidatorKeyFile c = None -> fs_files f' !! tf_PrivValidatorKeyFile c = Some (kf_key_json (fr_pv fresh))).
Proof.
  unfold distinct_files. rewrite !NoDup_cons, !not_elem_of_cons. intros ((D1 & D2 & D3 & _) & (D4 & D5 & _) & (D6 & _) & _) H.
  unfold InitFilesWithConfig in H. go_inv H. go_inv H. destruct r0.
  apply init_pv_ok in Hrun as (key & Hk & Hl & Hnew); [|done]. apply init_node_key_ok in Hrun0 as [Hn Hsame]. apply init_genesis_ok in H as [Hg Hsame'].
  exists r. split; [split|].
  - exists key. by rewrite !Hsame', !Hsame by done.
  - by rewrite Hsame' by done.
  - done.
  - intros Hnone. destruct (Hnew Hnone) as [-> ->]. by rewrite Hsame', Hsame by done.
Qed.

(** Whatever happens, init changes no file that exists - the one exception is the state of a
    validator whose key file is missing, which is written anew with the key - and when it
    succeeds a second run, whatever keys it would generate, succeeds and leaves every file as it
    is. *)
Theorem init_idempotent fresh c f r f' :
  distinct_files c -> InitFilesWithConfig fresh c f = (r, f') ->
  (if FileExists (tf_PrivValidatorKeyFile c) f then fs_files f else delete (tf_PrivValidatorStateFile c) (fs_files f)) ⊆ fs_files f' /\
  (r = Ok tt -> forall fresh', InitFilesWithConfig fresh' c f' = (Ok tt, f')).
Proof.
  intros Hd H. split.
  - set (m := if FileExists _ _ then _ else _). pose proof (InitFiles_holds m fresh c) as Hp. unfold preserves in Hp. specialize (Hp) with (s := f).
    rewrite H in Hp. apply Hp; subst m; destruct (FileExists _ f) eqn:E.
    + apply FileExists_true in E as [k Hk]. congruence.
    + intros _. apply lookup_delete_eq.
    + unfold holds. done.
    + apply delete_subseteq.
  - intros -> fresh'. destruct (init_makes_ready fresh c f f' Hd H) as (pv & Hr & _). by eapply init_ready.
Qed.
End InitSpec.

(** ** What start does with the files *)

Section StartSpec.
Context {KF : KeyFiles} {KL : KeyLaws KF} {MA : Multiaddr} {RC : RpcClient} {CD : RpcCodec} {EJ : EventJSON}.
Context {T : Tendermint} {W : Wire} (K0 : KVStore).
#[local] Existing Instance startKV.
Context {TV : TmValidators} {A : App} {MP : MempoolI}
  {EB : EventBus} {G : GossipWire} {DA : DALayer} {SL : SettlementLayer} {P : P2PClient} {PK : ProposerKey}.
Context {privKey : Type} (unmarshal : bytes -> result privKey) (deps : privKey -> privKey -> NodeDeps K0)
  (net_Listen : bytes -> bytes -> result unit) (cors : option HandlerFunc).

Lemma on_files_keeps {B} (c : M Files B) f : snd (c f) = f -> preserves (fun p => ps_files p = f) (on_files c).
Proof. intros H. apply preserves_zoom. by intros p t <- ->. Qed.
Lemma on_node_keeps {B} (c : M Running B) f : preserves (fun p => ps_files p = f) (on_node c).
Proof. apply preserves_zoom. by intros p t <- _. Qed.

Lemma LoadOrGen_exists fresh path b f :
  fs_files f !! path = Some b -> LoadOrGenNodeKey fresh path f = (kf_parse_node_key b, f).
Proof.
  intros Hb. unfold LoadOrGenNodeKey, LoadNodeKey, bind, gets, read, lift.
  rewrite (proj2 (FileExists_true _ _)) by (by eexists). rewrite Hb. by destruct (kf_parse_node_key b).
Qed.

Lemma LoadOrGen_missing fresh path f :
  fs_files f !! path = None -> kf_can_write path = true ->
  LoadOrGenNodeKey fresh path f = (Ok (Some fresh), write_file path (kf_node_key_json (Some fresh)) f).
Proof. intros Hb Hw. unfold LoadOrGenNodeKey, write, bind, gets. by rewrite (proj2 (FileExists_false _ _) Hb), Hw. Qed.

(** With its keys in place the command writes no file. *)
Lemma start_reads_only fresh c config tm nk vk f :
  fs_files f !! tf_NodeKeyFile c = Some nk -> fs_files f !! tf_PrivValidatorKeyFile c = Some vk ->
  preserves (fun p => ps_files p = f) (startInProcess K0 unmarshal deps net_Listen cors fresh c config tm).
Proof.
  intros Hn Hv. unfold startInProcess.
  apply preserves_bind; [apply preserves_wrap, on_files_keeps; by rewrite (LoadOrGen_exists _ _ nk)|intros nodeKey].
  apply preserves_bind; [apply on_files_keeps; by rewrite (LoadOrGen_exists _ _ vk)|intros privValKey].
  do 2 (apply preserves_bind; [apply preserves_lift|intros ?]).
  apply preserves_bind; [by apply on_files_keeps|intros genesis]. apply preserves_bind; [apply preserves_lift|intros base].
  apply preserves_bind; [apply on_node_keeps|intros node].
  apply preserves_bind; [|intros _; apply preserves_bind; [apply on_node_keeps|intros _; apply preserves_ret]].
  apply preserves_bind; [by apply preserves_modify|intros _]. apply preserves_bind; [apply preserves_lift|intros conf].
  apply preserves_bind; [apply preserves_lift|]. intros [[h|] reg]; [by apply preserves_modify|apply preserves_ret].
Qed.


(** C38: a start before init fails, since there is no genesis file - but only after it has written
    a key where the validator's key belongs, without the state that goes with it; init then finds
    the key, ends the process for want of the state, and writes nothing: no init works on that
    machine any more. *)
Theorem start_before_init fresh c config tm p r p' :
  distinct_files c ->
  Forall (fun path => fs_files (ps_files p) !! path = None)
    [tf_PrivValidatorKeyFile c; tf_PrivValidatorStateFile c; tf_NodeKeyFile c; tf_GenesisFile c] ->
  kf_can_write (tf_NodeKeyFile c) = true -> kf_can_write (tf_PrivValidatorKeyFile c) = true ->
  run_node K0 unmarshal deps net_Listen cors fresh c config tm p = (r, p') ->
  (forall x, r <> Ok x) /\ ps_running p' = ps_running p /\ ps_rpc p' = ps_rpc p /\
  forall fresh', exists msg, InitFilesWithConfig fresh' c (ps_files p') = (Panic msg, ps_files p').
Proof.
  unfold distinct_files. rewrite !NoDup_cons, !not_elem_of_cons, !Forall_cons. intros ((D1 & D2 & D3 & _) & (D4 & D5 & _) & (D6 & _) & _).
  intros (Hk & Hs & Hn & Hg & _) Wn Wk Hr.
  assert (Hrun : startInProcess K0 unmarshal deps net_Listen cors fresh c config tm p = (r, p')) by (by destruct p).
  unfold startInProcess, on_files, bind, wrap, zoom, lift, read in Hrun. rewrite (LoadOrGen_missing _ _ _ Hn Wn) in Hrun. cbn [ps_files] in Hrun.
  rewrite LoadOrGen_missing in Hrun by (cbn; by rewrite ?lookup_insert_ne). cbn [ps_files ps_running ps_rpc] in Hrun.
  assert (Hg' : forall b b', fs_files (write_file (tf_PrivValidatorKeyFile c) b' (write_file (tf_NodeKeyFile c) b (ps_files p))) !! tf_GenesisFile c = None)
    by (intros b b'; cbn; by rewrite !lookup_insert_ne).
  rewrite Hg' in Hrun.
  assert (Hp' : (forall x, r <> Ok x) /\ ps_running p' = ps_running p /\ ps_rpc p' = ps_rpc p /\
    exists b b', ps_files p' = write_file (tf_PrivValidatorKeyFile c) b' (write_file (tf_NodeKeyFile c) b (ps_files p))).
  { repeat case_match; simplify_eq/=; (split_and!; [done|done|done|by do 2 eexists]). }
  destruct Hp' as (? & ? & ? & b & b' & Ef). split_and!; [done..|]. intros fresh'. rewrite Ef.
  destruct (kf_load_no_state b') as [msg Hm]. exists msg. unfold InitFilesWithConfig, init_pv, bind, gets, read.
  rewrite (proj2 (FileExists_true _ _)) by (cbn; rewrite lookup_insert_eq; by eexists).
  cbn. rewrite lookup_insert_eq, !lookup_insert_ne, Hs, Hm by done. done.
Qed.
End StartSpec.

(** ** A machine *)

Section CommandRun.
Import ToyInstances.
#[local] Existing Instance toy_deps.
#[local] Existing Instance RPCServerRuns.toy_client.
#[local] Existing Instance RPCServerRuns.toy_codec.
#[local] Existing Instance text_maddr.
#[local] Instance run_events : EventJSON := RPCServerRuns.toy_events.

(** A validator is the bytes of its key, and so is every file of a key; the state is empty. *)
#[local] Instance toy_keys : KeyFiles := {|
  PV := bytes;
  kf_key_json pv := pv;
  kf_state_json _ := [];
  kf_LoadFilePV key state := match state with Some _ => Ok key | None => Panic "exit" end;
  kf_node_key_json k := match k with Some (_, b) => b | None => [] end;
  kf_parse_node_key b := Ok (Some ("ed25519"%string, b));
  kf_priv pv := ("ed25519"%string, pv);
  kf_GetPubKey pv := Ok pv;
  kf_pubkey_json b := Ok b;
  kf_parse_genesis _ := Ok toy_genesis;
  kf_sha256 b := b;
  kf_can_write _ := true;
|}.
#[local] Instance toy_key_laws : KeyLaws toy_keys.
Proof. split; [done| |done]. intros key. by eexists. Qed.

Definition toy_tm_files : TmFiles := {|
  tf_Genesis := "genesis.json"; tf_PrivValidatorKeyFile := "key"; tf_PrivValidatorStateFile := "state"; tf_NodeKeyFile := "node";
  tf_GenesisFile := "genesis" |}.
Definition toy_fresh (k : bytes) : Fresh := {| fr_pv := k; fr_node_key := ("ed25519"%string, k); fr_genesis pub := pub |}.
Definition no_files : Files := {| fs_files := ∅; fs_dirs := ∅ |}.
Definition toy_tm_config : TmConfig := {|
  tc_RootDir := []; tc_DBPath := []; tc_P2P := Some {| p2p_ListenAddress := lit "tcp://0.0.0.0:26656"; p2p_Seeds := [] |};
  tc_RPC := Some {| rpc_ListenAddress := lit "tcp://:26657"; rpc_CORSAllowedOrigins := []; rpc_CORSAllowedMethods := [];
                    rpc_CORSAllowedHeaders := []; rpc_MaxOpenConnections := 0; rpc_TLSCertFile := []; rpc_TLSKeyFile := [] |} |}.
Definition toy_run (k : bytes) (p : Process) :=
  run_node (KF := toy_keys) MemKV (fun b : bytes => Ok b) (fun _ _ => toy_deps) (fun _ _ => Ok tt) None (toy_fresh k) toy_tm_files toy_config toy_tm_config p.
Definition toy_init (k : bytes) (f : Files) : result unit * Files := InitFilesWithConfig (toy_fresh k) toy_tm_files f.

Lemma toy_distinct : distinct_files toy_tm_files.
Proof. refine (bool_decide_unpack _ _). vm_compute. exact I. Qed.

Lemma init_idempotent_witness : exists f, toy_init [Byte.x05] no_files = (Ok tt, f) /\ toy_init [Byte.x06] f = (Ok tt, f) /\ fs_files f !! "key"%string = Some [Byte.x05].
Proof.
  eexists. split; [reflexivity|]. split; [|reflexivity].
  exact (proj2 (init_idempotent (toy_fresh [Byte.x05]) toy_tm_files no_files (Ok tt) _ toy_distinct eq_refl) eq_refl (toy_fresh [Byte.x06])).
Defined.

(** The node signs with the first key, and everything runs. *)
Definition after_init : Process := {| ps_files := snd (toy_init [Byte.x05] no_files); ps_running := []; ps_rpc := [] |}.

Example start_after_init_runs :
  match toy_run [Byte.x06] after_init with
  | (Ok (_, key, _), p) => Some (key, length (ps_running p), ps_rpc p)
  | _ => None
  end = Some ([Byte.x05], 16, [RpcHealthHandler; RpcListener]).
Proof. vm_compute. reflexivity. Qed.


Definition empty_machine : Process := {| ps_files := no_files; ps_running := []; ps_rpc := [] |}.
Lemma start_before_init_witness :
  exists msg, toy_init [Byte.x07] (ps_files (snd (toy_run [Byte.x06] empty_machine))) = (Panic msg, ps_files (snd (toy_run [Byte.x06] empty_machine))).
Proof.
  refine (proj2 (proj2 (proj2 (start_before_init (KF := toy_keys) MemKV (fun b : bytes => Ok b) (fun _ _ => toy_deps) (fun _ _ => Ok tt) None
    (toy_fresh [Byte.x06]) toy_tm_files toy_config toy_tm_config empty_machine (fst (toy_run [Byte.x06] empty_machine)) _ toy_distinct _ _ _ _))) (toy_fresh [Byte.x07])).
  - by repeat constructor.
  - reflexivity.
  - reflexivity.
  - apply surjective_pairing.
Defined.
End CommandRun.
